(* ===== verification/_CoqProject ===== *)
-Q . S2P
Prelude.v
Fmt.v
Frames.v
FrameSource.v
AreaAlloc.v
Entry.v
Mmu.v
Table.v
PageTree.v
Mapper.v
Boot.v
StackAlloc.v
Paging.v
Tlb.v
Identity.v
MemoryInit.v
Task.v
Sched.v
Acpi.v
Apic.v
Ports.v
Serial.v
Ps2.v
Interrupts.v
AcpiInit.v
Heap.v
Stacks.v
Locks.v
Idt.v
Gdt.v
TablesInit.v
Start.v
Vga.v
Keyboard.v
Pci.v
LockUse.v
BootLocks.v
Deadlock.v
Fis.v
Int80.v
Init.v
