(* ===== verification/Prelude.v ===== *)
(** * lambdaOS: a verification development

    lambdaOS is a small x86-64 kernel in Rust.  [boot.asm] checks the processor,
    enters long mode on a first set of page tables and calls [kmain] ([src/src/lib.rs]), which runs
    [arch::init]: the serial port, the screen, the memory (frame allocator, new
    page tables, heap, ACPI, APIC), the descriptor tables and the devices.  After
    that the kernel reacts to interrupts: the timer switches processes, exceptions
    stop the machine.  The files below are translations of the Rust code, one
    definition per function, and theorems about them.

    ** The files and the code they model (paths under [src/src/])

    - [Prelude]: outcomes (a result, a panic, a fault, or fuel that ran out), machine
      integers with the overflow checks of the debug build, loops ([ofold]),
      tactics.
    - [Fmt]: what the formats of [println!] write for numbers.
    - [Frames], [FrameSource]: [arch/x86_64/memory/mod.rs] and the addresses and
      pages of [memory/paging/mod.rs]; the trait [FrameAllocator] as a class with
      the laws its clients rely on.
    - [AreaAlloc]: [memory/area_frame_allocator.rs], an instance of that class.
    - [Entry], [Table], [Mapper]: [memory/paging/entry.rs], [table.rs], [mapper.rs].
      [Mmu] is the processor's page walk; the code reaches its tables only through
      virtual addresses, so every access of [Table] goes through that walk.
      [PageTree] has the invariant of a set of tables ([mm_inv]) and what the steps
      of the mapper do to it.
    - [Boot]: the tables [boot.asm] builds.  [Start]: the rest of the start-up
      ([arch/x86_64/asm/], the multiboot header included), against a processor that
      executes its instructions.
    - [StackAlloc]: [memory/stack_allocator.rs].
    - [Paging]: [temporary_page.rs], [InactivePageTable], [ActivePageTable::with]
      and [switch].  [Identity]: runs of identity mappings.
    - [Tlb]: the flush promises of [mapper.rs], against a cache of translations.
    - [MemoryInit]: [paging::init] and [memory::init] up to [acpi::init].
    - [Task], [Sched]: [task/] and [syscall/process.rs].
    - [Acpi]: parsing the tables ([acpi/]).  [AcpiInit]: mapping them, [acpi::init]
      and the whole of [memory::init].  [Apic]: [device/apic.rs].
    - [Ports]: [device/io/cpuio.rs], [mmio.rs] and [dma.rs].  [Ps2], [Serial]: the drivers of
      the same names.  [Interrupts]: [device/pic.rs], [pit.rs],
      [interrupts/utils.rs] and the timer of [irq.rs].
    - [Heap]: [memory/heap_allocator.rs].  [Stacks]: the scheduler and the heap
      together, for the stacks of the processes.
    - [Locks], [LockUse]: the spin locks.  [Locks] is a machine on which sequences of
      lock operations, interrupts and context switches interleave, with a discipline
      that excludes waiting; [LockUse] has the sequences of the kernel's functions,
      [BootLocks] those of [arch::init].  [Deadlock]: what cannot wait for itself, where
      the kernel can hang, and exceptions under a lock.
    - [Idt]: [interrupts/exceptions.rs], [runtime_glue.rs] and the IDT.  [Gdt]: [interrupts/gdt.rs].
      [TablesInit]: [interrupts::init].
    - [Vga], [Keyboard], [Pci]: [device/vga/], [device/keyboard/], [device/pci.rs].
    - [Fis]: [device/ahci/].  [Int80]: [interrupts/syscall/x86_64.rs].
    - [Init]: [arch/x86_64/init.rs], [device/mod.rs] and [kmain]; [power_on] is the run
      from the boot loader's jump on.

    ** State and effects

    Memory management works on [mm]: physical memory as words by frame and index,
    CR3, a log of TLB flushes and the frame allocator.  The scheduler works on
    [kernel]: its tables and the registers of the processor.  Devices are reached
    through ports: the state is the log of all accesses, and what an [in] reads is
    a function of that log ([Hardware]), about which a theorem assumes what it
    needs ([mask_law], [settles], [header_law]).  What [println!] prints is output of
    the serial port in that log: the messages of the exception handlers, of a
    panic, of the timer and the keyboard, of [device::init], and the first and the
    last of [arch::init].  Code of other packages is a
    parameter with its documented behaviour as laws: the heap
    ([InnerHeap]), [bit_field] and the [x86_64] crate's TSS and selectors
    ([BitField], [X86Tables]), the multiboot structure ([BootInformation]).  Each
    class has an instance on which the witnesses run.

    ** What the theorems show

    - Start-up: from the boot loader the kernel gets to [kmain] or shows the code of
      the missing feature; then to the end of [arch::init], with all errors.
    - Frames: the allocator returns the least usable frame, each at most once, and
      terminates for single frames; what goes wrong for runs of several frames.
    - Page tables: the recursive mapping denotes the tables; [map_to], [unmap],
      [translate] and their round trip agree with the page walk, with all errors;
      an inactive table is built and filled without touching the active one; the
      flushes keep the processor's cache of translations coherent;
      [paging::init], [memory::init] and [arch::init] end in an address space that
      is described page by page, with its rights: what is not listed is not mapped.
    - Processes: creating one allocates its stack, and fails only when the heap refuses
      or no id is left; over all sequences of scheduler calls, at most one process is
      current and every process gets its registers back; the queue is round robin,
      also when driven by the timer.
    - Interrupts: critical sections mask and restore the controllers; exceptions
      report and stop; the GDT stays within its bounds, its TSS descriptor
      decodes to the TSS; the loaded tables.  What an exception handler has done is
      stated for the state in which it enters [loop {}]: anything may stand in its place.
    - Heap: blocks are disjoint and lie in pages that are mapped writable; so are the
      stacks of the processes, over all sequences of creations and exits.
    - Locks: as long as the ready list has room in its buffer, handlers never wait for a
      lock and return, under every interleaving with code that keeps the discipline, and
      [resched] has released all locks when it switches; no function waits for itself;
      up to [device::init] nothing waits; which exceptions can be reported.  The kernel
      does not keep the discipline everywhere: six kinds of code for which it stops
      for good.  An end of interrupt written to the local APIC has no effect there, as
      it has none in the code ([Apic]).
    - ACPI and APIC: the MADT parser terminates, reads only the table, collects what
      its bytes encode and inverts the encoding; the APICs are mapped but not reached.
    - Devices: the text buffer refines a terminal; serial output loses nothing; the
      PS/2 dialogue, in its order; the keys of the layouts; the list the PCI scan makes
      and what it reports; the layout of the AHCI structures.
    - Several theorems state what the code does where that is not what it means to
      do: read-only stacks, critical sections that do not nest, [kill], the
      extended scancodes, the APIC registers, a panic under the lock of the port.

    ** Failing and returning

    Theorems about an operation cover every outcome: where the code can fail they
    name the panics, or say that the failure is a panic ([is_panic]) and not a page
    fault or a loop that does not end.  That the memory manager does return is
    proved from what it needs: the page is not mapped, the tables are tidy (unused
    entries are zero, [tidy]) and the allocator has frames left ([frames_left]; three
    for a page, four when its own frame is allocated too).  Each step states what it
    costs ([costs]), so these conditions add up to [map_to_succeeds],
    [paging_init_correct] and [memory_init_correct]; the boot tables satisfy them.

    ** Bounds and fuel

    Integers are [Z] with their width written out.  [ALLOC_FUEL] bounds the recursion
    of [allocate_frame]; for one frame it is proved enough.  [madt_loop] gets fuel
    from the length of the table and is proved not to use it up.  Loops that wait
    for a device take fuel as an argument; they are proved to end when the device
    settles within that many reads.  [spin] is [loop {}]: it ends for no fuel.

    ** Not modelled

    - Stale TLB entries of the recursive slot and across [ActivePageTable::with] and
      [switch], which flush everything: the model takes all translations from the
      tables ([Tlb] shows that the mapper's operations allow it).
    - Of the rights of a page [Mmu] has writing and executing: a page is writable or
      executable when no level of the walk forbids it, with EFER.NXE on, as
      [arch::init] sets it before it builds tables.  The user, cache and global bits
      are kept in the entries but do nothing, since all code runs in ring 0.
    - Interleaving: outside [Locks] an operation runs without an interrupt inside it.
      In the sequences of [BootLocks] the frames an operation on the page tables takes
      are parameters; the [Once] inside a [lazy_static] is not a lock there.
    - The texts of the messages of [memory::init], [interrupts::init], [acpi] and
      [apic]; [BootLocks] has the places where they are printed.
    - The inner heap allocator and the other packages; the macro [format!], which
      nothing uses. *)

From Stdlib Require Export ZArith Lia Sorted.
From stdpp Require Export base list gmap strings.
From stdpp Require Import option numbers.

#[global] Open Scope Z_scope.

Declare Scope kernel_scope.
Delimit Scope kernel_scope with kernel.

(** ** Outcomes

    A kernel operation returns, panics (the [panic_fmt] language item prints
    and spins), takes a CPU page fault or general-protection fault, or, for a
    loop run on fuel, is still running when the fuel is gone. *)

Inductive error :=
  | EPanic (msg : string)
  | EFault (va : Z)
  | EProtection (selector : Z)
  | EFuel.

Inductive outcome (A : Type) :=
  | Ok (a : A)
  | Err (e : error).
Arguments Ok {A} a.
Arguments Err {A} e.

Definition obind {A B} (c : outcome A) (k : A -> outcome B) : outcome B :=
  match c with
  | Ok a => k a
  | Err e => Err e
  end.

Notation "'let?' p ':=' c 'in' k" := (obind c (fun p => k))
  (at level 10, p pattern, c at level 200, k at level 200,
   format "'[v' 'let?'  p  ':='  c  'in' '//' k ']'") : kernel_scope.
#[global] Open Scope kernel_scope.

Definition panic {A} (msg : string) : outcome A := Err (EPanic msg).

(** [assert!(b, msg)] *)
Definition assertb (b : bool) (msg : string) : outcome unit :=
  if b then Ok tt else panic msg.

(** [Option::expect], and [Option::unwrap] with its fixed message. *)
Definition expect {A} (o : option A) (msg : string) : outcome A :=
  match o with
  | Some a => Ok a
  | None => panic msg
  end.

Definition unwrap {A} (o : option A) : outcome A :=
  expect o "called `Option::unwrap()` on a `None` value".

Definition is_ok {A} (c : outcome A) : Prop := exists a, c = Ok a.

#[global] Instance error_eq_dec : EqDecision error.
Proof. solve_decision. Defined.

#[global] Instance outcome_eq_dec {A} `{EqDecision A} : EqDecision (outcome A).
Proof. solve_decision. Defined.

Lemma obind_Ok {A B} (c : outcome A) (k : A -> outcome B) b :
  obind c k = Ok b <-> exists a, c = Ok a /\ k a = Ok b.
Proof. destruct c; simpl; naive_solver. Qed.

Lemma obind_ok {A B} (a : A) (k : A -> outcome B) : obind (Ok a) k = k a.
Proof. done. Qed.

Lemma is_ok_bind {A B} {c : outcome A} {k : A -> outcome B} {a} : c = Ok a -> is_ok (k a) -> is_ok (obind c k).
Proof. by intros ->. Qed.

Lemma obind_assoc {A B C} (c : outcome A) (f : A -> outcome B) (g : B -> outcome C) :
  obind (obind c f) g = obind c (fun a => obind (f a) g).
Proof. by destruct c. Qed.

Lemma obind_if {A B} (b : bool) (c d : outcome A) (k : A -> outcome B) :
  obind (if b then c else d) k = if b then obind c k else obind d k.
Proof. by destruct b. Qed.

Lemma assertb_Ok b msg u : assertb b msg = Ok u <-> b = true.
Proof. destruct b, u; simpl; naive_solver. Qed.

Lemma expect_Ok {A} (o : option A) msg a : expect o msg = Ok a <-> o = Some a.
Proof. destruct o; simpl; naive_solver. Qed.

(** Break a successful composed run into its steps; the rest of the run keeps
    the hypothesis' name. *)
Ltac inv_ok :=
  repeat match goal with
  | H : obind _ _ = Ok _ |- _ =>
      let a := fresh "r" in let H1 := fresh "Hrun" in
      apply obind_Ok in H; destruct H as (a & H1 & H)
  | H : Ok _ = Ok _ |- _ => injection H as H
  | H : assertb _ _ = Ok _ |- _ => apply assertb_Ok in H
  | H : expect _ _ = Ok _ |- _ => apply expect_Ok in H
  | H : unwrap _ = Ok _ |- _ => apply expect_Ok in H
  | H : (_, _) = (_, _) |- _ => injection H as H
  | H : Err _ = Ok _ |- _ => discriminate H
  | H : panic _ = Ok _ |- _ => discriminate H
  | p : (_ * _)%type |- _ => destruct p
  end; simpl in *; subst.

(** Whether a run succeeds, as a boolean to compute. *)
Definition ok_bool {B} (c : outcome B) : bool := match c with Ok _ => true | Err _ => false end.

Lemma ok_bool_run {B} (c : outcome B) : ok_bool c = true -> exists b, c = Ok b.
Proof. destruct c; [eauto|done]. Qed.

(** A run that can fail only with a panic: it takes no fault and it comes to an
    end. *)
Definition is_panic (e : error) : Prop := exists msg, e = EPanic msg.

Definition panics_only {A} (c : outcome A) : Prop := forall e, c = Err e -> is_panic e.

Lemma panics_only_ok {A} (a : A) : panics_only (Ok a).
Proof. done. Qed.

Lemma panics_only_panic {A} msg : panics_only (@panic A msg).
Proof. intros e [= <-]. by eexists. Qed.

Lemma panics_only_bind {A B} (c : outcome A) (k : A -> outcome B) :
  panics_only c -> (forall a, c = Ok a -> panics_only (k a)) -> panics_only (obind c k).
Proof. intros Hc Hk e. destruct c as [a|e']; simpl; [by apply Hk|]. intros [= ->]. by apply Hc. Qed.

Lemma panics_only_assert b msg : panics_only (assertb b msg).
Proof. destruct b; [apply panics_only_ok|apply panics_only_panic]. Qed.

Lemma panics_only_expect {A} (o : option A) msg : panics_only (expect o msg).
Proof. destruct o; [apply panics_only_ok|apply panics_only_panic]. Qed.

(** ** Machine integers

    A [w]-bit unsigned integer is a [Z] in [0, 2^w).  The kernel is built with
    the debug profile ([Makefile]: [target/$(target)/debug]), so [+], [-] and
    [*] panic on overflow; [as] casts truncate; [<<] drops the bits shifted
    out. *)

Definition in_width (w x : Z) : Prop := 0 <= x < 2 ^ w.
Definition fits (w x : Z) : bool := (0 <=? x) && (x <? 2 ^ w).
Definition trunc (w x : Z) : Z := x mod 2 ^ w.

Definition add_w (w a b : Z) : outcome Z :=
  if fits w (a + b) then Ok (a + b) else panic "attempt to add with overflow".
Definition sub_w (w a b : Z) : outcome Z :=
  if fits w (a - b) then Ok (a - b) else panic "attempt to subtract with overflow".
Definition mul_w (w a b : Z) : outcome Z :=
  if fits w (a * b) then Ok (a * b) else panic "attempt to multiply with overflow".
Definition shl_w (w a n : Z) : Z := trunc w (Z.shiftl a n).
Definition not_w (w a : Z) : Z := 2 ^ w - 1 - a.

Abbreviation usize_add := (add_w 64).
Abbreviation usize_sub := (sub_w 64).
Abbreviation usize_mul := (mul_w 64).

Lemma fits_spec w x : fits w x = true <-> in_width w x.
Proof. unfold fits, in_width. rewrite andb_true_iff, Z.leb_le, Z.ltb_lt. tauto. Qed.

Lemma fits_reflect w x : reflect (in_width w x) (fits w x).
Proof. apply iff_reflect. symmetry. apply fits_spec. Qed.

Lemma add_w_Ok w a b c : add_w w a b = Ok c <-> c = a + b /\ in_width w (a + b).
Proof. unfold add_w. destruct (fits_reflect w (a + b)); naive_solver. Qed.

Lemma sub_w_Ok w a b c : sub_w w a b = Ok c <-> c = a - b /\ in_width w (a - b).
Proof. unfold sub_w. destruct (fits_reflect w (a - b)); naive_solver. Qed.

Lemma mul_w_Ok w a b c : mul_w w a b = Ok c <-> c = a * b /\ in_width w (a * b).
Proof. unfold mul_w. destruct (fits_reflect w (a * b)); naive_solver. Qed.

Lemma add_w_fits w a b : in_width w (a + b) -> add_w w a b = Ok (a + b).
Proof. intros. by apply add_w_Ok. Qed.
Lemma sub_w_fits w a b : in_width w (a - b) -> sub_w w a b = Ok (a - b).
Proof. intros. by apply sub_w_Ok. Qed.
Lemma mul_w_fits w a b : in_width w (a * b) -> mul_w w a b = Ok (a * b).
Proof. intros. by apply mul_w_Ok. Qed.

Lemma panics_only_add w a b : panics_only (add_w w a b).
Proof. unfold add_w. destruct (fits _ _); [apply panics_only_ok|apply panics_only_panic]. Qed.
Lemma panics_only_sub w a b : panics_only (sub_w w a b).
Proof. unfold sub_w. destruct (fits _ _); [apply panics_only_ok|apply panics_only_panic]. Qed.
Lemma panics_only_mul w a b : panics_only (mul_w w a b).
Proof. unfold mul_w. destruct (fits _ _); [apply panics_only_ok|apply panics_only_panic]. Qed.

Create HintDb kernel.

#[export] Hint Resolve panics_only_ok panics_only_panic panics_only_assert panics_only_expect
  panics_only_add panics_only_sub panics_only_mul : kernel.

(** Disjoint bits add up. *)
Lemma lor_add x y k : 0 <= k -> 0 <= x -> x mod 2 ^ k = 0 -> 0 <= y < 2 ^ k -> Z.lor x y = x + y.
Proof.
  intros Hk Hx Hm Hy. rewrite <-Z.add_lor_land. enough (Z.land x y = 0) by lia.
  apply Z.bits_inj'. intros n Hn. rewrite Z.land_spec, Z.bits_0.
  destruct (Z.ltb_spec n k).
  - rewrite <-(Z.mod_pow2_bits_low x k n), Hm, Z.bits_0 by lia. done.
  - rewrite <-(Z.mod_small y (2 ^ k)), Z.mod_pow2_bits_high by lia. apply andb_false_r.
Qed.

(** [inv_ok], also through checked arithmetic. *)
Ltac inv_arith :=
  repeat (inv_ok; match goal with
  | H : add_w _ _ _ = Ok _ |- _ => apply add_w_Ok in H as [? ?]
  | H : sub_w _ _ _ = Ok _ |- _ => apply sub_w_Ok in H as [? ?]
  | H : mul_w _ _ _ = Ok _ |- _ => apply mul_w_Ok in H as [? ?]
  end); inv_ok; subst.

Ltac unfold_width := unfold in_width in *.

(** Case analysis on the boolean comparisons of a model. *)
Ltac case_bools :=
  repeat match goal with
  | |- context [Z.eqb ?a ?b] => destruct (Z.eqb_spec a b)
  | |- context [Z.leb ?a ?b] => destruct (Z.leb_spec a b)
  | |- context [Z.ltb ?a ?b] => destruct (Z.ltb_spec a b)
  | H : context [Z.eqb ?a ?b] |- _ => destruct (Z.eqb_spec a b)
  | H : context [Z.leb ?a ?b] |- _ => destruct (Z.leb_spec a b)
  | H : context [Z.ltb ?a ?b] |- _ => destruct (Z.ltb_spec a b)
  end; simpl in *.

(** Case analysis on the first [if] of the goal, keeping its condition. *)
Ltac case_if_as H :=
  match goal with |- context [if ?b then _ else _] => destruct b eqn:H end.

(** ** Loops

    [for x in l { body }] over a finite sequence, threading the state; an
    error stops the loop. *)

Fixpoint ofold {A S} (body : A -> S -> outcome S) (l : list A) (s : S) : outcome S :=
  match l with
  | [] => Ok s
  | a :: l => let? s := body a s in ofold body l s
  end.

Lemma ofold_app {A S} (body : A -> S -> outcome S) l1 l2 s :
  ofold body (l1 ++ l2) s = let? s := ofold body l1 s in ofold body l2 s.
Proof.
  revert s. induction l1 as [|a l1 IH]; intros s; simpl; [done|].
  destruct (body a s); simpl; auto.
Qed.

(** A property kept by every iteration is kept by the loop. *)
Lemma ofold_inv {A S} (P : S -> Prop) (body : A -> S -> outcome S) l s s' :
  P s ->
  (forall a s s', a ∈ l -> P s -> body a s = Ok s' -> P s') ->
  ofold body l s = Ok s' -> P s'.
Proof.
  revert s. induction l as [|a l IH]; intros s Hs Hstep H; simpl in H.
  - by inv_ok.
  - inv_ok. eapply IH; [|intros; eapply Hstep; eauto; by right|done].
    eapply Hstep; eauto. by left.
Qed.

(** The errors of a loop are those of its iterations. *)
Lemma ofold_errors {A S} (P : S -> Prop) (E : error -> Prop) (body : A -> S -> outcome S) l s e :
  P s ->
  (forall a s s', a ∈ l -> P s -> body a s = Ok s' -> P s') ->
  (forall a s e, a ∈ l -> P s -> body a s = Err e -> E e) ->
  ofold body l s = Err e -> E e.
Proof.
  revert s. induction l as [|a l IH]; intros s Hs Hstep Herr H; simpl in H; [done|].
  destruct (body a s) as [s1|e1] eqn:Ha; cbn [obind] in H.
  - eapply IH; [|intros; eapply Hstep; eauto; by right|intros; eapply Herr; eauto; by right|done].
    eapply Hstep; eauto. by left.
  - injection H as <-. eapply Herr; eauto. by left.
Qed.

Lemma panics_only_ofold {A S} (P : S -> Prop) (body : A -> S -> outcome S) l s :
  P s ->
  (forall a s s', a ∈ l -> P s -> body a s = Ok s' -> P s') ->
  (forall a s, a ∈ l -> P s -> panics_only (body a s)) ->
  panics_only (ofold body l s).
Proof. intros Hs Hstep Hsafe e. apply (ofold_errors P is_panic body l s e Hs Hstep). intros. by eapply Hsafe. Qed.

(** A loop that appends what each element contributes. *)
Lemma ofold_collect {A S B} (g : S -> list B) (h : A -> list B) (body : A -> S -> outcome S) l s s' :
  (forall a s s', a ∈ l -> body a s = Ok s' -> g s' = g s ++ h a) ->
  ofold body l s = Ok s' -> g s' = g s ++ concat (h <$> l).
Proof.
  revert s. induction l as [|a l IH]; intros s Hb Hrun; cbn [ofold] in Hrun.
  - injection Hrun as <-. by rewrite app_nil_r.
  - apply obind_Ok in Hrun as (s1 & H1 & Hrun). simpl.
    rewrite (IH s1); [|intros; eapply Hb; eauto; by right|done].
    rewrite (Hb a s s1); [by rewrite app_assoc|by left|done].
Qed.

(** A loop whose body always succeeds. *)
Lemma ofold_total {A S} (body : A -> S -> outcome S) l s :
  (forall a s, a ∈ l -> is_ok (body a s)) -> is_ok (ofold body l s).
Proof.
  revert s. induction l as [|a l IH]; intros s Hb; [by exists s|]. cbn [ofold].
  destruct (Hb a s) as [s1 ->]; [by left|]. cbn [obind]. apply IH. intros. apply Hb. by right.
Qed.

Lemma elem_of_concat {A} (x : A) ls : x ∈ concat ls <-> exists l, x ∈ l /\ l ∈ ls.
Proof.
  induction ls as [|l ls IH]; simpl.
  - split; [intros []%elem_of_nil|intros (l & _ & []%elem_of_nil)].
  - rewrite elem_of_app, IH. split.
    + intros [Hx|(l' & Hx & Hl)]; [exists l; split; [done|by left]|exists l'; split; [done|by right]].
    + intros (l' & Hx & [->|Hl]%elem_of_cons); [by left|right; eauto].
Qed.
