(* ===== verification/Fmt.v ===== *)
(** * Formatting numbers

    What [core::fmt] writes for the integers of the kernel's messages: [{}], [{:x}],
    [{:#x}] and the zero-padded [{:04x}].  Text is a list of bytes, as the serial port
    takes it. *)

From S2P Require Import Prelude.

Definition bytes_of (s : string) : list Z := (fun c => Z.of_N (Ascii.N_of_ascii c)) <$> String.list_ascii_of_string s.
Definition nl : list Z := [10].

(** ** Digits *)

(** The digits of [n], the most significant first; a number has at most as many as
    bits. *)
Fixpoint radix_digits_fuel (fuel : nat) (base n : Z) : list Z :=
  match fuel with
  | O => []
  | S fuel => if n <? base then [n] else radix_digits_fuel fuel base (n / base) ++ [n mod base]
  end.

Definition radix_digits (base n : Z) : list Z := radix_digits_fuel (S (Z.to_nat (Z.log2 n))) base n.

Definition digit_char (d : Z) : Z := if d <? 10 then 48 + d else 87 + d.

Definition fmt_radix (base n : Z) : list Z := digit_char <$> radix_digits base n.

(** [{}], [{:x}] and [{:#x}] *)
Definition fmt_dec (n : Z) : list Z := fmt_radix 10 n.
Definition fmt_hex (n : Z) : list Z := fmt_radix 16 n.
Definition fmt_alt (n : Z) : list Z := bytes_of "0x" ++ fmt_hex n.

(** [{:0wx}] *)
Definition fmt_pad (w : nat) (n : Z) : list Z := replicate (w - length (fmt_hex n)) 48 ++ fmt_hex n.

(** The number a text stands for. *)
Definition char_digit (c : Z) : Z := if c <? 58 then c - 48 else c - 87.
Definition parse_radix (base : Z) (s : list Z) : Z := foldl (fun a c => a * base + char_digit c) 0 s.

(** ** Properties *)

Section Radix.
Context (base : Z) (Hbase : 2 <= base <= 16).

Lemma radix_fuel_enough fuel n :
  0 <= n < 2 ^ Z.of_nat fuel -> foldl (fun a d => a * base + d) 0 (radix_digits_fuel fuel base n) = n.
Proof.
  revert n. induction fuel as [|fuel IH]; intros n Hn; [simpl in *; lia|]. cbn [radix_digits_fuel].
  destruct (Z.ltb_spec n base); [simpl; lia|]. rewrite foldl_app. cbn [foldl]. rewrite IH.
  - Z.div_mod_to_equations. lia.
  - replace (Z.of_nat (S fuel)) with (Z.of_nat fuel + 1) in Hn by lia. rewrite Z.pow_add_r in Hn by lia.
    split; [apply Z.div_pos; lia|]. apply Z.div_lt_upper_bound; [lia|]. nia.
Qed.

Lemma radix_fuel_digits fuel n :
  0 <= n -> Forall (fun d => 0 <= d < base) (radix_digits_fuel fuel base n).
Proof.
  revert n. induction fuel as [|fuel IH]; intros n Hn; [constructor|]. cbn [radix_digits_fuel].
  destruct (Z.ltb_spec n base); [repeat constructor; lia|]. apply Forall_app. split.
  - apply IH. apply Z.div_pos; lia.
  - repeat constructor; apply Z.mod_pos_bound; lia.
Qed.

Lemma radix_fuel_length fuel w n :
  (0 < w)%nat -> 0 <= n < base ^ Z.of_nat w -> (length (radix_digits_fuel fuel base n) <= w)%nat.
Proof.
  revert w n. induction fuel as [|fuel IH]; intros w n Hw Hn; [simpl; lia|]. cbn [radix_digits_fuel].
  destruct (Z.ltb_spec n base); [simpl; lia|]. rewrite length_app. cbn [length].
  destruct w as [|[|w]]; [lia|change (Z.of_nat 1) with 1 in Hn; lia|].
  enough (length (radix_digits_fuel fuel base (n / base)) <= S w)%nat by lia. apply IH; [lia|].
  replace (Z.of_nat (S (S w))) with (Z.of_nat (S w) + 1) in Hn by lia. rewrite Z.pow_add_r in Hn by lia.
  split; [apply Z.div_pos; lia|]. apply Z.div_lt_upper_bound; lia.
Qed.

Lemma digit_char_value d : 0 <= d < base -> char_digit (digit_char d) = d.
Proof.
  intros Hd. unfold char_digit, digit_char.
  destruct (Z.ltb_spec d 10); [destruct (Z.ltb_spec (48 + d) 58)|destruct (Z.ltb_spec (87 + d) 58)]; lia.
Qed.

Lemma parse_chars ds a :
  Forall (fun d => 0 <= d < base) ds ->
  foldl (fun a c => a * base + char_digit c) a (digit_char <$> ds) = foldl (fun a d => a * base + d) a ds.
Proof.
  intros Hds. revert a. induction Hds as [|d ds Hd _ IH]; intros a; [done|]. cbn [fmap list_fmap foldl].
  by rewrite digit_char_value, IH.
Qed.

Lemma log2_fuel n : 0 <= n -> 0 <= n < 2 ^ Z.of_nat (S (Z.to_nat (Z.log2 n))).
Proof.
  intros Hn. rewrite Nat2Z.inj_succ, Z2Nat.id by apply Z.log2_nonneg. split; [done|].
  destruct (Z.eq_dec n 0) as [->|]; [reflexivity|]. apply Z.log2_spec. lia.
Qed.

(** The text of a number stands for it. *)
Lemma fmt_radix_value n : 0 <= n -> parse_radix base (fmt_radix base n) = n.
Proof.
  intros Hn. unfold parse_radix, fmt_radix, radix_digits. rewrite parse_chars by by apply radix_fuel_digits.
  by apply radix_fuel_enough, log2_fuel.
Qed.

Lemma fmt_radix_length w n : (0 < w)%nat -> 0 <= n < base ^ Z.of_nat w -> (length (fmt_radix base n) <= w)%nat.
Proof. intros Hw Hn. unfold fmt_radix, radix_digits. rewrite length_fmap. by apply radix_fuel_length. Qed.

(** It is made of digits and small letters. *)
Definition digit_like (c : Z) : Prop := 48 <= c < 58 \/ 97 <= c < 103.

Lemma fmt_radix_chars n : 0 <= n -> Forall digit_like (fmt_radix base n).
Proof.
  intros Hn. unfold fmt_radix. apply Forall_fmap. eapply Forall_impl; [by apply radix_fuel_digits|].
  intros d Hd. change (digit_like (digit_char d)). cbn beta in Hd. unfold digit_char, digit_like. destruct (Z.ltb_spec d 10); lia.
Qed.
End Radix.

Lemma parse_zeros base k s : parse_radix base (replicate k 48 ++ s) = parse_radix base s.
Proof. induction k as [|k IH]; [done|exact IH]. Qed.

Lemma fmt_pad_value w n : 0 <= n -> parse_radix 16 (fmt_pad w n) = n.
Proof. intros Hn. unfold fmt_pad, fmt_hex. rewrite parse_zeros. by apply fmt_radix_value. Qed.

Lemma fmt_pad_length w n : (0 < w)%nat -> 0 <= n < 16 ^ Z.of_nat w -> length (fmt_pad w n) = w.
Proof.
  intros Hw Hn. unfold fmt_pad, fmt_hex. rewrite length_app, length_replicate.
  pose proof (fmt_radix_length 16 ltac:(lia) w n Hw Hn). lia.
Qed.

Lemma fmt_pad_chars w n : 0 <= n -> Forall digit_like (fmt_pad w n).
Proof.
  intros Hn. unfold fmt_pad. apply Forall_app. split; [|apply fmt_radix_chars; lia].
  apply Forall_replicate. left. lia.
Qed.

(** Each formatting determines the number. *)
Lemma fmt_dec_inj n m : 0 <= n -> 0 <= m -> fmt_dec n = fmt_dec m -> n = m.
Proof. intros Hn Hm E. rewrite <-(fmt_radix_value 10 ltac:(lia) n), <-(fmt_radix_value 10 ltac:(lia) m) by done. by f_equal. Qed.

Lemma fmt_pad_inj w n m : 0 <= n -> 0 <= m -> fmt_pad w n = fmt_pad w m -> n = m.
Proof. intros Hn Hm E. rewrite <-(fmt_pad_value w n), <-(fmt_pad_value w m) by done. by f_equal. Qed.

(** Two texts without a separator, each followed by one. *)
Lemma split_at_sep {A} (sep : A) u v r s :
  Forall (fun c => c <> sep) u -> Forall (fun c => c <> sep) v -> u ++ sep :: r = v ++ sep :: s -> u = v /\ r = s.
Proof.
  intros Hu. revert v. induction Hu as [|c u Hc _ IH]; intros [|d v] Hv E; simpl in *.
  - by injection E.
  - injection E as <- _. apply Forall_cons in Hv as [Hd _]. done.
  - injection E as <- _. done.
  - injection E as <- E. apply Forall_cons in Hv as [_ Hv]. destruct (IH v Hv E) as [<- <-]. done.
Qed.

Lemma digits_no_sep sep s : Forall digit_like s -> ~ digit_like sep -> Forall (fun c => c <> sep) s.
Proof. intros Hs Hn. eapply Forall_impl; [exact Hs|]. by intros c Hc ->. Qed.

Example fmt_examples :
  fmt_alt 0xFEBF0000 = bytes_of "0xfebf0000" /\ fmt_pad 4 0x2a = bytes_of "002a" /\ fmt_dec 1193 = bytes_of "1193" /\
  fmt_dec 0 = bytes_of "0".
Proof. repeat split; vm_compute; reflexivity. Qed.
