(* ===== verification/Frames.v ===== *)
(** * Physical frames and virtual pages

    The address newtypes, [Frame]/[FrameIter] of [arch/x86_64/memory/mod.rs]
    and [Page]/[PageIter] of [arch/x86_64/memory/paging/mod.rs]: the frame or
    page that contains an address, its start address, the four page-table
    indices of a page, and the inclusive-range iterators. *)

From S2P Require Import Prelude.

Definition PAGE_SIZE : Z := 4096.
Definition ENTRY_COUNT : Z := 512.

Record PhysicalAddress := PhysAddr { pa_get : Z }.
Record VirtualAddress := VirtAddr { va_get : Z }.

(** ** Frames *)

Record Frame := mkFrame { fnumber : Z }.

#[global] Instance frame_eq_dec : EqDecision Frame.
Proof. solve_decision. Defined.

Definition frame_containing (a : PhysicalAddress) : Frame :=
  mkFrame (pa_get a / PAGE_SIZE).

Definition frame_start (f : Frame) : outcome PhysicalAddress :=
  let? n := usize_mul (fnumber f) PAGE_SIZE in Ok (PhysAddr n).

Definition frame_clone (f : Frame) : Frame := mkFrame (fnumber f).

Record FrameIter := mkFrameIter { fi_start : Frame; fi_end : Frame }.

Definition frame_range_inclusive (s e : Frame) : FrameIter := mkFrameIter s e.

Definition frame_next (it : FrameIter) : outcome (option Frame * FrameIter) :=
  if fnumber (fi_start it) <=? fnumber (fi_end it) then
    let frame := frame_clone (fi_start it) in
    let? n := usize_add (fnumber (fi_start it)) 1 in
    Ok (Some frame, mkFrameIter (mkFrame n) (fi_end it))
  else Ok (None, it).

(** ** Pages *)

Record Page := mkPage { pnumber : Z }.

#[global] Instance page_eq_dec : EqDecision Page.
Proof. solve_decision. Defined.

Definition canonical (a : Z) : bool :=
  (a <? 0x0000800000000000) || (0xffff800000000000 <=? a).

Definition page_containing (a : VirtualAddress) : outcome Page :=
  let? _ := assertb (canonical (va_get a)) "invalid address" in
  Ok (mkPage (va_get a / PAGE_SIZE)).

Definition page_start (p : Page) : outcome VirtualAddress :=
  let? n := usize_mul (pnumber p) PAGE_SIZE in Ok (VirtAddr n).

Definition p4_index (p : Page) : Z := Z.land (Z.shiftr (pnumber p) 27) 0x1ff.
Definition p3_index (p : Page) : Z := Z.land (Z.shiftr (pnumber p) 18) 0x1ff.
Definition p2_index (p : Page) : Z := Z.land (Z.shiftr (pnumber p) 9) 0x1ff.
Definition p1_index (p : Page) : Z := Z.land (Z.shiftr (pnumber p) 0) 0x1ff.

Definition page_add (p : Page) (rhs : Z) : outcome Page :=
  let? n := usize_add (pnumber p) rhs in Ok (mkPage n).

Record PageIter := mkPageIter { pi_start : Page; pi_end : Page }.

Definition page_range_inclusive (s e : Page) : PageIter := mkPageIter s e.

Definition page_next (it : PageIter) : outcome (option Page * PageIter) :=
  if pnumber (pi_start it) <=? pnumber (pi_end it) then
    let page := pi_start it in
    let? n := usize_add (pnumber (pi_start it)) 1 in
    Ok (Some page, mkPageIter (mkPage n) (pi_end it))
  else Ok (None, it).

(** [Iterator::nth], the default method: consume elements until the [n]-th. *)
Fixpoint page_nth (n : nat) (it : PageIter) : outcome (option Page * PageIter) :=
  let? (o, it) := page_next it in
  match o with
  | None => Ok (None, it)
  | Some p =>
      match n with
      | O => Ok (Some p, it)
      | S n => page_nth n it
      end
  end.

(** The items a [for] loop over an iterator sees: [next] until it says [None].
    The fuel is one more than the length of the range. *)
Fixpoint frame_collect (fuel : nat) (it : FrameIter) : outcome (list Frame) :=
  match fuel with
  | O => Err EFuel
  | S fuel =>
      let? (o, it) := frame_next it in
      match o with
      | None => Ok []
      | Some f => let? l := frame_collect fuel it in Ok (f :: l)
      end
  end.

Definition frames_of (it : FrameIter) : outcome (list Frame) :=
  frame_collect (S (Z.to_nat (fnumber (fi_end it) - fnumber (fi_start it) + 1))) it.

Fixpoint page_collect (fuel : nat) (it : PageIter) : outcome (list Page) :=
  match fuel with
  | O => Err EFuel
  | S fuel =>
      let? (o, it) := page_next it in
      match o with
      | None => Ok []
      | Some f => let? l := page_collect fuel it in Ok (f :: l)
      end
  end.

Definition pages_of (it : PageIter) : outcome (list Page) :=
  page_collect (S (Z.to_nat (pnumber (pi_end it) - pnumber (pi_start it) + 1))) it.

(** ** Facts about the iterators *)

Lemma frame_collect_spec fuel s e :
  0 <= s -> e < 2 ^ 64 - 1 -> (Z.to_nat (e - s + 1) < fuel)%nat ->
  frame_collect fuel (mkFrameIter (mkFrame s) (mkFrame e))
  = Ok (mkFrame <$> seqZ s (e - s + 1)).
Proof.
  revert s. induction fuel as [|fuel IH]; intros s Hs He Hf; [lia|].
  simpl. unfold frame_next; simpl. destruct (Z.leb_spec s e).
  - rewrite add_w_fits by (unfold in_width; lia). simpl.
    rewrite IH by lia. simpl. rewrite (seqZ_cons s) by lia. simpl.
    do 3 f_equal; f_equal; lia.
  - simpl. by rewrite seqZ_nil by lia.
Qed.

Lemma page_collect_spec fuel s e :
  0 <= s -> e < 2 ^ 64 - 1 -> (Z.to_nat (e - s + 1) < fuel)%nat ->
  page_collect fuel (mkPageIter (mkPage s) (mkPage e))
  = Ok (mkPage <$> seqZ s (e - s + 1)).
Proof.
  revert s. induction fuel as [|fuel IH]; intros s Hs He Hf; [lia|].
  simpl. unfold page_next; simpl. destruct (Z.leb_spec s e).
  - rewrite add_w_fits by (unfold in_width; lia). simpl.
    rewrite IH by lia. simpl. rewrite (seqZ_cons s) by lia. simpl.
    do 3 f_equal; f_equal; lia.
  - simpl. by rewrite seqZ_nil by lia.
Qed.

Lemma frames_of_seq s e :
  0 <= s -> e < 2 ^ 64 - 1 ->
  frames_of (frame_range_inclusive (mkFrame s) (mkFrame e)) = Ok (mkFrame <$> seqZ s (e - s + 1)).
Proof. intros. unfold frames_of. apply frame_collect_spec; simpl; lia. Qed.

Lemma pages_of_seq s e :
  0 <= s -> e < 2 ^ 64 - 1 ->
  pages_of (page_range_inclusive (mkPage s) (mkPage e)) = Ok (mkPage <$> seqZ s (e - s + 1)).
Proof. intros. unfold pages_of. apply page_collect_spec; simpl; lia. Qed.

Lemma page_nth_spec n s e :
  0 <= s -> e < 2 ^ 64 - 1 ->
  page_nth n (mkPageIter (mkPage s) (mkPage e)) =
    if s + Z.of_nat n <=? e
    then Ok (Some (mkPage (s + Z.of_nat n)), mkPageIter (mkPage (s + Z.of_nat n + 1)) (mkPage e))
    else Ok (None, mkPageIter (mkPage (Z.max s (e + 1))) (mkPage e)).
Proof.
  revert s. induction n as [|n IH]; intros s Hs He.
  - simpl. unfold page_next; simpl. rewrite Z.add_0_r.
    destruct (Z.leb_spec s e); simpl.
    + rewrite add_w_fits by (unfold in_width; lia). done.
    + do 4 f_equal; lia.
  - simpl. unfold page_next; simpl. destruct (Z.leb_spec s e); simpl.
    + rewrite add_w_fits by (unfold in_width; lia). simpl. rewrite IH by lia.
      replace (s + 1 + Z.of_nat n) with (s + Z.of_nat (S n)) by lia.
      case_bools; [done|]. do 4 f_equal; lia.
    + case_bools; [lia|]. do 4 f_equal; lia.
Qed.

(** ** Page-table indices *)

Lemma land_511 n : Z.land n 0x1ff = n mod 512.
Proof. change 0x1ff with (Z.ones 9). rewrite Z.land_ones by lia. done. Qed.

Lemma p4_index_eq p : p4_index p = (pnumber p / 2 ^ 27) mod 512.
Proof. unfold p4_index. by rewrite land_511, Z.shiftr_div_pow2 by lia. Qed.
Lemma p3_index_eq p : p3_index p = (pnumber p / 2 ^ 18) mod 512.
Proof. unfold p3_index. by rewrite land_511, Z.shiftr_div_pow2 by lia. Qed.
Lemma p2_index_eq p : p2_index p = (pnumber p / 2 ^ 9) mod 512.
Proof. unfold p2_index. by rewrite land_511, Z.shiftr_div_pow2 by lia. Qed.
Lemma p1_index_eq p : p1_index p = pnumber p mod 512.
Proof. unfold p1_index. by rewrite land_511, Z.shiftr_0_r. Qed.

#[export] Hint Rewrite p4_index_eq p3_index_eq p2_index_eq p1_index_eq : page_index.

Definition is_index (i : Z) : Prop := 0 <= i < 512.

Lemma p4_index_range p : is_index (p4_index p).
Proof. rewrite p4_index_eq. unfold is_index. apply Z.mod_pos_bound. lia. Qed.
Lemma p3_index_range p : is_index (p3_index p).
Proof. rewrite p3_index_eq. unfold is_index. apply Z.mod_pos_bound. lia. Qed.
Lemma p2_index_range p : is_index (p2_index p).
Proof. rewrite p2_index_eq. unfold is_index. apply Z.mod_pos_bound. lia. Qed.
Lemma p1_index_range p : is_index (p1_index p).
Proof. rewrite p1_index_eq. unfold is_index. apply Z.mod_pos_bound. lia. Qed.

#[export] Hint Resolve p4_index_range p3_index_range p2_index_range p1_index_range : kernel.

(** The four indices are the base-512 digits of the page number. *)
Lemma page_digits p :
  pnumber p mod 2 ^ 36 =
  p4_index p * 2 ^ 27 + p3_index p * 2 ^ 18 + p2_index p * 2 ^ 9 + p1_index p.
Proof.
  autorewrite with page_index. set (n := pnumber p).
  change (2 ^ 36) with (512 * (512 * (512 * 512))).
  rewrite (Z.rem_mul_r n 512), (Z.rem_mul_r (n / 512) 512),
    (Z.rem_mul_r (n / 512 / 512) 512) by lia.
  rewrite !Z.div_div by lia. change (512 * 512 * 512) with (2 ^ 27).
  change (512 * 512) with (2 ^ 18). change (2 ^ 9) with 512. lia.
Qed.

(** A page of canonical (48-bit sign-extended) addresses. *)
Definition canonical_page (p : Page) : Prop :=
  0 <= pnumber p < 2 ^ 35 \/ 2 ^ 52 - 2 ^ 35 <= pnumber p < 2 ^ 52.

Lemma canonical_page_inj p q :
  canonical_page p -> canonical_page q ->
  p4_index p = p4_index q -> p3_index p = p3_index q ->
  p2_index p = p2_index q -> p1_index p = p1_index q -> p = q.
Proof.
  intros Hp Hq H4 H3 H2 H1.
  assert (Hm : pnumber p mod 2 ^ 36 = pnumber q mod 2 ^ 36) by (rewrite !page_digits; lia).
  assert (pnumber p = pnumber q).
  { unfold canonical_page in *. Z.div_mod_to_equations. lia. }
  destruct p, q; simpl in *; by subst.
Qed.

Lemma page_containing_spec a :
  in_width 64 a -> canonical a = true ->
  page_containing (VirtAddr a) = Ok (mkPage (a / PAGE_SIZE)) /\ canonical_page (mkPage (a / PAGE_SIZE)).
Proof.
  unfold page_containing, canonical, canonical_page, PAGE_SIZE, in_width. simpl.
  intros Ha Hc. rewrite Hc. split; [done|].
  apply orb_true_iff in Hc as [Hc|Hc];
    [apply Z.ltb_lt in Hc; left|apply Z.leb_le in Hc; right];
    simpl; Z.div_mod_to_equations; lia.
Qed.
