(* ===== verification/FrameSource.v ===== *)
(** * What the memory manager is promised by its frame allocator

    The page-table code calls [allocate_frames(1)] and relies on the frames it
    gets being fresh.  [FrameSource] states that promise; [AreaAlloc.v] shows
    that [AreaFrameAllocator] keeps it and the paging files are proved against
    the class only. *)

From S2P Require Import Prelude Frames.

Class FrameSource (A : Type) := {
  fs_alloc : A -> outcome (option Frame * A);
  (** the state is one the allocator can be in *)
  fs_ok : A -> Prop;
  (** the frame may still be handed out *)
  fs_avail : A -> Z -> Prop;
  fs_alloc_returns a : fs_ok a -> exists r, fs_alloc a = Ok r;
  fs_alloc_ok a r a' : fs_ok a -> fs_alloc a = Ok (r, a') -> fs_ok a';
  fs_alloc_some a f a' :
    fs_ok a -> fs_alloc a = Ok (Some f, a') ->
    fs_avail a (fnumber f) /\ ~ fs_avail a' (fnumber f);
  fs_alloc_shrinks a r a' g :
    fs_ok a -> fs_alloc a = Ok (r, a') -> fs_avail a' g -> fs_avail a g;
  fs_alloc_keeps a f a' g :
    fs_ok a -> fs_alloc a = Ok (Some f, a') -> fs_avail a g -> g <> fnumber f -> fs_avail a' g;
  fs_alloc_none a a' g : fs_ok a -> fs_alloc a = Ok (None, a') -> ~ fs_avail a g;
  fs_avail_bound a g : fs_ok a -> fs_avail a g -> 0 <= g < 2 ^ 40;
}.

(** Of distinct elements, all but at most one differ from [h]. *)
Lemma without_one {A} `{EqDecision A} (h : A) l n :
  NoDup l -> length l = S n ->
  exists l', NoDup l' /\ length l' = n /\ forall x, x ∈ l' -> x ∈ l /\ x <> h.
Proof.
  intros Hnd Hlen. destruct (decide (h ∈ l)) as [(l1 & l2 & ->)%list_elem_of_split|Hni].
  - exists (l1 ++ l2). rewrite <-Permutation_middle in Hnd. apply NoDup_cons in Hnd as [Hni ?].
    split; [done|]. rewrite length_app in *. simpl in Hlen. split; [lia|]. intros x Hx.
    split; [set_solver|]. by intros ->.
  - destruct l as [|y l]; [done|]. apply NoDup_cons in Hnd as [? ?]. exists l. split; [done|].
    split; [simpl in Hlen; lia|]. intros x Hx. split; [by right|]. set_solver.
Qed.

(** At least [n] frames can still be handed out. *)
Definition frames_left {A} `{FrameSource A} (a : A) (n : nat) : Prop :=
  exists l, NoDup l /\ length l = n /\ Forall (fs_avail a) l.

Section Left.
Context {A : Type} `{FrameSource A}.

Lemma frames_left_pred (a : A) n : frames_left a (S n) -> frames_left a n.
Proof.
  intros ([|x l] & Hnd & Hl & Hf); [done|]. apply NoDup_cons in Hnd as [_ ?].
  apply Forall_cons in Hf as [_ ?]. exists l. naive_solver.
Qed.

Lemma frames_left_le (a : A) m n : (m <= n)%nat -> frames_left a n -> frames_left a m.
Proof. induction 1; [done|]. intros ?%frames_left_pred. auto. Qed.

(** With a frame left the allocator returns one, and one fewer is left. *)
Lemma frames_left_alloc (a : A) n :
  fs_ok a -> frames_left a (S n) ->
  exists f a', fs_alloc a = Ok (Some f, a') /\ frames_left a' n.
Proof.
  intros Hok (l & Hnd & Hlen & Hf). destruct (fs_alloc_returns a Hok) as [[[f|] a'] Hal].
  2:{ destruct l as [|x l]; [done|]. apply Forall_cons in Hf as [Hx _].
      by destruct (fs_alloc_none _ _ _ Hok Hal Hx). }
  exists f, a'. split; [done|]. destruct (without_one (fnumber f) l n Hnd Hlen) as (l' & ? & ? & Hl').
  exists l'. split; [done|]. split; [done|]. rewrite Forall_forall in Hf |- *. intros g Hg.
  destruct (Hl' g Hg). by eapply fs_alloc_keeps; eauto.
Qed.

End Left.
