(* ===== verification/AreaAlloc.v ===== *)
(** * The physical frame allocator

    [AreaFrameAllocator] of [arch/x86_64/memory/area_frame_allocator.rs], the
    [FrameAllocator] trait and the global [allocate_frames] of
    [arch/x86_64/memory/mod.rs].  The memory areas come from the multiboot2
    crate: a [MemoryArea] is what its accessors [start_address] and [size]
    return, and the (cloneable) [MemoryAreaIter] is the list of areas it
    yields. *)

From S2P Require Import Prelude Frames FrameSource.

Record MemoryArea := mkArea { area_start : Z; area_size : Z }.

Record AreaFrameAllocator := mkAllocator {
  next_free_frame : Frame;
  current_area : option MemoryArea;
  areas : list MemoryArea;
  kernel_start : Frame;
  kernel_end : Frame;
  multiboot_start : Frame;
  multiboot_end : Frame }.

Definition set_next (s : AreaFrameAllocator) (f : Frame) : AreaFrameAllocator :=
  mkAllocator f (current_area s) (areas s) (kernel_start s) (kernel_end s)
    (multiboot_start s) (multiboot_end s).

Definition set_area (s : AreaFrameAllocator) (a : option MemoryArea) : AreaFrameAllocator :=
  mkAllocator (next_free_frame s) a (areas s) (kernel_start s) (kernel_end s)
    (multiboot_start s) (multiboot_end s).

(** [Frame::containing_address(area.start_address() + area.size() - 1)] *)
Definition area_last_frame (a : MemoryArea) : outcome Frame :=
  let? e := usize_add (area_start a) (area_size a) in
  let? e := usize_sub e 1 in
  Ok (frame_containing (PhysAddr e)).

(** [areas.clone().filter(|a| last_frame(a) >= next_free_frame)] *)
Fixpoint areas_from (next : Frame) (l : list MemoryArea) : outcome (list MemoryArea) :=
  match l with
  | [] => Ok []
  | a :: l =>
      let? e := area_last_frame a in
      let? l := areas_from next l in
      Ok (if fnumber next <=? fnumber e then a :: l else l)
  end.

(** [Iterator::min_by_key(|a| a.start_address())]: the first of the minima. *)
Definition min_by_start (l : list MemoryArea) : option MemoryArea :=
  match l with
  | [] => None
  | a :: l =>
      Some (foldl (fun x y => if area_start y <? area_start x then y else x) a l)
  end.

Definition choose_next_area (s : AreaFrameAllocator) : outcome AreaFrameAllocator :=
  let? l := areas_from (next_free_frame s) (areas s) in
  let s := set_area s (min_by_start l) in
  match current_area s with
  | Some area =>
      let start_frame := frame_containing (PhysAddr (area_start area)) in
      (* the println! evaluates the start address of the frame *)
      let? _ := frame_start start_frame in
      if fnumber (next_free_frame s) <? fnumber start_frame
      then Ok (set_next s start_frame) else Ok s
  | None => Ok s
  end.

Fixpoint allocate_frame (fuel : nat) (count : Z) (s : AreaFrameAllocator)
  : outcome (option Frame * AreaFrameAllocator) :=
  match fuel with
  | O => Err EFuel
  | S fuel =>
      if count =? 0 then Ok (None, s) else
      match current_area s with
      | None => Ok (None, s)
      | Some area =>
          let start_frame := mkFrame (fnumber (next_free_frame s)) in
          let? c := usize_sub count 1 in
          let? e := usize_add (fnumber (next_free_frame s)) c in
          let end_frame := mkFrame e in
          let? current_area_last_frame := area_last_frame area in
          let le (a b : Frame) := fnumber a <=? fnumber b in
          if fnumber current_area_last_frame <? fnumber end_frame then
            let? s := choose_next_area s in
            allocate_frame fuel count s
          else if (le (kernel_start s) start_frame && le start_frame (kernel_end s))
               || (le (kernel_start s) end_frame && le start_frame (kernel_end s)) then
            let? n := usize_add (fnumber (kernel_end s)) 1 in
            allocate_frame fuel count (set_next s (mkFrame n))
          else if (le (multiboot_start s) start_frame && le start_frame (multiboot_end s))
               || (le (multiboot_start s) end_frame && le end_frame (multiboot_end s)) then
            let? n := usize_add (fnumber (multiboot_end s)) 1 in
            allocate_frame fuel count (set_next s (mkFrame n))
          else
            let? n := usize_add (fnumber (next_free_frame s)) 1 in
            Ok (Some start_frame, set_next s (mkFrame n))
      end
  end.

(** Calls [allocate_frame] makes for one frame: at most six (see
    [alloc_measure] below). *)
Definition ALLOC_FUEL : nat := 6.

Definition new_allocator (kstart kend mstart mend : Z) (memory_areas : list MemoryArea)
  : outcome AreaFrameAllocator :=
  let s := mkAllocator (frame_containing (PhysAddr 0)) None memory_areas
             (frame_containing (PhysAddr kstart)) (frame_containing (PhysAddr kend))
             (frame_containing (PhysAddr mstart)) (frame_containing (PhysAddr mend)) in
  let? s := choose_next_area s in
  let? (_, s) := allocate_frame ALLOC_FUEL 1 s in
  Ok s.

Definition deallocate_frame (_frame : Frame) (s : AreaFrameAllocator)
  : outcome (unit * AreaFrameAllocator) := panic "not yet implemented".

Definition free_frames_body (s : AreaFrameAllocator) (frame : Frame) (count : Z) : outcome Z :=
  if (fnumber (kernel_start s) <=? fnumber frame) && (fnumber frame <=? fnumber (kernel_end s))
  then Ok count
  else if fnumber (next_free_frame s) <=? fnumber frame then usize_add count 1
  else Ok count.

Definition free_frames (s : AreaFrameAllocator) : outcome Z :=
  ofold (fun area count =>
    let start_frame := frame_containing (PhysAddr (area_start area)) in
    let? end_frame := area_last_frame area in
    let? l := frames_of (frame_range_inclusive start_frame end_frame) in
    ofold (free_frames_body s) l count) (areas s) 0.

(** [ALLOCATOR : Mutex<Option<AreaFrameAllocator>>] and [allocate_frames]. *)
Definition allocate_frames (fuel : nat) (count : Z) (g : option AreaFrameAllocator)
  : outcome (option Frame * option AreaFrameAllocator) :=
  match g with
  | Some s => let? (f, s) := allocate_frame fuel count s in Ok (f, Some s)
  | None => panic "Frame allocator called before init."
  end.

(** ** Well-formed allocators

    Areas are non-empty and below the 52-bit physical address space; the
    current area is one of them and the next free frame is not before it. *)

Definition first_fr (a : MemoryArea) : Z := area_start a / PAGE_SIZE.
Definition last_fr (a : MemoryArea) : Z := (area_start a + area_size a - 1) / PAGE_SIZE.

Record area_wf (a : MemoryArea) : Prop := {
  aw_start : 0 <= area_start a;
  aw_size : 1 <= area_size a;
  aw_end : area_start a + area_size a <= 2 ^ 52 }.

Abbreviation nf s := (fnumber (next_free_frame s)).

Record alloc_wf (s : AreaFrameAllocator) : Prop := {
  wf_areas : Forall area_wf (areas s);
  wf_next : 0 <= nf s <= 2 ^ 40;
  wf_kernel : 0 <= fnumber (kernel_end s) < 2 ^ 40;
  wf_multiboot : 0 <= fnumber (multiboot_end s) < 2 ^ 40;
  wf_current : forall a, current_area s = Some a -> a ∈ areas s /\ first_fr a <= nf s;
  wf_exhausted : current_area s = None -> Forall (fun a => last_fr a < nf s) (areas s) }.

Definition in_kernel s (g : Z) : Prop := fnumber (kernel_start s) <= g <= fnumber (kernel_end s).
Definition in_multiboot s (g : Z) : Prop :=
  fnumber (multiboot_start s) <= g <= fnumber (multiboot_end s).

(** A frame the allocator may hand out: in an area, used by nobody. *)
Definition usable (s : AreaFrameAllocator) (g : Z) : Prop :=
  (exists a, a ∈ areas s /\ first_fr a <= g <= last_fr a) /\ ~ in_kernel s g /\ ~ in_multiboot s g.

(** Everything but [next_free_frame] and [current_area]. *)
Definition same_config (s t : AreaFrameAllocator) : Prop :=
  areas t = areas s /\ kernel_start t = kernel_start s /\ kernel_end t = kernel_end s /\
  multiboot_start t = multiboot_start s /\ multiboot_end t = multiboot_end s.

#[export] Instance same_config_preorder : PreOrder same_config.
Proof. split; [intros ?; done|]. unfold same_config. intros x y z ? ?. naive_solver congruence. Qed.

Lemma usable_config s t g : same_config s t -> usable t g <-> usable s g.
Proof. unfold same_config, usable, in_kernel, in_multiboot. intros (-> & -> & -> & -> & ->). done. Qed.

Lemma area_last_frame_eq a : area_wf a -> area_last_frame a = Ok (mkFrame (last_fr a)).
Proof.
  intros [? ? ?]. unfold area_last_frame.
  rewrite add_w_fits by (unfold in_width; lia). simpl.
  rewrite sub_w_fits by (unfold in_width; lia). done.
Qed.

Lemma area_frames_bound a : area_wf a -> 0 <= first_fr a <= last_fr a /\ last_fr a < 2 ^ 40.
Proof.
  intros [? ? ?]. unfold first_fr, last_fr, PAGE_SIZE. Z.div_mod_to_equations. lia.
Qed.

Lemma areas_from_eq next l :
  Forall area_wf l -> areas_from next l = Ok (filter (fun a => fnumber next <= last_fr a) l).
Proof.
  induction 1 as [|a l Ha Hl IH]; simpl; [done|].
  rewrite area_last_frame_eq by done. simpl. rewrite IH. simpl.
  rewrite filter_cons. case_decide; case_bools; done || lia.
Qed.

(** ** [min_by_key] finds a least element *)

Lemma foldl_min_spec l a :
  let m := foldl (fun x y => if area_start y <? area_start x then y else x) a l in
  m ∈ a :: l /\ Forall (fun b => area_start m <= area_start b) (a :: l).
Proof.
  revert a. induction l as [|b l IH]; intros a; simpl.
  - split; [by left|]. constructor; [lia|constructor].
  - specialize (IH (if area_start b <? area_start a then b else a)).
    destruct IH as [Hin Hall]. inversion Hall as [|? ? Hh Ht]; subst.
    case_bools; (split; [set_solver|]); repeat constructor; try lia; done.
Qed.

Lemma min_by_start_Some l m :
  min_by_start l = Some m ->
  m ∈ l /\ Forall (fun b => area_start m <= area_start b) l.
Proof. destruct l as [|a l]; intros [= <-]. apply foldl_min_spec. Qed.

Lemma min_by_start_None l : min_by_start l = None <-> l = [].
Proof. destruct l; simpl; naive_solver. Qed.

(** ** Progress of one step

    [skips s t]: [t] is [s] moved forward over frames none of which is
    usable. *)

Record skips (s t : AreaFrameAllocator) : Prop := {
  sk_config : same_config s t;
  sk_wf : alloc_wf t;
  sk_mono : nf s <= nf t;
  sk_none : forall g, nf s <= g < nf t -> ~ usable s g }.

Record base_wf (s : AreaFrameAllocator) : Prop := {
  bw_areas : Forall area_wf (areas s);
  bw_next : 0 <= nf s <= 2 ^ 40;
  bw_kernel : 0 <= fnumber (kernel_end s) < 2 ^ 40;
  bw_multiboot : 0 <= fnumber (multiboot_end s) < 2 ^ 40 }.

Lemma alloc_wf_base s : alloc_wf s -> base_wf s.
Proof. intros []. by split. Qed.

Lemma area_wf_elem s a : base_wf s -> a ∈ areas s -> area_wf a.
Proof. intros [H _ _ _]. rewrite Forall_forall in H. auto. Qed.

#[export] Hint Resolve alloc_wf_base area_wf_elem : kernel.

(** The state [choose_next_area] leaves, on well-formed areas. *)
Lemma choose_next_area_eq s :
  base_wf s ->
  choose_next_area s = Ok
    match min_by_start (filter (fun a => nf s <= last_fr a) (areas s)) with
    | Some a => set_next (set_area s (Some a)) (mkFrame (Z.max (nf s) (first_fr a)))
    | None => set_area s None
    end.
Proof.
  intros Hb. unfold choose_next_area.
  rewrite areas_from_eq by apply Hb. simpl.
  destruct (min_by_start _) as [a|] eqn:Hm; simpl; [|done].
  apply min_by_start_Some in Hm as [Hin _].
  apply list_elem_of_filter in Hin as [_ Hin].
  pose proof (area_frames_bound a (area_wf_elem _ _ Hb Hin)) as [? ?].
  unfold frame_start. simpl. fold (first_fr a).
  rewrite mul_w_fits by (unfold in_width, PAGE_SIZE; lia). simpl.
  destruct s as [[n] ? ? ? ? ? ?]; simpl in *.
  unfold first_fr, frame_containing in *. case_bools; unfold set_next, set_area; simpl; repeat f_equal; lia.
Qed.

Lemma choose_next_area_spec s :
  base_wf s ->
  exists t, choose_next_area s = Ok t /\ skips s t /\
    forall a, current_area t = Some a -> nf t <= last_fr a.
Proof.
  intros Hb. rewrite choose_next_area_eq by done. eexists; split; [done|].
  destruct (min_by_start _) as [a|] eqn:Hm.
  - apply min_by_start_Some in Hm as [Hin Hmin].
    apply list_elem_of_filter in Hin as [Hlast Hin].
    pose proof (area_frames_bound a (area_wf_elem _ _ Hb Hin)) as [? ?].
    destruct Hb as [Ha Hn Hk Hmb].
    split; [split; simpl; try done|simpl; intros ? [= <-]; lia].
    + split; simpl; try done; try lia. intros ? [= <-]. split; [done|lia].
    + lia.
    + intros g Hg ((b & Hbin & Hb1 & Hb2) & _).
      rewrite Forall_forall in Hmin.
      assert (area_start a <= area_start b).
      { apply Hmin. apply list_elem_of_filter. split; [lia|done]. }
      assert (first_fr a <= first_fr b) by (apply Z.div_le_mono; [unfold PAGE_SIZE; lia|done]).
      lia.
  - apply min_by_start_None in Hm. destruct Hb as [Ha Hn Hk Hmb].
    split; [split; simpl; try done; try lia|done].
    split; simpl; try done. intros _. apply Forall_forall. intros b Hbin.
    destruct (decide (nf s <= last_fr b)) as [Hle|]; [|lia].
    assert (Hf : b ∈ filter (fun a => nf s <= last_fr a) (areas s)).
    { apply list_elem_of_filter. by split. }
    rewrite Hm in Hf. by apply elem_of_nil in Hf.
Qed.

(** Jumping over an occupied range that contains the next free frame. *)
Lemma jump_skips s e :
  alloc_wf s -> nf s <= e < 2 ^ 40 -> (forall g, nf s <= g <= e -> ~ usable s g) ->
  is_Some (current_area s) ->
  skips s (set_next s (mkFrame (e + 1))).
Proof.
  intros [Ha Hn Hk Hmb Hc He] Hj Hu [a Hcur]. split; simpl; try done; try lia.
  - split; simpl; try done; try lia.
    + intros b Hb. destruct (Hc b Hb). split; [done|lia].
    + congruence.
  - intros g Hg. apply Hu. lia.
Qed.

(** The number of calls left: one for an exhausted current area, two for each
    of the two occupied ranges still ahead. *)
Definition alloc_measure (s : AreaFrameAllocator) : nat :=
  (match current_area s with
   | Some a => if (nf s <=? last_fr a)%Z then 0 else 1
   | None => 0
   end
   + (if (nf s <=? fnumber (kernel_end s))%Z then 2 else 0)
   + (if (nf s <=? fnumber (multiboot_end s))%Z then 2 else 0))%nat.

Lemma alloc_measure_bound s : (alloc_measure s < ALLOC_FUEL)%nat.
Proof. unfold alloc_measure, ALLOC_FUEL. destruct (current_area s); case_bools; lia. Qed.

(** What one call for one frame promises. *)
Definition alloc_post (s : AreaFrameAllocator) (r : option Frame) (t : AreaFrameAllocator) : Prop :=
  alloc_wf t /\ same_config s t /\
  match r with
  | Some f => usable s (fnumber f) /\ nf s <= fnumber f /\ nf t = fnumber f + 1 /\
              (forall g, nf s <= g < fnumber f -> ~ usable s g)
  | None => (forall g, nf s <= g -> ~ usable s g) /\ nf s <= nf t
  end.

Lemma alloc_post_skips s t r u : skips s t -> alloc_post t r u -> alloc_post s r u.
Proof.
  intros [Hc Hw Hm Hn] (Hwu & Hcu & Hr). split; [done|]. split; [by etrans|].
  destruct r as [f|].
  - destruct Hr as (Hu & Hle & Hnext & Hleast). rewrite usable_config in Hu by done.
    split; [done|]. split; [lia|]. split; [done|]. intros g Hg.
    destruct (decide (g < nf t)); [apply Hn; lia|].
    rewrite <-(usable_config s t) by done. apply Hleast. lia.
  - destruct Hr as [Hr Hle]. split; [|lia]. intros g Hg.
    destruct (decide (g < nf t)); [apply Hn; lia|].
    rewrite <-(usable_config s t) by done. apply Hr. lia.
Qed.

(** Case analysis on a composed range test of the allocator. *)
Ltac range_test H :=
  rewrite !orb_true_iff, !andb_true_iff, !Z.leb_le in H.

Lemma allocate_one_spec fuel s :
  alloc_wf s -> (alloc_measure s < fuel)%nat ->
  exists r t, allocate_frame fuel 1 s = Ok (r, t) /\ alloc_post s r t.
Proof.
  revert s. induction fuel as [|fuel IH]; intros s Hw Hfuel; [lia|].
  simpl. destruct (current_area s) as [a|] eqn:Hcur.
  2:{ exists None, s. split; [done|]. split; [done|]. split; [done|]. split; [|lia].
      intros g Hg ((b & Hb & Hrange) & _).
      pose proof (wf_exhausted s Hw Hcur) as Hex. rewrite Forall_forall in Hex.
      specialize (Hex b Hb). simpl in Hex. lia. }
  destruct (wf_current s Hw a Hcur) as [Hin Hfirst].
  pose proof (area_wf_elem s a (alloc_wf_base s Hw) Hin) as Hawf.
  pose proof (area_frames_bound a Hawf) as Hab.
  pose proof (wf_next s Hw) as Hnext.
  change (sub_w 64 1 1) with (Ok 0 : outcome Z). simpl.
  rewrite (add_w_fits 64 _ 0) by (unfold in_width; lia). simpl. rewrite Z.add_0_r.
  rewrite area_last_frame_eq by done. simpl.
  assert (Hrec : forall t, skips s t -> (alloc_measure t < alloc_measure s)%nat ->
    exists r u, allocate_frame fuel 1 t = Ok (r, u) /\ alloc_post s r u).
  { intros t Hs Hlt. destruct (IH t) as (r & u & Hr & Hp); [apply Hs|lia|].
    exists r, u. split; [done|]. by eapply alloc_post_skips. }
  destruct (Z.ltb_spec (last_fr a) (nf s)) as [Hover|Hfit].
  { destruct (choose_next_area_spec s) as (t & Ht & Hs & Hcl); [eauto with kernel|].
    rewrite Ht. simpl. apply Hrec; [done|].
    unfold alloc_measure. rewrite Hcur. destruct Hs as [(_ & _ & -> & _ & ->) _ Hm _].
    destruct (current_area t) as [b|]; [specialize (Hcl b eq_refl)|]; case_bools; lia. }
  case_if_as Hker.
  { range_test Hker. pose proof (wf_kernel s Hw).
    rewrite add_w_fits by (unfold in_width; lia). simpl. apply Hrec.
    - apply jump_skips; [done|lia| |by eexists].
      intros g Hg (_ & Hk & _). apply Hk. unfold in_kernel. lia.
    - unfold alloc_measure. simpl. rewrite Hcur. case_bools; lia. }
  case_if_as Hmb.
  { range_test Hmb. pose proof (wf_multiboot s Hw).
    rewrite add_w_fits by (unfold in_width; lia). simpl. apply Hrec.
    - apply jump_skips; [done|lia| |by eexists].
      intros g Hg (_ & _ & Hk). apply Hk. unfold in_multiboot. lia.
    - unfold alloc_measure. simpl. rewrite Hcur. case_bools; lia. }
  rewrite add_w_fits by (unfold in_width; lia). simpl.
  eexists _, _. split; [done|].
  apply not_true_iff_false in Hker, Hmb. range_test Hker. range_test Hmb.
  destruct Hw as [Ha Hn Hk Hm Hc He].
  split; [|split; [done|]].
  - split; simpl; try done; try lia; [|congruence].
    intros b Hb. destruct (Hc b Hb). split; [done|lia].
  - simpl. split; [|split; [lia|split; [done|intros; lia]]]. unfold usable, in_kernel, in_multiboot. split; [|lia].
    exists a. split; [done|lia].
Qed.

(** ** Properties of the allocator *)

(** C2: allocating one frame always returns (six calls of the recursion are
    enough, whatever the memory map), and it refines the abstract allocator
    that hands out the least frame that is at or after the cursor, lies in a
    memory area and belongs neither to the kernel nor to the multiboot
    structure; it returns [None] exactly when no such frame is left. *)
Theorem allocate_one_least s fuel :
  alloc_wf s -> (ALLOC_FUEL <= fuel)%nat ->
  exists r t, allocate_frame fuel 1 s = Ok (r, t) /\ alloc_post s r t.
Proof.
  intros Hw Hf. apply allocate_one_spec; [done|].
  pose proof (alloc_measure_bound s). lia.
Qed.

(** [n] calls of [allocate_frame(1)], stopping at the first [None]. *)
Fixpoint allocate_many (n : nat) (s : AreaFrameAllocator)
  : outcome (list Frame * AreaFrameAllocator) :=
  match n with
  | O => Ok ([], s)
  | S n =>
      let? (r, s) := allocate_frame ALLOC_FUEL 1 s in
      match r with
      | None => Ok ([], s)
      | Some f => let? (l, s) := allocate_many n s in Ok (f :: l, s)
      end
  end.

Lemma allocate_many_spec n s :
  alloc_wf s ->
  exists l t, allocate_many n s = Ok (l, t) /\ alloc_wf t /\ same_config s t /\
    Forall (fun f => nf s <= fnumber f /\ usable s (fnumber f)) l /\
    StronglySorted (fun f g => fnumber f < fnumber g) l.
Proof.
  revert s. induction n as [|n IH]; intros s Hw; cbn [allocate_many].
  { eexists _, _. split_and!; done || constructor. }
  destruct (allocate_one_spec ALLOC_FUEL s Hw (alloc_measure_bound s)) as (r & t & -> & Hwt & Hc & Hr).
  simpl. destruct r as [f|]; [|eexists _, _; split_and!; done || constructor].
  destruct Hr as (Hu & Hle & Hnext & _).
  destruct (IH t Hwt) as (l & u & -> & Hwu & Hcu & Hall & Hsort). simpl.
  assert (Hall' : Forall (fun g => fnumber f < fnumber g /\ usable s (fnumber g)) l).
  { eapply Forall_impl; [exact Hall|]. intros g [Hg Hug]. split; [lia|].
    by apply (usable_config s t). }
  eexists _, _. split; [done|]. split; [done|]. split; [by etrans|]. split.
  - constructor; [done|]. eapply Forall_impl; [exact Hall'|]. intros g [? ?]. split; [lia|done].
  - constructor; [done|]. eapply Forall_impl; [exact Hall'|]. intros g [? ?]. done.
Qed.

(** any number of single-frame allocations hands out strictly increasing,
    hence pairwise distinct frames, none of them in the kernel image or in the
    multiboot structure. *)
Theorem allocations_distinct n s :
  alloc_wf s ->
  exists l t, allocate_many n s = Ok (l, t) /\ NoDup l /\
    Forall (fun f => usable s (fnumber f)) l /\
    StronglySorted (fun f g => fnumber f < fnumber g) l.
Proof.
  intros Hw. destruct (allocate_many_spec n s Hw) as (l & t & H & _ & _ & Hall & Hs).
  exists l, t. split; [done|]. split; [|split; [|done]].
  - clear -Hs. induction Hs as [|f l Hs IH Hf]; constructor; [|done].
    intros Hin. rewrite Forall_forall in Hf. specialize (Hf f Hin). lia.
  - eapply Forall_impl; [exact Hall|]. by intros f [_ ?].
Qed.

(** A successful call found its whole range in the current area and clear of
    the kernel, and reserved one frame of it. *)
Lemma allocate_frame_range fuel count s f t :
  base_wf s -> (forall a, current_area s = Some a -> area_wf a) ->
  allocate_frame fuel count s = Ok (Some f, t) ->
  same_config s t /\ nf t = fnumber f + 1 /\ 0 <= fnumber f /\
  (exists a, current_area t = Some a /\ area_wf a /\ fnumber f + (count - 1) <= last_fr a) /\
  (fnumber f + (count - 1) < fnumber (kernel_start s) \/ fnumber (kernel_end s) < fnumber f).
Proof.
  revert s. induction fuel as [|fuel IH]; intros s Hb Ha H; simpl in H; [discriminate|].
  destruct (count =? 0); [discriminate|].
  destruct (current_area s) as [a|] eqn:Hcur; [|discriminate].
  specialize (Ha a eq_refl) as Hwa. rewrite area_last_frame_eq in H by done.
  inv_arith. destruct (_ <? _) eqn:Hlast in H.
  { inv_ok. destruct (choose_next_area_spec s Hb) as (u & Hu & [Hc Hw _ _] & _).
    rewrite Hu in Hrun. injection Hrun as <-.
    destruct (IH u) as (Hc' & Hn & H0 & Har & Hk); auto with kernel.
    { intros b Hcb. destruct (wf_current u Hw b Hcb). eauto with kernel. }
    split; [by etrans|]. destruct Hc as (_ & <- & <- & _). done. }
  assert (Hjump : forall e, 0 <= e < 2 ^ 40 ->
    base_wf (set_next s (mkFrame (e + 1)))).
  { intros e He. destruct Hb. split; simpl; try done; lia. }
  pose proof (bw_kernel s Hb). pose proof (bw_multiboot s Hb).
  destruct (_ || _) eqn:Hker in H.
  { inv_arith. by eapply IH in H as (? & ? & ? & ? & ?); [|auto|simpl; naive_solver]. }
  destruct (_ || _) eqn:Hmb in H.
  { inv_arith. by eapply IH in H as (? & ? & ? & ? & ?); [|auto|simpl; naive_solver]. }
  inv_arith. pose proof (bw_next s Hb). split; [done|]. split; [done|]. split; [simpl; lia|].
  apply Z.ltb_ge in Hlast. apply not_true_iff_false in Hker. range_test Hker.
  split; [exists a; split_and!; done || lia|lia].
Qed.

(** a request for several frames reserves only the first of them: unless
    the second frame lies in the multiboot structure, the next single-frame
    request returns that second frame again, although it belongs to the range
    just handed out. *)
Theorem multi_frame_overlap fuel count s f t :
  alloc_wf s -> 2 <= count ->
  allocate_frame fuel count s = Ok (Some f, t) ->
  ~ in_multiboot s (fnumber f + 1) ->
  exists u, allocate_frame ALLOC_FUEL 1 t = Ok (Some (mkFrame (fnumber f + 1)), u).
Proof.
  intros Hw Hc H Hmb. apply allocate_frame_range in H as ((_ & Hks & Hke & Hms & Hme) & Hn & H0 & Ha & Hk);
    [|eauto with kernel|intros a Hcur; destruct (wf_current s Hw a Hcur); eauto with kernel].
  destruct Ha as (a & Hcur & Hwa & Hlast). pose proof (area_frames_bound a Hwa).
  change ALLOC_FUEL with (S 5). generalize 5%nat as n. intros n. simpl. rewrite Hcur. change (sub_w 64 1 1) with (Ok 0 : outcome Z).
  simpl. rewrite Hn, (add_w_fits 64 _ 0) by (unfold in_width; lia). simpl.
  rewrite area_last_frame_eq by done. simpl. rewrite Z.add_0_r, Hks, Hke, Hms, Hme.
  unfold in_multiboot in Hmb. case_bools; try lia.
  all: rewrite add_w_fits by (unfold in_width; lia); eexists; reflexivity.
Qed.

(** a request for more frames than the last memory area still has never
    returns: [choose_next_area] picks the same area again and the recursion
    goes on, whatever the fuel. *)
Theorem multi_frame_diverges fuel count s a :
  alloc_wf s -> current_area s = Some a ->
  filter (fun b => nf s <= last_fr b) (areas s) = [a] ->
  last_fr a - nf s + 1 < count -> count < 2 ^ 63 ->
  allocate_frame fuel count s = Err EFuel.
Proof.
  intros Hw Hcur Hf Hc Hcb. induction fuel as [|fuel IH]; [done|]. simpl.
  destruct (wf_current s Hw a Hcur) as [Hin Hfirst].
  assert (nf s <= last_fr a).
  { assert (Hel : a ∈ filter (fun b => nf s <= last_fr b) (areas s)) by (rewrite Hf; by left).
    by apply list_elem_of_filter in Hel as [? _]. }
  pose proof (wf_next s Hw).
  rewrite Hcur. destruct (Z.eqb_spec count 0); [lia|].
  rewrite sub_w_fits by (unfold in_width; lia). simpl.
  rewrite add_w_fits by (unfold in_width; lia). simpl.
  rewrite area_last_frame_eq by eauto with kernel. simpl.
  destruct (Z.ltb_spec (last_fr a) (nf s + (count - 1))); [|lia].
  rewrite choose_next_area_eq by eauto with kernel. rewrite Hf. simpl.
  replace (set_next _ _) with s; [done|].
  destruct s as [[n0] c ? ? ? ? ?]. unfold set_next, set_area. simpl in *. subst c.
  do 2 f_equal. lia.
Qed.

(** the overlap test of the multiboot structure only looks at the two end
    frames of a request, so a range that encloses the structure is handed
    out. *)
Theorem multiboot_enclosed fuel count s a :
  alloc_wf s -> current_area s = Some a ->
  fnumber (kernel_end s) < nf s ->
  nf s < fnumber (multiboot_start s) -> fnumber (multiboot_start s) <= fnumber (multiboot_end s) ->
  fnumber (multiboot_end s) < nf s + (count - 1) <= last_fr a ->
  (0 < fuel)%nat ->
  exists t, allocate_frame fuel count s = Ok (Some (next_free_frame s), t).
Proof.
  intros Hw Hcur Hk Hm Hmm Hl Hf. destruct fuel as [|fuel]; [lia|]. simpl.
  destruct (wf_current s Hw a Hcur) as [Hin _].
  pose proof (area_frames_bound a ltac:(eauto with kernel)). pose proof (wf_next s Hw).
  rewrite Hcur. destruct (Z.eqb_spec count 0); [lia|].
  rewrite sub_w_fits by (unfold in_width; lia). simpl.
  rewrite add_w_fits by (unfold in_width; lia). simpl.
  rewrite area_last_frame_eq by eauto with kernel. simpl.
  rewrite (add_w_fits 64 (nf s) 1) by (unfold in_width; lia).
  case_bools; try lia; destruct (next_free_frame s); eexists; reflexivity.
Qed.

(** ** Construction *)

Lemma new_allocator_spec kstart kend mstart mend memory_areas :
  Forall area_wf memory_areas -> 0 <= kend < 2 ^ 52 -> 0 <= mend < 2 ^ 52 ->
  exists s, new_allocator kstart kend mstart mend memory_areas = Ok s /\ alloc_wf s /\
    same_config (mkAllocator (mkFrame 0) None memory_areas (frame_containing (PhysAddr kstart))
      (frame_containing (PhysAddr kend)) (frame_containing (PhysAddr mstart))
      (frame_containing (PhysAddr mend))) s /\
    (forall g, nf s <= g -> usable s g -> 0 < g) /\
    exists h, forall g, usable s g -> g <> h -> nf s <= g.
Proof.
  intros Ha Hk Hm. unfold new_allocator.
  match goal with |- context [choose_next_area ?s0] => set (s := s0) end.
  assert (Hb : base_wf s).
  { split; simpl; unfold PAGE_SIZE; [done|..]; Z.div_mod_to_equations; lia. }
  destruct (choose_next_area_spec s Hb) as (t & -> & [Hc Hw Hmono Hnone] & _).
  cbn [obind].
  destruct (allocate_one_spec ALLOC_FUEL t Hw (alloc_measure_bound t))
    as (r & u & -> & Hwu & Hcu & Hr). cbn [obind].
  exists u. split; [done|]. split; [done|]. split; [by etrans|].
  assert (Ht : forall g, usable u g -> nf t <= g).
  { intros g Hu. apply (usable_config s u) in Hu; [|by etrans].
    destruct (decide (nf t <= g)) as [|Hlt]; [done|]. destruct (Hnone g); [|done]. split; [|lia].
    destruct Hu as ((a & Hin & Hg) & _). change (nf s) with 0.
    pose proof (area_frames_bound a (proj1 (Forall_forall _ _) Ha a Hin)). lia. }
  assert (0 <= nf t) by apply Hw. destruct r as [f|].
  - destruct Hr as (_ & ? & ? & Hleast). split; [lia|]. exists (fnumber f). intros g Hu Hne.
    specialize (Ht g Hu). destruct (decide (g < fnumber f)); [|lia].
    apply (usable_config t u) in Hu; [|done]. by destruct (Hleast g).
  - destruct Hr as [Hr Hle]. assert (Hno : forall g, ~ usable u g).
    { intros g Hu. specialize (Ht g Hu). apply (usable_config t u) in Hu; [|done]. by apply (Hr g). }
    split; [|exists 0]; intros g; [intros _|]; intros Hu; by destruct (Hno g).
Qed.

(** a freshly constructed allocator is well-formed, and the frame its
    constructor takes and drops keeps physical frame 0 out of circulation:
    whatever is handed out later has a positive frame number. *)
Theorem new_allocator_ok kstart kend mstart mend memory_areas :
  Forall area_wf memory_areas -> 0 <= kend < 2 ^ 52 -> 0 <= mend < 2 ^ 52 ->
  exists s, new_allocator kstart kend mstart mend memory_areas = Ok s /\ alloc_wf s /\
    areas s = memory_areas /\
    forall n l t, allocate_many n s = Ok (l, t) -> Forall (fun f => 0 < fnumber f) l.
Proof.
  intros Ha Hk Hm.
  destruct (new_allocator_spec kstart kend mstart mend _ Ha Hk Hm) as (u & -> & Hwu & Hc & Hpos & _).
  exists u. split; [done|]. split; [done|]. split; [apply Hc|].
  intros n l v Hl. destruct (allocate_many_spec n u Hwu) as (l' & v' & Hl' & _ & _ & Hall & _).
  rewrite Hl in Hl'. injection Hl' as <- <-.
  eapply Forall_impl; [exact Hall|]. intros f [Hf Hu]. simpl in *. by apply Hpos.
Qed.

(** ** Counting free frames *)

Lemma free_frames_area s l count :
  0 <= count -> count + Z.of_nat (length l) < 2 ^ 64 ->
  ofold (free_frames_body s) l count =
  Ok (count + Z.of_nat (length (filter (fun f =>
        ~ in_kernel s (fnumber f) /\ nf s <= fnumber f) l))).
Proof.
  revert count. induction l as [|f l IH]; intros count Hc Hb; simpl.
  { f_equal. lia. }
  simpl in Hb. rewrite filter_cons. unfold free_frames_body, in_kernel.
  case_bools; case_decide; try lia;
    rewrite ?add_w_fits by (unfold in_width; lia); simpl;
    rewrite IH by lia; simpl; f_equal; unfold in_kernel; lia.
Qed.

Definition area_free (s : AreaFrameAllocator) (a : MemoryArea) : Z :=
  Z.of_nat (length (filter (fun f => ~ in_kernel s (fnumber f) /\ nf s <= fnumber f)
    (mkFrame <$> seqZ (first_fr a) (last_fr a - first_fr a + 1)))).

Lemma area_free_bound s a : area_wf a -> 0 <= area_free s a <= 2 ^ 40.
Proof.
  intros Ha. pose proof (area_frames_bound a Ha). unfold area_free.
  match goal with |- context [filter ?P ?l] => pose proof (length_filter P l) as Hl end.
  rewrite length_fmap, length_seqZ in Hl. lia.
Qed.

(** [free_frames] returns, summed over the areas, the number of frames at
    or after the cursor outside the kernel.  The frames of the multiboot
    structure are not subtracted, so the count can exceed what
    [allocate_frame] will hand out. *)
Theorem free_frames_eq s :
  alloc_wf s -> Z.of_nat (length (areas s)) < 2 ^ 20 ->
  free_frames s = Ok (foldr (fun a n => area_free s a + n) 0 (areas s)).
Proof.
  intros Hw Hlen. unfold free_frames.
  assert (Hgen : forall l c, Forall area_wf l -> 0 <= c -> c + 2 ^ 40 * Z.of_nat (length l) < 2 ^ 63 ->
    ofold (fun area count =>
      let start_frame := frame_containing (PhysAddr (area_start area)) in
      let? end_frame := area_last_frame area in
      let? l := frames_of (frame_range_inclusive start_frame end_frame) in
      ofold (free_frames_body s) l count) l c
    = Ok (c + foldr (fun a n => area_free s a + n) 0 l)).
  { induction l as [|a l IH]; intros c Hl Hc Hb; simpl; [by rewrite Z.add_0_r|].
    inversion Hl as [|? ? Ha Hl']; subst. simpl in Hb.
    pose proof (area_frames_bound a Ha). pose proof (area_free_bound s a Ha).
    rewrite area_last_frame_eq by done. cbn [obind].
    unfold frame_containing. simpl. fold (first_fr a).
    rewrite frames_of_seq by lia. cbn [obind].
    rewrite free_frames_area by (rewrite ?length_fmap, ?length_seqZ; lia).
    fold (area_free s a). cbn [obind]. rewrite IH by (done || lia). f_equal. lia. }
  rewrite Hgen; [done|apply Hw|lia|lia].
Qed.

(** ** The allocator is a [FrameSource] *)

Definition area_ok (g : option AreaFrameAllocator) : Prop :=
  match g with Some s => alloc_wf s | None => False end.

Definition area_avail (g : option AreaFrameAllocator) (f : Z) : Prop :=
  match g with Some s => nf s <= f /\ usable s f | None => False end.

Lemma allocate_frames_one g :
  area_ok g ->
  exists r s t, g = Some s /\ allocate_frames ALLOC_FUEL 1 g = Ok (r, Some t) /\ alloc_post s r t.
Proof.
  destruct g as [s|]; [|done]. cbn [area_ok]. intros Hw.
  destruct (allocate_one_spec ALLOC_FUEL s Hw (alloc_measure_bound s)) as (r & t & Hr & Hp).
  exists r, s, t. unfold allocate_frames. rewrite Hr. done.
Qed.

Lemma allocate_frames_run g r g' :
  area_ok g -> allocate_frames ALLOC_FUEL 1 g = Ok (r, g') ->
  exists s t, g = Some s /\ g' = Some t /\ alloc_post s r t.
Proof.
  intros Hok H. destruct (allocate_frames_one g Hok) as (r' & s & t & -> & H' & Hp).
  rewrite H in H'. injection H' as -> ->. eauto.
Qed.

#[export] Program Instance area_frame_source : FrameSource (option AreaFrameAllocator) := {
  fs_alloc := allocate_frames ALLOC_FUEL 1;
  fs_ok := area_ok;
  fs_avail := area_avail;
}.
Next Obligation.
  intros a Hok. destruct (allocate_frames_one a Hok) as (r & s & t & _ & H & _). eauto.
Qed.
Next Obligation.
  intros a r a' Hok H. apply allocate_frames_run in H as (s & t & -> & -> & Hw & _); done.
Qed.
Next Obligation.
  intros a f a' Hok H. apply allocate_frames_run in H as (s & t & -> & -> & _ & _ & Hu & Hle & Hn & _);
    [|done]. simpl. split; [done|]. lia.
Qed.
Next Obligation.
  intros a r a' g Hok H. apply allocate_frames_run in H as (s & t & -> & -> & _ & Hc & Hr); [|done].
  simpl. intros [Hge Hu]. rewrite (usable_config s t) in Hu by done. split; [|done].
  destruct r; lia.
Qed.
Next Obligation.
  intros a f a' g Hok H. apply allocate_frames_run in H as (s & t & -> & -> & _ & Hc & _ & _ & Hn & Hleast);
    [|done]. simpl. intros [Hge Hu] Hne. rewrite (usable_config s t) by done. split; [|done].
  destruct (decide (g < fnumber f)); [by destruct (Hleast g)|lia].
Qed.
Next Obligation.
  intros a a' g Hok H. apply allocate_frames_run in H as (s & t & -> & -> & _ & _ & Hnone & _); [|done].
  intros [Hge Hu]. by apply (Hnone g).
Qed.
Next Obligation.
  intros a g Hok Ha. destruct a as [s|]; [|done]. destruct Ha as [Hge ((b & Hb & Hr) & _)].
  pose proof (area_frames_bound b ltac:(eauto with kernel)). pose proof (wf_next s Hok). lia.
Qed.

(** A new allocator has lost one frame of those it may hand out. *)
Lemma new_allocator_frames kstart kend mstart mend memory_areas s n :
  Forall area_wf memory_areas -> 0 <= kend < 2 ^ 52 -> 0 <= mend < 2 ^ 52 ->
  new_allocator kstart kend mstart mend memory_areas = Ok s ->
  (exists l, NoDup l /\ length l = S n /\ Forall (usable s) l) -> frames_left (Some s) n.
Proof.
  intros Ha Hk Hm Hnew (l & Hnd & Hlen & Hl).
  destruct (new_allocator_spec kstart kend mstart mend _ Ha Hk Hm) as (u & Hu & _ & _ & _ & h & Hh).
  rewrite Hnew in Hu. injection Hu as <-.
  destruct (without_one h l n Hnd Hlen) as (l' & ? & ? & Hl'). exists l'. split; [done|]. split; [done|].
  rewrite Forall_forall in Hl |- *. intros g Hg. destruct (Hl' g Hg). split; [by apply Hh; [apply Hl|]|by apply Hl].
Qed.

(** ** A concrete machine

    The memory map of a small PC: 636 KiB of low memory and 126 MiB above
    1 MiB; the kernel at 1 MiB, the multiboot structure at 2 MiB. *)

Definition low_mem : MemoryArea := mkArea 0 0x9f000.
Definition high_mem : MemoryArea := mkArea 0x100000 0x7ee0000.

Definition demo_alloc (next : Z) : AreaFrameAllocator :=
  mkAllocator (mkFrame next) (Some high_mem) [low_mem; high_mem]
    (mkFrame 0x100) (mkFrame 0x1ff) (mkFrame 0x200) (mkFrame 0x201).

Lemma demo_alloc_wf n : 0x100 <= n <= 0x10000 -> alloc_wf (demo_alloc n).
Proof.
  intros Hn. split; simpl; try lia; try done.
  - repeat constructor; simpl; lia.
  - intros a [= <-]. split; [set_solver|]. change (first_fr high_mem) with 0x100. lia.
Qed.

Lemma allocate_one_least_witness :
  exists r t, allocate_frame ALLOC_FUEL 1 (demo_alloc 0x100) = Ok (r, t) /\
    alloc_post (demo_alloc 0x100) r t.
Proof. apply allocate_one_least; [apply demo_alloc_wf; lia|apply le_n]. Defined.

Lemma allocations_distinct_witness :
  exists l t, allocate_many 3 (demo_alloc 0x100) = Ok (l, t) /\ NoDup l /\
    Forall (fun f => usable (demo_alloc 0x100) (fnumber f)) l /\
    StronglySorted (fun f g => fnumber f < fnumber g) l.
Proof. apply allocations_distinct. apply demo_alloc_wf. lia. Defined.

Lemma multi_frame_overlap_witness :
  exists u, allocate_frame ALLOC_FUEL 1 (demo_alloc 0x301) = Ok (Some (mkFrame 0x301), u).
Proof.
  apply (multi_frame_overlap 1 4 (demo_alloc 0x300) (mkFrame 0x300));
    [apply demo_alloc_wf; lia|lia|vm_compute; reflexivity|unfold in_multiboot; simpl; lia].
Defined.

Lemma multi_frame_diverges_witness :
  allocate_frame 1000 100 (demo_alloc 0x7fd0) = Err EFuel.
Proof.
  apply (multi_frame_diverges 1000 100 (demo_alloc 0x7fd0) high_mem);
    [apply demo_alloc_wf; lia|reflexivity|vm_compute; reflexivity|vm_compute; reflexivity|lia].
Defined.

Definition demo_enclosed : AreaFrameAllocator :=
  mkAllocator (mkFrame 0x300) (Some high_mem) [low_mem; high_mem]
    (mkFrame 0x100) (mkFrame 0x1ff) (mkFrame 0x302) (mkFrame 0x303).

Lemma multiboot_enclosed_witness :
  exists t, allocate_frame 1 8 demo_enclosed = Ok (Some (mkFrame 0x300), t).
Proof.
  apply (multiboot_enclosed 1 8 demo_enclosed high_mem);
    [|reflexivity|simpl; lia|simpl; lia|simpl; lia
     |simpl; change (last_fr high_mem) with 0x7fdf; lia|lia].
  split; simpl; try lia; try done.
  - repeat constructor; simpl; lia.
  - intros a [= <-]. split; [set_solver|]. change (first_fr high_mem) with 0x100. lia.
Defined.

Lemma new_allocator_ok_witness :
  exists s, new_allocator 0x100000 0x1fffff 0x200000 0x201fff [low_mem; high_mem] = Ok s /\
    alloc_wf s /\ areas s = [low_mem; high_mem] /\
    forall n l t, allocate_many n s = Ok (l, t) -> Forall (fun f => 0 < fnumber f) l.
Proof. apply new_allocator_ok; [repeat constructor; simpl; lia|lia|lia]. Defined.

Lemma free_frames_eq_witness :
  free_frames (demo_alloc 0x7f00) =
  Ok (foldr (fun a n => area_free (demo_alloc 0x7f00) a + n) 0 [low_mem; high_mem]).
Proof. apply (free_frames_eq (demo_alloc 0x7f00)); [apply demo_alloc_wf; lia|simpl; lia]. Defined.
