(* ===== verification/Entry.v ===== *)
(** * Page table entries

    [Entry] and [EntryFlags] of [arch/x86_64/memory/paging/entry.rs].  An entry
    is a 64-bit word; [EntryFlags] is the bit set the [bitflags!] invocation
    declares: [contains] tests that all bits of its argument are set,
    [from_bits_truncate] drops the undeclared bits, [|] is bitwise or. *)

From S2P Require Import Prelude Frames.

Definition PRESENT : Z := Z.shiftl 1 0.
Definition WRITABLE : Z := Z.shiftl 1 1.
Definition USER_ACCESSIBLE : Z := Z.shiftl 1 2.
Definition WRITE_THROUGH : Z := Z.shiftl 1 3.
Definition NO_CACHE : Z := Z.shiftl 1 4.
Definition ACCESSED : Z := Z.shiftl 1 5.
Definition DIRTY : Z := Z.shiftl 1 6.
Definition HUGE_PAGE : Z := Z.shiftl 1 7.
Definition GLOBAL : Z := Z.shiftl 1 8.
Definition NO_EXECUTE : Z := Z.shiftl 1 63.

(** [EntryFlags::all()] *)
Definition ALL_FLAGS : Z :=
  Z.lor PRESENT (Z.lor WRITABLE (Z.lor USER_ACCESSIBLE (Z.lor WRITE_THROUGH (Z.lor NO_CACHE
    (Z.lor ACCESSED (Z.lor DIRTY (Z.lor HUGE_PAGE (Z.lor GLOBAL NO_EXECUTE)))))))).

Definition flags_contains (fl x : Z) : bool := Z.land fl x =? x.

Definition ADDR_MASK : Z := 0x000ffffffffff000.

Definition entry_is_unused (e : Z) : bool := e =? 0.

Definition entry_set_unused (_ : Z) : Z := 0.

Definition entry_flags (e : Z) : Z := Z.land e ALL_FLAGS.

Definition entry_pointed_frame (e : Z) : option Frame :=
  if flags_contains (entry_flags e) PRESENT
  then Some (frame_containing (PhysAddr (Z.land e ADDR_MASK)))
  else None.

Definition entry_set (frame : Frame) (flags : Z) : outcome Z :=
  let? a := frame_start frame in
  let? _ := assertb (Z.land (pa_get a) (not_w 64 ADDR_MASK) =? 0)
              "assertion failed: frame.start_address().get() & !0x000fffff_fffff000 == 0" in
  let? a := frame_start frame in
  Ok (Z.lor (pa_get a) flags).

(** What [from_elf_section_flags] and [paging::init] read of an [ElfSection]
    of the multiboot2 crate. *)
Record ElfSection := mkSection {
  sec_start : Z; sec_end : Z;
  sec_allocated : bool; sec_writable : bool; sec_executable : bool }.

Definition from_elf_section_flags (s : ElfSection) : Z :=
  let flags := 0 in
  let flags := if sec_allocated s then Z.lor flags PRESENT else flags in
  let flags := if sec_writable s then Z.lor flags WRITABLE else flags in
  if negb (sec_executable s) then Z.lor flags NO_EXECUTE else flags.

(** ** The bits of an entry *)

(** A set of declared flags. *)
Definition flags_ok (fl : Z) : Prop := 0 <= fl /\ Z.land fl ALL_FLAGS = fl.

Definition e_present (e : Z) : bool := Z.testbit e 0.
Definition e_writable (e : Z) : bool := Z.testbit e 1.
Definition e_huge (e : Z) : bool := Z.testbit e 7.
Definition e_execute (e : Z) : bool := negb (Z.testbit e 63).
Definition e_frame (e : Z) : Z := Z.land e ADDR_MASK / PAGE_SIZE.

(** What the processor lets the kernel do with a page besides reading it.  The
    last bit of an entry forbids execution once EFER.NXE is set, which
    [arch::init] does before it sets any such bit. *)
Record rights := mkRights { can_write : bool; can_execute : bool }.

#[global] Instance rights_eq_dec : EqDecision rights.
Proof. solve_decision. Defined.

Definition full_access : rights := mkRights true true.
Definition read_execute : rights := mkRights false true.
Definition read_write : rights := mkRights true false.
Definition read_only : rights := mkRights false false.

Definition and_rights (a b : rights) : rights :=
  mkRights (can_write a && can_write b) (can_execute a && can_execute b).

Definition e_rights (e : Z) : rights := mkRights (e_writable e) (e_execute e).

Definition flag_rights (fl : Z) : rights :=
  mkRights (flags_contains fl WRITABLE) (negb (flags_contains fl NO_EXECUTE)).

Lemma and_full_l x : and_rights full_access x = x.
Proof. by destruct x. Qed.

Lemma contains_bit fl k :
  0 <= k -> flags_contains fl (Z.shiftl 1 k) = Z.testbit fl k.
Proof.
  intros Hk. unfold flags_contains.
  assert (H : Z.land fl (Z.shiftl 1 k) = if Z.testbit fl k then Z.shiftl 1 k else 0).
  { apply Z.bits_inj'. intros n Hn. rewrite Z.land_spec, Z.shiftl_1_l.
    rewrite Z.pow2_bits_eqb by done. destruct (Z.eqb_spec k n) as [->|].
    - rewrite andb_true_r. destruct (Z.testbit fl n) eqn:E; [|by rewrite Z.bits_0].
      rewrite Z.pow2_bits_eqb, Z.eqb_refl by done. done.
    - rewrite andb_false_r. destruct (Z.testbit fl k); [|by rewrite Z.bits_0].
      rewrite Z.pow2_bits_eqb by done. symmetry. by apply Z.eqb_neq. }
  rewrite H. rewrite Z.shiftl_1_l. assert (0 < 2 ^ k) by lia.
  destruct (Z.testbit fl k); [apply Z.eqb_refl|]. apply Z.eqb_neq. lia.
Qed.

Lemma all_flags_bit k :
  Z.testbit ALL_FLAGS k = ((0 <=? k) && (k <=? 8)) || (k =? 63).
Proof.
  destruct (Z.ltb_spec k 0).
  { rewrite Z.testbit_neg_r by done. case_bools; done || lia. }
  assert (k < 64 \/ 64 <= k) as [Hs|Hl] by lia.
  - assert (Hk : k ∈ seqZ 0 64) by (apply elem_of_seqZ; lia).
    assert (Hall : Forall (fun k => Z.testbit ALL_FLAGS k = ((0 <=? k) && (k <=? 8)) || (k =? 63))
      (seqZ 0 64)) by (vm_compute; repeat constructor).
    rewrite Forall_forall in Hall. auto.
  - rewrite Z.bits_above_log2; [case_bools; done || lia|vm_compute; discriminate|].
    change (Z.log2 ALL_FLAGS) with 63. lia.
Qed.

Lemma addr_mask_shift : ADDR_MASK = Z.shiftl (Z.ones 40) 12.
Proof. reflexivity. Qed.

Lemma addr_mask_bit k : Z.testbit ADDR_MASK k = (12 <=? k) && (k <? 52).
Proof.
  rewrite addr_mask_shift. destruct (Z.ltb_spec k 0).
  { rewrite Z.testbit_neg_r by done. case_bools; done || lia. }
  rewrite Z.shiftl_spec by done. destruct (Z.ltb_spec k 12).
  { rewrite Z.testbit_neg_r by lia. case_bools; done || lia. }
  destruct (Z.ltb_spec k 52).
  - rewrite Z.ones_spec_low by lia. case_bools; done || lia.
  - rewrite Z.ones_spec_high by lia. case_bools; done || lia.
Qed.

(** Declared flags and addresses do not share bits. *)
Lemma mask_flags_disjoint : Z.land ADDR_MASK ALL_FLAGS = 0.
Proof. reflexivity. Qed.

Lemma frame_addr_mask f : 0 <= f < 2 ^ 40 -> Z.land (f * PAGE_SIZE) ADDR_MASK = f * PAGE_SIZE.
Proof.
  intros Hf. rewrite addr_mask_shift. unfold PAGE_SIZE. change 4096 with (2 ^ 12).
  rewrite <-Z.shiftl_mul_pow2, <-Z.shiftl_land, Z.land_ones, Z.mod_small by lia. done.
Qed.

Lemma flags_addr fl : flags_ok fl -> Z.land fl ADDR_MASK = 0.
Proof.
  intros [_ <-]. rewrite <-Z.land_assoc, (Z.land_comm ALL_FLAGS), mask_flags_disjoint.
  apply Z.land_0_r.
Qed.

Lemma frame_addr_flags f : 0 <= f < 2 ^ 40 -> Z.land (f * PAGE_SIZE) ALL_FLAGS = 0.
Proof.
  intros Hf. rewrite <-(frame_addr_mask f Hf), <-Z.land_assoc, mask_flags_disjoint.
  apply Z.land_0_r.
Qed.

(** [Entry::set] on a 52-bit frame address. *)
Lemma entry_set_eq f fl :
  0 <= f < 2 ^ 40 -> entry_set (mkFrame f) fl = Ok (Z.lor (f * PAGE_SIZE) fl).
Proof.
  intros Hf. unfold entry_set, frame_start. simpl.
  rewrite mul_w_fits by (unfold in_width, PAGE_SIZE; lia). cbn [obind pa_get].
  replace (Z.land (f * PAGE_SIZE) (not_w 64 ADDR_MASK)) with 0; [done|].
  rewrite <-(frame_addr_mask f Hf), <-Z.land_assoc.
  change (Z.land ADDR_MASK (not_w 64 ADDR_MASK)) with 0. by rewrite Z.land_0_r.
Qed.

Lemma entry_flags_of f fl :
  0 <= f < 2 ^ 40 -> flags_ok fl -> entry_flags (Z.lor (f * PAGE_SIZE) fl) = fl.
Proof.
  intros Hf [? Hfl]. unfold entry_flags.
  by rewrite Z.land_lor_distr_l, frame_addr_flags, Hfl, Z.lor_0_l.
Qed.

Lemma e_frame_of f fl :
  0 <= f < 2 ^ 40 -> flags_ok fl -> e_frame (Z.lor (f * PAGE_SIZE) fl) = f.
Proof.
  intros Hf Hfl. unfold e_frame.
  rewrite Z.land_lor_distr_l, frame_addr_mask, flags_addr, Z.lor_0_r by done.
  apply Z.div_mul. unfold PAGE_SIZE. lia.
Qed.

Lemma e_frame_eq e : e_frame e = Z.shiftr e 12 mod 2 ^ 40.
Proof.
  assert (Hm : Z.land e ADDR_MASK = Z.shiftl (Z.land (Z.shiftr e 12) (Z.ones 40)) 12).
  { apply Z.bits_inj'. intros n Hn. rewrite addr_mask_shift, Z.land_spec, !Z.shiftl_spec by done.
    destruct (Z.ltb_spec n 12).
    - rewrite !(Z.testbit_neg_r _ (n - 12)) by lia. apply andb_false_r.
    - rewrite Z.land_spec, Z.shiftr_spec by lia. do 2 f_equal. lia. }
  unfold e_frame, PAGE_SIZE. rewrite Hm, Z.land_ones, Z.shiftl_mul_pow2 by lia.
  change 4096 with (2 ^ 12). apply Z.div_mul. lia.
Qed.

Lemma e_frame_range e : 0 <= e_frame e < 2 ^ 40.
Proof. rewrite e_frame_eq. apply Z.mod_pos_bound. lia. Qed.

(** A declared flag bit of an entry is a bit of its flags. *)
Lemma entry_flags_bit e k : 0 <= k <= 8 \/ k = 63 -> Z.testbit (entry_flags e) k = Z.testbit e k.
Proof.
  intros Hk. unfold entry_flags. rewrite Z.land_spec, all_flags_bit.
  case_bools; rewrite ?andb_true_r; done || lia.
Qed.

Lemma flag_bit_of f fl k :
  0 <= f < 2 ^ 40 -> flags_ok fl -> 0 <= k <= 8 \/ k = 63 ->
  Z.testbit (Z.lor (f * PAGE_SIZE) fl) k = Z.testbit fl k.
Proof. intros Hf Hfl Hk. by rewrite <-entry_flags_bit, entry_flags_of. Qed.

Lemma flags_present e : flags_contains (entry_flags e) PRESENT = e_present e.
Proof. unfold PRESENT. rewrite contains_bit, entry_flags_bit by lia. done. Qed.

Lemma flags_huge e : flags_contains (entry_flags e) HUGE_PAGE = e_huge e.
Proof. unfold HUGE_PAGE. rewrite contains_bit, entry_flags_bit by lia. done. Qed.

(** The entry of a frame has the rights of its flags. *)
Lemma e_rights_of f fl :
  0 <= f < 2 ^ 40 -> flags_ok fl -> e_rights (Z.lor (f * PAGE_SIZE) fl) = flag_rights fl.
Proof.
  intros Hf Hfl. unfold e_rights, flag_rights, e_writable, e_execute, WRITABLE, NO_EXECUTE.
  by rewrite !contains_bit, !flag_bit_of by (done || lia).
Qed.

Lemma flag_rights_present fl : flag_rights (Z.lor fl PRESENT) = flag_rights fl.
Proof.
  unfold flag_rights, WRITABLE, NO_EXECUTE, PRESENT. rewrite !contains_bit, !Z.lor_spec by lia.
  by rewrite !orb_false_r.
Qed.

Lemma pointed_frame_eq e :
  entry_pointed_frame e = if e_present e then Some (mkFrame (e_frame e)) else None.
Proof. unfold entry_pointed_frame. by rewrite flags_present. Qed.

Lemma flags_ok_lor a b : flags_ok a -> flags_ok b -> flags_ok (Z.lor a b).
Proof.
  intros [? Ha] [? Hb]. split; [by apply Z.lor_nonneg|].
  by rewrite Z.land_lor_distr_l, Ha, Hb.
Qed.

Lemma flags_ok_single : Forall flags_ok
  [0; PRESENT; WRITABLE; USER_ACCESSIBLE; WRITE_THROUGH; NO_CACHE; ACCESSED; DIRTY; HUGE_PAGE;
   GLOBAL; NO_EXECUTE].
Proof. repeat constructor; vm_compute; done. Qed.

(** Close [flags_ok] for an expression built from the declared constants. *)
Ltac solve_flags :=
  repeat apply flags_ok_lor; first [done | split; [vm_compute; discriminate | reflexivity]].

(** [Entry::set] and the accessors round-trip for every 52-bit frame
    address and every set of declared flags: the entry reports exactly the
    flags, and the frame whenever the flags contain [PRESENT]; otherwise it
    points nowhere.  Only an entry set to frame 0 with no flags is unused. *)
Theorem entry_roundtrip f fl :
  0 <= f < 2 ^ 40 -> flags_ok fl ->
  exists e, entry_set (mkFrame f) fl = Ok e /\ in_width 64 e /\ entry_flags e = fl /\
    entry_pointed_frame e = (if flags_contains fl PRESENT then Some (mkFrame f) else None) /\
    (entry_is_unused e = true <-> f = 0 /\ fl = 0).
Proof.
  intros Hf Hfl. rewrite entry_set_eq by done. eexists; split; [done|].
  split; [|split; [by apply entry_flags_of|split]].
  - split; [apply Z.lor_nonneg; unfold PAGE_SIZE; destruct Hfl; lia|].
    destruct (decide (Z.lor (f * PAGE_SIZE) fl = 0)) as [->|Hnz]; [lia|].
    apply Z.log2_lt_pow2; [assert (0 <= Z.lor (f * PAGE_SIZE) fl); [|lia]|].
    { apply Z.lor_nonneg. unfold PAGE_SIZE. destruct Hfl; lia. }
    destruct Hfl as [Hp Hfl]. rewrite Z.log2_lor by (unfold PAGE_SIZE; lia).
    apply Z.max_lub_lt.
    + destruct (decide (f = 0)) as [->|]; [simpl; lia|].
      apply Z.log2_lt_pow2; unfold PAGE_SIZE; lia.
    + rewrite <-Hfl. eapply Z.le_lt_trans; [apply Z.log2_land; [done|vm_compute; discriminate]|].
      change (Z.log2 ALL_FLAGS) with 63. lia.
  - unfold PRESENT. rewrite pointed_frame_eq, contains_bit by lia. unfold e_present.
    rewrite flag_bit_of, e_frame_of by (done || lia). done.
  - unfold entry_is_unused. rewrite Z.eqb_eq, Z.lor_eq_0_iff. unfold PAGE_SIZE. lia.
Qed.

Lemma entry_roundtrip_witness :
  exists e, entry_set (mkFrame 0xb8) (Z.lor PRESENT WRITABLE) = Ok e /\ in_width 64 e /\
    entry_flags e = Z.lor PRESENT WRITABLE /\
    entry_pointed_frame e = (if flags_contains (Z.lor PRESENT WRITABLE) PRESENT
                             then Some (mkFrame 0xb8) else None) /\
    (entry_is_unused e = true <-> 0xb8 = 0 /\ Z.lor PRESENT WRITABLE = 0).
Proof. apply entry_roundtrip; [lia|solve_flags]. Defined.
