(* ===== verification/Mmu.v ===== *)
(** * Physical memory and the four-level page walk of x86-64

    The page-table code reads and writes tables through virtual addresses (the
    recursive mapping), so its model needs what the processor does with such
    an address.  Physical memory is a map from (frame, index of an 8-byte word)
    to a 64-bit word; absent words read as zero.  [walk] is the documented
    long-mode walk: present bit, write permission (the kernel sets CR0.WP), the
    bit that forbids execution (it sets EFER.NXE), 1 GiB and 2 MiB pages; the
    rights of a page are those that every entry on the way grants.  The user bit
    and the cache bits are left out.  Translations are always taken from the tables
    themselves: the TLB is not modelled, flushes are recorded in a log (see
    [Table.v]). *)

From S2P Require Import Prelude Frames Entry.

Abbreviation mem := (gmap (Z * Z) Z).

Definition rd (m : mem) (f i : Z) : Z := default 0 (m !! (f, i)).
Definition wr (m : mem) (f i e : Z) : mem := <[(f, i) := e]> m.

Lemma rd_wr m f i e : rd (wr m f i e) f i = e.
Proof. unfold rd, wr. by rewrite lookup_insert_eq. Qed.

Lemma rd_wr_ne m f i e g j : (f, i) <> (g, j) -> rd (wr m f i e) g j = rd m g j.
Proof. intros H. unfold rd, wr. by rewrite lookup_insert_ne. Qed.

Lemma rd_wr_case m f i e g j :
  rd (wr m f i e) g j = if decide ((g, j) = (f, i)) then e else rd m g j.
Proof. case_decide as E; [injection E as -> ->; apply rd_wr|]. apply rd_wr_ne. congruence. Qed.

Lemma wr_comm m f i e g j e' :
  (f, i) <> (g, j) -> wr (wr m f i e) g j e' = wr (wr m g j e') f i e.
Proof. intros H. unfold wr. by rewrite insert_insert_ne by congruence. Qed.

(** ** The walk

    [walk_from m f idx w]: follow the indices [idx] from the table in frame
    [f].  A set [HUGE_PAGE] bit ends the walk at the second and third level,
    is reserved at the first, and is an ordinary (PAT) bit in the last. *)

Fixpoint digits (idx : list Z) : Z :=
  match idx with
  | [] => 0
  | i :: idx => i * 512 ^ Z.of_nat (length idx) + digits idx
  end.

Fixpoint walk_from (m : mem) (f : Z) (idx : list Z) (w : rights) : option (Z * rights) :=
  match idx with
  | [] => Some (f, w)
  | i :: idx =>
      let e := rd m f i in
      if negb (e_present e) then None else
      let w := and_rights w (e_rights e) in
      match idx with
      | [_; _] | [_] =>
          if e_huge e
          then let size := 512 ^ Z.of_nat (length idx) in
               Some (e_frame e / size * size + digits idx, w)
          else walk_from m (e_frame e) idx w
      | [_; _; _] => if e_huge e then None else walk_from m (e_frame e) idx w
      | _ => walk_from m (e_frame e) idx w
      end
  end.

Definition indices (p : Page) : list Z := [p4_index p; p3_index p; p2_index p; p1_index p].

Definition walk (m : mem) (root : Z) (p : Page) : option (Z * rights) :=
  walk_from m root (indices p) full_access.

(** ** Memory accesses

    Eight-byte accesses; [EFault] is a page fault (or a protection fault on an
    address that is not canonical or not aligned). *)

Definition load64 (m : mem) (root va : Z) : outcome Z :=
  if negb (canonical va && (va mod 8 =? 0)) then Err (EFault va) else
  match walk m root (mkPage (va / PAGE_SIZE)) with
  | Some (f, _) => Ok (rd m f (va mod PAGE_SIZE / 8))
  | None => Err (EFault va)
  end.

Definition store64 (m : mem) (root va v : Z) : outcome mem :=
  if negb (canonical va && (va mod 8 =? 0)) then Err (EFault va) else
  match walk m root (mkPage (va / PAGE_SIZE)) with
  | Some (f, w) => if can_write w then Ok (wr m f (va mod PAGE_SIZE / 8) v) else Err (EFault va)
  | None => Err (EFault va)
  end.

(** ** Table entries *)

(** An entry that leads to a lower-level table. *)
Definition e_table (e : Z) : bool := e_present e && negb (e_huge e).

Lemma e_table_spec e : e_table e = true <-> e_present e = true /\ e_huge e = false.
Proof. unfold e_table. rewrite andb_true_iff, negb_true_iff. done. Qed.

Lemma walk_from_cons m f i idx w :
  e_table (rd m f i) = true ->
  walk_from m f (i :: idx) w =
  walk_from m (e_frame (rd m f i)) idx (and_rights w (e_rights (rd m f i))).
Proof.
  intros H. apply e_table_spec in H as [Hp Hh].
  assert (Hgo : walk_from m f (i :: idx) w =
    if negb (e_present (rd m f i)) then None
    else walk_from m (e_frame (rd m f i)) idx (and_rights w (e_rights (rd m f i)))).
  { destruct idx as [|? [|? [|? [|? ?]]]]; cbn [walk_from]; rewrite ?Hh; done. }
  by rewrite Hgo, Hp.
Qed.

Lemma walk_from_absent m f i idx w :
  e_present (rd m f i) = false -> walk_from m f (i :: idx) w = None.
Proof. intros Hp. cbn [walk_from]. by rewrite Hp. Qed.

Lemma walk_from_last m f i w :
  e_present (rd m f i) = true ->
  walk_from m f [i] w = Some (e_frame (rd m f i), and_rights w (e_rights (rd m f i))).
Proof. intros H. simpl. by rewrite H. Qed.

(** ** The recursive slot

    [rec_slot m c r]: the last entry of the active table [c] makes the table
    [r] appear as every level (for the active table itself, [c = r]; inside
    [ActivePageTable::with], [r] is the inactive table). *)

Record rec_slot (m : mem) (c r : Z) : Prop := {
  rs_active : e_table (rd m c 511) = true /\ e_rights (rd m c 511) = full_access /\
              e_frame (rd m c 511) = r;
  rs_self : e_table (rd m r 511) = true /\ e_rights (rd m r 511) = full_access /\
            e_frame (rd m r 511) = r }.

(** A table address [t] denotes the table in frame [f], with the rights [w]. *)
Definition tref (m : mem) (c t f : Z) (w : rights) : Prop :=
  t mod PAGE_SIZE = 0 /\ 0 <= t < 2 ^ 64 /\ canonical t = true /\
  walk m c (mkPage (t / PAGE_SIZE)) = Some (f, w).

Lemma tref_entry_va t i :
  t mod PAGE_SIZE = 0 -> 0 <= t < 2 ^ 64 -> is_index i ->
  (t + 8 * i) / PAGE_SIZE = t / PAGE_SIZE /\ (t + 8 * i) mod PAGE_SIZE / 8 = i /\
  (t + 8 * i) mod 8 = 0.
Proof.
  unfold is_index, PAGE_SIZE. intros Ht Hr Hi.
  assert (Hq : exists q, t = 4096 * q) by (exists (t / 4096); Z.div_mod_to_equations; lia).
  destruct Hq as [q ->]. split_and!; Z.div_mod_to_equations; lia.
Qed.

Lemma tref_canonical t i :
  t mod PAGE_SIZE = 0 -> 0 <= t < 2 ^ 64 -> canonical t = true -> is_index i ->
  canonical (t + 8 * i) = true.
Proof.
  unfold canonical, is_index, PAGE_SIZE. rewrite !orb_true_iff, !Z.ltb_lt, !Z.leb_le.
  intros Ht Hr Hc Hi. destruct Hc; [|right; lia]. left.
  Z.div_mod_to_equations; lia.
Qed.

Lemma tref_load m c t f w i :
  tref m c t f w -> is_index i -> load64 m c (t + 8 * i) = Ok (rd m f i).
Proof.
  intros (Ha & Hr & Hc & Hw) Hi. destruct (tref_entry_va t i) as (H1 & H2 & H3); auto.
  unfold load64. rewrite tref_canonical, H1, H2, H3, Hw by done. done.
Qed.

Lemma tref_store m c t f i e :
  tref m c t f full_access -> is_index i -> store64 m c (t + 8 * i) e = Ok (wr m f i e).
Proof.
  intros (Ha & Hr & Hc & Hw) Hi. destruct (tref_entry_va t i) as (H1 & H2 & H3); auto.
  unfold store64. rewrite tref_canonical, H1, H2, H3, Hw by done. done.
Qed.
