(* ===== verification/Table.v ===== *)
(** * Page tables through the recursive mapping

    [arch/x86_64/memory/paging/table.rs].  A [Table<L>] reference is the
    virtual address the code computes for it; reading or writing an entry goes
    through the page walk of [Mmu.v], as it does on the machine.  The state
    [mm] holds what the page-table code can reach: physical memory, CR3, the
    log of TLB flushes and the global frame allocator (any [FrameSource]). *)

From S2P Require Import Prelude Frames FrameSource Entry Mmu.

Inductive flush := FlushPage (p : Page) | FlushAll.

Record mm (A : Type) := mkMM { pm : mem; cr3 : Z; tlb : list flush; falloc : A }.
Arguments mkMM {A} _ _ _ _.
Arguments pm {A} _.
Arguments cr3 {A} _.
Arguments tlb {A} _.
Arguments falloc {A} _.

Definition P4 : Z := 0xfffffffffffff000.

(** The levels of the type [Table<L>].  [next_table] and [next_table_create] exist
    only for a level with a next one, so that the tables reached from [P4] are at
    most three steps away. *)
Inductive TableLevel := Level4 | Level3 | Level2 | Level1.

Definition next_level (l : TableLevel) : option TableLevel :=
  match l with
  | Level4 => Some Level3
  | Level3 => Some Level2
  | Level2 => Some Level1
  | Level1 => None
  end.

Lemma levels_end l1 l2 l3 :
  next_level Level4 = Some l1 -> next_level l1 = Some l2 -> next_level l2 = Some l3 -> next_level l3 = None.
Proof. intros [= <-] [= <-] [= <-]. done. Qed.

Section Table.
Context {A : Type} `{FrameSource A}.

Definition set_pm (s : mm A) (m : mem) : mm A := mkMM m (cr3 s) (tlb s) (falloc s).
Definition set_falloc (s : mm A) (a : A) : mm A := mkMM (pm s) (cr3 s) (tlb s) a.

(** The frame of the active P4 table. *)
Definition active (s : mm A) : Z := cr3 s / PAGE_SIZE.

(** [self[index]] and [self[index] = e]: [Index]/[IndexMut] of [Table]. *)
Definition table_index (t index : Z) (s : mm A) : outcome Z :=
  let? _ := assertb (index <? ENTRY_COUNT) "index out of bounds" in
  load64 (pm s) (active s) (t + 8 * index).

Definition table_index_mut (t index e : Z) (s : mm A) : outcome (mm A) :=
  let? _ := assertb (index <? ENTRY_COUNT) "index out of bounds" in
  let? m := store64 (pm s) (active s) (t + 8 * index) e in
  Ok (set_pm s m).

Definition zero (t : Z) (s : mm A) : outcome (mm A) :=
  ofold (fun i s => table_index_mut t i (entry_set_unused 0) s) (seqZ 0 ENTRY_COUNT) s.

Definition next_table_address (t index : Z) (s : mm A) : outcome (option Z) :=
  let? e := table_index t index s in
  let flags := entry_flags e in
  if flags_contains flags PRESENT && negb (flags_contains flags HUGE_PAGE)
  then Ok (Some (Z.lor (shl_w 64 t 9) (shl_w 64 index 12)))
  else Ok None.

(** The two casts of the address to a shared and to a mutable reference. *)
Definition next_table (t index : Z) (s : mm A) : outcome (option Z) :=
  next_table_address t index s.

Definition next_table_mut (t index : Z) (s : mm A) : outcome (option Z) :=
  next_table_address t index s.

(** [allocate_frames(1)] on the global allocator. *)
Definition alloc_frame (s : mm A) : outcome (option Frame * mm A) :=
  let? (r, a) := fs_alloc (falloc s) in Ok (r, set_falloc s a).

Definition next_table_create (t index : Z) (s : mm A) : outcome (Z * mm A) :=
  let? nt := next_table t index s in
  let? s :=
    match nt with
    | Some _ => Ok s
    | None =>
        let? e := table_index t index s in
        let? _ := assertb (negb (flags_contains (entry_flags e) HUGE_PAGE))
                    "mapping code does not support huge pages" in
        let? (f, s) := alloc_frame s in
        let? frame := expect f "no frames available" in
        let? e := entry_set frame (Z.lor PRESENT WRITABLE) in
        let? s := table_index_mut t index e s in
        let? nt := next_table_mut t index s in
        let? nt := unwrap nt in
        zero nt s
    end in
  let? nt := next_table_mut t index s in
  let? nt := unwrap nt in
  Ok (nt, s).

(** ** Table accesses through a known reference *)

Lemma table_index_eq s t f w i :
  tref (pm s) (active s) t f w -> is_index i -> table_index t i s = Ok (rd (pm s) f i).
Proof.
  intros Ht Hi. unfold table_index, ENTRY_COUNT.
  destruct (Z.ltb_spec i 512); [|unfold is_index in Hi; lia]. simpl. by eapply tref_load.
Qed.

Lemma table_index_mut_eq s t f i e :
  tref (pm s) (active s) t f full_access -> is_index i ->
  table_index_mut t i e s = Ok (set_pm s (wr (pm s) f i e)).
Proof.
  intros Ht Hi. unfold table_index_mut, ENTRY_COUNT.
  destruct (Z.ltb_spec i 512); [|unfold is_index in Hi; lia]. simpl.
  by erewrite tref_store.
Qed.

Lemma next_table_eq s t f w i :
  tref (pm s) (active s) t f w -> is_index i ->
  next_table_address t i s =
  Ok (if e_table (rd (pm s) f i) then Some (Z.lor (shl_w 64 t 9) (shl_w 64 i 12)) else None).
Proof.
  intros Ht Hi. unfold next_table_address. erewrite table_index_eq by done. cbn [obind].
  rewrite flags_present, flags_huge. unfold e_table. by destruct (_ && _).
Qed.

End Table.

(** ** The addresses of the recursive mapping *)

(** The address of the next table below the table address [t]. *)
Definition child (t i : Z) : Z := Z.lor (shl_w 64 t 9) (shl_w 64 i 12).

Definition tva3 (i4 : Z) : Z := child P4 i4.
Definition tva2 (i4 i3 : Z) : Z := child (tva3 i4) i3.
Definition tva1 (i4 i3 i2 : Z) : Z := child (tva2 i4 i3) i2.

Lemma child_eq t i : t mod 2 ^ 12 = 0 -> is_index i -> child t i = (t * 512) mod 2 ^ 64 + i * 4096.
Proof.
  unfold is_index, child, shl_w, trunc. intros Ht Hi.
  rewrite !Z.shiftl_mul_pow2 by lia. change (2 ^ 9) with 512. change (2 ^ 12) with 4096 in *.
  rewrite (Z.mod_small (i * 4096)) by lia.
  apply (lor_add _ _ 21); [lia|Z.div_mod_to_equations; lia| |lia].
  Z.div_mod_to_equations. lia.
Qed.

Lemma tva3_eq i4 : is_index i4 -> tva3 i4 = 0xffffffffffe00000 + i4 * 2 ^ 12.
Proof. intros H. unfold tva3. rewrite child_eq by done. reflexivity. Qed.

Lemma tva2_eq i4 i3 :
  is_index i4 -> is_index i3 -> tva2 i4 i3 = 0xffffffffc0000000 + i4 * 2 ^ 21 + i3 * 2 ^ 12.
Proof.
  intros H4 H3. unfold tva2. rewrite tva3_eq by done. unfold is_index in *.
  rewrite child_eq; unfold is_index; [|Z.div_mod_to_equations; lia|done].
  Z.div_mod_to_equations; lia.
Qed.

Lemma tva1_eq i4 i3 i2 :
  is_index i4 -> is_index i3 -> is_index i2 ->
  tva1 i4 i3 i2 = 0xffffff8000000000 + i4 * 2 ^ 30 + i3 * 2 ^ 21 + i2 * 2 ^ 12.
Proof.
  intros H4 H3 H2. unfold tva1. rewrite tva2_eq by done. unfold is_index in *.
  rewrite child_eq; unfold is_index; [|Z.div_mod_to_equations; lia|done].
  Z.div_mod_to_equations; lia.
Qed.

Lemma indices_of n : indices (mkPage n) =
  [(n / 2 ^ 27) mod 512; (n / 2 ^ 18) mod 512; (n / 2 ^ 9) mod 512; n mod 512].
Proof. unfold indices. by autorewrite with page_index. Qed.

Lemma indices_P4 : indices (mkPage (P4 / PAGE_SIZE)) = [511; 511; 511; 511].
Proof. reflexivity. Qed.

Lemma indices_tva3 i4 : is_index i4 -> indices (mkPage (tva3 i4 / PAGE_SIZE)) = [511; 511; 511; i4].
Proof.
  intros H4. rewrite tva3_eq, indices_of by done. unfold is_index, PAGE_SIZE in *.
  repeat f_equal; Z.div_mod_to_equations; lia.
Qed.

Lemma indices_tva2 i4 i3 :
  is_index i4 -> is_index i3 -> indices (mkPage (tva2 i4 i3 / PAGE_SIZE)) = [511; 511; i4; i3].
Proof.
  intros H4 H3. rewrite tva2_eq, indices_of by done. unfold is_index, PAGE_SIZE in *.
  repeat f_equal; Z.div_mod_to_equations; lia.
Qed.

Lemma indices_tva1 i4 i3 i2 :
  is_index i4 -> is_index i3 -> is_index i2 ->
  indices (mkPage (tva1 i4 i3 i2 / PAGE_SIZE)) = [511; i4; i3; i2].
Proof.
  intros H4 H3 H2. rewrite tva1_eq, indices_of by done. unfold is_index, PAGE_SIZE in *.
  repeat f_equal; Z.div_mod_to_equations; lia.
Qed.
