(* ===== verification/PageTree.v ===== *)
(** * The tree of page tables

    The invariant of the page-table code: the tables below the root are a
    tree in which every table frame has one path of indices, every link is
    writable, the recursive slot is intact and the frame allocator has none of
    these frames left to hand out.  The lemmas say which walks a write to an
    entry can change, and give the specification of [next_table_create]. *)

From S2P Require Import Prelude Frames FrameSource Entry Mmu Table.

(** Paths of indices from the root; the recursive slot is not a path. *)
Definition vpath (P : list Z) : Prop := Forall is_index P /\ head P <> Some 511.

Lemma vpath_app P Q : vpath (P ++ Q) -> vpath P.
Proof.
  intros [HF Hh]. split; [by apply Forall_app in HF as [? _]|]. by destruct P.
Qed.

Lemma vpath_index P i Q : vpath (P ++ i :: Q) -> is_index i.
Proof.
  intros [HF _]. apply Forall_app in HF as [_ HF]. by inversion HF.
Qed.

Lemma vpath_step P i Q : vpath (P ++ i :: Q) -> vpath (P ++ [i]).
Proof. intros H. apply (vpath_app _ Q). by rewrite <-app_assoc. Qed.

Lemma vpath_indices p : p4_index p <> 511 -> vpath (indices p).
Proof.
  intros H. split; [|simpl; congruence]. unfold indices. rewrite !Forall_cons.
  split_and!; auto with kernel.
Qed.

(** ** Chains of table links *)

Definition e_link (e : Z) : bool := e_table e && bool_decide (e_rights e = full_access).

Fixpoint chain (m : mem) (f : Z) (P : list Z) : option Z :=
  match P with
  | [] => Some f
  | i :: P => if e_link (rd m f i) then chain m (e_frame (rd m f i)) P else None
  end.

Lemma e_link_spec e : e_link e = true <-> e_table e = true /\ e_rights e = full_access.
Proof. unfold e_link. by rewrite andb_true_iff, bool_decide_eq_true. Qed.

Lemma chain_app m f P Q :
  chain m f (P ++ Q) = match chain m f P with Some g => chain m g Q | None => None end.
Proof.
  revert f. induction P as [|i P IH]; intros f; simpl; [done|].
  destruct (e_link _); [apply IH|done].
Qed.

Lemma chain_snoc m f P i g :
  chain m f P = Some g -> e_link (rd m g i) = true ->
  chain m f (P ++ [i]) = Some (e_frame (rd m g i)).
Proof. intros HP Hl. rewrite chain_app, HP. simpl. by rewrite Hl. Qed.

Lemma chain_walk m f P g idx :
  chain m f P = Some g -> walk_from m f (P ++ idx) full_access = walk_from m g idx full_access.
Proof.
  revert f. induction P as [|i P IH]; intros f HP; cbn [chain app] in *; [by simplify_eq|].
  destruct (e_link _) eqn:Hl; [|done]. apply e_link_spec in Hl as [Ht Hw].
  rewrite walk_from_cons by done. rewrite Hw. simpl. by apply IH.
Qed.

(** ** Table addresses *)

(** The virtual address of the table at path [P]. *)
Definition tva (P : list Z) : Z := foldl child P4 P.

Lemma tva_snoc P i : tva (P ++ [i]) = child (tva P) i.
Proof. unfold tva. by rewrite foldl_app. Qed.

(** The path of indices of the page a table address lies in. *)
Lemma indices_tva P :
  Forall is_index P -> (length P <= 3)%nat ->
  indices (mkPage (tva P / PAGE_SIZE)) = replicate (4 - length P) 511 ++ P.
Proof.
  intros HF Hlen. destruct P as [|i4 [|i3 [|i2 [|? ?]]]]; simpl in Hlen; try lia;
    repeat match goal with H : Forall _ (_ :: _) |- _ => inversion H; clear H; subst end.
  - exact indices_P4.
  - change (tva [i4]) with (tva3 i4). rewrite indices_tva3 by assumption. reflexivity.
  - change (tva [i4; i3]) with (tva2 i4 i3). rewrite indices_tva2 by assumption. reflexivity.
  - change (tva [i4; i3; i2]) with (tva1 i4 i3 i2). rewrite indices_tva1 by assumption.
    reflexivity.
Qed.

Lemma tva_address P :
  Forall is_index P -> (length P <= 3)%nat ->
  tva P mod PAGE_SIZE = 0 /\ 0 <= tva P < 2 ^ 64 /\ canonical (tva P) = true.
Proof.
  intros HF Hlen. unfold canonical. rewrite orb_true_iff, Z.leb_le.
  destruct P as [|i4 [|i3 [|i2 [|? ?]]]]; simpl in Hlen; try lia;
    repeat match goal with H : Forall _ (_ :: _) |- _ => inversion H; clear H; subst end.
  - change (tva []) with P4. unfold P4, PAGE_SIZE. split_and!; [done|lia..|right; lia].
  - change (tva [i4]) with (tva3 i4). rewrite tva3_eq by done. unfold is_index, PAGE_SIZE in *.
    split_and!; [Z.div_mod_to_equations; lia|lia..|right; lia].
  - change (tva [i4; i3]) with (tva2 i4 i3). rewrite tva2_eq by done. unfold is_index, PAGE_SIZE in *.
    split_and!; [Z.div_mod_to_equations; lia|lia..|right; lia].
  - change (tva [i4; i3; i2]) with (tva1 i4 i3 i2). rewrite tva1_eq by done.
    unfold is_index, PAGE_SIZE in *.
    split_and!; [Z.div_mod_to_equations; lia|lia..|right; lia].
Qed.

Lemma rec_slot_link m c r :
  rec_slot m c r <->
  (e_link (rd m c 511) = true /\ e_frame (rd m c 511) = r) /\
  (e_link (rd m r 511) = true /\ e_frame (rd m r 511) = r).
Proof. split; [intros [? ?]|intros [? ?]; split]; rewrite ?e_link_spec in *; naive_solver. Qed.

Lemma rec_slot_replicate m c r k :
  rec_slot m c r -> chain m c (replicate (S k) 511) = Some r.
Proof.
  intros [Hc Hr]%rec_slot_link. simpl. destruct Hc as [-> ->].
  induction k as [|k IH]; [done|]. simpl. destruct Hr as [Hl Hf]. by rewrite Hl, Hf.
Qed.

(** The processor resolves the address the code computes for the table below a
    chain of links to the frame that chain leads to. *)
Lemma tref_path m c r P f :
  rec_slot m c r -> Forall is_index P -> (length P <= 3)%nat ->
  chain m r P = Some f -> tref m c (tva P) f full_access.
Proof.
  intros Hrs HF Hlen HP. destruct (tva_address P HF Hlen) as (H1 & H2 & H3).
  split_and!; [done|lia..|done|]. unfold walk. rewrite indices_tva by done.
  destruct (4 - length P)%nat as [|k] eqn:Hk; [lia|].
  erewrite chain_walk by (by apply rec_slot_replicate).
  rewrite <-(app_nil_r P). by erewrite chain_walk.
Qed.

(** Calls of [next_table] one after the other, as the mapper makes them. *)
Fixpoint next_tables {A} (t : Z) (P : list Z) (s : mm A) : outcome (option Z) :=
  match P with
  | [] => Ok (Some t)
  | i :: P =>
      let? nt := next_table t i s in
      match nt with
      | Some t => next_tables t P s
      | None => Ok None
      end
  end.

Lemma next_tables_tva {A} (s : mm A) r P Q f :
  rec_slot (pm s) (active s) r -> Forall is_index (P ++ Q) -> (length (P ++ Q) <= 3)%nat ->
  chain (pm s) r (P ++ Q) = Some f -> next_tables (tva P) Q s = Ok (Some (tva (P ++ Q))).
Proof.
  intros Hrs. revert P. induction Q as [|i Q IH]; intros P HF Hlen HP; [by rewrite app_nil_r|].
  cbn [next_tables]. unfold next_table. rewrite chain_app in HP. destruct (chain (pm s) r P) as [g|] eqn:HPg; [|done].
  apply Forall_app in HF as HF2. destruct HF2 as [HFP HFQ]. rewrite length_app in Hlen. simpl in Hlen.
  rewrite (next_table_eq s (tva P) g full_access);
    [|by apply (tref_path _ _ r); [..|lia|]|by inversion HFQ]. cbn [obind].
  cbn [chain] in HP. destruct (e_link (rd (pm s) g i)) eqn:Hl; [|done].
  apply e_link_spec in Hl as Ht. destruct Ht as [-> _]. fold (child (tva P) i). rewrite <-tva_snoc.
  replace (P ++ i :: Q) with ((P ++ [i]) ++ Q) by by rewrite <-app_assoc.
  apply IH; [by rewrite <-app_assoc|rewrite !length_app; simpl; lia|].
  rewrite chain_app, (chain_snoc _ _ _ _ _ HPg Hl). exact HP.
Qed.

(** C3: the recursive mapping.  From the constant [P4], [next_table] follows every
    chain of links from the root; the address it arrives at denotes, through the
    page walk, the table the chain leads to: [table[i]] reads and writes exactly
    that table's [i]-th entry, and [next_table] goes on from it exactly where the
    entry leads to another table, present and not a large page. *)
Theorem recursive_mapping {A} (s : mm A) r P f :
  rec_slot (pm s) (active s) r -> Forall is_index P -> (length P <= 3)%nat -> chain (pm s) r P = Some f ->
  exists t, next_tables P4 P s = Ok (Some t) /\ forall i, is_index i ->
    table_index t i s = Ok (rd (pm s) f i) /\
    (forall e, table_index_mut t i e s = Ok (set_pm s (wr (pm s) f i e))) /\
    exists nt, next_table t i s = Ok nt /\
      (is_Some nt <-> e_present (rd (pm s) f i) = true /\ e_huge (rd (pm s) f i) = false).
Proof.
  intros Hrs HF Hlen HP. exists (tva P). split; [by apply (next_tables_tva s r [] P f)|].
  intros i Hi. pose proof (tref_path _ _ r P f Hrs HF Hlen HP) as Ht.
  split; [by eapply table_index_eq|]. split; [intros e; by eapply table_index_mut_eq|].
  unfold next_table. rewrite (next_table_eq s (tva P) f full_access i Ht Hi). eexists. split; [done|].
  rewrite <-e_table_spec. destruct (e_table _); [split; [done|by eexists]|split; [by intros [? ?]|done]].
Qed.

(** ** Ownership of table frames *)

(** [O] gives each table frame its path from the root; entries of large pages
    are aligned to the size of the page. *)
Record tree (m : mem) (r : Z) (O : gmap Z (list Z)) : Prop := {
  tr_root : O !! r = Some [];
  tr_range : forall f P, O !! f = Some P -> 0 <= f < 2 ^ 40;
  tr_child : forall f P i, O !! f = Some P -> (length P <= 2)%nat -> vpath (P ++ [i]) ->
    e_table (rd m f i) = true ->
    e_rights (rd m f i) = full_access /\ O !! e_frame (rd m f i) = Some (P ++ [i]);
  tr_huge : forall f P i, O !! f = Some P -> vpath (P ++ [i]) ->
    e_present (rd m f i) = true -> e_huge (rd m f i) = true ->
    (length P = 1%nat -> e_frame (rd m f i) mod (ENTRY_COUNT * ENTRY_COUNT) = 0) /\
    (length P = 2%nat -> e_frame (rd m f i) mod ENTRY_COUNT = 0) }.

(** The entries that are not present are zero, as [is_unused] wants them, and no
    entry of the root has the size bit, which is reserved there. *)
Record tidy (m : mem) (r : Z) (O : gmap Z (list Z)) : Prop := {
  td_clear : forall f P i, O !! f = Some P -> vpath (P ++ [i]) ->
    e_present (rd m f i) = false -> rd m f i = 0;
  td_root : forall i, vpath [i] -> e_huge (rd m r i) = false }.

(** [m'] agrees with [m] on the owned entries a walk along [Q] can read. *)
Definition agree_on (O : gmap Z (list Z)) (m m' : mem) (Q : list Z) : Prop :=
  forall f P i, O !! f = Some P -> (P ++ [i]) `prefix_of` Q -> rd m' f i = rd m f i.

Lemma agree_on_step O m m' P i Q f :
  agree_on O m m' (P ++ i :: Q) -> O !! f = Some P -> rd m' f i = rd m f i.
Proof.
  intros Ha Ho. apply (Ha f P i Ho). exists Q. by rewrite <-app_assoc.
Qed.

Lemma walk_agree m m' r O f P Q w :
  tree m r O -> O !! f = Some P -> (length P + length Q <= 4)%nat -> vpath (P ++ Q) ->
  agree_on O m m' (P ++ Q) -> walk_from m' f Q w = walk_from m f Q w.
Proof.
  intros Ht. revert f P w. induction Q as [|i Q IH]; intros f P w Ho Hlen Hv Ha; [done|].
  pose proof (agree_on_step _ _ _ _ _ _ _ Ha Ho) as Hrd.
  destruct (e_table (rd m f i)) eqn:Het.
  - rewrite !walk_from_cons by (rewrite ?Hrd; done). rewrite Hrd.
    destruct Q as [|j Q]; [done|]. simpl in Hlen.
    pose proof (vpath_step _ _ _ Hv) as Hv'.
    destruct (tr_child m r O Ht f P i Ho ltac:(lia) Hv' Het) as [_ Hc].
    apply IH with (P := P ++ [i]); [done|rewrite length_app; simpl; lia|..];
      by rewrite <-app_assoc.
  - destruct (e_present (rd m f i)) eqn:Hp; [|simpl; by rewrite !Hrd, Hp].
    assert (Hh : e_huge (rd m f i) = true).
    { unfold e_table in Het. rewrite Hp in Het. by destruct (e_huge _). }
    destruct Q as [|j [|k [|l [|? Q]]]]; simpl; rewrite ?Hrd, ?Hp, ?Hh; try done.
    simpl in Hlen. lia.
Qed.

Lemma chain_agree m m' r O f P Q :
  tree m r O -> O !! f = Some P -> (length P + length Q <= 3)%nat -> vpath (P ++ Q) ->
  agree_on O m m' (P ++ Q) -> chain m' f Q = chain m f Q.
Proof.
  intros Ht. revert f P. induction Q as [|i Q IH]; intros f P Ho Hlen Hv Ha; [done|].
  simpl. rewrite (agree_on_step _ _ _ _ _ _ _ Ha Ho). simpl in Hlen.
  destruct (e_link (rd m f i)) eqn:Hl; [|done]. apply e_link_spec in Hl as [Het _].
  pose proof (vpath_step _ _ _ Hv) as Hv'.
  destruct (tr_child m r O Ht f P i Ho ltac:(lia) Hv' Het) as [_ Hc].
  apply IH with (P := P ++ [i]); [done|rewrite length_app; simpl; lia|..];
    by rewrite <-app_assoc.
Qed.

Lemma chain_owned m r O f P Q g :
  tree m r O -> O !! f = Some P -> (length P + length Q <= 3)%nat -> vpath (P ++ Q) ->
  chain m f Q = Some g -> O !! g = Some (P ++ Q).
Proof.
  intros Ht. revert f P. induction Q as [|i Q IH]; intros f P Ho Hlen Hv Hc; simpl in *.
  { simplify_eq. by rewrite app_nil_r. }
  destruct (e_link (rd m f i)) eqn:Hl; [|done]. apply e_link_spec in Hl as [Het _].
  pose proof (vpath_step _ _ _ Hv) as Hv'.
  destruct (tr_child m r O Ht f P i Ho ltac:(lia) Hv' Het) as [_ Ho'].
  rewrite (IH (e_frame (rd m f i)) (P ++ [i])); [by rewrite <-app_assoc|done|rewrite length_app; simpl; lia| |done].
  by rewrite <-app_assoc.
Qed.

(** In a tree an owned table entry is a link. *)
Lemma tree_link m r O f P i :
  tree m r O -> O !! f = Some P -> (length P <= 2)%nat -> vpath (P ++ [i]) ->
  e_link (rd m f i) = e_table (rd m f i).
Proof.
  intros Ht Ho Hlen Hv. unfold e_link. destruct (e_table _) eqn:He; [|done].
  by destruct (tr_child m r O Ht f P i Ho Hlen Hv He) as [-> _].
Qed.

(** ** Zeroing a table *)

Definition zero_frame (m : mem) (g : Z) : mem :=
  foldl (fun m i => wr m g i 0) m (seqZ 0 512).

#[global] Arguments zero_frame : simpl never.

Lemma foldl_wr_spec (e : Z -> Z) l m g h j :
  rd (foldl (fun m i => wr m g i (e i)) m l) h j =
  if decide (h = g /\ j ∈ l) then e j else rd m h j.
Proof.
  revert m. induction l as [|i l IH]; intros m; simpl.
  { case_decide as Hd; [|done]. destruct Hd as [_ Hd]. by apply elem_of_nil in Hd. }
  rewrite IH. destruct (decide (h = g /\ j ∈ l)) as [?|Hn].
  - rewrite decide_True; [done|]. split; [tauto|]. right. tauto.
  - destruct (decide ((g, i) = (h, j))) as [He|Hne].
    + simplify_eq. rewrite rd_wr, decide_True; [done|]. split; [done|]. by left.
    + rewrite rd_wr_ne by done. rewrite decide_False; [done|].
      rewrite elem_of_cons. naive_solver.
Qed.

Lemma zero_frame_in m g j : is_index j -> rd (zero_frame m g) g j = 0.
Proof.
  intros Hj. unfold zero_frame. rewrite (foldl_wr_spec (fun _ => 0)), decide_True; [done|].
  split; [done|]. apply elem_of_seqZ. unfold is_index in Hj. lia.
Qed.

Lemma zero_frame_out m g h j : h <> g -> rd (zero_frame m g) h j = rd m h j.
Proof. intros Hne. unfold zero_frame. rewrite (foldl_wr_spec (fun _ => 0)), decide_False; tauto. Qed.

Section Tree.
Context {A : Type} `{FrameSource A}.
Implicit Types s : mm A.

(** Zeroing through a reference that stays valid while frame [g] changes. *)
Lemma zero_eq s t g :
  (forall m, (forall h j, h <> g -> rd m h j = rd (pm s) h j) -> tref m (active s) t g full_access) ->
  zero t s = Ok (set_pm s (zero_frame (pm s) g)).
Proof.
  intros Hst. unfold zero, zero_frame, ENTRY_COUNT, entry_set_unused.
  assert (Hl : Forall is_index (seqZ 0 512)).
  { apply Forall_forall. intros i Hi. apply elem_of_seqZ in Hi. unfold is_index. lia. }
  revert s Hst. induction Hl as [|i l Hi Hl IH]; intros s Hst; simpl.
  { by destruct s. }
  rewrite (table_index_mut_eq s t g) by (done || by apply Hst). cbn [obind].
  rewrite IH; [done|]. intros m Hm. apply (Hst m). intros h j Hne.
  rewrite Hm by done. simpl. apply rd_wr_ne. congruence.
Qed.

(** ** The invariant of the memory manager

    [r] is the root of the tree the code works on: the active P4 table, or the
    inactive one inside [ActivePageTable::with]. *)

Record mm_inv s (r : Z) (O : gmap Z (list Z)) : Prop := {
  mi_slot : rec_slot (pm s) (active s) r;
  mi_tree : tree (pm s) r O;
  mi_alloc : fs_ok (falloc s);
  mi_taken : forall f P, O !! f = Some P -> ~ fs_avail (falloc s) f;
  mi_active : active s = r \/ (O !! active s = None /\ ~ fs_avail (falloc s) (active s)) }.

(** The hardware translation of every page outside the recursive slot. *)
Definition same_walks (r : Z) (m m' : mem) : Prop :=
  forall Q, length Q = 4%nat -> vpath Q -> walk_from m' r Q full_access = walk_from m r Q full_access.

#[export] Instance same_walks_preorder r : PreOrder (same_walks r).
Proof.
  split; [by intros m Q|]. intros m1 m2 m3 H12 H23 Q HQ Hv.
  by rewrite (H23 Q HQ Hv), (H12 Q HQ Hv).
Qed.

(** The tables reached stay reached. *)
Definition keeps_chains (r : Z) (m m' : mem) : Prop :=
  forall Q f, vpath Q -> (length Q <= 3)%nat -> chain m r Q = Some f -> chain m' r Q = Some f.

#[export] Instance keeps_chains_preorder r : PreOrder (keeps_chains r).
Proof. split; [by intros m Q f|]. intros m1 m2 m3 H12 H23 Q f Hv Hl Hc. auto. Qed.

(** The entry written is not one of the recursive slots. *)
Lemma owned_not_slot s r O f P i :
  mm_inv s r O -> O !! f = Some P -> vpath (P ++ [i]) ->
  (f, i) <> (active s, 511) /\ (f, i) <> (r, 511).
Proof.
  intros Hi Ho Hv. destruct (mi_tree s r O Hi) as [Hroot _ _ _].
  assert (Hr : (f, i) <> (r, 511)).
  { intros [= -> ->]. rewrite Hroot in Ho. injection Ho as <-. by destruct Hv as [_ []]. }
  split; [|done]. destruct (mi_active s r O Hi) as [->|[Hn _]]; [done|]. congruence.
Qed.

Lemma rec_slot_agree m m' c r :
  rec_slot m c r -> rd m' c 511 = rd m c 511 -> rd m' r 511 = rd m r 511 -> rec_slot m' c r.
Proof. intros [? ?] Hc Hr. split; by rewrite ?Hc, ?Hr. Qed.

Lemma mm_tref s r O P f :
  mm_inv s r O -> vpath P -> (length P <= 3)%nat -> chain (pm s) r P = Some f ->
  tref (pm s) (active s) (tva P) f full_access.
Proof. intros Hi [HF _] Hlen Hc. eapply tref_path; eauto. apply Hi. Qed.

Lemma mm_owned s r O P f :
  mm_inv s r O -> vpath P -> (length P <= 3)%nat -> chain (pm s) r P = Some f ->
  O !! f = Some P.
Proof.
  intros Hi Hv Hlen Hc. pose proof (mi_tree s r O Hi) as Ht.
  apply (chain_owned (pm s) r O r [] P f Ht); [apply Ht|simpl; lia|done|done].
Qed.

(** An available frame is neither a table of the tree nor the active table. *)
Lemma avail_fresh s r O g :
  mm_inv s r O -> fs_avail (falloc s) g -> O !! g = None /\ g <> r /\ g <> active s.
Proof.
  intros Hi Hg. pose proof (mi_taken s r O Hi) as Ht.
  assert (O !! g = None) as Hn.
  { destruct (O !! g) as [P|] eqn:E; [|done]. exfalso. by apply (Ht g P). }
  split; [done|]. assert (g <> r).
  { intros ->. rewrite (tr_root _ _ _ (mi_tree s r O Hi)) in Hn. done. }
  split; [done|]. destruct (mi_active s r O Hi) as [->|[_ Hna]]; [done|]. by intros ->.
Qed.

(** The entry [next_table_create] writes. *)
Definition link_entry (g : Z) : Z := Z.lor (g * PAGE_SIZE) (Z.lor PRESENT WRITABLE).

Lemma link_entry_spec g : 0 <= g < 2 ^ 40 -> e_link (link_entry g) = true /\ e_frame (link_entry g) = g.
Proof.
  intros Hg. unfold link_entry. assert (Hf : flags_ok (Z.lor PRESENT WRITABLE)) by solve_flags.
  split; [|by apply e_frame_of].
  unfold e_link. rewrite e_rights_of by (done || lia). unfold e_table, e_present, e_huge.
  rewrite !flag_bit_of by (done || lia). done.
Qed.

(** *** Linking a fresh, zeroed table *)

Section Link.
Variables (s : mm A) (r : Z) (O : gmap Z (list Z)) (P : list Z) (f i g : Z) (a : A).
Hypothesis Hinv : mm_inv s r O.
Hypothesis Hv : vpath (P ++ [i]).
Hypothesis Hlen : (length P <= 2)%nat.
Hypothesis Hchain : chain (pm s) r P = Some f.
Hypothesis Hfree : e_present (rd (pm s) f i) = false.
Hypothesis Hg : fs_avail (falloc s) g.
Hypothesis Ha : fs_ok a.
Hypothesis Hga : ~ fs_avail a g.
Hypothesis Hshrink : forall h, fs_avail a h -> fs_avail (falloc s) h.

#[local] Abbreviation e := (link_entry g).
#[local] Abbreviation O' := (<[g := P ++ [i]]> O).
#[local] Abbreviation m' := (zero_frame (wr (pm s) f i e) g).

Lemma link_owned : O !! f = Some P.
Proof. apply (mm_owned s r O); [done|by apply vpath_app in Hv|lia|done]. Qed.

Lemma link_g_range : 0 <= g < 2 ^ 40.
Proof. eapply fs_avail_bound; [apply (mi_alloc s r O Hinv)|done]. Qed.

Lemma link_g_fresh : O !! g = None /\ g <> f /\ g <> r /\ g <> active s.
Proof.
  destruct (avail_fresh s r O g Hinv Hg) as (Hn & Hr & Hact). split_and!; try done.
  intros Heq. rewrite Heq, link_owned in Hn. done.
Qed.

(** A memory that differs from the new one only in the fresh frame. *)
Definition linked (m : mem) : Prop :=
  rd m f i = e /\ forall h j, h <> g -> (h, j) <> (f, i) -> rd m h j = rd (pm s) h j.

Lemma linked_final : linked m'.
Proof.
  destruct link_g_fresh as (_ & Hgf & _). split.
  - rewrite zero_frame_out by done. apply rd_wr.
  - intros h j Hne Hne'. rewrite zero_frame_out by done. by apply rd_wr_ne.
Qed.

Lemma linked_agree m Q :
  linked m -> ~ (P ++ [i]) `prefix_of` Q -> agree_on O (pm s) m Q.
Proof.
  intros [_ Hm] Hnp h R j Ho Hp. destruct link_g_fresh as (Hn & _). apply Hm; [congruence|].
  intros [= -> ->]. rewrite link_owned in Ho. by simplify_eq.
Qed.

Lemma linked_slot m : linked m -> rec_slot m (active s) r.
Proof.
  intros [_ Hm]. destruct link_g_fresh as (_ & _ & Hgr & Hgc).
  destruct (owned_not_slot s r O f P i Hinv link_owned Hv) as [H1 H2].
  eapply rec_slot_agree; [apply (mi_slot s r O Hinv)|apply Hm; congruence..].
Qed.

Lemma linked_chain m : linked m -> chain m r P = Some f /\ chain m r (P ++ [i]) = Some g.
Proof.
  intros Hm. assert (HP : chain m r P = Some f).
  { rewrite <-Hchain. pose proof (mi_tree s r O Hinv) as Ht.
    apply (chain_agree (pm s) m r O r [] P Ht); [apply Ht|simpl; lia|by apply vpath_app in Hv|].
    apply (linked_agree m P Hm). intros Hp%prefix_length. rewrite length_app in Hp. simpl in Hp. lia. }
  split; [done|]. destruct (link_entry_spec g link_g_range) as [Hl Hf].
  destruct Hm as [He _]. rewrite (chain_snoc m r P i f HP) by (by rewrite He). by rewrite He, Hf.
Qed.

Lemma linked_tref m : linked m -> tref m (active s) (tva (P ++ [i])) g full_access.
Proof.
  intros Hm. eapply tref_path; [by apply linked_slot|apply Hv|rewrite length_app; simpl; lia|].
  by apply linked_chain.
Qed.

Lemma link_tree : tree m' r O'.
Proof.
  pose proof (mi_tree s r O Hinv) as [Hroot Hrange Hchild Hhuge].
  destruct link_g_fresh as (Hn & Hgf & Hgr & _). destruct linked_final as [He Hm].
  destruct (link_entry_spec g link_g_range) as [[Htab Hw]%e_link_spec Hfr].
  split.
  - by rewrite lookup_insert_ne.
  - intros h Q. rewrite lookup_insert. case_decide as E; [rewrite <-E; intros; apply link_g_range|eauto].
  - intros h Q j Ho Hl Hvj Ht. rewrite lookup_insert in Ho. case_decide as Hgh.
    { subst h. rewrite zero_frame_in in Ht by (by eapply vpath_index). done. }
    destruct (decide ((h, j) = (f, i))) as [[= -> ->]|Hne].
    { rewrite link_owned in Ho. injection Ho as <-. rewrite He. split; [done|].
      rewrite Hfr, lookup_insert_eq. done. }
    rewrite Hm in Ht |- * by congruence. destruct (Hchild h Q j Ho Hl Hvj Ht) as [Hwj Hoj].
    split; [done|]. rewrite lookup_insert_ne; [done|]. congruence.
  - intros h Q j Ho Hvj Hp Hh. rewrite lookup_insert in Ho. case_decide as Hgh.
    { subst h. rewrite zero_frame_in in Hp by (by eapply vpath_index). done. }
    destruct (decide ((h, j) = (f, i))) as [[= -> ->]|Hne].
    { rewrite He in Hh. apply e_table_spec in Htab as [_ Hnh]. congruence. }
    rewrite Hm in Hp, Hh |- * by congruence. by eapply Hhuge.
Qed.

Lemma link_tidy : tidy (pm s) r O -> tidy m' r O'.
Proof.
  intros [Hclear Hroot]. destruct link_g_fresh as (Hn & Hgf & Hgr & _). destruct linked_final as [He Hm].
  destruct (link_entry_spec g link_g_range) as [[[Hpr Hnh]%e_table_spec _]%e_link_spec _].
  split.
  - intros h Q j Ho Hvj Hp. rewrite lookup_insert in Ho. case_decide as Hgh.
    { subst h. apply zero_frame_in. by eapply vpath_index. }
    destruct (decide ((h, j) = (f, i))) as [[= -> ->]|Hne]; [rewrite He in Hp; congruence|].
    rewrite Hm in Hp |- * by congruence. by eapply Hclear.
  - intros j Hj. destruct (decide ((r, j) = (f, i))) as [[= -> ->]|Hne]; [by rewrite He|].
    rewrite Hm by congruence. by apply Hroot.
Qed.

Lemma link_chains : keeps_chains r (pm s) m'.
Proof.
  intros Q h HQ Hl Hc. pose proof (mi_tree s r O Hinv) as Ht.
  destruct (decide ((P ++ [i]) `prefix_of` Q)) as [[R ->]|Hnp].
  - rewrite <-app_assoc, chain_app, Hchain in Hc. cbn [app chain] in Hc.
    unfold e_link, e_table in Hc. by rewrite Hfree in Hc.
  - rewrite <-Hc. apply (chain_agree (pm s) m' r O r [] Q Ht); [apply Ht|simpl; lia|done|].
    apply linked_agree; [apply linked_final|done].
Qed.

Lemma link_walks : same_walks r (pm s) m'.
Proof.
  intros Q HQ HvQ. pose proof (mi_tree s r O Hinv) as Ht.
  destruct (decide ((P ++ [i]) `prefix_of` Q)) as [[R ->]|Hnp].
  - destruct (linked_chain m' linked_final) as [_ HPi].
    rewrite (chain_walk m' r (P ++ [i]) g R HPi).
    rewrite <-app_assoc. rewrite (chain_walk (pm s) r P f _ Hchain). cbn [app].
    rewrite (walk_from_absent _ _ _ _ _ Hfree).
    rewrite !length_app in HQ. simpl in HQ. destruct R as [|j R]; [simpl in HQ; lia|].
    assert (Hj : is_index j) by (by apply (vpath_index (P ++ [i]) j R)).
    apply walk_from_absent. by rewrite zero_frame_in.
  - apply (walk_agree (pm s) m' r O r [] Q full_access Ht); [apply Ht|simpl; lia|done|].
    apply linked_agree; [apply linked_final|done].
Qed.

Lemma link_inv : mm_inv (mkMM m' (cr3 s) (tlb s) a) r O'.
Proof.
  destruct link_g_fresh as (Hn & _ & _ & Hgc).
  split; [by apply linked_slot, linked_final|apply link_tree|done| |].
  - simpl. intros h Q Ho. rewrite lookup_insert in Ho.
    case_decide as E; [by rewrite <-E|]. intros Hh. by eapply (mi_taken s r O Hinv), Hshrink.
  - destruct (mi_active s r O Hinv) as [Hc|[Hc Hna]]; [by left|right]. unfold active in *. simpl.
    rewrite lookup_insert_ne by done. split; [done|]. intros Hx. by apply Hna, Hshrink.
Qed.

End Link.

(** ** [next_table_create] *)

(** What a step may touch: it takes frames from the allocator, adds tables only
    in frames that were available, and writes only to tables of the tree and to
    frames that were available. *)
Record local_step s (O : gmap Z (list Z)) s' (O' : gmap Z (list Z)) : Prop := {
  ls_avail : forall g, fs_avail (falloc s') g -> fs_avail (falloc s) g;
  ls_own : forall g P, O' !! g = Some P -> O !! g = Some P \/ fs_avail (falloc s) g;
  ls_frame : forall h j, O !! h = None -> ~ fs_avail (falloc s) h ->
    rd (pm s') h j = rd (pm s) h j }.

Lemma local_step_refl s O : local_step s O s O.
Proof. split; auto. Qed.

Lemma local_step_trans s1 O1 s2 O2 s3 O3 :
  local_step s1 O1 s2 O2 -> local_step s2 O2 s3 O3 -> local_step s1 O1 s3 O3.
Proof.
  intros [Ha1 Ho1 Hf1] [Ha2 Ho2 Hf2]. split; [auto| |].
  - intros g P Hg. destruct (Ho2 g P Hg) as [Hg2|Hg2]; eauto.
  - intros h j Hh Hav. rewrite <-Hf1 by done. apply Hf2; [|eauto].
    destruct (O2 !! h) as [P|] eqn:E; [|done]. destruct (Ho1 h P E); [congruence|done].
Qed.

(** The result of a step that may add tables: the same root, the same
    translations, CR3 and flush log untouched. *)
Record grown s (r : Z) (O : gmap Z (list Z)) s' (O' : gmap Z (list Z)) : Prop := {
  gr_walks : same_walks r (pm s) (pm s');
  gr_cr3 : cr3 s' = cr3 s;
  gr_tlb : tlb s' = tlb s;
  gr_chains : keeps_chains r (pm s) (pm s');
  gr_tidy : tidy (pm s) r O -> tidy (pm s') r O';
  gr_local : local_step s O s' O' }.

Lemma grown_refl s r O : grown s r O s O.
Proof. split; [done..|apply local_step_refl]. Qed.

Lemma grown_trans s1 O1 s2 O2 s3 O3 r :
  grown s1 r O1 s2 O2 -> grown s2 r O2 s3 O3 -> grown s1 r O1 s3 O3.
Proof.
  intros [] []. split; [by etrans|congruence|congruence|by etrans|auto|by eapply local_step_trans].
Qed.

Definition huge_panic : error := EPanic "mapping code does not support huge pages".
Definition frames_panic : error := EPanic "no frames available".

Lemma create_link s r O P f i g a :
  mm_inv s r O -> vpath (P ++ [i]) -> (length P <= 2)%nat -> chain (pm s) r P = Some f ->
  e_present (rd (pm s) f i) = false -> fs_alloc (falloc s) = Ok (Some (mkFrame g), a) ->
  let s' := mkMM (zero_frame (wr (pm s) f i (link_entry g)) g) (cr3 s) (tlb s) a in
  mm_inv s' r (<[g := P ++ [i]]> O) /\ chain (pm s') r P = Some f /\
  chain (pm s') r (P ++ [i]) = Some g /\ rd (pm s') f i = link_entry g /\
  grown s r O s' (<[g := P ++ [i]]> O) /\
  (let? e := entry_set (mkFrame g) (Z.lor PRESENT WRITABLE) in
   let? s := table_index_mut (tva P) i e (set_falloc s a) in
   let? nt := next_table_mut (tva P) i s in
   let? nt := unwrap nt in
   zero nt s) = Ok s'.
Proof.
  intros Hi Hv Hlen Hc Hp Hal s'. pose proof (mi_alloc s r O Hi) as Hok.
  destruct (fs_alloc_some _ _ _ Hok Hal) as [Hav Hnav]. simpl in Hav, Hnav.
  pose proof (fs_alloc_ok _ _ _ Hok Hal) as Hok'.
  assert (Hsh : forall h, fs_avail a h -> fs_avail (falloc s) h).
  { intros h. by apply (fs_alloc_shrinks _ _ _ _ Hok Hal). }
  pose proof (fs_avail_bound _ _ Hok Hav) as Hrange.
  pose proof (linked_final s r O P f i g Hi Hv Hlen Hc Hav) as Hlinked.
  split; [by eapply link_inv|]. do 2 (split; [by eapply linked_chain|]). split; [apply Hlinked|].
  assert (Hown : O !! f = Some P) by (eapply link_owned; eauto).
  assert (Hloc : local_step s O s' (<[g := P ++ [i]]> O)).
  { split; [done| |].
    - intros h Q HQ. rewrite lookup_insert in HQ. case_decide as E; [|by left]. subst. by right.
    - intros h j Hh Hnh. apply Hlinked; [congruence|]. intros [= -> ->]. congruence. }
  split; [split; [by eapply link_walks|done|done|by eapply link_chains|by eapply link_tidy|done]|].
  rewrite entry_set_eq by done. cbn [obind]. fold (link_entry g).
  assert (Hvp : vpath P) by (by apply vpath_app in Hv).
  assert (Hidx : is_index i) by (by eapply vpath_index).
  rewrite (table_index_mut_eq _ (tva P) f); [|exact (mm_tref s r O P f Hi Hvp ltac:(lia) Hc)|done].
  cbn [obind]. change (pm (set_falloc s a)) with (pm s).
  set (m1 := wr (pm s) f i (link_entry g)).
  assert (Hl1 : linked s f i g m1).
  { split; [apply rd_wr|]. intros h j _ Hne. by apply rd_wr_ne. }
  assert (Hc1 : chain m1 r P = Some f) by (by eapply linked_chain).
  unfold next_table_mut.
  rewrite (next_table_eq _ (tva P) f full_access); [|apply (tref_path m1 (active s) r); [by eapply (linked_slot s r O P f i g)|apply Hvp|lia|done]|done].
  change (pm (set_pm _ m1)) with m1.
  replace (rd m1 f i) with (link_entry g) by (symmetry; apply rd_wr).
  destruct (link_entry_spec g Hrange) as [[-> _]%e_link_spec _]. cbn [obind unwrap expect].
  fold (child (tva P) i). rewrite <-tva_snoc.
  rewrite (zero_eq _ _ g); [done|]. simpl. intros m Hm.
  change (active _) with (active s).
  eapply linked_tref; eauto. split.
  - rewrite Hm; [apply rd_wr|]. intros Heq. subst g.
    destruct (avail_fresh s r O f Hi Hav) as [Hn _].
    rewrite (mm_owned s r O P f) in Hn; [done|done|done|lia|done].
  - intros h j Hne Hne'. rewrite Hm by done. by apply rd_wr_ne.
Qed.

Lemma next_table_create_spec s r O P f i :
  mm_inv s r O -> vpath (P ++ [i]) -> (length P <= 2)%nat -> chain (pm s) r P = Some f ->
  match next_table_create (tva P) i s with
  | Ok (t, s') =>
      t = tva (P ++ [i]) /\ exists O' g,
        mm_inv s' r O' /\ chain (pm s') r (P ++ [i]) = Some g /\ grown s r O s' O' /\
        forall n, frames_left (falloc s) (S n) -> frames_left (falloc s') n
  | Err e => e = huge_panic /\ e_huge (rd (pm s) f i) = true \/
             e = frames_panic /\ ~ frames_left (falloc s) 1
  end.
Proof.
  intros Hi Hv Hlen Hc. assert (Hvp : vpath P) by (by apply vpath_app in Hv).
  assert (Hidx : is_index i) by (by eapply vpath_index).
  pose proof (mm_tref s r O P f Hi Hvp ltac:(lia) Hc) as Htr.
  pose proof (mm_owned s r O P f Hi Hvp ltac:(lia) Hc) as Hown.
  assert (Hdone : forall s' O', mm_inv s' r O' -> chain (pm s') r P = Some f ->
    e_table (rd (pm s') f i) = true ->
    next_table_mut (tva P) i s' = Ok (Some (tva (P ++ [i])))).
  { intros s' O' Hi' Hc' He. unfold next_table_mut.
    rewrite (next_table_eq s' (tva P) f full_access); [|exact (mm_tref s' r O' P f Hi' Hvp ltac:(lia) Hc')|done].
    rewrite He, tva_snoc. done. }
  unfold next_table_create, next_table. rewrite (next_table_eq s (tva P) f full_access) by done.
  cbn [obind]. destruct (e_table (rd (pm s) f i)) eqn:He; cbn [obind].
  { rewrite (Hdone s O) by done. cbn [obind unwrap expect]. split; [done|].
    exists O, (e_frame (rd (pm s) f i)). split; [done|].
    split; [|split; [apply grown_refl|intros n; apply frames_left_pred]].
    apply chain_snoc; [done|]. erewrite tree_link; eauto. apply Hi. }
  rewrite (table_index_eq s (tva P) f full_access) by done. cbn [obind]. rewrite flags_huge.
  destruct (e_huge (rd (pm s) f i)) eqn:Hh; cbn [negb assertb obind panic]; [by left|].
  assert (Hp : e_present (rd (pm s) f i) = false).
  { unfold e_table in He. rewrite Hh, andb_true_r in He. done. }
  unfold alloc_frame. destruct (fs_alloc_returns _ (mi_alloc s r O Hi)) as [[[[g]|] a] Hal];
    rewrite Hal; cbn [obind expect panic].
  2:{ right. split; [done|]. intros Hl. destruct (frames_left_alloc _ 0 (mi_alloc s r O Hi) Hl) as (? & ? & Hal' & _).
      by rewrite Hal in Hal'. }
  destruct (create_link s r O P f i g a Hi Hv Hlen Hc Hp Hal) as (Hi' & HP & Hc' & He' & Hgr & Hrun).
  rewrite Hrun. cbn [obind]. rewrite (Hdone _ _ Hi' HP).
  - cbn [obind unwrap expect]. split; [done|]. eexists _, g. split_and!; [done..|].
    intros n Hl. destruct (frames_left_alloc _ n (mi_alloc s r O Hi) Hl) as (? & ? & Hal' & Hl').
    rewrite Hal in Hal'. injection Hal' as _ <-. exact Hl'.
  - rewrite He'. apply e_link_spec, link_entry_spec.
    eapply fs_avail_bound; [apply (mi_alloc s r O Hi)|].
    by apply (fs_alloc_some _ _ _ (mi_alloc s r O Hi) Hal).
Qed.

(** ** Writing a last-level entry *)

(** Walks of every path but [P]. *)
Definition same_walks_but (r : Z) (P : list Z) (m m' : mem) : Prop :=
  forall Q, length Q = 4%nat -> vpath Q -> Q <> P ->
  walk_from m' r Q full_access = walk_from m r Q full_access.

Lemma leaf_write s r O P f i e :
  mm_inv s r O -> vpath (P ++ [i]) -> length P = 3%nat -> chain (pm s) r P = Some f ->
  let s' := set_pm s (wr (pm s) f i e) in
  mm_inv s' r O /\ chain (pm s') r P = Some f /\
  same_walks_but r (P ++ [i]) (pm s) (pm s') /\ keeps_chains r (pm s) (pm s') /\
  (e_present e = true \/ e = 0 -> tidy (pm s) r O -> tidy (pm s') r O) /\
  walk_from (pm s') r (P ++ [i]) full_access =
    (if e_present e then Some (e_frame e, e_rights e) else None).
Proof.
  intros Hi Hv Hlen Hc s'. assert (Hvp : vpath P) by (by apply vpath_app in Hv).
  pose proof (mm_owned s r O P f Hi Hvp ltac:(lia) Hc) as Ho.
  destruct (owned_not_slot s r O f P i Hi Ho Hv) as [Hs1 Hs2].
  pose proof (mi_tree s r O Hi) as Ht.
  assert (Hrd : forall h j, (f, i) <> (h, j) -> rd (pm s') h j = rd (pm s) h j).
  { intros h j Hne. by apply rd_wr_ne. }
  assert (Hag : forall Q, ~ (P ++ [i]) `prefix_of` Q -> agree_on O (pm s) (pm s') Q).
  { intros Q Hnp h R j HR Hp. apply Hrd. intros [= <- <-]. rewrite Ho in HR. by simplify_eq. }
  assert (Hch : keeps_chains r (pm s) (pm s')).
  { intros Q h HvQ HlQ HcQ. rewrite <-HcQ.
    apply (chain_agree (pm s) (pm s') r O r [] Q Ht); [apply Ht|simpl; lia|done|].
    apply Hag. intros Hp%prefix_length. rewrite length_app in Hp. simpl in Hp. lia. }
  assert (Hc' : chain (pm s') r P = Some f) by (apply Hch; [done|lia|done]).
  split; [|split; [done|split; [|split; [done|split]]]].
  - split; simpl; [|..|apply Hi|apply Hi|apply Hi].
    + eapply rec_slot_agree; [apply Hi|by apply Hrd..].
    + destruct Ht as [Hroot Hrange Hchild Hhuge]. split; [done..| |].
      * intros h Q j HQ Hl Hvj He. rewrite Hrd in He |- *; [by apply Hchild|..];
          intros [= <- <-]; rewrite Ho in HQ; simplify_eq; lia.
      * intros h Q j HQ Hvj Hp Hh. destruct (decide ((f, i) = (h, j))) as [[= <- <-]|Hne].
        { rewrite Ho in HQ. simplify_eq. lia. }
        rewrite Hrd in Hp, Hh |- * by done. by apply Hhuge.
  - intros Q HQ HvQ Hne. apply (walk_agree (pm s) (pm s') r O r [] Q full_access Ht); [apply Ht|simpl; lia|done|].
    apply Hag. intros [R HR]. simpl in HR. subst Q. rewrite !length_app in HQ. simpl in HQ.
    destruct R; [|simpl in HQ; lia]. by rewrite app_nil_r in Hne.
  - intros He [Hclear Hroot]. split.
    + intros h Q j HQ Hvj. destruct (decide ((f, i) = (h, j))) as [[= <- <-]|Hne].
      * simpl. rewrite rd_wr. destruct He; [congruence|done].
      * rewrite Hrd by done. by eapply Hclear.
    + intros j Hj. rewrite Hrd; [by apply Hroot|]. intros [= -> _].
      rewrite (tr_root _ _ _ Ht) in Ho. injection Ho as <-. done.
  - rewrite (chain_walk _ _ _ _ _ Hc'). simpl. rewrite rd_wr. by destruct (e_present e).
Qed.

Lemma leaf_local s O f P i e :
  O !! f = Some P -> local_step s O (set_pm s (wr (pm s) f i e)) O.
Proof.
  intros Ho. split; [done|by left|]. intros h j Hh _. apply rd_wr_ne. intros [= -> ->]. congruence.
Qed.

(** ** Changes outside the tree *)

(** [m'] has the same entries as [m] in the tables of [O]; the recursive slot
    of the root is not one of them. *)
Definition same_tables (O : gmap Z (list Z)) (m m' : mem) : Prop :=
  forall f P i, O !! f = Some P -> vpath (P ++ [i]) -> rd m' f i = rd m f i.

Lemma same_tables_tree m m' r O : same_tables O m m' -> tree m r O -> tree m' r O.
Proof.
  intros Hs [Hroot Hrange Hchild Hhuge]. split; [done..| |].
  - intros f P i Ho Hl Hv. rewrite (Hs f P i) by done. by apply Hchild.
  - intros f P i Ho Hv. rewrite (Hs f P i) by done. by apply Hhuge.
Qed.

Lemma same_tables_agree O m m' Q : same_tables O m m' -> vpath Q -> agree_on O m m' Q.
Proof. intros Hs Hv f P i Ho [R ->]. apply (Hs f P i Ho). by apply vpath_app in Hv. Qed.

Lemma same_tables_walks m m' r O : same_tables O m m' -> tree m r O -> same_walks r m m'.
Proof.
  intros Hs Ht Q HQ Hv. apply (walk_agree m m' r O r [] Q full_access Ht); [apply Ht|simpl; lia|done|].
  by apply same_tables_agree.
Qed.

Lemma same_tables_chain m m' r O P :
  same_tables O m m' -> tree m r O -> vpath P -> (length P <= 3)%nat ->
  chain m' r P = chain m r P.
Proof.
  intros Hs Ht Hv Hlen. apply (chain_agree m m' r O r [] P Ht); [apply Ht|simpl; lia|done|].
  by apply same_tables_agree.
Qed.

#[export] Instance same_tables_preorder O : PreOrder (same_tables O).
Proof.
  split; [by intros m f P i|]. intros m1 m2 m3 H12 H23 f P i Ho Hv.
  rewrite (H23 f P i Ho Hv). by apply (H12 f P i).
Qed.

Lemma same_tables_keeps m m' r O : same_tables O m m' -> tree m r O -> keeps_chains r m m'.
Proof. intros Hs Ht Q f Hv Hl Hc. rewrite <-Hc. by eapply same_tables_chain. Qed.

Lemma same_tables_tidy m m' r O : same_tables O m m' -> tree m r O -> tidy m r O -> tidy m' r O.
Proof.
  intros Hs Ht [Hclear Hroot]. split.
  - intros f P i Ho Hv. rewrite (Hs f P i Ho Hv). by eapply Hclear.
  - intros i Hv. rewrite (Hs r [] i (tr_root _ _ _ Ht) Hv). by apply Hroot.
Qed.

(** A table in a single frame, all of whose entries but the last are zero. *)
Lemma empty_tree m n :
  0 <= n < 2 ^ 40 -> (forall j, is_index j -> j <> 511 -> rd m n j = 0) -> tree m n {[n := []]}.
Proof.
  intros Hn Hz. split.
  - apply lookup_singleton_eq.
  - intros f P Hf. rewrite lookup_singleton in Hf. case_decide; simplify_eq. done.
  - intros f P i Hf _ Hv He. rewrite lookup_singleton in Hf. case_decide; simplify_eq.
    assert (Hi : is_index i) by (by apply (vpath_index [] i [])). destruct Hv as [_ Hh].
    rewrite Hz in He; [done|done|]. simpl in Hh. congruence.
  - intros f P i Hf Hv He. rewrite lookup_singleton in Hf. case_decide; simplify_eq. done.
Qed.

End Tree.
