(* ===== verification/Mapper.v ===== *)
(** * The mapper

    [arch/x86_64/memory/paging/mapper.rs]: translating a page by walking the
    tables in software, mapping and unmapping 4 KiB pages, and the
    [MapperFlush]/[MapperFlushAll] promises, together with
    [ActivePageTable::flush] and [flush_all] of [paging/mod.rs]. *)

From S2P Require Import Prelude Frames FrameSource Entry Mmu Table PageTree.

Record MapperFlush := mkFlush { flush_page : Page }.
Record MapperFlushAll := mkFlushAll { flush_needed : bool }.

Definition mapper_flush_new (page : Page) : MapperFlush := mkFlush page.

Definition flush_all_new : MapperFlushAll := mkFlushAll false.

(** [mem::forget(flush)]: the pending flush is absorbed. *)
Definition flush_all_consume (fa : MapperFlushAll) (_flush : MapperFlush) : MapperFlushAll :=
  mkFlushAll true.

Section Mapper.
Context {A : Type} `{FrameSource A}.
Implicit Types s : mm A.

Definition log_flush s (x : flush) : mm A := mkMM (pm s) (cr3 s) (tlb s ++ [x]) (falloc s).

(** [invlpg] on the page's start address. *)
Definition apt_flush (page : Page) s : outcome (mm A) :=
  let? _ := page_start page in Ok (log_flush s (FlushPage page)).

(** [cr3_write(cr3())] *)
Definition apt_flush_all s : mm A := log_flush s FlushAll.

Definition mapper_flush (fl : MapperFlush) s : outcome (mm A) := apt_flush (flush_page fl) s.

(** [MapperFlush::ignore]: the promise is dropped without a flush. *)
Definition mapper_ignore (_ : MapperFlush) s : mm A := s.

Definition flush_all_flush (fa : MapperFlushAll) s : mm A :=
  if flush_needed fa then apt_flush_all s else s.

(** The closure [huge_page] of [translate_page]. *)
Definition huge_page (page : Page) (p3 : option Z) s : outcome (option Frame) :=
  match p3 with
  | None => Ok None
  | Some p3 =>
      let? p3_entry := table_index p3 (p3_index page) s in
      let small :=
        let? p2 := next_table p3 (p3_index page) s in
        match p2 with
        | None => Ok None
        | Some p2 =>
            let? p2_entry := table_index p2 (p2_index page) s in
            match entry_pointed_frame p2_entry with
            | Some start_frame =>
                if flags_contains (entry_flags p2_entry) HUGE_PAGE then
                  let? _ := assertb (fnumber start_frame mod ENTRY_COUNT =? 0)
                              "assertion failed: start_frame.number % ENTRY_COUNT == 0" in
                  let? n := usize_add (fnumber start_frame) (p1_index page) in
                  Ok (Some (mkFrame n))
                else Ok None
            | None => Ok None
            end
        end in
      match entry_pointed_frame p3_entry with
      | Some start_frame =>
          if flags_contains (entry_flags p3_entry) HUGE_PAGE then
            let? _ := assertb (fnumber start_frame mod (ENTRY_COUNT * ENTRY_COUNT) =? 0)
                        "assertion failed: start_frame.number % (ENTRY_COUNT * ENTRY_COUNT) == 0" in
            let? k := usize_mul (p2_index page) ENTRY_COUNT in
            let? n := usize_add (fnumber start_frame) k in
            let? n := usize_add n (p1_index page) in
            Ok (Some (mkFrame n))
          else small
      | None => small
      end
  end.

(** [Option::and_then] over a table lookup. *)
Definition and_then_table (t : option Z) (k : Z -> outcome (option Z)) : outcome (option Z) :=
  match t with None => Ok None | Some t => k t end.

Definition translate_page (page : Page) s : outcome (option Frame) :=
  let? p3 := next_table P4 (p4_index page) s in
  let? p2 := and_then_table p3 (fun p3 => next_table p3 (p3_index page) s) in
  let? p1 := and_then_table p2 (fun p2 => next_table p2 (p2_index page) s) in
  let? r := match p1 with
            | None => Ok None
            | Some p1 => let? e := table_index p1 (p1_index page) s in
                         Ok (entry_pointed_frame e)
            end in
  match r with
  | Some f => Ok (Some f)
  | None => huge_page page p3 s
  end.

Definition translate (va : VirtualAddress) s : outcome (option PhysicalAddress) :=
  let offset := va_get va mod PAGE_SIZE in
  let? page := page_containing va in
  let? r := translate_page page s in
  match r with
  | None => Ok None
  | Some frame =>
      let? n := usize_mul (fnumber frame) PAGE_SIZE in
      let? n := usize_add n offset in
      Ok (Some (PhysAddr n))
  end.

Definition map_to (page : Page) (frame : Frame) (flags : Z) s : outcome (MapperFlush * mm A) :=
  let? (p3, s) := next_table_create P4 (p4_index page) s in
  let? (p2, s) := next_table_create p3 (p3_index page) s in
  let? (p1, s) := next_table_create p2 (p2_index page) s in
  let? e := table_index p1 (p1_index page) s in
  let? _ := assertb (entry_is_unused e) "assertion failed: p1[page.p1_index()].is_unused()" in
  let? e := entry_set frame (Z.lor flags PRESENT) in
  let? s := table_index_mut p1 (p1_index page) e s in
  Ok (mapper_flush_new page, s).

Definition map (page : Page) (flags : Z) s : outcome (MapperFlush * mm A) :=
  let? (f, s) := alloc_frame s in
  let? frame := expect f "out of memory" in
  map_to page frame flags s.

Definition identity_map (frame : Frame) (flags : Z) s : outcome (MapperFlush * mm A) :=
  let? a := frame_start frame in
  let? page := page_containing (VirtAddr (pa_get a)) in
  map_to page frame flags s.

Definition unmap (page : Page) s : outcome (MapperFlush * mm A) :=
  let? va := page_start page in
  let? t := translate va s in
  let? _ := assertb (bool_decide (is_Some t))
              "assertion failed: self.translate(page.start_address()).is_some()" in
  let? p3 := next_table_mut P4 (p4_index page) s in
  let? p2 := and_then_table p3 (fun p3 => next_table_mut p3 (p3_index page) s) in
  let? p1 := and_then_table p2 (fun p2 => next_table_mut p2 (p2_index page) s) in
  let? p1 := expect p1 "mapping code does not support huge pages" in
  let? e := table_index p1 (p1_index page) s in
  let? _frame := unwrap (entry_pointed_frame e) in
  let? s := table_index_mut p1 (p1_index page) (entry_set_unused e) s in
  let? _ := page_start page in
  let s := log_flush s (FlushPage page) in
  Ok (mapper_flush_new page, s).
(** ** The software walk *)

(** The frames the closure computes inside a large page. *)
Lemma frame_in_1g page e msg :
  e_frame e mod (ENTRY_COUNT * ENTRY_COUNT) = 0 ->
  (let? _ := assertb (e_frame e mod (ENTRY_COUNT * ENTRY_COUNT) =? 0) msg in
   let? k := usize_mul (p2_index page) ENTRY_COUNT in
   let? n := usize_add (e_frame e) k in
   let? n := usize_add n (p1_index page) in
   Ok (Some (mkFrame n)))
  = Ok (Some (mkFrame (e_frame e / 512 ^ 2 * 512 ^ 2 + digits [p2_index page; p1_index page]))).
Proof.
  intros Ha. rewrite Ha. cbn [assertb Z.eqb obind]. unfold ENTRY_COUNT in *.
  pose proof (e_frame_range e). pose proof (p2_index_range page). pose proof (p1_index_range page).
  unfold is_index in *. rewrite mul_w_fits by (unfold in_width; lia). cbn [obind].
  rewrite add_w_fits by (unfold in_width; lia). cbn [obind].
  rewrite add_w_fits by (unfold in_width; lia). cbn [obind]. do 3 f_equal.
  cbn [digits length Z.of_nat]. Z.div_mod_to_equations. lia.
Qed.

Lemma frame_in_2m page e msg :
  e_frame e mod ENTRY_COUNT = 0 ->
  (let? _ := assertb (e_frame e mod ENTRY_COUNT =? 0) msg in
   let? n := usize_add (e_frame e) (p1_index page) in
   Ok (Some (mkFrame n)))
  = Ok (Some (mkFrame (e_frame e / 512 ^ 1 * 512 ^ 1 + digits [p1_index page]))).
Proof.
  intros Ha. rewrite Ha. cbn [assertb Z.eqb obind]. unfold ENTRY_COUNT in *.
  pose proof (e_frame_range e). pose proof (p1_index_range page). unfold is_index in *.
  rewrite add_w_fits by (unfold in_width; lia). cbn [obind]. do 3 f_equal.
  cbn [digits length Z.of_nat]. Z.div_mod_to_equations. lia.
Qed.

(** Looking up the next table along a chain. *)
Lemma next_table_chain s r O P f i :
  mm_inv s r O -> vpath (P ++ [i]) -> (length P <= 2)%nat -> chain (pm s) r P = Some f ->
  table_index (tva P) i s = Ok (rd (pm s) f i) /\
  next_table_address (tva P) i s =
    Ok (if e_table (rd (pm s) f i) then Some (tva (P ++ [i])) else None) /\
  chain (pm s) r (P ++ [i]) =
    (if e_table (rd (pm s) f i) then Some (e_frame (rd (pm s) f i)) else None).
Proof.
  intros Hi Hv Hlen Hc. assert (Hvp : vpath P) by (by apply vpath_app in Hv).
  assert (Hidx : is_index i) by (by eapply vpath_index).
  pose proof (mm_tref s r O P f Hi Hvp ltac:(lia) Hc) as Ht. split_and!.
  - by erewrite table_index_eq.
  - erewrite next_table_eq by done. by rewrite tva_snoc.
  - rewrite chain_app, Hc. simpl. erewrite tree_link; [|apply Hi|by eapply mm_owned; eauto; lia|done..].
    by destruct (e_table _).
Qed.

Lemma e_table_false e : e_table e = false -> e_present e = true -> e_huge e = true.
Proof. unfold e_table. intros He Hp. rewrite Hp in He. by destruct (e_huge e). Qed.

(** The prefixes of a page's path. *)
Lemma page_paths page :
  p4_index page <> 511 ->
  vpath ([] ++ [p4_index page]) /\ vpath ([p4_index page] ++ [p3_index page]) /\
  vpath ([p4_index page; p3_index page] ++ [p2_index page]) /\
  vpath ([p4_index page; p3_index page; p2_index page] ++ [p1_index page]).
Proof.
  intros Hp. pose proof (vpath_indices page Hp) as Hv. unfold indices in Hv. split_and!; [..|done].
  - by apply (vpath_app [p4_index page]) in Hv.
  - by apply (vpath_app [p4_index page; p3_index page]) in Hv.
  - by apply (vpath_app [p4_index page; p3_index page; p2_index page]) in Hv.
Qed.

Lemma translate_page_walk s r O page :
  mm_inv s r O -> p4_index page <> 511 ->
  translate_page page s = Ok (match walk (pm s) r page with
                              | Some (f, _) => Some (mkFrame f)
                              | None => None
                              end).
Proof.
  intros Hi Hp. destruct (page_paths page Hp) as (Hv4 & Hv3 & Hv2 & Hv1).
  unfold translate_page, huge_page, walk, indices, and_then_table, next_table.
  destruct (next_table_chain s r O [] r (p4_index page) Hi Hv4 ltac:(simpl; lia) eq_refl)
    as (_ & Hn4 & Hc4). change (tva []) with P4 in Hn4. rewrite Hn4. cbn [obind].
  set (e4 := rd (pm s) r (p4_index page)) in *.
  destruct (e_table e4) eqn:He4.
  2:{ cbn [obind]. destruct (e_present e4) eqn:Hp4.
      - pose proof (e_table_false _ He4 Hp4) as Hh4. simpl. fold e4. by rewrite Hp4, Hh4.
      - by rewrite walk_from_absent. }
  rewrite walk_from_cons by done. fold e4. set (f3 := e_frame e4) in *.
  destruct (next_table_chain s r O _ f3 (p3_index page) Hi Hv3 ltac:(simpl; lia) Hc4)
    as (Ht3 & Hn3 & Hc3). cbn [app] in Ht3, Hn3, Hc3 |- *.
  pose proof (mm_owned s r O _ f3 Hi (vpath_app _ _ Hv3) ltac:(simpl; lia) Hc4) as Ho3.
  rewrite Hn3, Ht3. cbn [obind]. set (e3 := rd (pm s) f3 (p3_index page)) in *.
  rewrite pointed_frame_eq, flags_huge.
  destruct (e_table e3) eqn:He3.
  2:{ cbn [obind]. destruct (e_present e3) eqn:Hp3; [|rewrite walk_from_absent, ?Hn3 by done; reflexivity].
      pose proof (e_table_false _ He3 Hp3) as Hh3.
      destruct (tr_huge _ _ _ (mi_tree s r O Hi) f3 _ (p3_index page) Ho3 Hv3 Hp3 Hh3) as [Ha _]. specialize (Ha eq_refl).
      rewrite Hh3. cbn [fnumber]. rewrite frame_in_1g by done.
      cbn [walk_from]. fold e3. by rewrite Hp3, Hh3. }
  rewrite walk_from_cons by done. fold e3. set (f2 := e_frame e3) in *.
  destruct (next_table_chain s r O _ f2 (p2_index page) Hi Hv2 ltac:(simpl; lia) Hc3)
    as (Ht2 & Hn2 & Hc2). cbn [app] in Ht2, Hn2, Hc2 |- *.
  pose proof (mm_owned s r O _ f2 Hi (vpath_app _ _ Hv2) ltac:(simpl; lia) Hc3) as Ho2.
  rewrite Hn2, Ht2. cbn [obind]. set (e2 := rd (pm s) f2 (p2_index page)) in *.
  rewrite !pointed_frame_eq, !flags_huge.
  apply e_table_spec in He3 as [Hp3 Hh3]. rewrite Hp3, Hh3.
  destruct (e_table e2) eqn:He2.
  2:{ cbn [obind]. destruct (e_present e2) eqn:Hp2; [|by rewrite walk_from_absent].
      pose proof (e_table_false _ He2 Hp2) as Hh2.
      destruct (tr_huge _ _ _ (mi_tree s r O Hi) f2 _ (p2_index page) Ho2 Hv2 Hp2 Hh2) as [_ Ha]. specialize (Ha eq_refl).
      rewrite Hh2. cbn [fnumber]. rewrite frame_in_2m by done.
      cbn [walk_from]. fold e2. by rewrite Hp2, Hh2. }
  rewrite walk_from_cons by done. fold e2. set (f1 := e_frame e2) in *.
  pose proof (mm_tref s r O _ f1 Hi (vpath_app _ _ Hv1) ltac:(simpl; lia) Hc2) as Ht1.
  cbn [obind]. rewrite (table_index_eq s _ f1 full_access) by auto with kernel. cbn [obind].
  rewrite pointed_frame_eq. set (e1 := rd (pm s) f1 (p1_index page)).
  apply e_table_spec in He2 as [Hp2 Hh2].
  destruct (e_present e1) eqn:Hp1.
  - rewrite walk_from_last by done. done.
  - rewrite walk_from_absent by done. by rewrite Hp2, Hh2.
Qed.

(** ** Mapping *)

(** A step keeps the tables reached, keeps the tree tidy and takes at most [c]
    frames from the allocator. *)
Record costs s (r : Z) O (c : nat) s' O' : Prop := {
  co_chains : keeps_chains r (pm s) (pm s');
  co_tidy : tidy (pm s) r O -> tidy (pm s') r O';
  co_frames : forall n, frames_left (falloc s) (c + n) -> frames_left (falloc s') n }.

Lemma costs_refl s r O : costs s r O 0 s O.
Proof. by split. Qed.

Lemma costs_trans s1 r O1 c s2 O2 d s3 O3 :
  costs s1 r O1 c s2 O2 -> costs s2 r O2 d s3 O3 -> costs s1 r O1 (c + d) s3 O3.
Proof.
  intros [Hc Ht Hf] [Hc' Ht' Hf']. split; [by etrans|auto|].
  intros n Hn. apply Hf', Hf. by rewrite Nat.add_assoc.
Qed.

(** The translations after mapping [page], and nothing else changed. *)
Record mapped s (r : Z) O (page : Page) (tr : option (Z * rights)) s' O' : Prop := {
  mp_page : walk (pm s') r page = tr;
  mp_others : same_walks_but r (indices page) (pm s) (pm s');
  mp_cr3 : cr3 s' = cr3 s;
  mp_costs : costs s r O 3 s' O';
  mp_local : local_step s O s' O' }.

Definition unused_panic : error := EPanic "assertion failed: p1[page.p1_index()].is_unused()".

(** The three [next_table_create] calls of [map_to]. *)
Definition create_tables (page : Page) s : outcome (Z * mm A) :=
  let? (p3, s) := next_table_create P4 (p4_index page) s in
  let? (p2, s) := next_table_create p3 (p3_index page) s in
  next_table_create p2 (p2_index page) s.

Lemma map_to_create page frame flags s :
  map_to page frame flags s =
  let? (p1, s) := create_tables page s in
  let? e := table_index p1 (p1_index page) s in
  let? _ := assertb (entry_is_unused e) "assertion failed: p1[page.p1_index()].is_unused()" in
  let? e := entry_set frame (Z.lor flags PRESENT) in
  let? s := table_index_mut p1 (p1_index page) e s in
  Ok (mapper_flush_new page, s).
Proof.
  unfold map_to, create_tables. rewrite obind_assoc.
  destruct (next_table_create P4 _ s) as [[p3 s3]|]; cbn [obind]; [|done].
  rewrite obind_assoc. by destruct (next_table_create p3 _ s3) as [[p2 s2]|].
Qed.

Lemma create_tables_spec s r O page :
  mm_inv s r O -> p4_index page <> 511 ->
  match create_tables page s with
  | Ok (t, s') =>
      t = tva [p4_index page; p3_index page; p2_index page] /\ exists O' f,
        mm_inv s' r O' /\ grown s r O s' O' /\
        chain (pm s') r [p4_index page; p3_index page; p2_index page] = Some f /\
        forall n, frames_left (falloc s) (3 + n) -> frames_left (falloc s') n
  | Err e => e = huge_panic \/ e = frames_panic
  end.
Proof.
  intros Hi Hp. destruct (page_paths page Hp) as (Hv4 & Hv3 & Hv2 & Hv1). unfold create_tables.
  pose proof (next_table_create_spec s r O [] r (p4_index page) Hi Hv4 ltac:(simpl; lia) eq_refl) as H4.
  change (tva []) with P4 in H4.
  destruct (next_table_create P4 (p4_index page) s) as [[t3 s3]|]; [|cbn [obind]; tauto].
  destruct H4 as (-> & O3 & f3 & Hi3 & Hc3 & Hg3 & Hl3). cbn [obind].
  pose proof (next_table_create_spec s3 r O3 _ f3 (p3_index page) Hi3 Hv3 ltac:(simpl; lia) Hc3) as H3.
  destruct (next_table_create _ (p3_index page) s3) as [[t2 s2]|]; [|cbn [obind]; tauto].
  destruct H3 as (-> & O2 & f2 & Hi2 & Hc2 & Hg2 & Hl2). cbn [obind].
  pose proof (next_table_create_spec s2 r O2 _ f2 (p2_index page) Hi2 Hv2 ltac:(simpl; lia) Hc2) as H2.
  destruct (next_table_create _ (p2_index page) s2) as [[t1 s1]|]; [|tauto].
  destruct H2 as (-> & O1 & f1 & Hi1 & Hc1 & Hg1 & Hl1). split; [done|].
  exists O1, f1. split; [done|]. split; [eauto using grown_trans|]. split; [done|].
  intros n Hn. by apply Hl1, Hl2, Hl3.
Qed.

Lemma map_to_spec s r O page frame flags :
  mm_inv s r O -> p4_index page <> 511 -> 0 <= fnumber frame < 2 ^ 40 -> flags_ok flags ->
  match map_to page frame flags s with
  | Ok (fl, s') =>
      fl = mkFlush page /\ tlb s' = tlb s /\ walk (pm s) r page = None /\ exists O',
        mm_inv s' r O' /\
        is_Some (chain (pm s') r [p4_index page; p3_index page; p2_index page]) /\
        mapped s r O page (Some (fnumber frame, flag_rights flags)) s' O'
  | Err e => e = huge_panic \/ e = frames_panic \/ e = unused_panic
  end.
Proof.
  intros Hi Hp Hf Hfl. rewrite map_to_create.
  pose proof (create_tables_spec s r O page Hi Hp) as Hcr.
  destruct (create_tables page s) as [[t s1]|]; [|cbn [obind]; tauto].
  destruct Hcr as (-> & O' & f & Hi' & [Hw Hcr3 Htlb Hch Htd Hloc] & Hc & Hfr). cbn [obind].
  destruct (page_paths page Hp) as (_ & _ & _ & Hv1). set (P := [_; _; _]) in *.
  pose proof (mm_tref s1 r O' P f Hi' (vpath_app _ _ Hv1) ltac:(simpl; lia) Hc) as Ht.
  rewrite (table_index_eq s1 _ f full_access) by auto with kernel. cbn [obind].
  unfold entry_is_unused. destruct (Z.eqb_spec (rd (pm s1) f (p1_index page)) 0) as [He|];
    cbn [assertb obind panic]; [|tauto].
  destruct frame as [n]. simpl in Hf. rewrite entry_set_eq by done. cbn [obind].
  set (e := Z.lor (n * PAGE_SIZE) (Z.lor flags PRESENT)).
  rewrite (table_index_mut_eq s1 _ f) by auto with kernel. cbn [obind].
  assert (Hok : flags_ok (Z.lor flags PRESENT)) by solve_flags.
  destruct (leaf_write s1 r O' P f (p1_index page) e Hi' Hv1 eq_refl Hc) as (Hi2 & Hc2 & Hoth & Hch2 & Htd2 & Hpage).
  assert (Hwalk : walk (pm s) r page = None).
  { unfold walk. rewrite <-(Hw (indices page) eq_refl (vpath_indices page Hp)).
    change (indices page) with (P ++ [p1_index page]). rewrite (chain_walk _ _ _ _ _ Hc).
    apply walk_from_absent. by rewrite He. }
  assert (Hbit : forall k, 0 <= k <= 8 -> Z.testbit e k = Z.testbit flags k || Z.testbit PRESENT k).
  { intros k Hk. unfold e. by rewrite flag_bit_of, Z.lor_spec by (done || lia). }
  split; [done|]. split; [done|]. split; [done|]. exists O'. split; [done|].
  pose proof (mm_owned s1 r O' P f Hi' (vpath_app _ _ Hv1) ltac:(simpl; lia) Hc) as Hown.
  split; [by eexists|]. split; [| |done|split; [by etrans| |done]|].
  - unfold walk. change (indices page) with (P ++ [p1_index page]). rewrite Hpage.
    unfold e_present. rewrite Hbit by lia. unfold e. rewrite e_frame_of, e_rights_of by (done || lia).
    change (Z.testbit PRESENT 0) with true. by rewrite orb_true_r, flag_rights_present.
  - intros Q HQ HvQ Hne. rewrite <-(Hw Q HQ HvQ). by apply Hoth.
  - intros Ht0. apply Htd2; [|by apply Htd]. left. unfold e_present. rewrite Hbit by lia. apply orb_true_r.
  - eapply local_step_trans; [exact Hloc|]. by apply leaf_local with P.
Qed.

(** *** When mapping succeeds *)

(** On the way to a page that is not translated no entry has the size bit. *)
Lemma untranslated_not_huge s r O P f i rest :
  mm_inv s r O -> tidy (pm s) r O -> vpath (P ++ i :: rest) -> length (P ++ i :: rest) = 4%nat ->
  rest <> [] -> chain (pm s) r P = Some f -> walk_from (pm s) r (P ++ i :: rest) full_access = None ->
  e_huge (rd (pm s) f i) = false.
Proof.
  intros Hi [Hclear Hroot] Hv Hlen Hne Hc Hw. rewrite (chain_walk _ _ _ _ _ Hc) in Hw.
  rewrite length_app in Hlen. simpl in Hlen.
  assert (Hrl : (1 <= length rest)%nat) by (destruct rest; simpl; [done|lia]).
  assert (Ho : O !! f = Some P).
  { apply (mm_owned s r O); [done|by apply vpath_app in Hv|lia|done]. }
  destruct (e_present (rd (pm s) f i)) eqn:Hp.
  2:{ by rewrite (Hclear f P i Ho (vpath_step _ _ _ Hv) Hp). }
  destruct P as [|k P]; [cbn in Hc; injection Hc as <-; apply Hroot; by apply (vpath_step [] i rest)|].
  cbn [walk_from] in Hw. rewrite Hp in Hw. cbn [negb] in Hw. destruct (e_huge _); [|done].
  by destruct rest as [|? [|? [|? ?]]]; simpl in Hlen; [done..|lia].
Qed.

Lemma create_step s r O P f i rest n :
  mm_inv s r O -> tidy (pm s) r O -> vpath (P ++ i :: rest) -> length (P ++ i :: rest) = 4%nat ->
  rest <> [] -> chain (pm s) r P = Some f -> walk_from (pm s) r (P ++ i :: rest) full_access = None ->
  frames_left (falloc s) (S n) ->
  exists s' O' g, next_table_create (tva P) i s = Ok (tva (P ++ [i]), s') /\
    mm_inv s' r O' /\ tidy (pm s') r O' /\ chain (pm s') r (P ++ [i]) = Some g /\
    walk_from (pm s') r ((P ++ [i]) ++ rest) full_access = None /\ frames_left (falloc s') n.
Proof.
  intros Hi Ht Hv Hlen Hne Hc Hw Hl.
  pose proof (untranslated_not_huge s r O P f i rest Hi Ht Hv Hlen Hne Hc Hw) as Hnh.
  assert (HP : (length P <= 2)%nat).
  { rewrite length_app in Hlen. destruct rest; simpl in Hlen; [done|lia]. }
  pose proof (next_table_create_spec s r O P f i Hi (vpath_step _ _ _ Hv) HP Hc) as H0.
  destruct (next_table_create (tva P) i s) as [[t s']|].
  - destruct H0 as (-> & O' & g & Hi' & Hc' & Hg & Hfl). exists s', O', g.
    split_and!; [done..|by apply Hg|done| |by apply Hfl].
    rewrite <-app_assoc. cbn [app]. rewrite (gr_walks _ _ _ _ _ Hg); done.
  - destruct H0 as [[_ ?]|[_ []]]; [congruence|]. clear -Hl. induction n; [done|].
    by apply IHn, frames_left_pred.
Qed.

(** Three frames are enough for the tables. *)
Lemma create_tables_succeeds s r O page :
  mm_inv s r O -> tidy (pm s) r O -> p4_index page <> 511 -> walk (pm s) r page = None ->
  frames_left (falloc s) 3 ->
  exists s' O' f, create_tables page s = Ok (tva [p4_index page; p3_index page; p2_index page], s') /\
    mm_inv s' r O' /\
    chain (pm s') r [p4_index page; p3_index page; p2_index page] = Some f /\
    rd (pm s') f (p1_index page) = 0.
Proof.
  intros Hi Ht Hp Hw Hl. pose proof (vpath_indices page Hp) as Hv. unfold walk, indices in *.
  unfold create_tables.
  destruct (create_step s r O [] r _ _ _ Hi Ht Hv eq_refl ltac:(done) eq_refl Hw Hl)
    as (s3 & O3 & f3 & E3 & Hi3 & Ht3 & Hc3 & Hw3 & Hl3).
  change (tva []) with P4 in E3. rewrite E3. cbn [obind app] in *.
  destruct (create_step s3 r O3 [_] f3 _ _ _ Hi3 Ht3 Hv eq_refl ltac:(done) Hc3 Hw3 Hl3)
    as (s2 & O2 & f2 & E2 & Hi2 & Ht2 & Hc2 & Hw2 & Hl2). rewrite E2. cbn [obind app] in *.
  destruct (create_step s2 r O2 [_; _] f2 _ _ _ Hi2 Ht2 Hv eq_refl ltac:(done) Hc2 Hw2 Hl2)
    as (s1 & O1 & f1 & E1 & Hi1 & Ht1 & Hc1 & Hw1 & Hl1). cbn [app] in *.
  exists s1, O1, f1. split_and!; [done..|].
  destruct (page_paths page Hp) as (_ & _ & _ & Hv1).
  assert (Ho : O1 !! f1 = Some [p4_index page; p3_index page; p2_index page]).
  { apply (mm_owned s1 r O1); [done|by apply vpath_app in Hv1|simpl; lia|done]. }
  apply (td_clear _ _ _ Ht1 f1 _ _ Ho Hv1).
  change [p4_index page; p3_index page; p2_index page; p1_index page]
    with ([p4_index page; p3_index page; p2_index page] ++ [p1_index page]) in Hw1.
  rewrite (chain_walk _ _ _ _ _ Hc1) in Hw1. destruct (e_present _) eqn:Hpr; [|done].
  by rewrite walk_from_last in Hw1.
Qed.

Lemma map_to_returns s r O page frame flags :
  mm_inv s r O -> tidy (pm s) r O -> p4_index page <> 511 -> walk (pm s) r page = None ->
  0 <= fnumber frame < 2 ^ 40 -> flags_ok flags -> frames_left (falloc s) 3 ->
  exists s' O', map_to page frame flags s = Ok (mkFlush page, s') /\ tlb s' = tlb s /\ mm_inv s' r O' /\
    is_Some (chain (pm s') r [p4_index page; p3_index page; p2_index page]) /\
    mapped s r O page (Some (fnumber frame, flag_rights flags)) s' O'.
Proof.
  intros Hi Ht Hp Hw Hf Hfl Hl. assert (Hok : flags_ok (Z.lor flags PRESENT)) by solve_flags.
  destruct (create_tables_succeeds s r O page Hi Ht Hp Hw Hl) as (s1 & O1 & f & Ecr & Hi1 & Hc & He).
  destruct (page_paths page Hp) as (_ & _ & _ & Hv1). set (P := [_; _; _]) in *.
  pose proof (mm_tref s1 r O1 P f Hi1 (vpath_app _ _ Hv1) ltac:(simpl; lia) Hc) as Htr.
  assert (Hrun : exists x, map_to page frame flags s = Ok x).
  { rewrite map_to_create, Ecr. cbn [obind].
    rewrite (table_index_eq s1 _ f full_access), He by auto with kernel. unfold entry_is_unused.
    destruct frame as [g]. rewrite entry_set_eq by done. cbn [obind Z.eqb assertb].
    rewrite (table_index_mut_eq s1 _ f) by auto with kernel. by eexists. }
  destruct Hrun as [[fl s'] Hrun].
  pose proof (map_to_spec s r O page _ flags Hi Hp Hf Hfl) as Hspec. rewrite Hrun in Hspec |- *.
  destruct Hspec as (-> & Htlb & _ & O' & Hi' & Hs' & Hm). by exists s', O'.
Qed.

(** ** Translating addresses *)

Lemma digits_range Q : Forall is_index Q -> 0 <= digits Q < 512 ^ Z.of_nat (length Q).
Proof.
  induction 1 as [|i Q Hi HQ IH]; [done|]. cbn [digits length]. unfold is_index in Hi.
  rewrite Nat2Z.inj_succ, Z.pow_succ_r by lia. nia.
Qed.

Lemma walk_range m r page f w : walk m r page = Some (f, w) -> 0 <= f < 2 ^ 40.
Proof.
  unfold walk, indices.
  pose proof (p4_index_range page). pose proof (p3_index_range page).
  pose proof (p2_index_range page). pose proof (p1_index_range page).
  assert (Hbig : forall e Q, Forall is_index Q -> (length Q <= 2)%nat ->
    let size := 512 ^ Z.of_nat (length Q) in 0 <= e_frame e / size * size + digits Q < 2 ^ 40).
  { intros e Q HQ Hlen size. pose proof (digits_range Q HQ) as Hd. fold size in Hd.
    pose proof (e_frame_range e).
    assert (Hs : 2 ^ 40 = 2 ^ 40 / size * size /\ 0 < size).
    { unfold size. destruct (length Q) as [|[|[|?]]]; [done..|lia]. }
    assert (Hq : 0 <= e_frame e / size < 2 ^ 40 / size).
    { split; [apply Z.div_pos; lia|apply Z.div_lt_upper_bound; lia]. }
    revert Hs Hq. generalize (2 ^ 40 / size) as k, (e_frame e / size) as q. intros k q [-> ?] ?. nia. }
  assert (Forall is_index [p1_index page]) by (by constructor).
  assert (Forall is_index [p2_index page; p1_index page]) by (by repeat (constructor; [assumption|])).
  cbn [walk_from]. intros Hw.
  repeat (case_match; try discriminate); simplify_eq;
    first [apply e_frame_range | apply Hbig; [done|simpl; lia]].
Qed.

Lemma translate_walk s r O a page :
  mm_inv s r O -> page_containing (VirtAddr a) = Ok page ->
  p4_index page <> 511 -> 0 <= a ->
  translate (VirtAddr a) s = Ok (match walk (pm s) r page with
                                 | Some (f, _) => Some (PhysAddr (f * PAGE_SIZE + a mod PAGE_SIZE))
                                 | None => None
                                 end).
Proof.
  intros Hi Hpg Hp Ha. unfold translate. rewrite Hpg. cbn [obind].
  rewrite (translate_page_walk s r O) by done. cbn [obind].
  destruct (walk (pm s) r page) as [[f w]|] eqn:Hw; [|done].
  apply walk_range in Hw. cbn [fnumber va_get].
  assert (0 <= a mod PAGE_SIZE < PAGE_SIZE) by (apply Z.mod_pos_bound; unfold PAGE_SIZE; lia).
  unfold PAGE_SIZE in *. rewrite mul_w_fits by (unfold in_width; lia). cbn [obind].
  rewrite add_w_fits by (unfold in_width; lia). done.
Qed.

(** ** Unmapping *)

Lemma page_start_canonical page :
  canonical_page page ->
  page_start page = Ok (VirtAddr (pnumber page * PAGE_SIZE)) /\
  page_containing (VirtAddr (pnumber page * PAGE_SIZE)) = Ok page /\ 0 <= pnumber page * PAGE_SIZE.
Proof.
  intros Hc. unfold canonical_page in Hc. unfold page_start, PAGE_SIZE.
  rewrite mul_w_fits by (unfold in_width; lia). split; [done|].
  destruct (page_containing_spec (pnumber page * 4096)) as [Hpc _].
  { unfold in_width. lia. }
  { unfold canonical. rewrite orb_true_iff, Z.ltb_lt, Z.leb_le. lia. }
  rewrite Hpc. unfold PAGE_SIZE. rewrite Z.div_mul by lia. by destruct page; split; [|lia].
Qed.

Definition not_mapped_panic : error :=
  EPanic "assertion failed: self.translate(page.start_address()).is_some()".

(** The three lookups of [unmap]. *)
Lemma find_tables s r O page :
  mm_inv s r O -> p4_index page <> 511 ->
  (let? p3 := next_table_mut P4 (p4_index page) s in
   let? p2 := and_then_table p3 (fun p3 => next_table_mut p3 (p3_index page) s) in
   and_then_table p2 (fun p2 => next_table_mut p2 (p2_index page) s))
  = Ok (match chain (pm s) r [p4_index page; p3_index page; p2_index page] with
        | Some _ => Some (tva [p4_index page; p3_index page; p2_index page])
        | None => None
        end).
Proof.
  intros Hi Hp. destruct (page_paths page Hp) as (Hv4 & Hv3 & Hv2 & Hv1). unfold next_table_mut.
  destruct (next_table_chain s r O [] r (p4_index page) Hi Hv4 ltac:(simpl; lia) eq_refl)
    as (_ & Hn4 & Hc4). change (tva []) with P4 in Hn4. rewrite Hn4. cbn [obind app] in Hc4 |- *.
  change [p4_index page; p3_index page; p2_index page]
    with ([p4_index page] ++ [p3_index page; p2_index page]).
  rewrite chain_app, Hc4. destruct (e_table (rd (pm s) r (p4_index page))); [|done].
  cbn [and_then_table].
  destruct (next_table_chain s r O _ _ (p3_index page) Hi Hv3 ltac:(simpl; lia) Hc4)
    as (_ & Hn3 & Hc3). cbn [app] in Hn3, Hc3 |- *. rewrite Hn3. cbn [obind].
  change [p3_index page; p2_index page] with ([p3_index page] ++ [p2_index page]).
  pose proof Hc3 as Hc3'. change [p4_index page; p3_index page] with ([p4_index page] ++ [p3_index page]) in Hc3'.
  rewrite chain_app, Hc4 in Hc3'. rewrite chain_app, Hc3'.
  destruct (e_table _); [|done]. cbn [and_then_table].
  destruct (next_table_chain s r O _ _ (p2_index page) Hi Hv2 ltac:(simpl; lia) Hc3)
    as (_ & Hn2 & Hc2). cbn [app] in Hn2, Hc2 |- *. rewrite Hn2.
  change [p4_index page; p3_index page; p2_index page] with ([p4_index page; p3_index page] ++ [p2_index page]) in Hc2.
  rewrite chain_app, Hc3 in Hc2. rewrite Hc2. by destruct (e_table _).
Qed.

Lemma unmap_spec s r O page :
  mm_inv s r O -> canonical_page page -> p4_index page <> 511 ->
  match unmap page s with
  | Ok (fl, s') =>
      fl = mkFlush page /\ tlb s' = tlb s ++ [FlushPage page] /\
      (is_Some (walk (pm s) r page) /\ is_Some (chain (pm s) r [p4_index page; p3_index page; p2_index page])) /\
      mm_inv s' r O /\ mapped s r O page None s' O
  | Err e => (e = not_mapped_panic /\ walk (pm s) r page = None) \/
             (e = huge_panic /\ is_Some (walk (pm s) r page) /\
              chain (pm s) r [p4_index page; p3_index page; p2_index page] = None)
  end.
Proof.
  intros Hi Hcp Hp. destruct (page_start_canonical page Hcp) as (Hst & Hpc & Hnn).
  destruct (page_paths page Hp) as (_ & _ & _ & Hv1).
  pose proof (find_tables s r O page Hi Hp) as Hfind.
  unfold unmap. rewrite Hst. cbn [obind]. rewrite (translate_walk s r O _ page) by done. cbn [obind].
  destruct (walk (pm s) r page) as [[n w]|] eqn:Hw; cbn [obind].
  2:{ rewrite bool_decide_false by (by intros [? ?]). cbn. by left. }
  rewrite bool_decide_true by done. cbn [assertb obind].
  destruct (next_table_mut P4 _ s) as [p3|] eqn:H3; [|done]. cbn [obind] in Hfind |- *.
  destruct (and_then_table p3 _) as [p2|] eqn:H2; [|done]. cbn [obind] in Hfind |- *.
  rewrite Hfind. cbn [obind]. set (P := [_; _; _]) in *.
  destruct (chain (pm s) r P) as [f|] eqn:Hc; cbn [expect obind panic]; [|right; by rewrite ?Hw].
  pose proof (mm_tref s r O P f Hi (vpath_app _ _ Hv1) ltac:(simpl; lia) Hc) as Ht.
  rewrite (table_index_eq s _ f full_access) by auto with kernel. cbn [obind].
  unfold walk in Hw. change (indices page) with (P ++ [p1_index page]) in Hw.
  rewrite (chain_walk _ _ _ _ _ Hc) in Hw. rewrite pointed_frame_eq.
  destruct (e_present (rd (pm s) f (p1_index page))) eqn:Hpr;
    [|rewrite walk_from_absent in Hw; done].
  cbn [unwrap expect obind]. rewrite (table_index_mut_eq s _ f) by auto with kernel. cbn [obind].
  destruct (leaf_write s r O P f (p1_index page) 0 Hi Hv1 eq_refl Hc) as (Hi2 & Hc2 & Hoth & Hch2 & Htd2 & Hpage).
  split; [done|]. split; [done|]. split; [by rewrite ?Hw, ?Hc|].
  assert (Hi3 : mm_inv (log_flush (set_pm s (wr (pm s) f (p1_index page) 0)) (FlushPage page)) r O).
  { destruct Hi2. by split. }
  split; [done|]. split; [exact Hpage|done|done|split; [done|auto|intros k; apply frames_left_le; lia]|].
  pose proof (leaf_local s O f P (p1_index page) 0
    (mm_owned s r O P f Hi (vpath_app _ _ Hv1) ltac:(simpl; lia) Hc)) as [? ? ?]. by split.
Qed.

(** The entries of the three upper levels for a page, and whether one of them makes
    the processor end its walk in a large page. *)
Definition upper_entries (m : mem) (r : Z) (page : Page) : Z * Z * Z :=
  let e4 := rd m r (p4_index page) in
  let e3 := rd m (e_frame e4) (p3_index page) in
  (e4, e3, rd m (e_frame e3) (p2_index page)).

Definition on_large_page (m : mem) (r : Z) (page : Page) : bool :=
  let '(_, e3, e2) := upper_entries m r page in e_huge e3 || e_huge e2.

Lemma chain_tables s r O page :
  mm_inv s r O -> p4_index page <> 511 ->
  chain (pm s) r [p4_index page; p3_index page; p2_index page] =
    let '(e4, e3, e2) := upper_entries (pm s) r page in
    if e_table e4 && e_table e3 && e_table e2 then Some (e_frame e2) else None.
Proof.
  intros Hi Hp. destruct (page_paths page Hp) as (Hv4 & Hv3 & Hv2 & Hv1). unfold upper_entries.
  destruct (next_table_chain s r O [] r (p4_index page) Hi Hv4 ltac:(simpl; lia) eq_refl) as (_ & _ & Hc4).
  cbn [app] in Hc4. change [p4_index page; p3_index page; p2_index page]
    with ([p4_index page] ++ [p3_index page; p2_index page]).
  rewrite chain_app, Hc4. destruct (e_table (rd (pm s) r (p4_index page))); [|done]. cbn [andb].
  destruct (next_table_chain s r O _ _ (p3_index page) Hi Hv3 ltac:(simpl; lia) Hc4) as (_ & _ & Hc3).
  change [p3_index page; p2_index page] with ([p3_index page] ++ [p2_index page]).
  pose proof Hc3 as Hc3'. rewrite chain_app, Hc4 in Hc3'. rewrite chain_app, Hc3'.
  destruct (e_table _); [|done]. cbn [andb app] in *.
  destruct (next_table_chain s r O [p4_index page; p3_index page] _ (p2_index page) Hi Hv2 ltac:(simpl; lia) Hc3)
    as (_ & _ & Hc2). rewrite chain_app, Hc3 in Hc2. exact Hc2.
Qed.

(** A mapped page has a table of the last level exactly when it is on no large
    page. *)
Lemma chain_large s r O page :
  mm_inv s r O -> p4_index page <> 511 -> is_Some (walk (pm s) r page) ->
  bool_decide (is_Some (chain (pm s) r [p4_index page; p3_index page; p2_index page])) = negb (on_large_page (pm s) r page).
Proof.
  intros Hi Hp [x Hw]. rewrite (chain_tables s r O page Hi Hp). unfold on_large_page, upper_entries.
  unfold walk, indices in Hw. cbn [walk_from] in Hw.
  set (e4 := rd (pm s) r (p4_index page)) in *. set (e3 := rd (pm s) (e_frame e4) (p3_index page)) in *.
  set (e2 := rd (pm s) (e_frame e3) (p2_index page)) in *. unfold e_table.
  destruct (e_present e4), (e_huge e4), (e_present e3), (e_huge e3); cbn [negb andb orb] in *; try done;
    try (by rewrite bool_decide_false by (by intros [? ?])).
  destruct (e_present e2), (e_huge e2); cbn [negb andb orb] in *; try done;
    by rewrite bool_decide_false by (by intros [? ?]).
Qed.

(** A page that is mapped by a 4 KiB entry can be unmapped. *)
Lemma unmap_returns s r O page :
  mm_inv s r O -> canonical_page page -> p4_index page <> 511 -> is_Some (walk (pm s) r page) ->
  is_Some (chain (pm s) r [p4_index page; p3_index page; p2_index page]) ->
  exists s', unmap page s = Ok (mkFlush page, s').
Proof.
  intros Hi Hc Hp [x Hw] [y Hch]. pose proof (unmap_spec s r O page Hi Hc Hp) as H0.
  destruct (unmap page s) as [[fl s']|]; [destruct H0 as (-> & _); by eexists|].
  destruct H0 as [[_ H0]|[_ [_ H0]]]; congruence.
Qed.

Lemma table_index_mut_falloc t i e s s' : table_index_mut t i e s = Ok s' -> falloc s' = falloc s.
Proof.
  unfold table_index_mut. intros Hrun. apply obind_Ok in Hrun as (? & _ & Hrun).
  apply obind_Ok in Hrun as (? & _ & Hrun). by injection Hrun as <-.
Qed.

(** Unmapping gives no frame back and takes none. *)
Lemma unmap_falloc page s fl s' : unmap page s = Ok (fl, s') -> falloc s' = falloc s.
Proof.
  unfold unmap. intros Hrun. repeat (apply obind_Ok in Hrun as (? & ? & Hrun)).
  injection Hrun as _ <-. simpl. by eapply table_index_mut_falloc.
Qed.

(** ** Properties of the mapper *)

Lemma set_falloc_inv s r O x a :
  mm_inv s r O -> fs_alloc (falloc s) = Ok (x, a) -> mm_inv (set_falloc s a) r O.
Proof.
  intros Hi Hal. pose proof (mi_alloc s r O Hi) as Hok.
  destruct Hi as [Hs Ht _ Htk Hact]. split; [done..|by eapply fs_alloc_ok| |].
  - intros g P HP Hg. by eapply Htk, fs_alloc_shrinks.
  - destruct Hact as [?|[? Hna]]; [by left|right]. split; [done|]. intros Hg.
    by eapply Hna, fs_alloc_shrinks.
Qed.

Lemma mapped_other s r O page tr s' O' q :
  mapped s r O page tr s' O' -> canonical_page page -> canonical_page q -> p4_index q <> 511 ->
  q <> page -> walk (pm s') r q = walk (pm s) r q.
Proof.
  intros [_ Ho _ _] Hp Hq Hq4 Hne. apply Ho; [done|by apply vpath_indices|].
  unfold indices. intros [= ? ? ? ?]. apply Hne. by apply canonical_page_inj.
Qed.

(** The errors of the mapper are panics. *)
Lemma mapper_panics e :
  e = huge_panic \/ e = frames_panic \/ e = unused_panic \/ e = not_mapped_panic -> is_panic e.
Proof. intros [->|[->|[->| ->]]]; by eexists. Qed.

Lemma map_to_panics s r O page frame flags :
  mm_inv s r O -> p4_index page <> 511 -> 0 <= fnumber frame < 2 ^ 40 -> flags_ok flags ->
  panics_only (map_to page frame flags s).
Proof.
  intros Hi Hp Hf Hfl e He. pose proof (map_to_spec s r O page frame flags Hi Hp Hf Hfl) as H0. rewrite He in H0.
  apply mapper_panics. tauto.
Qed.

Lemma unmap_panics s r O page :
  mm_inv s r O -> canonical_page page -> p4_index page <> 511 -> panics_only (unmap page s).
Proof.
  intros Hi Hc Hp e He. pose proof (unmap_spec s r O page Hi Hc Hp) as H0. rewrite He in H0. apply mapper_panics. tauto.
Qed.

(** C4: [Mapper::translate] agrees with the processor.  For every canonical
    address outside the recursive slot it returns the physical address of the
    hardware walk (4 KiB, 2 MiB and 1 GiB pages), and [None] exactly when the
    walk finds no mapping. *)
Theorem translate_correct s r O a :
  mm_inv s r O -> in_width 64 a -> canonical a = true -> p4_index (mkPage (a / PAGE_SIZE)) <> 511 ->
  translate (VirtAddr a) s =
  Ok (match walk (pm s) r (mkPage (a / PAGE_SIZE)) with
      | Some (f, _) => Some (PhysAddr (f * PAGE_SIZE + a mod PAGE_SIZE))
      | None => None
      end).
Proof.
  intros Hi Ha Hc Hp. apply (translate_walk s r O); [done| |done|apply Ha].
  by apply page_containing_spec.
Qed.

(** C1: [map_to] makes the processor translate the page to the given frame,
    writable exactly when the flags say so; the page was not mapped before, no
    other translation changes, the page-table invariant is kept and the caller
    gets the flush promise for the page.  When it does not return it panics, for
    one of three reasons (a table would have to be made inside a large page, the
    allocator is empty, or the entry is in use): it takes no page fault and it
    comes to an end. *)
Theorem map_to_correct s r O page frame flags :
  mm_inv s r O -> canonical_page page -> p4_index page <> 511 ->
  0 <= fnumber frame < 2 ^ 40 -> flags_ok flags ->
  match map_to page frame flags s with
  | Ok (fl, s') =>
      walk (pm s) r page = None /\
      walk (pm s') r page = Some (fnumber frame, flag_rights flags) /\
      (forall q, canonical_page q -> p4_index q <> 511 -> q <> page ->
         walk (pm s') r q = walk (pm s) r q) /\
      (exists O', mm_inv s' r O') /\ cr3 s' = cr3 s /\ flush_page fl = page
  | Err e => e = huge_panic \/ e = frames_panic \/ e = unused_panic
  end.
Proof.
  intros Hi Hc Hp Hf Hfl. pose proof (map_to_spec s r O page frame flags Hi Hp Hf Hfl) as H0.
  destruct (map_to page frame flags s) as [[fl s']|e]; [|exact H0].
  destruct H0 as (-> & _ & Hn & O' & Hi' & _ & Hm).
  split_and!; [done|apply Hm| |by exists O'|apply Hm|done].
  intros q Hq Hq4 Hne. by eapply mapped_other.
Qed.

(** C17: mapping succeeds when it should.  On tidy tables, for a page that is
    not mapped and with three frames left in the allocator, [map_to] returns; the
    page is then translated to the frame, the tables stay tidy, and at most three
    frames are gone, so that the next call can succeed in the same way. *)
Theorem map_to_succeeds s r O page frame flags n :
  mm_inv s r O -> tidy (pm s) r O -> p4_index page <> 511 -> walk (pm s) r page = None ->
  0 <= fnumber frame < 2 ^ 40 -> flags_ok flags -> frames_left (falloc s) (3 + n) ->
  exists s' O', map_to page frame flags s = Ok (mkFlush page, s') /\
    mm_inv s' r O' /\ tidy (pm s') r O' /\ frames_left (falloc s') n /\
    walk (pm s') r page = Some (fnumber frame, flag_rights flags).
Proof.
  intros Hi Ht Hp Hw Hf Hfl Hl.
  destruct (map_to_returns s r O page frame flags Hi Ht Hp Hw Hf Hfl) as (s' & O' & Hrun & _ & Hi' & _ & Hm).
  { by eapply frames_left_le; [|exact Hl]; lia. }
  exists s', O'. split_and!; [done|done|by apply Hm..].
Qed.

(** [Mapper::map] backs the page with a frame that was available and is
    not available afterwards, so no later allocation hands it out again, and
    that is not a page table; or it panics, because no frame is left or for a
    reason of [map_to]. *)
Theorem map_fresh_frame s r O page flags :
  mm_inv s r O -> p4_index page <> 511 -> flags_ok flags ->
  match map page flags s with
  | Ok (fl, s') =>
      exists f, fs_avail (falloc s) f /\ ~ fs_avail (falloc s') f /\
        walk (pm s') r page = Some (f, flag_rights flags) /\ O !! f = None
  | Err e => e = EPanic "out of memory" /\ ~ frames_left (falloc s) 1 \/
             e = huge_panic \/ e = frames_panic \/ e = unused_panic
  end.
Proof.
  intros Hi Hp Hfl. unfold map, alloc_frame.
  pose proof (mi_alloc s r O Hi) as Hok.
  destruct (fs_alloc_returns _ Hok) as [[[f|] a] Hal]; rewrite Hal; cbn [obind expect panic].
  2:{ left. split; [done|]. intros Hl. destruct (frames_left_alloc _ 0 Hok Hl) as (? & ? & Hal' & _).
      by rewrite Hal in Hal'. }
  destruct (fs_alloc_some _ _ _ Hok Hal) as [Hav Hnav].
  destruct (avail_fresh s r O (fnumber f) Hi Hav) as (Hown & _).
  pose proof (set_falloc_inv _ _ _ _ _ Hi Hal) as Hi'.
  pose proof (map_to_spec _ r O page f flags Hi' Hp (fs_avail_bound _ _ Hok Hav) Hfl) as H0.
  destruct (map_to page f flags (set_falloc s a)) as [[fl s']|e]; [|by right].
  destruct H0 as (_ & _ & _ & O' & _ & _ & Hm).
  exists (fnumber f). split_and!; [done| |apply Hm|done]. intros Hg. by apply Hnav, (ls_avail _ _ _ _ (mp_local _ _ _ _ _ _ _ Hm)).
Qed.

(** C15: mapping a page and unmapping it again succeeds, flushes the page and
    restores every translation. *)
Theorem map_unmap_roundtrip s r O page frame flags fl s1 :
  mm_inv s r O -> canonical_page page -> p4_index page <> 511 ->
  0 <= fnumber frame < 2 ^ 40 -> flags_ok flags ->
  map_to page frame flags s = Ok (fl, s1) ->
  exists fl2 s2, unmap page s1 = Ok (fl2, s2) /\ last (tlb s2) = Some (FlushPage page) /\
    forall q, canonical_page q -> p4_index q <> 511 -> walk (pm s2) r q = walk (pm s) r q.
Proof.
  intros Hi Hc Hp Hf Hfl Hrun. pose proof (map_to_spec s r O page frame flags Hi Hp Hf Hfl) as H0.
  rewrite Hrun in H0. destruct H0 as (_ & _ & Hn & O' & Hi' & [f Hch] & Hm).
  pose proof (unmap_spec s1 r O' page Hi' Hc Hp) as H1. pose proof (mp_page _ _ _ _ _ _ _ Hm) as Hw.
  destruct (unmap page s1) as [[fl2 s2]|e].
  - destruct H1 as (_ & Htlb & _ & _ & Hm2). exists fl2, s2. split; [done|].
    split; [by rewrite Htlb, last_snoc|]. intros q Hq Hq4. destruct (decide (q = page)) as [->|Hne].
    + rewrite (mp_page _ _ _ _ _ _ _ Hm2). by symmetry.
    + rewrite (mapped_other s1 r O' page None s2 O') by done. by eapply mapped_other.
  - exfalso. destruct H1 as [[_ H1]|[_ [_ H1]]]; congruence.
Qed.

(** C16: [unmap] succeeds exactly on the pages that have a 4 KiB entry of their own:
    it removes the page's translation, no other, and flushes it.  On a page that is
    not mapped, and on one that lies in a large page, it panics with the message for
    it, without a fault. *)
Theorem unmap_correct s r O page :
  mm_inv s r O -> canonical_page page -> p4_index page <> 511 ->
  match walk (pm s) r page with
  | None => unmap page s = Err not_mapped_panic
  | Some _ =>
      if on_large_page (pm s) r page then unmap page s = Err huge_panic
      else exists s', unmap page s = Ok (mkFlush page, s') /\ walk (pm s') r page = None /\ mm_inv s' r O /\
        tlb s' = tlb s ++ [FlushPage page] /\
        (forall q, canonical_page q -> p4_index q <> 511 -> q <> page -> walk (pm s') r q = walk (pm s) r q)
  end.
Proof.
  intros Hi Hc Hp. pose proof (unmap_spec s r O page Hi Hc Hp) as H1.
  destruct (walk (pm s) r page) as [t|] eqn:Hw.
  - pose proof (chain_large s r O page Hi Hp ltac:(by rewrite Hw)) as Hl.
    destruct (unmap page s) as [[fl s']|e] eqn:Hrun.
    + destruct H1 as (-> & Htlb & [_ Hch] & Hi' & Hm). rewrite bool_decide_true in Hl by done.
      destruct (on_large_page (pm s) r page); [done|].
      exists s'. split_and!; [done|apply Hm|done|done|]. intros q Hq Hq4 Hne. by eapply mapped_other.
    + destruct H1 as [[_ H1]|(-> & _ & H1)]; [done|]. rewrite H1 in Hl.
      rewrite bool_decide_false in Hl by (by intros [? ?]). by destruct (on_large_page _ _ _).
  - destruct (unmap page s) as [[fl s']|e]; [by destruct H1 as (_ & _ & [[? ?] _] & _)|].
    by destruct H1 as [[-> _]|(_ & [? ?] & _)].
Qed.

(** ** Mapping a run of pages

    The loops of [memory::init] and [StackAllocator::alloc_stack]:
    [let result = active_table.map(page, flags); result.flush(active_table)]. *)

Definition map_and_flush (flags : Z) (page : Page) s : outcome (mm A) :=
  let? (result, s) := map page flags s in mapper_flush result s.

Definition oom_panic : error := EPanic "out of memory".

(** A page of the kernel's address space outside the recursive slot. *)
Definition user_page (page : Page) : Prop := canonical_page page /\ p4_index page <> 511.

Lemma map_and_flush_spec s r O flags page :
  mm_inv s r O -> user_page page -> flags_ok flags ->
  match map_and_flush flags page s with
  | Ok s' =>
      walk (pm s) r page = None /\ cr3 s' = cr3 s /\ tlb s' = tlb s ++ [FlushPage page] /\
      (exists O', mm_inv s' r O' /\ costs s r O 4 s' O') /\
      (exists f, walk (pm s') r page = Some (f, flag_rights flags)) /\
      (forall q, user_page q -> q <> page -> walk (pm s') r q = walk (pm s) r q)
  | Err e => e = oom_panic \/ e = huge_panic \/ e = frames_panic \/ e = unused_panic
  end.
Proof.
  intros Hi [Hc Hp] Hfl. pose proof (mi_alloc s r O Hi) as Hok.
  unfold map_and_flush, map, alloc_frame.
  destruct (fs_alloc_returns _ Hok) as [[[f|] a] Hal]; rewrite Hal; cbn [obind expect panic]; [|tauto].
  pose proof (set_falloc_inv _ _ _ _ _ Hi Hal) as Hi'.
  destruct (fs_alloc_some _ _ _ Hok Hal) as [Hav _].
  pose proof (map_to_spec _ r O page f flags Hi' Hp (fs_avail_bound _ _ Hok Hav) Hfl) as H0.
  destruct (map_to page f flags _) as [[fl s']|e]; cbn [obind]; [|tauto].
  destruct H0 as (-> & Htlb & Hn & O' & Hi2 & _ & Hm). unfold mapper_flush, apt_flush. simpl.
  destruct (page_start_canonical page Hc) as (-> & _). cbn [obind]. simpl.
  split_and!; [done|apply Hm|by rewrite Htlb|..].
  - exists O'. split; [by destruct Hi2; split|].
    destruct (mp_costs _ _ _ _ _ _ _ Hm) as [Hk Ht Hfr]. split; [done|done|]. intros k Hk4. simpl.
    apply Hfr. destruct (frames_left_alloc _ _ Hok Hk4) as (? & ? & Hal' & Hl'). rewrite Hal in Hal'.
    injection Hal' as _ <-. exact Hl'.
  - exists (fnumber f). apply Hm.
  - intros q [Hq Hq4] Hne. by apply (mapped_other _ _ _ _ _ _ _ q Hm).
Qed.

Lemma map_and_flush_returns s r O flags page :
  mm_inv s r O -> tidy (pm s) r O -> user_page page -> flags_ok flags -> walk (pm s) r page = None ->
  frames_left (falloc s) 4 -> exists s', map_and_flush flags page s = Ok s'.
Proof.
  intros Hi Ht [Hc Hp] Hfl Hw Hl. pose proof (mi_alloc s r O Hi) as Hok.
  destruct (frames_left_alloc _ _ Hok Hl) as (f & a & Hal & Hl').
  unfold map_and_flush, map, alloc_frame. rewrite Hal. cbn [obind expect].
  destruct (fs_alloc_some _ _ _ Hok Hal) as [Hav _].
  destruct (map_to_returns (set_falloc s a) r O page f flags (set_falloc_inv _ _ _ _ _ Hi Hal) Ht Hp Hw
    (fs_avail_bound _ _ Hok Hav) Hfl Hl') as (s' & O' & -> & _). cbn [obind].
  unfold mapper_flush, apt_flush. simpl. destruct (page_start_canonical page Hc) as (-> & _). by eexists.
Qed.

Lemma map_pages_spec flags l s r O s' :
  mm_inv s r O -> Forall user_page l -> NoDup l -> flags_ok flags ->
  ofold (map_and_flush flags) l s = Ok s' ->
  cr3 s' = cr3 s /\ tlb s' = tlb s ++ (FlushPage <$> l) /\ (exists O', mm_inv s' r O' /\ costs s r O (4 * length l) s' O') /\
  Forall (fun p => walk (pm s) r p = None /\
                   exists f, walk (pm s') r p = Some (f, flag_rights flags)) l /\
  (forall q, user_page q -> q ∉ l -> walk (pm s') r q = walk (pm s) r q).
Proof.
  revert s O. induction l as [|p l IH]; intros s O Hi Hu Hnd Hfl Hrun; cbn [ofold] in Hrun.
  { inv_ok. rewrite app_nil_r. split_and!; [done..| |constructor|done].
    exists O. split; [done|apply costs_refl]. }
  inversion Hu as [|? ? Hp Hl]; subst. apply NoDup_cons in Hnd as [Hnin Hnd].
  pose proof (map_and_flush_spec s r O flags p Hi Hp Hfl) as H0.
  destruct (map_and_flush flags p s) as [s1|]; [|done]. cbn [obind] in Hrun.
  destruct H0 as (Hn & Hc1 & Ht1 & (O1 & Hi1 & Hco1) & [f Hf] & Ho1).
  destruct (IH s1 O1 Hi1 Hl Hnd Hfl Hrun) as (Hc2 & Ht2 & (O2 & Hi2 & Hco2) & Hall & Ho2).
  split_and!; [congruence|by rewrite Ht2, Ht1, <-app_assoc| | |].
  - exists O2. split; [done|]. replace (4 * length (p :: l))%nat with (4 + 4 * length l)%nat by (simpl; lia).
    by eapply costs_trans.
  - constructor; [split; [done|]; exists f; by rewrite Ho2|].
    apply Forall_forall. intros q Hq. rewrite Forall_forall in Hall, Hl.
    destruct (Hall q Hq) as [Hqn Hqf]. split; [|done]. rewrite <-Ho1; [done|by apply Hl|].
    intros ->. done.
  - intros q Hq Hnot. rewrite not_elem_of_cons in Hnot. rewrite Ho2, Ho1; tauto.
Qed.

(** Mapping a list of pages fails only where mapping one of them does. *)
Lemma map_pages_errors flags l s r O e :
  mm_inv s r O -> Forall user_page l -> flags_ok flags -> ofold (map_and_flush flags) l s = Err e ->
  e = oom_panic \/ e = huge_panic \/ e = frames_panic \/ e = unused_panic.
Proof.
  intros Hi Hu Hfl. revert s O Hi. induction Hu as [|p l Hp Hu IH]; intros s O Hi Hrun; cbn [ofold] in Hrun; [done|].
  pose proof (map_and_flush_spec s r O flags p Hi Hp Hfl) as H0.
  destruct (map_and_flush flags p s) as [s1|e']; cbn [obind] in Hrun; [|by injection Hrun as <-].
  destruct H0 as (_ & _ & _ & (O1 & Hi1 & _) & _). by eapply IH.
Qed.

(** Four frames for each page are enough. *)
Lemma map_pages_returns flags l s r O :
  mm_inv s r O -> tidy (pm s) r O -> Forall user_page l -> NoDup l -> flags_ok flags ->
  Forall (fun p => walk (pm s) r p = None) l -> frames_left (falloc s) (4 * length l) ->
  exists s', ofold (map_and_flush flags) l s = Ok s'.
Proof.
  intros Hi Ht Hu. revert s O Hi Ht. induction Hu as [|p l Hp Hu IH]; intros s O Hi Ht Hnd Hfl Hw Hl; [by eexists|].
  apply NoDup_cons in Hnd as [Hnin Hnd]. apply Forall_cons in Hw as [Hwp Hw].
  replace (4 * length (p :: l))%nat with (4 + 4 * length l)%nat in Hl by (simpl; lia).
  destruct (map_and_flush_returns s r O flags p Hi Ht Hp Hfl Hwp) as [s1 Hrun].
  { by eapply frames_left_le; [|exact Hl]; lia. }
  pose proof (map_and_flush_spec s r O flags p Hi Hp Hfl) as H0. rewrite Hrun in H0.
  destruct H0 as (_ & _ & _ & (O1 & Hi1 & [_ Ht1 Hf1]) & _ & Ho1). cbn [ofold]. rewrite Hrun. cbn [obind].
  apply (IH s1 O1); [done|auto|done|done| |by apply Hf1].
  rewrite Forall_forall in Hw, Hu |- *. intros q Hq. rewrite Ho1; [by apply Hw|by apply Hu|].
  intros ->. done.
Qed.

End Mapper.

(** The pages below 2^47 are canonical and not in the recursive slot. *)
Lemma low_page f : 0 <= f < 2 ^ 35 -> user_page (mkPage f).
Proof.
  intros Hf. split; [left; simpl; lia|]. rewrite p4_index_eq. simpl. Z.div_mod_to_equations. lia.
Qed.
