(* ===== verification/Boot.v ===== *)
(** * The page tables the kernel boots with

    [set_up_page_tables] of [arch/x86_64/asm/boot.asm]: the P4 table maps
    itself through its last slot, its first slot leads through one P3 and one
    P2 table to 512 large pages that identity map the first GiB.  The state
    [paging::init] starts from satisfies the invariant of the page-table code,
    so that code's theorems apply to the running system; the concrete
    instances of those theorems are collected here. *)

From S2P Require Import Prelude Frames FrameSource AreaAlloc Entry Mmu Table PageTree Mapper.

(** [m] is the memory the boot loader leaves; [eax] is stored to the low half of
    each slot, whose other half is zero like all of the [bss] the tables are in. *)
Definition set_up_page_tables (m : mem) (p4 p3 p2 : Z) : mem :=
  let m := wr m p4 511 (Z.lor (p4 * PAGE_SIZE) 3) in
  let m := wr m p4 0 (Z.lor (p3 * PAGE_SIZE) 3) in
  let m := wr m p3 0 (Z.lor (p2 * PAGE_SIZE) 3) in
  foldl (fun m ecx => wr m p2 ecx (Z.lor (0x200000 * ecx) 0x83)) m (seqZ 0 512).

Definition boot_owner (p4 p3 p2 : Z) : gmap Z (list Z) :=
  <[p4 := []]> (<[p3 := [0]]> {[p2 := [0; 0]]}).

Section Boot.
Context {A : Type} `{FrameSource A}.
Variables (m0 : mem) (p4 p3 p2 : Z).
Hypothesis Hdistinct : p4 <> p3 /\ p4 <> p2 /\ p3 <> p2.
Hypothesis Hrange : 0 <= p4 < 2 ^ 20 /\ 0 <= p3 < 2 ^ 20 /\ 0 <= p2 < 2 ^ 20.

Hypothesis Hbss : forall f i, f ∈ [p4; p3; p2] -> rd m0 f i = 0.

#[local] Abbreviation m := (set_up_page_tables m0 p4 p3 p2).

Definition huge_entry (i : Z) : Z := Z.lor (0x200000 * i) 0x83.

Lemma boot_rd f i :
  f ∈ [p4; p3; p2] ->
  rd m f i =
  if decide (f = p2 /\ i ∈ seqZ 0 512) then huge_entry i
  else if decide ((f, i) = (p3, 0)) then link_entry p2
  else if decide ((f, i) = (p4, 0)) then link_entry p3
  else if decide ((f, i) = (p4, 511)) then link_entry p4
  else 0.
Proof.
  intros Hf. unfold set_up_page_tables. rewrite foldl_wr_spec, !rd_wr_case, (Hbss f i Hf). done.
Qed.

(** The slots of the three tables. *)
Lemma boot_slots :
  rd m p4 511 = link_entry p4 /\ rd m p4 0 = link_entry p3 /\ rd m p3 0 = link_entry p2 /\
  (forall i, i <> 0 -> i <> 511 -> rd m p4 i = 0) /\ (forall i, i <> 0 -> rd m p3 i = 0) /\
  (forall i, is_index i -> rd m p2 i = huge_entry i).
Proof.
  destruct Hdistinct as (H43 & H42 & H32).
  split_and!; intros; rewrite boot_rd by set_solver; repeat case_decide; try congruence; try tauto.
  exfalso. apply H1. split; [done|]. apply elem_of_seqZ. unfold is_index in *. lia.
Qed.

Lemma huge_entry_bit i k :
  is_index i -> 0 <= k <= 8 \/ k = 63 -> Z.testbit (huge_entry i) k = Z.testbit 0x83 k.
Proof.
  intros Hi Hk. unfold huge_entry, is_index in *.
  replace (0x200000 * i) with ((512 * i) * PAGE_SIZE) by (unfold PAGE_SIZE; lia).
  apply flag_bit_of; [lia|split; [lia|reflexivity]|lia].
Qed.

Lemma boot_owner_lookup f P :
  boot_owner p4 p3 p2 !! f = Some P ->
  (f = p4 /\ P = []) \/ (f = p3 /\ P = [0]) \/ (f = p2 /\ P = [0; 0]).
Proof.
  unfold boot_owner. rewrite !lookup_insert, lookup_singleton. repeat case_decide; naive_solver.
Qed.

Lemma huge_entry_spec i :
  is_index i -> e_table (huge_entry i) = false /\ e_frame (huge_entry i) = 512 * i.
Proof.
  intros Hi. unfold is_index in Hi.
  assert (Hfl : flags_ok 0x83) by (split; [lia|reflexivity]).
  unfold huge_entry. replace (0x200000 * i) with ((512 * i) * PAGE_SIZE) by (unfold PAGE_SIZE; lia).
  split; [|apply e_frame_of; [lia|done]].
  unfold e_table, e_present, e_huge. rewrite !flag_bit_of by (done || lia). done.
Qed.

Lemma boot_link g : 0 <= g < 2 ^ 20 -> e_rights (link_entry g) = full_access /\ e_frame (link_entry g) = g.
Proof.
  intros Hg. destruct (link_entry_spec g ltac:(lia)) as [[_ ?]%e_link_spec ?]. done.
Qed.

Lemma boot_tree : tree m p4 (boot_owner p4 p3 p2).
Proof.
  destruct Hdistinct as (H43 & H42 & H32). destruct Hrange as (Hr4 & Hr3 & Hr2).
  pose proof boot_owner_lookup as Hlk.
  assert (H3 : boot_owner p4 p3 p2 !! p3 = Some [0]).
  { unfold boot_owner. rewrite lookup_insert_ne, lookup_insert_eq by done. done. }
  assert (H2 : boot_owner p4 p3 p2 !! p2 = Some [0; 0]).
  { unfold boot_owner. rewrite !lookup_insert_ne, lookup_singleton_eq by done. done. }
  split.
  - apply lookup_insert_eq.
  - intros f P Hf. destruct (Hlk f P Hf) as [[-> _]|[[-> _]|[-> _]]]; lia.
  - intros f P i Hf _ Hv. rewrite boot_rd by (destruct (Hlk f P Hf) as [[-> _]|[[-> _]|[-> _]]]; set_solver). destruct (Hlk f P Hf) as [[-> ->]|[[-> ->]|[-> ->]]].
    + repeat case_decide; simplify_eq; try (intros; tauto || done).
      * intros _. destruct (boot_link p3 Hr3) as [? ->]. done.
      * by destruct Hv as [_ []].
    + repeat case_decide; simplify_eq; try (intros; tauto || done).
      intros _. destruct (boot_link p2 Hr2) as [? ->]. done.
    + pose proof (vpath_index _ _ _ Hv) as Hi. case_decide; simplify_eq.
      * by destruct (huge_entry_spec i Hi) as [-> _].
      * repeat case_decide; simplify_eq; try done.
  - intros f P i Hf Hv. rewrite boot_rd by (destruct (Hlk f P Hf) as [[-> _]|[[-> _]|[-> _]]]; set_solver). destruct (Hlk f P Hf) as [[-> ->]|[[-> ->]|[-> ->]]].
    + by intros.
    + repeat case_decide; simplify_eq; try (intros; tauto || done).
      intros _ Hh. destruct (link_entry_spec p2 ltac:(lia)) as [[[_ Hn]%e_table_spec _]%e_link_spec _].
      congruence.
    + pose proof (vpath_index _ _ _ Hv) as Hi. case_decide; simplify_eq.
      * intros _ _. destruct (huge_entry_spec i Hi) as [_ ->]. split; [done|]. intros _.
        unfold ENTRY_COUNT. rewrite Z.mul_comm. apply Z.mod_mul. lia.
      * repeat case_decide; simplify_eq; done.
Qed.

Lemma boot_tidy : tidy m p4 (boot_owner p4 p3 p2).
Proof.
  destruct Hdistinct as (H43 & H42 & H32). destruct Hrange as (Hr4 & Hr3 & Hr2).
  destruct (link_entry_spec p3 ltac:(lia)) as [[[Hp3 Hn3]%e_table_spec _]%e_link_spec _].
  destruct (link_entry_spec p2 ltac:(lia)) as [[[Hp2 _]%e_table_spec _]%e_link_spec _].
  split.
  - intros f P i Hf Hv. destruct (boot_owner_lookup f P Hf) as [[-> ->]|[[-> ->]|[-> ->]]];
      rewrite boot_rd by set_solver; repeat case_decide; simplify_eq; try (done || congruence || tauto).
    + by destruct Hv as [_ []].
    + unfold e_present. by rewrite huge_entry_bit by (lia || by eapply vpath_index).
  - intros i Hv. rewrite boot_rd by set_solver. repeat case_decide; simplify_eq; try (done || tauto).
    by destruct Hv as [_ []].
Qed.

Lemma boot_rec_slot : rec_slot m p4 p4.
Proof.
  destruct Hdistinct as (H43 & H42 & H32). destruct Hrange as (Hr4 & Hr3 & Hr2).
  apply rec_slot_link. destruct boot_slots as (-> & _). split; apply link_entry_spec; lia.
Qed.

Lemma boot_inv a log :
  fs_ok a -> (forall f, f ∈ [p4; p3; p2] -> ~ fs_avail a f) ->
  mm_inv (mkMM m (p4 * PAGE_SIZE) log a) p4 (boot_owner p4 p3 p2).
Proof.
  intros Ha Hn. assert (Hact : p4 * PAGE_SIZE / PAGE_SIZE = p4) by (apply Z.div_mul; done).
  split; unfold active; simpl; rewrite ?Hact.
  - apply boot_rec_slot.
  - apply boot_tree.
  - done.
  - intros f P Hf. apply Hn. unfold boot_owner in Hf. rewrite !lookup_insert, lookup_singleton in Hf.
    repeat case_decide; simplify_eq; set_solver.
  - by left.
Qed.

Lemma boot_walk page :
  p4_index page <> 511 ->
  walk m p4 page =
  if decide (p4_index page = 0 /\ p3_index page = 0)
  then Some (512 * p2_index page + p1_index page, full_access) else None.
Proof.
  intros Hp. destruct Hrange as (Hr4 & Hr3 & Hr2).
  destruct boot_slots as (_ & H4 & H3 & H4n & H3n & H2).
  destruct (link_entry_spec p3 ltac:(lia)) as [Hl3 Hf3].
  destruct (link_entry_spec p2 ltac:(lia)) as [Hl2 Hf2].
  pose proof (p2_index_range page) as Hi2. pose proof (p1_index_range page) as Hi1.
  unfold walk, indices. destruct (decide (p4_index page = 0)) as [E4|].
  2:{ rewrite walk_from_absent by (by rewrite H4n). by rewrite decide_False by tauto. }
  rewrite E4. apply e_link_spec in Hl3 as [Ht3 Hw3]. rewrite walk_from_cons by (by rewrite H4).
  rewrite H4, Hf3, Hw3, and_full_l. destruct (decide (p3_index page = 0)) as [E3|].
  2:{ rewrite walk_from_absent by (by rewrite H3n). by rewrite decide_False by tauto. }
  rewrite E3. apply e_link_spec in Hl2 as [Ht2 Hw2]. rewrite walk_from_cons by (by rewrite H3).
  rewrite H3, Hf2, Hw2, and_full_l. rewrite decide_True by done.
  destruct (huge_entry_spec _ Hi2) as [Het Hef].
  pose proof (fun k => huge_entry_bit (p2_index page) k Hi2) as Hb.
  cbn [walk_from]. rewrite H2 by done. rewrite and_full_l. unfold e_rights, e_execute, e_present, e_huge, e_writable.
  rewrite !Hb, Hef by lia.
  cbn [length digits Z.of_nat]. change (Z.testbit 131 0) with true. change (Z.testbit 131 7) with true.
  change (Z.testbit 131 1) with true. change (Z.testbit 131 63) with false. cbn [negb].
  do 2 f_equal. unfold is_index in *. Z.div_mod_to_equations. lia.
Qed.

(** the tables [boot.asm] builds satisfy the invariant of the page-table
    code, for any three distinct table frames below 4 GiB that the allocator
    will not hand out; they identity map the first GiB, writable, and nothing
    else outside the recursive slot. *)
Theorem boot_tables_ok a log :
  fs_ok a -> (forall f, f ∈ [p4; p3; p2] -> ~ fs_avail a f) ->
  mm_inv (mkMM m (p4 * PAGE_SIZE) log a) p4 (boot_owner p4 p3 p2) /\
  forall page, p4_index page <> 511 ->
    walk m p4 page =
    if decide (p4_index page = 0 /\ p3_index page = 0)
    then Some (512 * p2_index page + p1_index page, full_access) else None.
Proof. intros. split; [by apply boot_inv|apply boot_walk]. Qed.

End Boot.

(** ** A concrete machine: the boot tables inside the kernel image *)

Lemma bss_zero f i : f ∈ [0x180; 0x181; 0x182] -> rd ∅ f i = 0.
Proof. done. Qed.

Definition boot_mem : mem := set_up_page_tables ∅ 0x180 0x181 0x182.
Definition boot_own : gmap Z (list Z) := boot_owner 0x180 0x181 0x182.

Definition boot_state : mm (option AreaFrameAllocator) :=
  mkMM boot_mem (0x180 * PAGE_SIZE) [] (Some (demo_alloc 0x202)).

Lemma boot_alloc_ok : fs_ok (Some (demo_alloc 0x202)).
Proof. apply demo_alloc_wf. lia. Qed.

Lemma boot_not_avail f : f ∈ [0x180; 0x181; 0x182] -> ~ fs_avail (Some (demo_alloc 0x202)) f.
Proof.
  intros Hf [Hge _]. simpl in Hge. rewrite !elem_of_cons in Hf. set_solver by lia.
Qed.

Lemma boot_state_inv : mm_inv boot_state 0x180 boot_own.
Proof. apply boot_inv; [lia|lia|apply bss_zero|apply boot_alloc_ok|apply boot_not_avail]. Qed.

Lemma boot_state_tidy : tidy boot_mem 0x180 boot_own.
Proof. apply boot_tidy; [lia|lia|apply bss_zero]. Qed.

(** The first page of the kernel heap, at 1 GiB. *)
Definition heap_page : Page := mkPage 0x40000.

Lemma heap_page_canonical : canonical_page heap_page.
Proof. left. simpl. lia. Qed.

Lemma heap_page_p4 : p4_index heap_page <> 511.
Proof. vm_compute. discriminate. Qed.

Definition demo_frame : Frame := mkFrame 0x300.

Lemma demo_frame_range : 0 <= fnumber demo_frame < 2 ^ 40.
Proof. simpl. lia. Qed.

Lemma writable_ok : flags_ok WRITABLE.
Proof. solve_flags. Qed.

Lemma present_writable_ok : flags_ok (Z.lor PRESENT WRITABLE).
Proof. solve_flags. Qed.

Lemma boot_tables_ok_witness :
  mm_inv boot_state 0x180 boot_own /\
  forall page, p4_index page <> 511 ->
    walk boot_mem 0x180 page =
    if decide (p4_index page = 0 /\ p3_index page = 0)
    then Some (512 * p2_index page + p1_index page, full_access) else None.
Proof.
  apply (boot_tables_ok ∅ 0x180 0x181 0x182); [lia|lia|apply bss_zero|apply boot_alloc_ok|apply boot_not_avail].
Defined.

Lemma recursive_mapping_witness :
  exists t, next_tables P4 [0; 0] boot_state = Ok (Some t) /\
    table_index t 5 boot_state = Ok (0x200000 * 5 + 0x83) /\ next_table t 5 boot_state = Ok None.
Proof.
  destruct (recursive_mapping boot_state 0x180 [0; 0] 0x182) as (t & Ht & Hr).
  - apply boot_rec_slot; [lia|lia|apply bss_zero].
  - repeat constructor; unfold is_index; lia.
  - simpl. lia.
  - vm_compute. reflexivity.
  - destruct (Hr 5 ltac:(unfold is_index; lia)) as (H1 & _ & nt & Hn & Hiff).
    exists t. split; [exact Ht|]. split; [exact H1|]. rewrite Hn. destruct nt; [|reflexivity].
    exfalso. destruct (proj1 Hiff ltac:(by eexists)) as [_ Hh]. discriminate Hh.
Defined.

Lemma translate_correct_witness :
  translate (VirtAddr 0xb8123) boot_state = Ok (Some (PhysAddr 0xb8123)).
Proof.
  rewrite (translate_correct boot_state 0x180 boot_own 0xb8123);
    [vm_compute; reflexivity|apply boot_state_inv|unfold in_width; lia|reflexivity|vm_compute; lia].
Defined.

Lemma map_to_correct_witness :
  exists fl s', map_to heap_page demo_frame WRITABLE boot_state = Ok (fl, s') /\
    walk (pm s') 0x180 heap_page = Some (0x300, full_access).
Proof.
  assert (Hok : ok_bool (map_to heap_page demo_frame WRITABLE boot_state) = true)
    by (vm_compute; reflexivity).
  apply ok_bool_run in Hok as [[fl s'] E]. exists fl, s'. split; [exact E|].
  pose proof (map_to_correct boot_state 0x180 boot_own heap_page demo_frame WRITABLE
    boot_state_inv heap_page_canonical heap_page_p4 demo_frame_range writable_ok) as H.
  rewrite E in H. destruct H as (_ & -> & _). reflexivity.
Defined.

(** The allocator has the frames from 0x300 to the end of memory. *)
Lemma boot_state_frames n : (n <= 1000)%nat -> frames_left (falloc boot_state) n.
Proof.
  intros Hn. exists (seqZ 0x300 (Z.of_nat n)). split; [apply NoDup_seqZ|]. split; [rewrite length_seqZ; lia|].
  apply Forall_forall. intros f Hf%elem_of_seqZ.
  split; [simpl; lia|]. unfold usable, in_kernel, in_multiboot. simpl. split; [|lia].
  exists high_mem. split; [set_solver|]. change (first_fr high_mem) with 0x100.
  change (last_fr high_mem) with 0x7fdf. lia.
Qed.

Lemma map_to_succeeds_witness :
  exists s' O', map_to heap_page demo_frame WRITABLE boot_state = Ok (mkFlush heap_page, s') /\
    mm_inv s' 0x180 O' /\ tidy (pm s') 0x180 O' /\ frames_left (falloc s') 1 /\
    walk (pm s') 0x180 heap_page = Some (fnumber demo_frame, flag_rights WRITABLE).
Proof.
  apply (map_to_succeeds boot_state 0x180 boot_own heap_page demo_frame WRITABLE 1);
    [exact boot_state_inv|exact boot_state_tidy|exact heap_page_p4|vm_compute; reflexivity
    |exact demo_frame_range|exact writable_ok|apply boot_state_frames; lia].
Defined.

Lemma map_fresh_frame_witness :
  exists fl s' f, map heap_page (Z.lor PRESENT WRITABLE) boot_state = Ok (fl, s') /\
    fs_avail (falloc boot_state) f /\ ~ fs_avail (falloc s') f.
Proof.
  assert (Hok : ok_bool (map heap_page (Z.lor PRESENT WRITABLE) boot_state) = true)
    by (vm_compute; reflexivity).
  apply ok_bool_run in Hok as [[fl s'] E].
  pose proof (map_fresh_frame boot_state 0x180 boot_own heap_page (Z.lor PRESENT WRITABLE)
    boot_state_inv heap_page_p4 present_writable_ok) as H.
  rewrite E in H. destruct H as (f & H1 & H2 & _).
  exists fl, s', f. auto.
Defined.

Lemma map_unmap_roundtrip_witness :
  exists fl s1 fl2 s2, map_to heap_page demo_frame WRITABLE boot_state = Ok (fl, s1) /\
    unmap heap_page s1 = Ok (fl2, s2) /\ walk (pm s2) 0x180 heap_page = walk boot_mem 0x180 heap_page.
Proof.
  assert (Hok : ok_bool (map_to heap_page demo_frame WRITABLE boot_state) = true)
    by (vm_compute; reflexivity).
  apply ok_bool_run in Hok as [[fl s1] E].
  destruct (map_unmap_roundtrip boot_state 0x180 boot_own heap_page demo_frame WRITABLE fl s1)
    as (fl2 & s2 & H1 & _ & H2);
    [exact boot_state_inv|exact heap_page_canonical|exact heap_page_p4|exact demo_frame_range
    |exact writable_ok|exact E|].
  exists fl, s1, fl2, s2. split; [exact E|]. split; [exact H1|].
  apply H2; [exact heap_page_canonical|exact heap_page_p4].
Defined.

(** Unmapping a page that is not mapped, one in a large page, and one that was just
    mapped. *)
Lemma unmap_correct_witness :
  unmap heap_page boot_state = Err not_mapped_panic /\
  unmap (mkPage 0xb8) boot_state = Err huge_panic /\
  exists fl s1 s2, map_to heap_page demo_frame WRITABLE boot_state = Ok (fl, s1) /\
    unmap heap_page s1 = Ok (mkFlush heap_page, s2) /\ walk (pm s2) 0x180 heap_page = None.
Proof.
  pose proof (unmap_correct boot_state 0x180 boot_own heap_page boot_state_inv heap_page_canonical heap_page_p4) as H1.
  assert (W1 : walk (pm boot_state) 0x180 heap_page = None) by (vm_compute; reflexivity). rewrite W1 in H1.
  split; [exact H1|].
  destruct (low_page 0xb8 ltac:(lia)) as [Hc Hp].
  pose proof (unmap_correct boot_state 0x180 boot_own (mkPage 0xb8) boot_state_inv Hc Hp) as H2.
  assert (W2 : walk (pm boot_state) 0x180 (mkPage 0xb8) = Some (0xb8, full_access)) by (vm_compute; reflexivity).
  assert (L2 : on_large_page (pm boot_state) 0x180 (mkPage 0xb8) = true) by (vm_compute; reflexivity).
  rewrite W2, L2 in H2. split; [exact H2|].
  assert (Hok : ok_bool (map_to heap_page demo_frame WRITABLE boot_state) = true) by (vm_compute; reflexivity).
  apply ok_bool_run in Hok as [[fl s1] E]. exists fl, s1.
  pose proof (map_to_spec boot_state 0x180 boot_own heap_page demo_frame WRITABLE boot_state_inv heap_page_p4
    demo_frame_range writable_ok) as Hm. rewrite E in Hm. destruct Hm as (_ & _ & _ & O' & Hi & Hch & Hm).
  pose proof (mp_page _ _ _ _ _ _ _ Hm) as Hw.
  pose proof (unmap_correct s1 0x180 O' heap_page Hi heap_page_canonical heap_page_p4) as H3. rewrite Hw in H3.
  pose proof (chain_large s1 0x180 O' heap_page Hi heap_page_p4 ltac:(rewrite Hw; by eexists)) as Hl.
  rewrite bool_decide_true in Hl by exact Hch. destruct (on_large_page (pm s1) 0x180 heap_page); [discriminate Hl|].
  destruct H3 as (s2 & Hrun & Hnone & _). exists s2. split; [exact E|]. split; [exact Hrun|exact Hnone].
Defined.
