(* ===== verification/StackAlloc.v ===== *)
(** * The kernel stack allocator

    [arch/x86_64/memory/stack_allocator.rs]: carving a guard page and a run of
    stack pages off a range of virtual pages and mapping the stack pages. *)

From S2P Require Import Prelude Frames FrameSource Entry Mmu Table PageTree Mapper AreaAlloc Boot.

Record StackAllocator := mkStackAllocator { sa_range : PageIter }.

Definition stack_allocator_new (page_range : PageIter) : StackAllocator :=
  mkStackAllocator page_range.

Record Stack := mkStack { stack_top : Z; stack_bottom : Z }.

Definition stack_new (top bottom : Z) : outcome Stack :=
  let? _ := assertb (bottom <? top) "assertion failed: top > bottom" in
  Ok (mkStack top bottom).

Section StackAlloc.
Context {A : Type} `{FrameSource A}.
Implicit Types s : mm A.

Definition alloc_stack (size_in_pages : Z) (sa : StackAllocator) s
  : outcome (option Stack * StackAllocator * mm A) :=
  if size_in_pages =? 0 then Ok (None, sa, s) else
  let range := sa_range sa in
  let? (guard_page, range) := page_next range in
  let? (stack_start, range) := page_next range in
  let? (stack_end, range) :=
    if size_in_pages =? 1 then Ok (stack_start, range)
    else let? n := usize_sub size_in_pages 2 in page_nth (Z.to_nat n) range in
  match guard_page, stack_start, stack_end with
  | Some _, Some start, Some end_ =>
      let sa := mkStackAllocator range in
      let? pages := pages_of (page_range_inclusive start end_) in
      let? s := ofold (map_and_flush PRESENT) pages s in
      let? e := page_start end_ in
      let? top_of_stack := usize_add (va_get e) PAGE_SIZE in
      let? b := page_start start in
      let? st := stack_new top_of_stack (va_get b) in
      Ok (Some st, sa, s)
  | _, _, _ => Ok (None, sa, s)
  end.

(** The pages an allocator may still use. *)
Definition sa_pages (sa : StackAllocator) (first last_ : Z) : Prop :=
  sa_range sa = mkPageIter (mkPage first) (mkPage last_).

(** The range arithmetic of [alloc_stack]: guard page, first and last stack
    page, and what is left. *)
Lemma alloc_stack_range n first last_ sa s :
  sa_pages sa first last_ -> 1 <= n < 2 ^ 63 -> 0 <= first -> last_ < 2 ^ 63 ->
  alloc_stack n sa s =
  if first + n <=? last_ then
    let? s := ofold (map_and_flush PRESENT) (mkPage <$> seqZ (first + 1) n) s in
    let? e := page_start (mkPage (first + n)) in
    let? top_of_stack := usize_add (va_get e) PAGE_SIZE in
    let? b := page_start (mkPage (first + 1)) in
    let? st := stack_new top_of_stack (va_get b) in
    Ok (Some st, mkStackAllocator (mkPageIter (mkPage (first + n + 1)) (mkPage last_)), s)
  else Ok (None, sa, s).
Proof.
  intros Hsa Hn Hf Hl. unfold alloc_stack. rewrite Hsa.
  destruct (Z.eqb_spec n 0); [lia|]. unfold page_next at 1. simpl.
  destruct (Z.leb_spec first last_) as [H1|]; cbn [obind].
  2:{ destruct (Z.leb_spec (first + n) last_); [lia|].
      unfold page_next. simpl. destruct (Z.leb_spec first last_); [lia|]. cbn [obind].
      destruct (Z.eqb_spec n 1); [done|].
      rewrite sub_w_fits by (unfold in_width; lia). cbn [obind]. rewrite page_nth_spec by lia.
      destruct (_ <=? _); done. }
  rewrite add_w_fits by (unfold in_width; lia). cbn [obind].
  unfold page_next. simpl. destruct (Z.leb_spec (first + 1) last_) as [H2|]; cbn [obind].
  2:{ destruct (Z.leb_spec (first + n) last_); [lia|]. destruct (Z.eqb_spec n 1); [done|].
      rewrite sub_w_fits by (unfold in_width; lia). cbn [obind]. rewrite page_nth_spec by lia.
      destruct (_ <=? _); done. }
  rewrite add_w_fits by (unfold in_width; lia). cbn [obind].
  destruct (Z.eqb_spec n 1) as [->|]; cbn [obind].
  { destruct (Z.leb_spec (first + 1) last_); [|lia].
    rewrite pages_of_seq by lia. cbn [obind]. replace (first + 1 - (first + 1) + 1) with 1 by lia. done. }
  rewrite sub_w_fits by (unfold in_width; lia). cbn [obind]. rewrite page_nth_spec by lia.
  rewrite Z2Nat.id by lia. replace (first + 1 + 1 + (n - 2)) with (first + n) by lia.
  destruct (Z.leb_spec (first + n) last_); [|done]. cbn [obind].
  rewrite pages_of_seq by lia. cbn [obind]. by replace (first + n - (first + 1) + 1) with n by lia.
Qed.

(** The pages of a stack can be mapped. *)
Lemma stack_pages_ok first n last_ :
  0 <= first -> first + n <= last_ -> last_ < 2 ^ 35 -> (forall k, first <= k <= last_ -> p4_index (mkPage k) <> 511) ->
  Forall user_page (mkPage <$> seqZ (first + 1) n) /\ NoDup (mkPage <$> seqZ (first + 1) n).
Proof.
  intros Hf Hn Hl H4. split.
  - apply Forall_forall. intros q Hq. apply list_elem_of_fmap in Hq as (k & -> & Hk).
    apply elem_of_seqZ in Hk. split; [left; simpl; lia|apply H4; lia].
  - apply NoDup_fmap_2; [by intros ? ? [= ->]|apply NoDup_seqZ].
Qed.

Lemma alloc_stack_spec n first last_ sa s r O res sa' s' :
  mm_inv s r O -> sa_pages sa first last_ -> 1 <= n < 2 ^ 63 -> 0 <= first -> last_ < 2 ^ 35 ->
  (forall k, first <= k <= last_ -> p4_index (mkPage k) <> 511) ->
  alloc_stack n sa s = Ok (res, sa', s') ->
  match res with
  | None => last_ < first + n /\ sa' = sa /\ s' = s
  | Some st =>
      first + n <= last_ /\ sa_pages sa' (first + n + 1) last_ /\
      stack_bottom st = (first + 1) * PAGE_SIZE /\ stack_top st = stack_bottom st + n * PAGE_SIZE /\
      active s' = active s /\ (exists O', mm_inv s' r O') /\
      (forall k, first + 1 <= k <= first + n ->
         walk (pm s) r (mkPage k) = None /\ exists f, walk (pm s') r (mkPage k) = Some (f, read_execute)) /\
      (forall va v, active s = r -> stack_bottom st <= va < stack_top st ->
         store64 (pm s') (active s') va v = Err (EFault va)) /\
      (forall q, user_page q -> ~ (first + 1 <= pnumber q <= first + n) ->
         walk (pm s') r q = walk (pm s) r q)
  end.
Proof.
  intros Hi Hsa Hn Hf Hl H4 Hrun. rewrite (alloc_stack_range n first last_) in Hrun by (done || lia).
  destruct (Z.leb_spec (first + n) last_) as [Hle|Hlt]; [|by inv_ok].
  apply obind_Ok in Hrun as (s1 & Hmap & Hrun).
  destruct (stack_pages_ok first n last_ Hf Hle Hl H4) as [Hu Hnd].
  destruct (map_pages_spec PRESENT _ s r O s1 Hi Hu Hnd ltac:(solve_flags) Hmap)
    as (Hcr & _ & (O' & HO & _) & Hall & Hoth).
  unfold page_start in Hrun. simpl in Hrun. unfold PAGE_SIZE in *.
  rewrite !mul_w_fits in Hrun by (unfold in_width; lia). cbn [obind va_get] in Hrun.
  rewrite add_w_fits in Hrun by (unfold in_width; lia). cbn [obind] in Hrun.
  unfold stack_new in Hrun. destruct (Z.ltb_spec ((first + 1) * 4096) ((first + n) * 4096 + 4096)); [|lia].
  cbn [assertb obind] in Hrun. inv_ok. simpl.
  assert (Hro : forall k, first + 1 <= k <= first + n ->
    walk (pm s) r (mkPage k) = None /\ exists f, walk (pm s') r (mkPage k) = Some (f, read_execute)).
  { intros k Hk. rewrite Forall_forall in Hall. apply (Hall (mkPage k)).
    apply list_elem_of_fmap. exists k. split; [done|]. apply elem_of_seqZ. lia. }
  split; [done|]. split; [done|]. split; [lia|]. split; [lia|]. split; [unfold active; by rewrite Hcr|].
  split; [by exists O'|]. split; [exact Hro|]. split.
  - intros va v Hact Hva. unfold store64, PAGE_SIZE. case_if_as Hal; [done|]. unfold active in *.
    rewrite Hcr, Hact. destruct (Hro (va / 4096)) as [_ [f ->]]; [Z.div_mod_to_equations; lia|done].
  - intros q Hq Hnot. apply Hoth; [done|]. intros Hin. apply Hnot.
    apply list_elem_of_fmap in Hin as (k & -> & Hk). apply elem_of_seqZ in Hk. simpl. lia.
Qed.

(** It fails only when the frames run out or a page cannot be mapped. *)
Lemma alloc_stack_errors n first last_ sa s r O e :
  mm_inv s r O -> sa_pages sa first last_ -> 1 <= n < 2 ^ 63 -> 0 <= first -> last_ < 2 ^ 35 ->
  (forall k, first <= k <= last_ -> p4_index (mkPage k) <> 511) ->
  alloc_stack n sa s = Err e -> e = oom_panic \/ e = huge_panic \/ e = frames_panic \/ e = unused_panic.
Proof.
  intros Hi Hsa Hn Hf Hl H4 E.
  rewrite (alloc_stack_range n first last_) in E by (done || lia).
  destruct (Z.leb_spec (first + n) last_) as [Hle|]; [|done].
  destruct (stack_pages_ok first n last_ Hf Hle Hl H4) as [Hu _].
  destruct (ofold _ _ s) as [s1|e1] eqn:Em; cbn [obind] in E.
  + unfold page_start in E. simpl in E. unfold PAGE_SIZE in *.
    rewrite !mul_w_fits in E by (unfold in_width; lia). cbn [obind va_get] in E.
    rewrite add_w_fits in E by (unfold in_width; lia). cbn [obind] in E. unfold stack_new in E.
    by destruct (Z.ltb_spec ((first + 1) * 4096) ((first + n) * 4096 + 4096)); [|lia].
  + injection E as <-. by eapply map_pages_errors; [exact Hi|exact Hu| |exact Em]; solve_flags.
Qed.

(** C23: [alloc_stack] on a range [first..last]: with [n] > 0 pages it either
    leaves everything unchanged and returns [None], exactly when fewer than
    [n] + 1 pages are left, or it returns a stack of exactly [n] pages above
    one guard page, removes the [n] + 1 pages from its range, maps every stack
    page, none of which was mapped before, and changes no other translation, in particular not the guard
    page's.  The stack pages are mapped without write permission: when the
    tree is the active one, every store to the new stack faults.  It fails only when the
    frames run out or a page is already mapped. *)
Theorem alloc_stack_correct n first last_ sa s r O :
  mm_inv s r O -> sa_pages sa first last_ -> 1 <= n < 2 ^ 63 -> 0 <= first -> last_ < 2 ^ 35 ->
  (forall k, first <= k <= last_ -> p4_index (mkPage k) <> 511) ->
  match alloc_stack n sa s with
  | Ok (None, sa', s') => last_ < first + n /\ sa' = sa /\ s' = s
  | Ok (Some st, sa', s') =>
      first + n <= last_ /\ sa_pages sa' (first + n + 1) last_ /\
      stack_bottom st = (first + 1) * PAGE_SIZE /\ stack_top st = stack_bottom st + n * PAGE_SIZE /\
      active s' = active s /\ (exists O', mm_inv s' r O') /\
      (forall k, first + 1 <= k <= first + n ->
         walk (pm s) r (mkPage k) = None /\ exists f, walk (pm s') r (mkPage k) = Some (f, read_execute)) /\
      (forall va v, active s = r -> stack_bottom st <= va < stack_top st ->
         store64 (pm s') (active s') va v = Err (EFault va)) /\
      (forall q, user_page q -> ~ (first + 1 <= pnumber q <= first + n) ->
         walk (pm s') r q = walk (pm s) r q)
  | Err e => e = oom_panic \/ e = huge_panic \/ e = frames_panic \/ e = unused_panic
  end.
Proof.
  intros Hi Hsa Hn Hf Hl H4. destruct (alloc_stack n sa s) as [[[res sa'] s']|e] eqn:E.
  - pose proof (alloc_stack_spec n first last_ sa s r O res sa' s' Hi Hsa Hn Hf Hl H4 E) as H0.
    destruct res; exact H0.
  - by eapply alloc_stack_errors.
Qed.

End StackAlloc.

(** The stack range [memory::init] sets up, right after a 125-page heap. *)
Definition demo_stacks : StackAllocator :=
  mkStackAllocator (mkPageIter (mkPage 0x4007d) (mkPage 0x400e1)).

Lemma demo_stack_pages k : 0x4007d <= k <= 0x400e1 -> p4_index (mkPage k) <> 511.
Proof. intros Hk. rewrite p4_index_eq. simpl. Z.div_mod_to_equations. lia. Qed.

Lemma alloc_stack_correct_witness :
  exists st sa' s', alloc_stack 1 demo_stacks boot_state = Ok (Some st, sa', s') /\
    stack_top st = stack_bottom st + 1 * PAGE_SIZE /\
    sa_pages sa' 0x4007f 0x400e1.
Proof.
  assert (Hok : ok_bool (alloc_stack 1 demo_stacks boot_state) = true) by (vm_compute; reflexivity).
  assert (Hst : match alloc_stack 1 demo_stacks boot_state with Ok (Some _, _, _) => true | _ => false end = true)
    by (vm_compute; reflexivity).
  assert (Hsa : sa_pages demo_stacks 0x4007d 0x400e1) by reflexivity.
  assert (Hn : 1 <= 1 < 2 ^ 63) by lia. assert (Hf : 0 <= 0x4007d) by lia.
  assert (Hl : 0x400e1 < 2 ^ 35) by lia.
  pose proof (alloc_stack_correct 1 0x4007d 0x400e1 demo_stacks boot_state 0x180 boot_own
    boot_state_inv Hsa Hn Hf Hl demo_stack_pages) as Hc.
  destruct (alloc_stack 1 demo_stacks boot_state) as [[[res sa'] s']|e]; [|discriminate Hok].
  destruct res as [st|]; [|discriminate Hst].
  destruct Hc as (_ & Hr & _ & Ht & _). exists st, sa', s'. split; [reflexivity|]. split; [exact Ht|exact Hr].
Defined.
