(* ===== verification/Paging.v ===== *)
(** * Temporary pages, inactive tables and switching

    [arch/x86_64/memory/paging/temporary_page.rs] and the
    [ActivePageTable]/[InactivePageTable] part of
    [arch/x86_64/memory/paging/mod.rs], up to [paging::init]. *)

From S2P Require Import Prelude Frames FrameSource Entry Mmu Table PageTree Mapper.

Record TemporaryPage := mkTemporaryPage { tp_page : Page }.

Definition temporary_page_new (page : Page) : TemporaryPage := mkTemporaryPage page.

Record InactivePageTable := mkInactive { p4_frame : Frame }.

Section Paging.
Context {A : Type} `{FrameSource A}.
Implicit Types s : mm A.

Definition temp_map (tp : TemporaryPage) (frame : Frame) s : outcome (VirtualAddress * mm A) :=
  let? t := translate_page (tp_page tp) s in
  let? _ := assertb (bool_decide (t = None)) "temporary page is already mapped" in
  let? (result, s) := map_to (tp_page tp) frame WRITABLE s in
  let? s := mapper_flush result s in
  let? va := page_start (tp_page tp) in
  Ok (va, s).

(** The address of the temporary page, as a reference to a table. *)
Definition map_table_frame (tp : TemporaryPage) (frame : Frame) s : outcome (Z * mm A) :=
  let? (va, s) := temp_map tp frame s in Ok (va_get va, s).

Definition temp_unmap (tp : TemporaryPage) s : outcome (mm A) :=
  let? (result, s) := unmap (tp_page tp) s in mapper_flush result s.

(** [ActivePageTable::address] *)
Definition apt_address s : Z := cr3 s.

Definition inactive_new (frame : Frame) (tp : TemporaryPage) s
  : outcome (InactivePageTable * mm A) :=
  let? (table, s) := map_table_frame tp (frame_clone frame) s in
  let? s := zero table s in
  let? e := entry_set (frame_clone frame) (Z.lor PRESENT WRITABLE) in
  let? s := table_index_mut table 511 e s in
  let? s := temp_unmap tp s in
  Ok (mkInactive frame, s).

Definition apt_with (table : InactivePageTable) (tp : TemporaryPage)
  (f : mm A -> outcome (mm A)) s : outcome (mm A) :=
  let backup := frame_containing (PhysAddr (cr3 s)) in
  let? (p4_table, s) := map_table_frame tp (frame_clone backup) s in
  let? e := entry_set (frame_clone (p4_frame table)) (Z.lor PRESENT WRITABLE) in
  let? s := table_index_mut P4 511 e s in
  let s := log_flush s FlushAll in
  let? s := f s in
  let? e := entry_set backup (Z.lor PRESENT WRITABLE) in
  let? s := table_index_mut p4_table 511 e s in
  let s := log_flush s FlushAll in
  temp_unmap tp s.

Definition switch (new_table : InactivePageTable) s : outcome (InactivePageTable * mm A) :=
  let old_table := mkInactive (frame_containing (PhysAddr (cr3 s))) in
  let? a := frame_start (p4_frame new_table) in
  Ok (old_table, mkMM (pm s) (pa_get a) (tlb s) (falloc s)).

(** ** Auxiliary facts *)

Lemma entry_link n : 0 <= n < 2 ^ 40 ->
  entry_set (mkFrame n) (Z.lor PRESENT WRITABLE) = Ok (link_entry n).
Proof. intros Hn. by rewrite entry_set_eq. Qed.

Lemma mapper_flush_eq page s :
  canonical_page page -> mapper_flush (mkFlush page) s = Ok (log_flush s (FlushPage page)).
Proof.
  intros Hc. unfold mapper_flush, apt_flush. simpl.
  by destruct (page_start_canonical page Hc) as (-> & _).
Qed.

Lemma log_flush_inv s r O x : mm_inv s r O -> mm_inv (log_flush s x) r O.
Proof. intros [? ? ? ? ?]. by split. Qed.

Lemma mapped_log_flush s r O page tr s' O' x :
  mapped s r O page tr s' O' -> mapped s r O page tr (log_flush s' x) O'.
Proof. by intros [? ? ? [] []]. Qed.

(** A mapped page, used as a reference to a table. *)
Lemma page_tref m c page n w :
  canonical_page page -> walk m c page = Some (n, w) -> tref m c (pnumber page * PAGE_SIZE) n w.
Proof.
  intros Hc Hw. destruct (page_start_canonical page Hc) as (_ & Hpc & Hnn). split_and!.
  - apply Z.mod_mul. done.
  - done.
  - unfold canonical_page in Hc. unfold PAGE_SIZE. lia.
  - unfold page_containing in Hpc. inv_ok. done.
  - rewrite Z.div_mul by done. by destruct page.
Qed.

Lemma temp_map_spec tp n s r O va s' :
  mm_inv s r O -> user_page (tp_page tp) -> 0 <= n < 2 ^ 40 ->
  temp_map tp (mkFrame n) s = Ok (va, s') ->
  va = VirtAddr (pnumber (tp_page tp) * PAGE_SIZE) /\ walk (pm s) r (tp_page tp) = None /\
  exists O', mm_inv s' r O' /\ mapped s r O (tp_page tp) (Some (n, full_access)) s' O'.
Proof.
  intros Hi [Hc Hp] Hn Hrun. unfold temp_map in Hrun.
  rewrite (translate_page_walk s r O) in Hrun by done. cbn [obind] in Hrun.
  apply obind_Ok in Hrun as (u & Has & Hrun).
  pose proof (map_to_spec s r O (tp_page tp) (mkFrame n) WRITABLE Hi Hp Hn ltac:(solve_flags)) as H0.
  destruct (map_to _ _ _ s) as [[fl s1]|]; [|done]. cbn [obind] in Hrun.
  destruct H0 as (-> & Htlb & Hnone & O' & Hi' & _ & Hm).
  rewrite mapper_flush_eq in Hrun by done. cbn [obind] in Hrun.
  destruct (page_start_canonical _ Hc) as (Hps & _). rewrite Hps in Hrun. inv_ok.
  split; [done|]. split; [done|]. exists O'. split; [by apply log_flush_inv|].
  by apply mapped_log_flush.
Qed.

Lemma temp_unmap_spec tp s r O s' :
  mm_inv s r O -> user_page (tp_page tp) -> temp_unmap tp s = Ok s' ->
  mm_inv s' r O /\ mapped s r O (tp_page tp) None s' O.
Proof.
  intros Hi [Hc Hp] Hrun. unfold temp_unmap in Hrun.
  pose proof (unmap_spec s r O (tp_page tp) Hi Hc Hp) as H0.
  destruct (unmap (tp_page tp) s) as [[fl s1]|]; [|done]. cbn [obind] in Hrun.
  destruct H0 as (-> & _ & _ & Hi' & Hm). rewrite mapper_flush_eq in Hrun by done. inv_ok.
  split; [by apply log_flush_inv|by apply mapped_log_flush].
Qed.

Lemma temp_map_panics tp n s r O :
  mm_inv s r O -> user_page (tp_page tp) -> 0 <= n < 2 ^ 40 -> panics_only (temp_map tp (mkFrame n) s).
Proof.
  intros Hi [Hc Hp] Hn. unfold temp_map. rewrite (translate_page_walk s r O) by done. cbn [obind].
  apply panics_only_bind; [auto with kernel|]. intros _ _.
  apply panics_only_bind; [by eapply map_to_panics; [..|solve_flags]|]. intros [fl s1] Hrun.
  pose proof (map_to_spec s r O (tp_page tp) (mkFrame n) WRITABLE Hi Hp Hn ltac:(solve_flags)) as H0.
  rewrite Hrun in H0. destruct H0 as (-> & _). rewrite mapper_flush_eq by done. cbn [obind].
  destruct (page_start_canonical _ Hc) as (-> & _). apply panics_only_ok.
Qed.

Lemma temp_unmap_panics tp s r O :
  mm_inv s r O -> user_page (tp_page tp) -> panics_only (temp_unmap tp s).
Proof.
  intros Hi [Hc Hp]. apply panics_only_bind; [by eapply unmap_panics|]. intros [fl s1] Hrun.
  pose proof (unmap_spec s r O (tp_page tp) Hi Hc Hp) as H0. rewrite Hrun in H0.
  destruct H0 as (-> & _). rewrite mapper_flush_eq by done. apply panics_only_ok.
Qed.

(** The page has a table of 4 KiB entries. *)
Definition has_table (m : mem) (r : Z) (page : Page) : Prop :=
  is_Some (chain m r [p4_index page; p3_index page; p2_index page]).

Lemma keeps_has_table r m m' page :
  p4_index page <> 511 -> keeps_chains r m m' -> has_table m r page -> has_table m' r page.
Proof.
  intros Hp Hk [f Hf]. exists f. apply Hk; [|simpl; lia|done].
  destruct (page_paths page Hp) as (_ & _ & _ & Hv). by apply vpath_app in Hv.
Qed.

Lemma temp_map_returns tp n s r O :
  mm_inv s r O -> user_page (tp_page tp) -> 0 <= n < 2 ^ 40 -> tidy (pm s) r O ->
  walk (pm s) r (tp_page tp) = None -> frames_left (falloc s) 3 ->
  exists va s', temp_map tp (mkFrame n) s = Ok (va, s') /\ has_table (pm s') r (tp_page tp).
Proof.
  intros Hi [Hc Hp] Hn Ht Hw Hl. unfold temp_map. rewrite (translate_page_walk s r O), Hw by done.
  cbn [obind]. rewrite bool_decide_true by done. cbn [assertb obind].
  destruct (map_to_returns s r O (tp_page tp) (mkFrame n) WRITABLE Hi Ht Hp Hw Hn ltac:(solve_flags) Hl)
    as (s' & O' & -> & _ & _ & Hch & _). cbn [obind]. rewrite mapper_flush_eq by done. cbn [obind].
  destruct (page_start_canonical _ Hc) as (-> & _). by eexists _, _.
Qed.

Lemma temp_unmap_returns tp s r O :
  mm_inv s r O -> user_page (tp_page tp) -> is_Some (walk (pm s) r (tp_page tp)) ->
  has_table (pm s) r (tp_page tp) -> exists s', temp_unmap tp s = Ok s'.
Proof.
  intros Hi [Hc Hp] Hw Hch. destruct (unmap_returns s r O (tp_page tp) Hi Hc Hp Hw Hch) as [s' Hun].
  unfold temp_unmap. rewrite Hun. cbn [obind]. rewrite mapper_flush_eq by done. by eexists.
Qed.

Lemma temp_unmap_falloc tp s s' : temp_unmap tp s = Ok s' -> falloc s' = falloc s.
Proof.
  unfold temp_unmap, mapper_flush, apt_flush. intros Hrun. apply obind_Ok in Hrun as ([fl s1] & Hun & Hrun).
  apply obind_Ok in Hrun as (? & _ & Hrun). injection Hrun as <-. exact (unmap_falloc _ _ _ _ Hun).
Qed.

(** Frames neither owned nor available stay so. *)
Lemma local_outside s O s' O' h :
  local_step s O s' O' -> O !! h = None -> ~ fs_avail (falloc s) h ->
  O' !! h = None /\ ~ fs_avail (falloc s') h.
Proof.
  intros [Ha Ho _] Hh Hn. split; [|auto].
  destruct (O' !! h) as [P|] eqn:E; [|done]. destruct (Ho h P E); [congruence|done].
Qed.

Lemma active_cr3 s s' : cr3 s' = cr3 s -> active s' = active s.
Proof. unfold active. by intros ->. Qed.
(** ** Inactive tables *)

(** Beside the tree [O] below [r] lies a second tree [On] below [n], with its
    own recursive slot, in frames that [O] and the allocator do not have. *)
Record inactive s (O : gmap Z (list Z)) (n : Z) (On : gmap Z (list Z)) : Prop := {
  in_slot : e_link (rd (pm s) n 511) = true /\ e_frame (rd (pm s) n 511) = n;
  in_tree : tree (pm s) n On;
  in_apart : forall h P, On !! h = Some P -> O !! h = None /\ ~ fs_avail (falloc s) h }.

Lemma inactive_range s O n On : inactive s O n On -> 0 <= n < 2 ^ 40.
Proof. intros [_ Ht _]. eapply tr_range; [done|apply Ht]. Qed.

(** A change of frames outside the tree. *)
Lemma outside_inv s r O n m' :
  mm_inv s r O -> O !! n = None -> n <> active s ->
  (forall h j, h <> n -> rd m' h j = rd (pm s) h j) ->
  mm_inv (set_pm s m') r O /\ same_tables O (pm s) m'.
Proof.
  intros Hi Hn Ha Hm. pose proof (mi_tree s r O Hi) as Ht.
  assert (Hst : same_tables O (pm s) m'). { intros f P i Ho _. apply Hm. congruence. }
  assert (Hr : r <> n). { intros ->. rewrite (tr_root _ _ _ Ht) in Hn. done. }
  split; [|done]. split; simpl; [|by eapply same_tables_tree|apply Hi..].
  eapply rec_slot_agree; [apply Hi|apply Hm..]; done.
Qed.

Lemma same_walks_page r m m' q : same_walks r m m' -> p4_index q <> 511 -> walk m' r q = walk m r q.
Proof. intros Hs Hq. apply Hs; [done|by apply vpath_indices]. Qed.

Lemma inactive_local s O n On s' O' :
  local_step s O s' O' -> inactive s O n On ->
  inactive s' O' n On /\ same_tables On (pm s) (pm s').
Proof.
  intros Hl [Hs Ht Hap].
  assert (Hsame : forall h P j, On !! h = Some P -> rd (pm s') h j = rd (pm s) h j).
  { intros h P j Ho. destruct (Hap h P Ho) as [? ?]. by apply (ls_frame _ _ _ _ Hl). }
  assert (Hst : same_tables On (pm s) (pm s')). { intros h P j Ho _. by eapply Hsame. }
  split; [|done]. split; [|by eapply same_tables_tree|].
  - rewrite (Hsame n []); [done|apply Ht].
  - intros h P Ho. destruct (Hap h P Ho) as [H1 H2]. by eapply local_outside.
Qed.

(** Mapping the temporary page and unmapping it at the end leaves the
    translations as they were; in between they may change elsewhere. *)
Lemma temp_roundtrip s1 s2 s3 s4 r O O1 page x :
  canonical_page page -> walk (pm s1) r page = None -> mapped s1 r O page x s2 O1 ->
  same_walks r (pm s2) (pm s3) -> mapped s3 r O1 page None s4 O1 ->
  forall q, user_page q -> walk (pm s4) r q = walk (pm s1) r q.
Proof.
  intros Hc Hn Hm1 Hs Hm2 q [Hq Hq4]. destruct (decide (q = page)) as [->|Hne].
  - rewrite (mp_page _ _ _ _ _ _ _ Hm2). by symmetry.
  - rewrite (mapped_other _ _ _ _ _ _ _ q Hm2), (same_walks_page _ _ _ q Hs) by done.
    by apply (mapped_other _ _ _ _ _ _ _ q Hm1).
Qed.

(** Building an empty table in frame [n] through a page mapped to it. *)
Lemma init_table_spec s r O page n :
  mm_inv s r O -> active s = r -> user_page page -> walk (pm s) r page = Some (n, full_access) ->
  0 <= n < 2 ^ 40 -> O !! n = None -> ~ fs_avail (falloc s) n -> n <> r ->
  exists m',
    (let? s := zero (pnumber page * PAGE_SIZE) s in
     let? e := entry_set (mkFrame n) (Z.lor PRESENT WRITABLE) in
     table_index_mut (pnumber page * PAGE_SIZE) 511 e s) = Ok (set_pm s m') /\
    (forall h j, h <> n -> rd m' h j = rd (pm s) h j) /\
    mm_inv (set_pm s m') r O /\ same_tables O (pm s) m' /\
    inactive (set_pm s m') O n {[n := []]} /\ tidy m' n {[n := []]} /\
    (forall q, p4_index q <> 511 -> walk m' n q = None).
Proof.
  intros Hi Ha Hu Hw Hn Hnone Hnav Hnr.
  assert (Hout : forall m, (forall h j, h <> n -> rd m h j = rd (pm s) h j) ->
    mm_inv (set_pm s m) r O /\ same_tables O (pm s) m).
  { intros m Hm. apply outside_inv with n; [done..|congruence|done]. }
  assert (Htr : forall m, (forall h j, h <> n -> rd m h j = rd (pm s) h j) ->
    tref m r (pnumber page * PAGE_SIZE) n full_access).
  { intros m Hm. apply page_tref; [apply Hu|]. rewrite <-Hw.
    apply same_walks_page; [|apply Hu]. eapply same_tables_walks; [by apply Hout|apply Hi]. }
  exists (wr (zero_frame (pm s) n) n 511 (link_entry n)).
  rewrite (zero_eq _ _ n) by (by rewrite Ha). cbn [obind]. rewrite entry_link by done. cbn [obind].
  rewrite (table_index_mut_eq _ _ n); cycle 1.
  { change (active _) with (active s). rewrite Ha. apply Htr. intros. by apply zero_frame_out. }
  { unfold is_index. lia. }
  set (m2 := wr (zero_frame (pm s) n) n 511 (link_entry n)).
  assert (Hm2 : forall h j, h <> n -> rd m2 h j = rd (pm s) h j).
  { intros h j Hne. unfold m2. rewrite rd_wr_ne by congruence. by apply zero_frame_out. }
  assert (Hz : forall j, is_index j -> j <> 511 -> rd m2 n j = 0).
  { intros j Hj Hne. unfold m2. rewrite rd_wr_ne by congruence. by apply zero_frame_in. }
  split; [done|]. split; [done|]. split; [by apply Hout|]. split; [by apply Hout|]. split.
  - split; simpl; [unfold m2; rewrite rd_wr; by apply link_entry_spec|by apply empty_tree|]. intros h P Hh.
    rewrite lookup_singleton in Hh. by case_decide; subst.
  - split; [split|].
    + intros h P i Hh Hv _. rewrite lookup_singleton in Hh. case_decide; simplify_eq.
      apply Hz; [by eapply vpath_index|]. intros ->. by destruct Hv as [_ []].
    + intros i Hv. rewrite Hz; [done|by eapply (vpath_index [])|]. intros ->. by destruct Hv as [_ []].
    + intros q Hq. apply walk_from_absent. rewrite Hz; [done|auto with kernel|done].
Qed.

Lemma inactive_new_spec s r O n tp res s' :
  mm_inv s r O -> active s = r -> user_page (tp_page tp) -> 0 <= n < 2 ^ 40 ->
  O !! n = None -> ~ fs_avail (falloc s) n -> n <> r ->
  inactive_new (mkFrame n) tp s = Ok (res, s') ->
  res = mkInactive (mkFrame n) /\ cr3 s' = cr3 s /\
  (forall q, user_page q -> walk (pm s') n q = None /\ walk (pm s') r q = walk (pm s) r q) /\
  exists O', mm_inv s' r O' /\ local_step s (<[n := []]> O) s' O' /\ inactive s' O' n {[n := []]} /\
    tidy (pm s') n {[n := []]} /\ costs s r O 3 s' O'.
Proof.
  intros Hi Hact Hu Hn Hnone Hnav Hnr Hrun. unfold inactive_new, map_table_frame, frame_clone in Hrun.
  rewrite obind_assoc in Hrun. apply obind_Ok in Hrun as ([va s1] & Hmap & Hrun).
  destruct (temp_map_spec _ _ _ _ _ _ _ Hi Hu Hn Hmap) as (-> & Hwn & O1 & Hi1 & Hm1).
  cbn [obind va_get fnumber] in Hrun. pose proof (mp_local _ _ _ _ _ _ _ Hm1) as Hl1.
  destruct (local_outside _ _ _ _ n Hl1 Hnone Hnav) as [Hn1 Hnav1].
  pose proof (active_cr3 _ _ (mp_cr3 _ _ _ _ _ _ _ Hm1)) as Ha1. rewrite Hact in Ha1.
  destruct (init_table_spec s1 r O1 (tp_page tp) n Hi1 Ha1 Hu (mp_page _ _ _ _ _ _ _ Hm1) Hn Hn1 Hnav1 Hnr)
    as (m2 & Hinit & Hm2 & Hi2 & Hst & Hin2 & Htn & Hempty).
  pose proof (same_tables_walks _ _ _ _ Hst (mi_tree _ _ _ Hi1)) as Hsw.
  assert (Hrun2 : (let? s := temp_unmap tp (set_pm s1 m2) in Ok (mkInactive (mkFrame n), s)) = Ok (res, s')).
  { rewrite <-Hrun.
    apply obind_Ok in Hinit as (s2 & -> & Hinit). cbn [obind] in Hinit |- *.
    apply obind_Ok in Hinit as (e & -> & Hinit). cbn [obind]. by rewrite Hinit. }
  apply obind_Ok in Hrun2 as (s3 & Hun & Hres). injection Hres as <- ->.
  destruct (temp_unmap_spec tp _ r O1 _ Hi2 Hu Hun) as [Hi3 Hm3].
  pose proof (mp_local _ _ _ _ _ _ _ Hm3) as Hl3.
  destruct (inactive_local _ O1 n {[n := []]} s' O1 Hl3 Hin2) as [Hin3 Hst3].
  pose proof (same_tables_walks _ _ _ _ Hst3 (in_tree _ _ _ _ Hin2)) as Hsw3.
  split; [done|]. split; [rewrite (mp_cr3 _ _ _ _ _ _ _ Hm3); apply (mp_cr3 _ _ _ _ _ _ _ Hm1)|].
  split.
  - intros q Hq. split; [rewrite (same_walks_page _ _ _ q Hsw3) by apply Hq; apply Hempty, Hq|].
    eapply (temp_roundtrip s s1 (set_pm s1 m2) s' r O O1); try done. apply Hu.
  - exists O1. split; [done|]. split; [|split; [done|split]].
    2:{ eapply same_tables_tidy; [done|apply Hin2|done]. }
    2:{ destruct (mp_costs _ _ _ _ _ _ _ Hm1) as [Hk1 Ht1 Hf1], (mp_costs _ _ _ _ _ _ _ Hm3) as [Hk3 Ht3 _].
        split.
        - etrans; [exact Hk1|]. etrans; [|exact Hk3]. eapply same_tables_keeps; [done|apply Hi1].
        - intros Ht. apply Ht3. simpl. eapply same_tables_tidy; [done|apply Hi1|auto].
        - intros k Hk. rewrite (temp_unmap_falloc _ _ _ Hun). by apply Hf1. }
    destruct Hl1 as [Ha Ho Hf], Hl3 as [Hb Hp Hg]. split.
    + intros g Hgv. by apply Ha, Hb.
    + intros g P Hgo. destruct (Ho g P Hgo) as [Hx|Hx]; [|by right].
      left. rewrite lookup_insert_ne; [done|congruence].
    + intros h j Hh Hnh. rewrite lookup_insert in Hh. case_decide; [done|].
      destruct (local_outside s O s1 O1 h ltac:(by split) Hh Hnh) as [Hh1 Hnh1].
      rewrite Hg by done. simpl. rewrite Hm2 by congruence. by apply Hf.
Qed.

(** ** Working on an inactive table *)

(** What [with] asks of its closure: it keeps the invariant of the tree it
    works on, touches nothing else and leaves CR3 alone.  The tables are as tidy
    afterwards as before, and it takes at most [c] frames. *)
Definition well_behaved (n : Z) (c : nat) (f : mm A -> outcome (mm A)) : Prop :=
  forall s On s', mm_inv s n On -> f s = Ok s' ->
  cr3 s' = cr3 s /\ exists On', mm_inv s' n On' /\ local_step s On s' On' /\ costs s n On c s' On'.


(** Redirecting the recursive slot of the active table [r] to [n]. *)
Lemma redirect_spec s r O n On :
  mm_inv s r O -> active s = r -> inactive s O n On ->
  let s' := set_pm s (wr (pm s) r 511 (link_entry n)) in
  table_index_mut P4 511 (link_entry n) s = Ok s' /\ mm_inv s' n On /\
  same_tables On (pm s) (pm s') /\ same_tables O (pm s) (pm s').
Proof.
  intros Hi Ha Hin s'. pose proof (inactive_range _ _ _ _ Hin) as Hn. destruct Hin as [Hs Ht Hap].
  pose proof (mi_tree s r O Hi) as Htr. pose proof (tr_root _ _ _ Htr) as Hroot.
  assert (Hnr : On !! r = None).
  { destruct (On !! r) eqn:E; [|done]. destruct (Hap _ _ E). congruence. }
  assert (Hst : same_tables On (pm s) (pm s')).
  { intros h P i Ho _. apply rd_wr_ne. intros [= <- <-]. congruence. }
  assert (Hst' : same_tables O (pm s) (pm s')).
  { intros h P i Ho Hv. apply rd_wr_ne. intros [= <- <-]. rewrite Hroot in Ho. simplify_eq.
    by destruct Hv as [_ []]. }
  destruct (link_entry_spec n Hn) as [[Hlt Hlw]%e_link_spec Hlf].
  split; [|split; [|split; done]].
  - apply table_index_mut_eq; [|unfold is_index; lia].
    apply (tref_path _ _ r [] r); [apply Hi|constructor|simpl; lia|done].
  - split; simpl; [|by eapply same_tables_tree|apply Hi|intros h P Ho; by eapply Hap|].
    + change (active s') with (active s). rewrite Ha. split.
      * by rewrite rd_wr.
      * rewrite rd_wr_ne; [by rewrite e_link_spec in Hs; tauto|]. intros [= ->]. rewrite (tr_root _ _ _ Ht) in Hnr. done.
    + right. change (active s') with (active s). rewrite Ha. split; [done|]. by eapply (mi_taken s r O).
Qed.

(** Back from the closure: the slot of [r] is restored through the temporary
    page, and the tree of [r] is as it was. *)
Lemma restore_spec s s1 On s2 On' r O n page :
  mm_inv s r O -> active s = r -> 0 <= r < 2 ^ 40 -> user_page page ->
  walk (pm s) r page = Some (r, full_access) ->
  same_tables O (pm s) (pm s1) -> inactive s O n On -> falloc s1 = falloc s -> cr3 s2 = cr3 s ->
  mm_inv s2 n On' -> local_step s1 On s2 On' ->
  let s' := set_pm s2 (wr (pm s2) r 511 (link_entry r)) in
  table_index_mut (pnumber page * PAGE_SIZE) 511 (link_entry r) s2 = Ok s' /\ mm_inv s' r O /\
  same_tables O (pm s) (pm s') /\ same_tables On' (pm s2) (pm s') /\ inactive s' O n On'.
Proof.
  intros Hi Ha Hr Hu Hw Hst1 Hin Hfa Hcr Hi2 Hl s'. pose proof (mi_tree s r O Hi) as Ht.
  destruct Hin as [_ Htn Hap]. destruct Hl as [Hav Hown Hfr]. rewrite Hfa in *.
  assert (Hout : forall h P, O !! h = Some P -> On' !! h = None).
  { intros h P Ho. destruct (On' !! h) eqn:E; [|done].
    destruct (Hown _ _ E) as [Hx|Hx]; [destruct (Hap _ _ Hx); congruence|].
    by destruct (mi_taken s r O Hi h P Ho). }
  assert (Hst2 : same_tables O (pm s) (pm s2)).
  { intros h P i Ho Hv. rewrite Hfr; [by eapply Hst1| |by eapply (mi_taken s r O)].
    destruct (On !! h) eqn:E; [|done]. destruct (Hap _ _ E). congruence. }
  assert (Hst' : same_tables O (pm s) (pm s')).
  { intros h P i Ho Hv. simpl. rewrite rd_wr_ne; [by eapply Hst2|]. intros [= <- <-].
    rewrite (tr_root _ _ _ Ht) in Ho. simplify_eq. by destruct Hv as [_ []]. }
  pose proof (Hout r [] (tr_root _ _ _ Ht)) as Hr'.
  assert (Ha2 : active s2 = r) by (unfold active in *; congruence).
  assert (Hnr : n <> r) by (intros ->; rewrite (tr_root _ _ _ (mi_tree _ _ _ Hi2)) in Hr'; done).
  destruct (link_entry_spec r Hr) as [[Hlt Hlw]%e_link_spec Hlf].
  assert (Hstn : same_tables On' (pm s2) (pm s')).
  { intros h P i Ho _. apply rd_wr_ne. intros [= <- <-]. congruence. }
  split_and!.
  - apply table_index_mut_eq; [|unfold is_index; lia]. rewrite Ha2. apply page_tref; [apply Hu|].
    rewrite <-Hw. apply same_walks_page; [by eapply same_tables_walks|apply Hu].
  - split; simpl; [|by eapply same_tables_tree|apply Hi2| |left; done].
    + change (active s') with (active s2). rewrite Ha2. split; by rewrite rd_wr.
    + intros h P Ho Hx. by eapply (mi_taken s r O Hi h P Ho), Hav.
  - done.
  - done.
  - split; [|by eapply same_tables_tree; [|apply Hi2]|].
    + simpl. rewrite rd_wr_ne by congruence. by destruct (proj1 (rec_slot_link _ _ _) (mi_slot _ _ _ Hi2)).
    + intros h P Ho. split; [|by eapply (mi_taken _ _ _ Hi2)].
      destruct (O !! h) eqn:E; [|done]. pose proof (Hout _ _ E). congruence.
Qed.

Lemma backup_frame s r O :
  mm_inv s r O -> active s = r ->
  frame_containing (PhysAddr (cr3 s)) = mkFrame r /\ 0 <= r < 2 ^ 40.
Proof.
  intros Hi <-. split; [done|]. eapply tr_range; [apply Hi|apply (tr_root _ _ _ (mi_tree _ _ _ Hi))].
Qed.

(** [s1] has the temporary page on the active P4 table, in [s2] the recursive
    slot leads to the inactive table: where the closure starts. *)
Record entered s r O n On page s1 O1 s2 : Prop := {
  en_none : walk (pm s) r page = None;
  en_inv : mm_inv s1 r O1;
  en_active : active s1 = r;
  en_mapped : mapped s r O page (Some (r, full_access)) s1 O1;
  en_inactive : inactive s1 O1 n On;
  en_start : mm_inv s2 n On;
  en_new : same_tables On (pm s) (pm s2);
  en_old : same_tables O1 (pm s1) (pm s2);
  en_falloc : falloc s2 = falloc s1;
  en_cr3 : cr3 s2 = cr3 s1 }.

(** What [with] does after the closure. *)
Definition with_end (tp : TemporaryPage) (r : Z) s : outcome (mm A) :=
  let? s := table_index_mut (pnumber (tp_page tp) * PAGE_SIZE) 511 (link_entry r) s in
  temp_unmap tp (log_flush s FlushAll).

Lemma apt_with_enter s r O n On tp f va s1 :
  mm_inv s r O -> active s = r -> inactive s O n On -> user_page (tp_page tp) ->
  temp_map tp (mkFrame r) s = Ok (va, s1) ->
  exists O1 s2, entered s r O n On (tp_page tp) s1 O1 s2 /\
    apt_with (mkInactive (mkFrame n)) tp f s = let? s3 := f s2 in with_end tp r s3.
Proof.
  intros Hi Ha Hin Hu Hmap. unfold apt_with, map_table_frame, frame_clone.
  destruct (backup_frame s r O Hi Ha) as [Hb Hr]. pose proof (inactive_range _ _ _ _ Hin) as Hn.
  cbv zeta. rewrite Hb. cbn [fnumber p4_frame]. rewrite Hmap. cbn [obind p4_frame].
  destruct (temp_map_spec _ _ _ _ _ _ _ Hi Hu Hr Hmap) as (-> & Hwn & O1 & Hi1 & Hm1).
  pose proof (active_cr3 _ _ (mp_cr3 _ _ _ _ _ _ _ Hm1)) as Ha1. rewrite Ha in Ha1.
  destruct (inactive_local _ _ _ _ _ _ (mp_local _ _ _ _ _ _ _ Hm1) Hin) as [Hin1 Hst1].
  destruct (redirect_spec s1 r O1 n On Hi1 Ha1 Hin1) as (Hset & Hi2 & Hsn2 & Hst2).
  rewrite !entry_link by done. cbn [obind va_get]. rewrite Hset. cbn [obind].
  exists O1, (log_flush (set_pm s1 (wr (pm s1) r 511 (link_entry n))) FlushAll). split; [|done].
  split; [done|done|done|done|done|by apply log_flush_inv|by etrans|done|done|done].
Qed.

Lemma apt_with_leave s r O n On tp s1 O1 s2 s3 On' :
  entered s r O n On (tp_page tp) s1 O1 s2 -> user_page (tp_page tp) ->
  cr3 s3 = cr3 s2 -> mm_inv s3 n On' -> local_step s2 On s3 On' ->
  exists s4, with_end tp r s3 = temp_unmap tp s4 /\ mm_inv s4 r O1 /\ cr3 s4 = cr3 s1 /\
    falloc s4 = falloc s3 /\ same_tables O1 (pm s1) (pm s4) /\ same_tables On' (pm s3) (pm s4) /\
    inactive s4 O1 n On'.
Proof.
  intros [Hwn Hi1 Ha1 Hm1 Hin1 Hi2 Hn2 Ho2 Hfa Hcr] Hu Hcr3 Hi3 Hl3.
  assert (Hr : 0 <= r < 2 ^ 40) by (eapply tr_range; apply Hi1).
  destruct (restore_spec s1 s2 On s3 On' r O1 n (tp_page tp))
    as (Hset4 & Hi4 & Hsw4 & Hsw4n & Hin4); try done; [apply Hm1|congruence|].
  unfold with_end. rewrite Hset4. cbn [obind].
  exists (log_flush (set_pm s3 (wr (pm s3) r 511 (link_entry r))) FlushAll).
  split; [done|]. split; [by apply log_flush_inv|]. split; [simpl; congruence|].
  split; [done|]. split; [done|]. split; [done|]. by destruct Hin4; split.
Qed.

Lemma apt_with_spec s r O n On tp c f s' :
  mm_inv s r O -> active s = r -> inactive s O n On -> user_page (tp_page tp) -> well_behaved n c f ->
  apt_with (mkInactive (mkFrame n)) tp f s = Ok s' ->
  cr3 s' = cr3 s /\ (forall q, user_page q -> walk (pm s') r q = walk (pm s) r q) /\
  exists O' On' s1 s2,
    mm_inv s' r O' /\ inactive s' O' n On' /\ mm_inv s1 n On /\ f s1 = Ok s2 /\
    same_tables On (pm s) (pm s1) /\ same_tables On' (pm s2) (pm s') /\
    mm_inv s2 n On' /\ costs s n On (3 + c) s' On'.
Proof.
  intros Hi Ha Hin Hu Hf Hrun. destruct (backup_frame s r O Hi Ha) as [Hb Hr].
  assert (Hmap : exists va s1, temp_map tp (mkFrame r) s = Ok (va, s1)).
  { unfold apt_with, map_table_frame, frame_clone in Hrun. rewrite Hb, obind_assoc in Hrun.
    apply obind_Ok in Hrun as ([va s1] & ? & _). eauto. }
  destruct Hmap as (va & s1 & Hmap).
  destruct (apt_with_enter s r O n On tp f va s1 Hi Ha Hin Hu Hmap) as (O1 & s2 & He & Heq).
  rewrite Heq in Hrun. apply obind_Ok in Hrun as (s3 & Hrunf & Hrun).
  destruct (Hf _ _ _ (en_start _ _ _ _ _ _ _ _ _ He) Hrunf) as (Hcr3 & On' & Hi3 & Hl3 & Hcost).
  destruct (apt_with_leave s r O n On tp s1 O1 s2 s3 On' He Hu Hcr3 Hi3 Hl3)
    as (s4 & Hend & Hi4 & Hcr4 & Hfa4 & Hst4 & Hsn4 & Hin4).
  rewrite Hend in Hrun. destruct (temp_unmap_spec tp s4 r O1 s' Hi4 Hu Hrun) as [Hi5 Hm5].
  destruct (inactive_local _ O1 n On' s' O1 (mp_local _ _ _ _ _ _ _ Hm5) Hin4) as [Hin5 Hst5].
  destruct He as [Hwn Hi1 Ha1 Hm1 Hin1 Hi2 Hn2 Ho2 Hfa Hcr].
  assert (Hst35 : same_tables On' (pm s3) (pm s')) by (by etrans).
  split; [|split].
  - rewrite (mp_cr3 _ _ _ _ _ _ _ Hm5), Hcr4. apply (mp_cr3 _ _ _ _ _ _ _ Hm1).
  - intros q Hq. eapply (temp_roundtrip s s1 s4 s' r O O1); [apply Hu|done|done| |done|done].
    eapply same_tables_walks; [done|apply Hi1].
  - exists O1, On', s2, s3. split_and!; try done. destruct Hcost as [Hk Ht Hfr]. split.
    + etrans; [by eapply same_tables_keeps; [exact Hn2|apply Hin]|]. etrans; [exact Hk|].
      by eapply same_tables_keeps; [exact Hst35|apply Hi3].
    + intros Htn. eapply same_tables_tidy; [exact Hst35|apply Hi3|]. apply Ht.
      eapply same_tables_tidy; [exact Hn2|apply Hin|done].
    + intros k Hk3. rewrite (temp_unmap_falloc _ _ _ Hrun), Hfa4. apply Hfr. rewrite Hfa.
      apply (co_frames _ _ _ _ _ _ (mp_costs _ _ _ _ _ _ _ Hm1)). by rewrite Nat.add_assoc.
Qed.

(** *** Failing and returning *)

(** After a successful temporary map, [inactive_new] is left with the unmap. *)
Lemma inactive_new_run s r O n tp va s1 :
  mm_inv s r O -> active s = r -> user_page (tp_page tp) -> 0 <= n < 2 ^ 40 ->
  O !! n = None -> ~ fs_avail (falloc s) n -> n <> r -> temp_map tp (mkFrame n) s = Ok (va, s1) ->
  exists s2 O2, inactive_new (mkFrame n) tp s =
      (let? s := temp_unmap tp s2 in Ok (mkInactive (mkFrame n), s)) /\
    mm_inv s2 r O2 /\ is_Some (walk (pm s2) r (tp_page tp)) /\
    (has_table (pm s1) r (tp_page tp) -> has_table (pm s2) r (tp_page tp)).
Proof.
  intros Hi Hact Hu Hn Hnone Hnav Hnr Hmap. unfold inactive_new, map_table_frame, frame_clone. cbn [fnumber].
  rewrite Hmap. cbn [obind].
  destruct (temp_map_spec _ _ _ _ _ _ _ Hi Hu Hn Hmap) as (-> & Hwn & O1 & Hi1 & Hm1).
  destruct (local_outside _ _ _ _ n (mp_local _ _ _ _ _ _ _ Hm1) Hnone Hnav) as [Hn1 Hnav1].
  pose proof (active_cr3 _ _ (mp_cr3 _ _ _ _ _ _ _ Hm1)) as Ha1. rewrite Hact in Ha1.
  pose proof (mp_page _ _ _ _ _ _ _ Hm1) as Hpg.
  destruct (init_table_spec s1 r O1 (tp_page tp) n Hi1 Ha1 Hu Hpg Hn Hn1 Hnav1 Hnr)
    as (m2 & Hinit & Hm2 & Hi2 & Hst & _).
  exists (set_pm s1 m2), O1. split.
  { apply obind_Ok in Hinit as (sz & Hz & Hinit). apply obind_Ok in Hinit as (e & He & Hinit).
    cbn [va_get]. rewrite Hz. cbn [obind]. rewrite He. cbn [obind]. by rewrite Hinit. }
  split; [done|]. split.
  - exists (n, full_access). rewrite <-Hpg. apply same_walks_page; [|apply Hu].
    eapply same_tables_walks; [exact Hst|apply Hi1].
  - apply keeps_has_table; [apply Hu|]. eapply same_tables_keeps; [exact Hst|apply Hi1].
Qed.

Lemma inactive_new_panics s r O n tp :
  mm_inv s r O -> active s = r -> user_page (tp_page tp) -> 0 <= n < 2 ^ 40 ->
  O !! n = None -> ~ fs_avail (falloc s) n -> n <> r -> panics_only (inactive_new (mkFrame n) tp s).
Proof.
  intros Hi Hact Hu Hn Hnone Hnav Hnr. destruct (temp_map tp (mkFrame n) s) as [[va s1]|e] eqn:Hmap.
  - destruct (inactive_new_run s r O n tp va s1) as (s2 & O2 & -> & Hi2 & _); try done.
    apply panics_only_bind; [by eapply temp_unmap_panics|]. intros. apply panics_only_ok.
  - unfold inactive_new, map_table_frame, frame_clone. cbn [fnumber]. rewrite Hmap.
    intros e' [= <-]. by eapply (temp_map_panics tp n s r O).
Qed.

Lemma inactive_new_returns s r O n tp :
  mm_inv s r O -> active s = r -> user_page (tp_page tp) -> 0 <= n < 2 ^ 40 ->
  O !! n = None -> ~ fs_avail (falloc s) n -> n <> r ->
  tidy (pm s) r O -> walk (pm s) r (tp_page tp) = None -> frames_left (falloc s) 3 ->
  exists s', inactive_new (mkFrame n) tp s = Ok (mkInactive (mkFrame n), s').
Proof.
  intros Hi Hact Hu Hn Hnone Hnav Hnr Ht Hw Hl.
  destruct (temp_map_returns tp n s r O Hi Hu Hn Ht Hw Hl) as (va & s1 & Hmap & Htab).
  destruct (inactive_new_run s r O n tp va s1) as (s2 & O2 & -> & Hi2 & Hw2 & Htab2); try done.
  destruct (temp_unmap_returns tp s2 r O2 Hi2 Hu Hw2 (Htab2 Htab)) as [s3 ->]. by eexists.
Qed.

(** [with] fails with a panic, or as its closure does. *)
Lemma apt_with_errors s r O n On tp c f e :
  mm_inv s r O -> active s = r -> inactive s O n On -> user_page (tp_page tp) -> well_behaved n c f ->
  apt_with (mkInactive (mkFrame n)) tp f s = Err e ->
  is_panic e \/ exists s1, mm_inv s1 n On /\ same_tables On (pm s) (pm s1) /\ f s1 = Err e.
Proof.
  intros Hi Ha Hin Hu Hf Hrun. destruct (backup_frame s r O Hi Ha) as [Hb Hr].
  destruct (temp_map tp (mkFrame r) s) as [[va s1]|e'] eqn:Hmap.
  2:{ left. unfold apt_with, map_table_frame, frame_clone in Hrun. rewrite Hb in Hrun. cbn [fnumber] in Hrun.
      rewrite Hmap in Hrun. injection Hrun as <-. by eapply (temp_map_panics tp r s r O). }
  destruct (apt_with_enter s r O n On tp f va s1 Hi Ha Hin Hu Hmap) as (O1 & s2 & He & Heq).
  rewrite Heq in Hrun. pose proof (en_start _ _ _ _ _ _ _ _ _ He) as Hi2.
  destruct (f s2) as [s3|e'] eqn:Hrunf; cbn [obind] in Hrun.
  - left. destruct (Hf _ _ _ Hi2 Hrunf) as (Hcr3 & On' & Hi3 & Hl3 & _).
    destruct (apt_with_leave s r O n On tp s1 O1 s2 s3 On' He Hu Hcr3 Hi3 Hl3) as (s4 & Hend & Hi4 & _).
    rewrite Hend in Hrun. by eapply (temp_unmap_panics tp s4 r O1).
  - right. exists s2. injection Hrun as ->. split_and!; [done|apply He|done].
Qed.

(** With the tables tidy, the temporary page unmapped and three frames left,
    [with] reaches its closure and, when that returns, returns. *)
Lemma apt_with_returns s r O n On tp c f :
  mm_inv s r O -> active s = r -> inactive s O n On -> user_page (tp_page tp) -> well_behaved n c f ->
  tidy (pm s) r O -> walk (pm s) r (tp_page tp) = None -> frames_left (falloc s) 3 ->
  exists s1, mm_inv s1 n On /\ same_tables On (pm s) (pm s1) /\
    (forall k, frames_left (falloc s) (3 + k) -> frames_left (falloc s1) k) /\
    forall s2, f s1 = Ok s2 -> exists s', apt_with (mkInactive (mkFrame n)) tp f s = Ok s'.
Proof.
  intros Hi Ha Hin Hu Hf Ht Hw Hl. destruct (backup_frame s r O Hi Ha) as [_ Hr].
  destruct (temp_map_returns tp r s r O Hi Hu Hr Ht Hw Hl) as (va & s1 & Hmap & Htab).
  destruct (apt_with_enter s r O n On tp f va s1 Hi Ha Hin Hu Hmap) as (O1 & s2 & He & Heq).
  exists s2. split; [apply He|]. split; [apply He|]. split.
  { intros k Hk. rewrite (en_falloc _ _ _ _ _ _ _ _ _ He).
    by apply (co_frames _ _ _ _ _ _ (mp_costs _ _ _ _ _ _ _ (en_mapped _ _ _ _ _ _ _ _ _ He))). }
  intros s3 Hrunf. rewrite Heq, Hrunf. cbn [obind].
  destruct (Hf _ _ _ (en_start _ _ _ _ _ _ _ _ _ He) Hrunf) as (Hcr3 & On' & Hi3 & Hl3 & _).
  destruct (apt_with_leave s r O n On tp s1 O1 s2 s3 On' He Hu Hcr3 Hi3 Hl3)
    as (s4 & -> & Hi4 & _ & _ & Hst & _).
  pose proof (mi_tree _ _ _ (en_inv _ _ _ _ _ _ _ _ _ He)) as Ht1.
  apply temp_unmap_returns with r O1; [done|done| |].
  - rewrite (same_walks_page r (pm s1)); [|by eapply same_tables_walks|apply Hu].
    rewrite (mp_page _ _ _ _ _ _ _ (en_mapped _ _ _ _ _ _ _ _ _ He)). by eexists.
  - eapply keeps_has_table; [apply Hu|by eapply same_tables_keeps|done].
Qed.

(** Making the inactive table the active one. *)
Lemma switch_spec s r O n On :
  mm_inv s r O -> inactive s O n On ->
  let s' := mkMM (pm s) (n * PAGE_SIZE) (tlb s) (falloc s) in
  switch (mkInactive (mkFrame n)) s = Ok (mkInactive (mkFrame (active s)), s') /\
  active s' = n /\ mm_inv s' n On.
Proof.
  intros Hi Hin s'. pose proof (inactive_range _ _ _ _ Hin) as Hn. destruct Hin as [Hs Ht Hap].
  assert (Ha : active s' = n) by (apply Z.div_mul; done).
  split; [|split; [done|]].
  - unfold switch, frame_start, frame_containing. simpl.
    rewrite mul_w_fits by (unfold in_width, PAGE_SIZE; lia). done.
  - split; simpl; [|done|apply Hi|intros h P Ho; by eapply Hap|by left].
    rewrite Ha. by apply rec_slot_link.
Qed.

(** ** Properties *)

(** C19: [InactivePageTable::new] on an unused frame [n] builds a table that
    translates nothing and maps itself in its last slot, and leaves every
    translation of the active table, the temporary page's included, as it
    was.  When it does not return it panics; with tidy tables, the temporary page
    unmapped and three frames left it returns. *)
Theorem inactive_new_correct s r O n tp :
  mm_inv s r O -> active s = r -> user_page (tp_page tp) -> 0 <= n < 2 ^ 40 ->
  O !! n = None -> ~ fs_avail (falloc s) n ->
  match inactive_new (mkFrame n) tp s with
  | Ok (res, s') =>
      res = mkInactive (mkFrame n) /\ cr3 s' = cr3 s /\
      (forall q, user_page q -> walk (pm s') n q = None /\ walk (pm s') r q = walk (pm s) r q) /\
      exists O', mm_inv s' r O' /\ inactive s' O' n {[n := []]}
  | Err e => is_panic e
  end /\
  (tidy (pm s) r O -> walk (pm s) r (tp_page tp) = None -> frames_left (falloc s) 3 ->
   exists x, inactive_new (mkFrame n) tp s = Ok x).
Proof.
  intros Hi Ha Hu Hn Hnone Hnav. assert (Hnr : n <> r).
  { intros ->. rewrite (tr_root _ _ _ (mi_tree _ _ _ Hi)) in Hnone. done. }
  split.
  - destruct (inactive_new (mkFrame n) tp s) as [[res s']|e] eqn:Hrun; [|by eapply (inactive_new_panics s r O n tp)].
    destruct (inactive_new_spec s r O n tp res s') as (? & ? & ? & O' & ? & _ & ? & _); try done.
    split_and!; [done..|]. by exists O'.
  - intros Ht Hw Hl. destruct (inactive_new_returns s r O n tp) as [s' ->]; try done. by eexists.
Qed.

(** C18: [ActivePageTable::with] runs the closure on the inactive table and
    nothing else: the closure starts from the inactive table's translations,
    its result is what the inactive table translates afterwards, while every
    translation of the active table (the temporary page's included), CR3 and
    the invariant are restored, both trees staying apart.  When it does not
    return it panics or its closure has failed; with tidy tables, the temporary
    page unmapped and three frames left it returns when its closure does. *)
Theorem with_correct s r O n On tp c f :
  mm_inv s r O -> active s = r -> inactive s O n On -> user_page (tp_page tp) -> well_behaved n c f ->
  match apt_with (mkInactive (mkFrame n)) tp f s with
  | Ok s' =>
      cr3 s' = cr3 s /\ (forall q, user_page q -> walk (pm s') r q = walk (pm s) r q) /\
      exists O' On' s1 s2,
        mm_inv s' r O' /\ inactive s' O' n On' /\ mm_inv s1 n On /\ f s1 = Ok s2 /\
        (forall q, user_page q -> walk (pm s1) n q = walk (pm s) n q) /\
        (forall q, user_page q -> walk (pm s') n q = walk (pm s2) n q)
  | Err e => is_panic e \/ exists s1, mm_inv s1 n On /\ f s1 = Err e
  end /\
  (tidy (pm s) r O -> walk (pm s) r (tp_page tp) = None -> frames_left (falloc s) 3 ->
   exists s1, mm_inv s1 n On /\
     forall s2, f s1 = Ok s2 -> exists s', apt_with (mkInactive (mkFrame n)) tp f s = Ok s').
Proof.
  intros Hi Ha Hin Hu Hf. split.
  - destruct (apt_with _ tp f s) as [s'|e] eqn:Hrun.
    + destruct (apt_with_spec s r O n On tp c f s')
        as (? & ? & O' & On' & s1 & s2 & ? & ? & ? & ? & Hw1 & Hw2 & Hi2 & _); try done.
      split_and!; [done..|]. exists O', On', s1, s2. split_and!; [done..| |]; intros q Hq;
        (apply same_walks_page; [|apply Hq]); eapply same_tables_walks; try done; [apply Hin|apply Hi2].
    + destruct (apt_with_errors s r O n On tp c f e) as [?|(s1 & ? & _ & ?)]; eauto.
  - intros Ht Hw Hl. destruct (apt_with_returns s r O n On tp c f) as (s1 & ? & _ & _ & ?); eauto.
Qed.

End Paging.
