(* ===== verification/Tlb.v ===== *)
(** * The translation lookaside buffer

    The processor caches translations and never drops a stale one by itself:
    [ActivePageTable::flush] ([invlpg]) and the promises [MapperFlush::flush] and
    [MapperFlush::ignore] of [mapper.rs] are there for that.  The state of the
    memory manager records the flushes ([tlb]); here they act on a cache that the
    processor fills at any time with translations the tables have.  After every
    operation of the mapper the cache agrees with the tables again, so that the
    model may take every translation from the tables. *)

From S2P Require Import Prelude Frames FrameSource AreaAlloc Entry Mmu Table PageTree Mapper Boot Paging.

(** Translations by page number; writable or not. *)
Abbreviation cache := (gmap Z (Z * rights)).

Definition flush_step (T : cache) (x : flush) : cache :=
  match x with
  | FlushPage p => delete (pnumber p) T
  | FlushAll => ∅
  end.

Definition flushed (T : cache) (l : list flush) : cache := foldl flush_step T l.

Lemma flushed_lookup l T k t :
  flushed T l !! k = Some t -> T !! k = Some t /\ (FlushPage (mkPage k) ∉ l) /\ (FlushAll ∉ l).
Proof.
  revert T. induction l as [|x l IH]; intros T Hk; cbn [flushed foldl] in Hk.
  { split; [done|]. split; apply not_elem_of_nil. }
  destruct (IH _ Hk) as (Hx & Hp & Ha). rewrite !not_elem_of_cons. destruct x as [[p]|]; simpl in Hx.
  - apply lookup_delete_Some in Hx as [Hne Hx]. split_and!; [done| |done|done|done]. by intros [= ->].
  - by rewrite lookup_empty in Hx.
Qed.

Section Tlb.
Context {A : Type} `{FrameSource A}.
Implicit Types s : mm A.

(** The operations of the mapper, as its callers use them. *)
Inductive map_op :=
  | MapTo (page : Page) (frame : Frame) (flags : Z)
  | MapToIgnore (page : Page) (frame : Frame) (flags : Z)
  | MapNew (page : Page) (flags : Z)
  | Unmap (page : Page).

Definition map_exec (op : map_op) s : outcome (mm A) :=
  match op with
  | MapTo page frame flags => let? (result, s) := map_to page frame flags s in mapper_flush result s
  | MapToIgnore page frame flags => let? (result, s) := map_to page frame flags s in Ok (mapper_ignore result s)
  | MapNew page flags => let? (result, s) := map page flags s in mapper_flush result s
  | Unmap page => let? (result, s) := unmap page s in mapper_flush result s
  end.

Definition map_op_ok (op : map_op) : Prop :=
  match op with
  | MapTo page frame flags | MapToIgnore page frame flags =>
      user_page page /\ 0 <= fnumber frame < 2 ^ 40 /\ flags_ok flags
  | MapNew page flags => user_page page /\ flags_ok flags
  | Unmap page => user_page page
  end.

(** Every cached translation of a page outside the recursive slot is the one the
    tables have. *)
Definition coherent s (T : cache) : Prop :=
  forall p t, user_page p -> T !! pnumber p = Some t -> walk (pm s) (active s) p = Some t.

(** While the tables go from [s] to [s'] the processor may drop translations, and
    cache any that it finds before or after. *)
Definition may_cache s s' (T T' : cache) : Prop :=
  forall p t, user_page p -> T' !! pnumber p = Some t ->
  T !! pnumber p = Some t \/ walk (pm s) (active s) p = Some t \/ walk (pm s') (active s') p = Some t.

(** A run of the mapper with the processor's cache: an operation, its flushes,
    which come after its writes, and whatever is cached meanwhile. *)
Inductive tlb_run : mm A -> cache -> list map_op -> mm A -> cache -> Prop :=
  | run_nil s T T' : may_cache s s T T' -> tlb_run s T [] s T'
  | run_op s T op s1 l T1 T2 ops s2 T3 :
      map_exec op s = Ok s1 -> tlb s1 = tlb s ++ l -> may_cache s s1 T T1 ->
      may_cache s1 s1 (flushed T1 l) T2 -> tlb_run s1 T2 ops s2 T3 ->
      tlb_run s T (op :: ops) s2 T3.

(** What an operation changes, it flushes, or it was not translated before. *)
Definition flushes_changes s s' (l : list flush) : Prop :=
  forall q, user_page q ->
  walk (pm s') (active s') q = walk (pm s) (active s) q \/ FlushPage q ∈ l \/ walk (pm s) (active s) q = None.

Lemma map_to_changes s r O page frame flags fl s' :
  mm_inv s r O -> active s = r -> user_page page -> 0 <= fnumber frame < 2 ^ 40 -> flags_ok flags ->
  map_to page frame flags s = Ok (fl, s') ->
  fl = mkFlush page /\ tlb s' = tlb s /\ active s' = r /\ (exists O', mm_inv s' r O') /\ flushes_changes s s' [].
Proof.
  intros Hi Ha [Hc Hp] Hf Hfl Hrun. pose proof (map_to_spec s r O page frame flags Hi Hp Hf Hfl) as H0.
  rewrite Hrun in H0. destruct H0 as (-> & Htlb & Hn & O' & Hi' & _ & Hm).
  pose proof (active_cr3 _ _ (mp_cr3 _ _ _ _ _ _ _ Hm)) as Ha'.
  split_and!; [done|done|congruence|by exists O'|]. intros q [Hq Hq4]. rewrite Ha', Ha.
  destruct (decide (q = page)) as [->|Hne]; [by right; right|]. left. by apply (mapped_other _ _ _ _ _ _ _ q Hm).
Qed.

Lemma map_exec_spec op s r O s' :
  mm_inv s r O -> active s = r -> map_op_ok op -> map_exec op s = Ok s' ->
  active s' = r /\ (exists O', mm_inv s' r O') /\ exists l, tlb s' = tlb s ++ l /\ flushes_changes s s' l.
Proof.
  assert (Hmono : forall s s' l, flushes_changes s s' [] -> flushes_changes s s' l).
  { intros s1 s2 l Hch q Hq. destruct (Hch q Hq) as [?|[Hx|?]]; [by left|by apply elem_of_nil in Hx|by right; right]. }
  intros Hi Ha Hok Hrun. destruct op as [page frame flags|page frame flags|page flags|page]; cbn [map_exec map_op_ok] in *;
    apply obind_Ok in Hrun as ([fl s1] & H1 & Hrun).
  - destruct Hok as (Hu & Hf & Hfl).
    destruct (map_to_changes s r O page frame flags fl s1) as (-> & Htlb & Ha1 & [O1 Hi1] & Hch); try done.
    rewrite mapper_flush_eq in Hrun by apply Hu. injection Hrun as <-. split; [done|].
    split; [exists O1; by apply log_flush_inv|]. exists [FlushPage page]. simpl. rewrite Htlb. split; [done|by apply Hmono].
  - destruct Hok as (Hu & Hf & Hfl).
    destruct (map_to_changes s r O page frame flags fl s1) as (-> & Htlb & Ha1 & HO & Hch); try done.
    injection Hrun as <-. split; [done|]. split; [done|]. exists []. by rewrite app_nil_r.
  - destruct Hok as (Hu & Hfl). assert (Hrun2 : map_and_flush flags page s = Ok s').
    { unfold map_and_flush. by rewrite H1. }
    pose proof (map_and_flush_spec s r O flags page Hi Hu Hfl) as H0. rewrite Hrun2 in H0.
    destruct H0 as (Hn & Hcr & Htlb & (O1 & Hi1 & _) & _ & Hoth). pose proof (active_cr3 _ _ Hcr) as Ha1.
    split; [congruence|]. split; [by exists O1|]. exists [FlushPage page]. split; [done|].
    intros q Hq. rewrite Ha1, Ha. destruct (decide (q = page)) as [->|]; [by right; right|left; auto].
  - pose proof (unmap_spec s r O page Hi (proj1 Hok) (proj2 Hok)) as H0. rewrite H1 in H0.
    destruct H0 as (-> & Htlb & _ & Hi1 & Hm). rewrite mapper_flush_eq in Hrun by apply Hok. injection Hrun as <-.
    pose proof (active_cr3 _ _ (mp_cr3 _ _ _ _ _ _ _ Hm)) as Ha1. split; [by rewrite <-Ha, <-Ha1|].
    split; [exists O; by apply log_flush_inv|]. exists ([FlushPage page] ++ [FlushPage page]). simpl.
    rewrite Htlb, <-app_assoc. split; [done|]. intros q Hq. destruct (decide (q = page)) as [->|]; [right; left; by left|].
    left. change (active (log_flush s1 _)) with (active s1). rewrite Ha1, Ha.
    apply (mapped_other _ _ _ _ _ _ _ q Hm); [apply Hok|apply Hq|apply Hq|done].
Qed.

Lemma coherent_fill s T T' : coherent s T -> may_cache s s T T' -> coherent s T'.
Proof. intros Hc Hm p t Hp Ht. destruct (Hm p t Hp Ht) as [?|[?|?]]; auto. Qed.

Lemma coherent_step s s' T T1 l :
  coherent s T -> may_cache s s' T T1 -> flushes_changes s s' l -> coherent s' (flushed T1 l).
Proof.
  intros Hc Hm Hch p t Hp Ht. apply flushed_lookup in Ht as (Ht & Hnf & _). destruct p as [k]. simpl in *.
  assert (Hold : walk (pm s) (active s) (mkPage k) = Some t -> walk (pm s') (active s') (mkPage k) = Some t).
  { intros Hw. destruct (Hch _ Hp) as [->|[?|?]]; [done|done|congruence]. }
  destruct (Hm _ t Hp Ht) as [Hx|[Hx|Hx]]; [apply Hold; by apply Hc|by apply Hold|done].
Qed.

(** C40: Whatever the processor caches, and whenever, after every sequence of
    mapper operations each cached translation of a page outside the recursive
    slot is the one the tables have.  So every flush the code leaves out
    ([MapperFlush::ignore] after mapping a page) can be left out, and an unmapped
    page is translated no more, not even from the cache. *)
Theorem tlb_coherent s r O T ops s' T' :
  mm_inv s r O -> active s = r -> coherent s T -> Forall map_op_ok ops -> tlb_run s T ops s' T' ->
  coherent s' T' /\ active s' = r /\ (exists O', mm_inv s' r O') /\
  forall p, user_page p -> walk (pm s') r p = None -> T' !! pnumber p = None.
Proof.
  intros Hi Ha Hc Hops Hrun. assert (Hgo : coherent s' T' /\ active s' = r /\ (exists O', mm_inv s' r O')).
  { revert O Hi Ha Hc Hops. induction Hrun as [s T T' Hm|s T op s1 l T1 T2 ops s2 T3 H1 Hl Hm Hm2 _ IH];
      intros O Hi Ha Hc Hops.
    - split; [by eapply coherent_fill|]. eauto.
    - apply Forall_cons in Hops as [Hop Hops].
      destruct (map_exec_spec op s r O s1 Hi Ha Hop H1) as (Ha1 & [O1 Hi1] & l' & Hl' & Hch).
      rewrite Hl in Hl'. apply app_inv_head in Hl' as <-.
      apply (IH O1); [done|done| |done]. eapply coherent_fill; [|exact Hm2]. by eapply coherent_step. }
  destruct Hgo as (Hco & Ha' & HO). split_and!; [done..|]. intros p Hp Hw.
  destruct (T' !! pnumber p) as [t|] eqn:Ht; [|done]. pose proof (Hco p t Hp Ht) as Hx. congruence.
Qed.

End Tlb.

(** ** A page that is cached, then unmapped *)

Definition demo_cached : cache := {[pnumber heap_page := (0x300, full_access)]}.

(** What the run computes: the page is mapped after the first operation and not
    after the second. *)
Definition maps_then_unmaps (o : outcome (mm (option AreaFrameAllocator))) : bool :=
  match o with
  | Ok s1 =>
      bool_decide (walk (pm s1) (active s1) heap_page = Some (0x300, full_access)) &&
      match map_exec (Unmap heap_page) s1 with
      | Ok s' => bool_decide (walk (pm s') 0x180 heap_page = None)
      | Err _ => false
      end
  | Err _ => false
  end.

Lemma demo_maps_then_unmaps :
  maps_then_unmaps (map_exec (MapToIgnore heap_page demo_frame WRITABLE) boot_state) = true.
Proof. vm_compute. reflexivity. Qed.

Lemma may_cache_same {A} `{FrameSource A} (s s' : mm A) T : may_cache s s' T T.
Proof. intros p t _ Ht. by left. Qed.

(** The page is cached while it is mapped; the flush of [unmap] drops it. *)
Lemma demo_tlb_run :
  exists s' T', tlb_run boot_state ∅ [MapToIgnore heap_page demo_frame WRITABLE; Unmap heap_page] s' T' /\
    walk (pm s') 0x180 heap_page = None.
Proof.
  pose proof demo_maps_then_unmaps as Hd.
  destruct (map_exec (MapToIgnore heap_page demo_frame WRITABLE) boot_state) as [s1|e] eqn:E1; [|discriminate Hd].
  unfold maps_then_unmaps in Hd. apply andb_true_iff in Hd as [Hw1 Hd]. apply bool_decide_eq_true_1 in Hw1.
  destruct (map_exec (Unmap heap_page) s1) as [s'|e] eqn:E2; [|discriminate Hd]. apply bool_decide_eq_true_1 in Hd.
  assert (Hu : user_page heap_page) by (split; [exact heap_page_canonical|exact heap_page_p4]).
  destruct (map_exec_spec _ _ 0x180 boot_own s1 boot_state_inv eq_refl
    (conj Hu (conj demo_frame_range writable_ok) : map_op_ok (MapToIgnore heap_page demo_frame WRITABLE)) E1)
    as (Ha1 & [O1 Hi1] & l1 & Hl1 & _).
  destruct (map_exec_spec (Unmap heap_page) _ 0x180 O1 s' Hi1 Ha1 Hu E2) as (_ & _ & l2 & Hl2 & _).
  exists s', (flushed demo_cached l2). split; [|exact Hd].
  eapply run_op; [exact E1|exact Hl1|apply may_cache_same| |].
  - intros [k] t _ Ht. unfold demo_cached in Ht. apply lookup_singleton_Some in Ht as [Hk <-]. cbn [pnumber] in Hk.
    right. left. rewrite <-Hw1. by subst k.
  - eapply run_op; [exact E2|exact Hl2|apply may_cache_same|apply may_cache_same|]. apply run_nil, may_cache_same.
Qed.

Lemma demo_ops_ok : Forall map_op_ok [MapToIgnore heap_page demo_frame WRITABLE; Unmap heap_page].
Proof.
  assert (Hu : user_page heap_page) by (split; [exact heap_page_canonical|exact heap_page_p4]).
  repeat constructor; apply Hu || apply demo_frame_range || apply writable_ok.
Qed.

Lemma empty_coherent : coherent boot_state ∅.
Proof. intros p t _ Ht. by rewrite lookup_empty in Ht. Qed.

Lemma tlb_coherent_witness :
  exists s' T', tlb_run boot_state ∅ [MapToIgnore heap_page demo_frame WRITABLE; Unmap heap_page] s' T' /\
    T' !! pnumber heap_page = None.
Proof.
  destruct demo_tlb_run as (s' & T' & Hrun & Hw). exists s', T'. split; [exact Hrun|].
  assert (Hu : user_page heap_page) by (split; [exact heap_page_canonical|exact heap_page_p4]).
  destruct (tlb_coherent boot_state 0x180 boot_own ∅ _ s' T' boot_state_inv eq_refl empty_coherent demo_ops_ok Hrun)
    as (_ & _ & _ & Hn).
  exact (Hn heap_page Hu Hw).
Defined.
