(* ===== verification/Identity.v ===== *)
(** * Identity mapping on demand

    The ACPI and APIC code maps the physical pages it needs at their own
    addresses, with [map_to] and a flush of the promise.  [extends] is what any
    sequence of such steps does to an address space: the translations it had are
    kept, a new one is an identity mapping, and nothing but page tables is
    written. *)

From S2P Require Import Prelude Frames FrameSource Entry Mmu Table PageTree Mapper Paging.

(** The page of a low address. *)
Lemma page_containing_low a : 0 <= a < 2 ^ 47 -> page_containing (VirtAddr a) = Ok (mkPage (a / PAGE_SIZE)).
Proof.
  intros Ha. apply page_containing_spec; [unfold in_width; lia|]. unfold canonical.
  by destruct (Z.ltb_spec a 0x0000800000000000); [|lia].
Qed.

Section Identity.
Context {A : Type} `{FrameSource A}.
Implicit Types s : mm A.

(** [let result = active_table.map_to(page, frame, flags); result.flush(active_table)] *)
Definition map_to_flush (page : Page) (frame : Frame) (flags : Z) s : outcome (mm A) :=
  let? (result, s) := map_to page frame flags s in mapper_flush result s.

Definition map_error (e : error) : Prop := e = huge_panic \/ e = frames_panic \/ e = unused_panic.

(** From [s] to [s'], with the tree below [r] growing from [O] to [O']; every
    page keeps its translation but for pages that had none, are identity mapped now
    and are in [D] with their rights. *)
Record extends (D : Z -> rights -> Prop) s (r : Z) (O : gmap Z (list Z)) s' (O' : gmap Z (list Z)) : Prop := {
  ex_inv : mm_inv s' r O';
  ex_cr3 : cr3 s' = cr3 s;
  ex_local : local_step s O s' O';
  ex_tidy : tidy (pm s) r O -> tidy (pm s') r O';
  ex_walk : forall q, user_page q ->
    walk (pm s') r q = walk (pm s) r q \/
    (walk (pm s) r q = None /\ exists w, walk (pm s') r q = Some (pnumber q, w) /\ D (pnumber q) w) }.

Lemma extends_refl D s r O : mm_inv s r O -> extends D s r O s O.
Proof. intros Hi. split; [done|done|apply local_step_refl|done|by left]. Qed.

Lemma extends_trans D s1 r O1 s2 O2 s3 O3 :
  extends D s1 r O1 s2 O2 -> extends D s2 r O2 s3 O3 -> extends D s1 r O1 s3 O3.
Proof.
  intros [_ Hc1 Hl1 Ht1 Hw1] [Hi Hc2 Hl2 Ht2 Hw2]. split; [done|congruence|by eapply local_step_trans|auto|].
  intros q Hq. destruct (Hw1 q Hq) as [E1|[N1 (w & E1 & Hw)]], (Hw2 q Hq) as [E2|[N2 (w' & E2 & Hw')]].
  - left. congruence.
  - right. rewrite <-E1. split; [done|]. by exists w'.
  - right. split; [done|]. exists w. by rewrite E2.
  - congruence.
Qed.

Lemma extends_weaken (D D' : Z -> rights -> Prop) s r O s' O' :
  (forall k w, D k w -> D' k w) -> extends D s r O s' O' -> extends D' s r O s' O'.
Proof.
  intros HW [? ? ? ? Hw]. split; [done..|]. intros q Hq.
  destruct (Hw q Hq) as [?|[? (w & ? & ?)]]; [by left|right]. split; [done|]. exists w. auto.
Qed.

(** What was mapped stays mapped. *)
Lemma extends_keeps D s r O s' O' q t :
  extends D s r O s' O' -> user_page q -> walk (pm s) r q = Some t -> walk (pm s') r q = Some t.
Proof. intros [_ _ _ _ Hw] Hq Ht. destruct (Hw q Hq) as [->|[? _]]; congruence. Qed.

(** A page outside [D] has the translation it had. *)
Lemma extends_other D s r O s' O' q :
  extends D s r O s' O' -> user_page q -> (forall w, ~ D (pnumber q) w) -> walk (pm s') r q = walk (pm s) r q.
Proof. intros [_ _ _ _ Hw] Hq Hno. destruct (Hw q Hq) as [?|[_ (w & _ & Hd)]]; [done|]. by apply Hno in Hd. Qed.

(** A page that was unmapped and is mapped now has rights [D] gives it. *)
Lemma extends_new D s r O s' O' q :
  extends D s r O s' O' -> user_page q -> walk (pm s) r q = None -> is_Some (walk (pm s') r q) ->
  exists w, walk (pm s') r q = Some (pnumber q, w) /\ D (pnumber q) w.
Proof. intros [_ _ _ _ Hw] Hq Hn [t Ht]. destruct (Hw q Hq) as [?|[_ ?]]; [congruence|done]. Qed.

(** One identity mapping. *)
Lemma map_identity_spec s r O k flags :
  mm_inv s r O -> 0 <= k < 2 ^ 35 -> flags_ok flags ->
  match map_to_flush (mkPage k) (mkFrame k) flags s with
  | Ok s' => walk (pm s) r (mkPage k) = None /\
      walk (pm s') r (mkPage k) = Some (k, flag_rights flags) /\
      exists O', extends (fun j w => j = k /\ w = flag_rights flags) s r O s' O'
  | Err e => map_error e
  end.
Proof.
  intros Hi Hk Hfl. destruct (low_page k Hk) as [Hc Hp]. unfold map_to_flush.
  pose proof (map_to_spec s r O (mkPage k) (mkFrame k) flags Hi Hp ltac:(simpl; lia) Hfl) as H0.
  destruct (map_to _ _ _ s) as [[fl s1]|e]; cbn [obind]; [|exact H0].
  destruct H0 as (-> & Htlb & Hn & O' & Hi' & _ & Hm). rewrite mapper_flush_eq by done.
  split; [done|]. split; [apply Hm|]. exists O'. split.
  - by apply log_flush_inv.
  - apply Hm.
  - by destruct (mp_local _ _ _ _ _ _ _ Hm); split.
  - apply (co_tidy _ _ _ _ _ _ (mp_costs _ _ _ _ _ _ _ Hm)).
  - intros q [Hq Hq4]. destruct (decide (q = mkPage k)) as [->|Hne].
    + right. split; [done|]. eexists. split; [apply Hm|]. done.
    + left. by apply (mapped_other _ _ _ _ _ _ _ q Hm).
Qed.

(** A loop of identity mappings. *)
Lemma map_identities_spec l flags s r O :
  mm_inv s r O -> Forall (fun k => 0 <= k < 2 ^ 35) l -> flags_ok flags ->
  match ofold (fun k => map_to_flush (mkPage k) (mkFrame k) flags) l s with
  | Ok s' => Forall (fun k => walk (pm s') r (mkPage k) = Some (k, flag_rights flags)) l /\
      exists O', extends (fun k w => k ∈ l /\ w = flag_rights flags) s r O s' O'
  | Err e => map_error e
  end.
Proof.
  intros Hi Hl Hfl. revert s O Hi. induction Hl as [|k l Hk Hl IH]; intros s O Hi; cbn [ofold].
  { split; [constructor|]. exists O. by apply extends_refl. }
  pose proof (map_identity_spec s r O k flags Hi Hk Hfl) as H0.
  destruct (map_to_flush _ _ _ s) as [s1|e]; cbn [obind]; [|done]. destruct H0 as (_ & Hk1 & O1 & He1).
  specialize (IH s1 O1 (ex_inv _ _ _ _ _ _ He1)).
  destruct (ofold _ l s1) as [s2|e]; [|done]. destruct IH as (Hall & O2 & He2). split.
  - constructor; [|done]. by eapply extends_keeps; [exact He2|apply low_page|].
  - exists O2. eapply extends_trans; (eapply extends_weaken; [|eassumption]); simpl; intros j w [Hj Hw];
      (split; [|done]); [subst; left|by right].
Qed.

End Identity.
