(* ===== verification/MemoryInit.v ===== *)
(** * Setting up memory

    [paging::init] of [arch/x86_64/memory/paging/mod.rs] and [memory::init] of
    [arch/x86_64/memory/mod.rs]: build a new address space with the kernel, the
    VGA buffer and the multiboot structure identity mapped, switch to it, turn
    the old P4 table into a guard page, map the heap and set up the range of
    the kernel stacks.  The [println!] calls are not modelled. *)

From S2P Require Import Prelude Frames FrameSource AreaAlloc Entry Mmu Table PageTree Mapper Boot.
From S2P Require Import StackAlloc Paging.

(** What the kernel reads of the boot information: the answers of the accessors
    of the multiboot2 crate. *)
Record BootInformation := mkBootInfo {
  bi_sections : option (list ElfSection);
  bi_areas : option (list MemoryArea);
  bi_start : Z;
  bi_end : Z }.

(** [0o_000_001_000_000_0000] *)
Definition HEAP_START : Z := 8 ^ 10.
Definition HEAP_SIZE : Z := 500 * 1024.

(** The crate defines [end_address] as [start_address + size]. *)
Definition sec_size (section : ElfSection) : Z := sec_end section - sec_start section.

Section Init.
Context {A : Type} `{FrameSource A}.
Implicit Types s : mm A.

(** [let result = mapper.identity_map(frame, flags); result.ignore()] *)
Definition identity_map_ignore (flags : Z) (frame : Frame) s : outcome (mm A) :=
  let? (result, s) := identity_map frame flags s in Ok (mapper_ignore result s).

Definition map_section (section : ElfSection) s : outcome (mm A) :=
  if negb (sec_allocated section) then Ok s else
  let? _ := assertb (sec_start section mod PAGE_SIZE =? 0) "sections need to be page aligned" in
  let flags := from_elf_section_flags section in
  let start_frame := frame_containing (PhysAddr (sec_start section)) in
  let? last_ := usize_sub (sec_end section) 1 in
  let end_frame := frame_containing (PhysAddr last_) in
  let? frames := frames_of (frame_range_inclusive start_frame end_frame) in
  ofold (identity_map_ignore flags) frames s.

(** The closure [paging::init] gives to [with]. *)
Definition map_kernel (boot_info : BootInformation) s : outcome (mm A) :=
  let? sections := expect (bi_sections boot_info) "Memory map tag required" in
  let? s := ofold map_section sections s in
  let vga_buffer_frame := frame_containing (PhysAddr 0xb8000) in
  let? s := identity_map_ignore WRITABLE vga_buffer_frame s in
  let multiboot_start := frame_containing (PhysAddr (bi_start boot_info)) in
  let? last_ := usize_sub (bi_end boot_info) 1 in
  let multiboot_end := frame_containing (PhysAddr last_) in
  let? frames := frames_of (frame_range_inclusive multiboot_start multiboot_end) in
  ofold (identity_map_ignore PRESENT) frames s.

Definition paging_init (boot_info : BootInformation) s : outcome (mm A) :=
  let temporary_page := temporary_page_new (mkPage 0xcafebabe) in
  let? (f, s) := alloc_frame s in
  let? frame := expect f "out of memory" in
  let? (new_table, s) := inactive_new frame temporary_page s in
  let? s := apt_with new_table temporary_page (map_kernel boot_info) s in
  let? (old_table, s) := switch new_table s in
  let? a := frame_start (p4_frame old_table) in
  let? old_p4_page := page_containing (VirtAddr (pa_get a)) in
  let? (result, s) := unmap old_p4_page s in
  mapper_flush result s.

(** ** Identity mapping a list of frames *)

(** The frames of the kernel with the flags they are mapped with. *)
Definition section_frames (section : ElfSection) : list (Z * Z) :=
  if sec_allocated section then
    (fun k => (k, from_elf_section_flags section)) <$>
    seqZ (sec_start section / PAGE_SIZE)
      ((sec_end section - 1) / PAGE_SIZE - sec_start section / PAGE_SIZE + 1)
  else [].

Definition multiboot_frames (boot_info : BootInformation) : list (Z * Z) :=
  (fun k => (k, PRESENT)) <$>
  seqZ (bi_start boot_info / PAGE_SIZE)
    ((bi_end boot_info - 1) / PAGE_SIZE - bi_start boot_info / PAGE_SIZE + 1).

Definition kernel_frames (boot_info : BootInformation) (sections : list ElfSection) : list (Z * Z) :=
  concat (section_frames <$> sections) ++ [(0xb8, WRITABLE)] ++ multiboot_frames boot_info.

Definition map_pair (p : Z * Z) s : outcome (mm A) := identity_map_ignore (snd p) (mkFrame (fst p)) s.

Lemma map_pair_list flags l s :
  ofold map_pair ((fun k => (k, flags)) <$> l) s = ofold (identity_map_ignore flags) (mkFrame <$> l) s.
Proof.
  revert s. induction l as [|k l IH]; intros s; simpl; [done|].
  unfold map_pair at 1. simpl. destruct (identity_map_ignore _ _ s); simpl; auto.
Qed.

(** Sections below 2^47: low canonical addresses. *)
Definition low_range (first past : Z) : Prop := 0 <= first /\ 1 <= past <= 2 ^ 47.

Definition low_section (section : ElfSection) : Prop :=
  low_range (sec_start section) (sec_end section).

Definition low_boot (boot_info : BootInformation) (sections : list ElfSection) : Prop :=
  bi_sections boot_info = Some sections /\ Forall low_section sections /\
  low_range (bi_start boot_info) (bi_end boot_info).

Lemma low_frames_of first past :
  low_range first past ->
  usize_sub past 1 = Ok (past - 1) /\
  frames_of (frame_range_inclusive (mkFrame (first / PAGE_SIZE)) (mkFrame ((past - 1) / PAGE_SIZE))) =
  Ok (mkFrame <$> seqZ (first / PAGE_SIZE) ((past - 1) / PAGE_SIZE - first / PAGE_SIZE + 1)).
Proof.
  intros [Hf Hp]. split; [apply sub_w_fits; unfold in_width; lia|].
  unfold PAGE_SIZE. apply frames_of_seq; Z.div_mod_to_equations; lia.
Qed.

(** What the assertion of the loop over the sections asks. *)
Definition aligned_section (section : ElfSection) : Prop :=
  sec_allocated section = true -> sec_start section mod PAGE_SIZE = 0.

Lemma map_section_run section s :
  low_section section -> aligned_section section ->
  map_section section s = ofold map_pair (section_frames section) s.
Proof.
  intros Hl Hal. unfold map_section, section_frames, aligned_section in *.
  destruct (sec_allocated section); cbn [negb]; [|done]. rewrite Hal by done. cbn [Z.eqb assertb obind].
  destruct (low_frames_of _ _ Hl) as [-> Hf]. cbn [obind]. unfold frame_containing. cbn [pa_get].
  rewrite Hf. cbn [obind]. by rewrite map_pair_list.
Qed.

Lemma map_section_misaligned section s :
  ~ aligned_section section -> map_section section s = panic "sections need to be page aligned".
Proof.
  intros Hn. unfold map_section, aligned_section in *. destruct (sec_allocated section); cbn [negb].
  - destruct (Z.eqb_spec (sec_start section mod PAGE_SIZE) 0); [by destruct Hn|done].
  - by destruct Hn.
Qed.

#[export] Instance aligned_section_dec section : Decision (aligned_section section).
Proof. unfold aligned_section. apply _. Defined.

Lemma map_section_eq section s s' :
  low_section section -> map_section section s = Ok s' ->
  aligned_section section /\ ofold map_pair (section_frames section) s = Ok s'.
Proof.
  intros Hl Hrun. destruct (decide (aligned_section section)) as [Ha|Ha].
  - by rewrite <-map_section_run.
  - by rewrite map_section_misaligned in Hrun.
Qed.

Lemma map_sections_eq sections s s' :
  Forall low_section sections -> ofold map_section sections s = Ok s' ->
  ofold map_pair (concat (section_frames <$> sections)) s = Ok s'.
Proof.
  revert s. induction sections as [|x l IH]; intros s HF Hrun; [done|].
  inversion HF as [|? ? Hx Hl]; subst. cbn [ofold] in Hrun. apply obind_Ok in Hrun as (s1 & H1 & H2).
  apply map_section_eq in H1 as [_ H1]; [|done]. simpl. rewrite ofold_app, H1. cbn [obind]. auto.
Qed.

Lemma map_sections_run sections s :
  Forall low_section sections -> Forall aligned_section sections ->
  ofold map_section sections s = ofold map_pair (concat (section_frames <$> sections)) s.
Proof.
  revert s. induction sections as [|x l IH]; intros s Hlo Hal; [done|].
  apply Forall_cons in Hlo as [Hx Hl], Hal as [Hxa Hla]. simpl. rewrite ofold_app, map_section_run by done.
  destruct (ofold map_pair (section_frames x) s); simpl; auto.
Qed.

(** The closure after its loop over the sections. *)
Lemma map_kernel_tail boot_info sections s :
  low_boot boot_info sections ->
  map_kernel boot_info s =
  let? s := ofold map_section sections s in
  ofold map_pair ([(0xb8, WRITABLE)] ++ multiboot_frames boot_info) s.
Proof.
  intros (Hsec & Hlow & Hmb). unfold map_kernel. rewrite Hsec. cbn [expect obind].
  destruct (ofold map_section sections s) as [s1|]; cbn [obind]; [|done]. rewrite ofold_app. cbn [ofold].
  change (map_pair (0xb8, WRITABLE) s1) with (identity_map_ignore WRITABLE (frame_containing (PhysAddr 0xb8000)) s1).
  destruct (identity_map_ignore _ _ s1) as [s2|]; cbn [obind]; [|done].
  destruct (low_frames_of _ _ Hmb) as [-> Hf]. cbn [obind]. unfold frame_containing. cbn [pa_get].
  rewrite Hf. cbn [obind]. unfold multiboot_frames. by rewrite map_pair_list.
Qed.

Lemma map_kernel_eq boot_info sections s s' :
  low_boot boot_info sections -> map_kernel boot_info s = Ok s' ->
  ofold map_pair (kernel_frames boot_info sections) s = Ok s'.
Proof.
  intros Hb Hrun. rewrite (map_kernel_tail _ sections) in Hrun by done.
  apply obind_Ok in Hrun as (s1 & H1 & Hrun). unfold kernel_frames.
  by rewrite ofold_app, (map_sections_eq _ _ _ (proj1 (proj2 Hb)) H1).
Qed.

Lemma map_kernel_run boot_info sections s :
  low_boot boot_info sections -> Forall aligned_section sections ->
  map_kernel boot_info s = ofold map_pair (kernel_frames boot_info sections) s.
Proof.
  intros Hb Ha. rewrite (map_kernel_tail _ sections) by done. unfold kernel_frames.
  rewrite ofold_app, map_sections_run by (done || apply Hb). done.
Qed.

Definition pair_ok (p : Z * Z) : Prop := 0 <= fst p < 2 ^ 35 /\ flags_ok (snd p).

Lemma identity_map_low f flags s :
  0 <= f < 2 ^ 35 -> identity_map (mkFrame f) flags s = map_to (mkPage f) (mkFrame f) flags s.
Proof.
  intros Hf. unfold identity_map, frame_start. simpl fnumber.
  rewrite mul_w_fits by (unfold in_width, PAGE_SIZE; lia). cbn [obind pa_get].
  destruct (page_start_canonical (mkPage f)) as (_ & Hp & _); [apply low_page, Hf|].
  simpl pnumber in Hp. by rewrite Hp.
Qed.

Lemma elf_flags_ok section : flags_ok (from_elf_section_flags section).
Proof.
  unfold from_elf_section_flags. destruct (sec_allocated _), (sec_writable _), (sec_executable _);
    solve_flags.
Qed.

Lemma low_range_ok first past k :
  low_range first past -> k ∈ seqZ (first / PAGE_SIZE) ((past - 1) / PAGE_SIZE - first / PAGE_SIZE + 1) ->
  0 <= k < 2 ^ 35.
Proof.
  intros [? ?] Hk. apply elem_of_seqZ in Hk. unfold PAGE_SIZE in Hk. Z.div_mod_to_equations. lia.
Qed.

Lemma kernel_frames_ok boot_info sections :
  low_boot boot_info sections -> Forall pair_ok (kernel_frames boot_info sections).
Proof.
  intros (_ & Hlow & Hmb). unfold kernel_frames. rewrite !Forall_app. split_and!.
  - apply Forall_concat, Forall_fmap. eapply Forall_impl; [exact Hlow|]. intros x Hx. simpl.
    unfold section_frames. destruct (sec_allocated x); [|constructor].
    apply Forall_fmap, Forall_forall. intros k Hk. split; [by eapply low_range_ok|apply elf_flags_ok].
  - constructor; [|constructor]. split; [simpl; lia|simpl; solve_flags].
  - apply Forall_fmap, Forall_forall. intros k Hk. split; [by eapply low_range_ok|simpl; solve_flags].
Qed.

(** Identity mapping a list of frames: a successful run maps each frame once,
    with its flags, and nothing else. *)
Lemma map_pairs_spec l s r O s' :
  mm_inv s r O -> Forall pair_ok l -> ofold map_pair l s = Ok s' ->
  cr3 s' = cr3 s /\
  (exists O', mm_inv s' r O' /\ local_step s O s' O' /\ costs s r O (3 * length l) s' O') /\
  Forall (fun p => walk (pm s) r (mkPage (fst p)) = None /\ has_table (pm s') r (mkPage (fst p)) /\
    walk (pm s') r (mkPage (fst p)) = Some (fst p, flag_rights (snd p))) l /\
  (forall q, user_page q -> pnumber q ∉ l.*1 -> walk (pm s') r q = walk (pm s) r q).
Proof.
  revert s O. induction l as [|[f fl] l IH]; intros s O Hi Hok Hrun; cbn [ofold] in Hrun.
  { injection Hrun as <-. split_and!; [done| |constructor|done]. exists O.
    split; [done|split; [apply local_step_refl|apply costs_refl]]. }
  inversion Hok as [|? ? [Hf Hfl] Hl]; subst. simpl in Hf, Hfl.
  apply obind_Ok in Hrun as (s1 & H1 & Hrun). unfold map_pair, identity_map_ignore in H1. simpl in H1.
  rewrite identity_map_low in H1 by done. pose proof (low_page f Hf) as [Hc Hp].
  pose proof (map_to_spec s r O (mkPage f) (mkFrame f) fl Hi Hp ltac:(simpl; lia) Hfl) as H0.
  destruct (map_to _ _ _ s) as [[fi s2]|]; [|done]. cbn [obind] in H1. injection H1 as <-. rename s2 into s1. unfold mapper_ignore in Hrun.
  destruct H0 as (_ & _ & Hn & O1 & Hi1 & Htab & Hm).
  destruct (IH s1 O1 Hi1 Hl Hrun) as (Hc2 & (O2 & Hi2 & Hl2 & Hco2) & Hall & Hoth).
  assert (Hfirst : forall g, 0 <= g < 2 ^ 35 -> g <> f ->
    walk (pm s1) r (mkPage g) = walk (pm s) r (mkPage g)).
  { intros g Hg Hne. destruct (low_page g Hg). apply (mapped_other _ _ _ _ _ _ _ (mkPage g) Hm); congruence. }
  assert (Hnin : f ∉ l.*1).
  { intros Hin. apply list_elem_of_fmap in Hin as ([g gl] & Heq & Hin). simpl in Heq. subst g.
    rewrite Forall_forall in Hall. destruct (Hall _ Hin) as [Hx _]. simpl in Hx.
    rewrite (mp_page _ _ _ _ _ _ _ Hm) in Hx. done. }
  split_and!.
  - rewrite Hc2. apply Hm.
  - exists O2. split; [done|]. split; [by eapply local_step_trans; [apply Hm|]|].
    replace (3 * length ((f, fl) :: l))%nat with (3 + 3 * length l)%nat by (simpl; lia).
    by eapply costs_trans; [apply Hm|].
  - constructor; simpl.
    + split; [done|]. split; [by eapply keeps_has_table; [|apply Hco2|]|].
      rewrite Hoth; [apply Hm|by apply low_page|done].
    + apply Forall_forall. intros p Hin. rewrite Forall_forall in Hall, Hl.
      destruct (Hall p Hin) as (Hx & Hy), (Hl p Hin) as [Hr _]. split; [|done].
      rewrite <-Hx. symmetry. apply Hfirst; [done|]. intros Heq. apply Hnin.
      apply list_elem_of_fmap. exists p. by split.
  - intros q Hq Hnot. simpl in Hnot. apply not_elem_of_cons in Hnot as [Hne Hnot].
    rewrite Hoth by done. destruct Hq as [Hq Hq4]. apply (mapped_other _ _ _ _ _ _ _ q Hm); try done.
    intros ->. done.
Qed.

Lemma map_pair_panics p s r O : mm_inv s r O -> pair_ok p -> panics_only (map_pair p s).
Proof.
  intros Hi [Hf Hfl]. unfold map_pair, identity_map_ignore. rewrite identity_map_low by done.
  pose proof (low_page _ Hf) as [Hc Hp].
  apply panics_only_bind; [|intros [? ?] _; apply panics_only_ok].
  by apply (map_to_panics s r O); [..|simpl; lia|].
Qed.

Lemma map_pairs_panics l s r O :
  mm_inv s r O -> Forall pair_ok l -> panics_only (ofold map_pair l s).
Proof.
  intros Hi Hl. rewrite Forall_forall in Hl.
  apply (panics_only_ofold (fun s => exists O, mm_inv s r O)); [eauto| |].
  - intros p s1 s2 Hp [O1 Hi1] Hrun.
    destruct (map_pairs_spec [p] s1 r O1 s2) as (_ & (O2 & Hi2 & _) & _); [done|by constructor; [apply Hl|]| |eauto].
    cbn [ofold]. by rewrite Hrun.
  - intros p s1 Hp [O1 Hi1]. eapply map_pair_panics; eauto.
Qed.

(** With the frames distinct and unmapped, the tables tidy and three frames of
    memory left for each of them, identity mapping them succeeds. *)
Lemma map_pairs_returns l s r O :
  mm_inv s r O -> tidy (pm s) r O -> Forall pair_ok l -> NoDup l.*1 ->
  Forall (fun p => walk (pm s) r (mkPage (fst p)) = None) l -> frames_left (falloc s) (3 * length l) ->
  exists s', ofold map_pair l s = Ok s'.
Proof.
  revert s O. induction l as [|[f fl] l IH]; intros s O Hi Ht Hok Hnd Hw Hl; [by eexists|].
  apply Forall_cons in Hok as [[Hf Hfl] Hok], Hw as [Hwf Hw]. apply NoDup_cons in Hnd as [Hnin Hnd].
  simpl in Hf, Hfl, Hwf, Hnin. pose proof (low_page f Hf) as [Hc Hp].
  replace (3 * length ((f, fl) :: l))%nat with (3 + 3 * length l)%nat in Hl by (simpl; lia).
  destruct (map_to_returns s r O (mkPage f) (mkFrame f) fl Hi Ht Hp Hwf ltac:(simpl; lia) Hfl)
    as (s1 & O1 & Hrun & _ & Hi1 & _ & Hm); [by eapply frames_left_le; [|exact Hl]; lia|].
  cbn [ofold]. unfold map_pair at 1, identity_map_ignore. cbn [fst snd].
  rewrite identity_map_low, Hrun by done. cbn [obind mapper_ignore].
  apply (IH s1 O1 Hi1); [by apply Hm|done|done| |by apply Hm].
  apply Forall_forall. intros [g gl] Hg. rewrite Forall_forall in Hw, Hok. simpl.
  destruct (low_page g) as [Hgc Hgp]; [apply (Hok _ Hg)|].
  rewrite (mapped_other _ _ _ _ _ _ _ (mkPage g) Hm) by (done || intros [= ->]; by apply Hnin, (list_elem_of_fmap_2 fst _ _ Hg)).
  by apply (Hw (g, gl)).
Qed.

Lemma map_kernel_well_behaved boot_info sections n :
  low_boot boot_info sections ->
  well_behaved n (3 * length (kernel_frames boot_info sections)) (map_kernel boot_info).
Proof.
  intros Hb s On s' Hi Hrun. apply (map_kernel_eq _ sections) in Hrun; [|done].
  destruct (map_pairs_spec _ _ _ _ _ Hi (kernel_frames_ok _ _ Hb) Hrun) as (? & ? & _). by split.
Qed.

Lemma map_kernel_panics boot_info sections s n On :
  low_boot boot_info sections -> mm_inv s n On -> panics_only (map_kernel boot_info s).
Proof.
  intros Hb Hi. rewrite (map_kernel_tail _ sections) by done. pose proof (kernel_frames_ok _ _ Hb) as Hok.
  unfold kernel_frames in Hok. apply Forall_app in Hok as [Hsec Htail].
  assert (Hin : forall x, x ∈ sections -> low_section x /\ Forall pair_ok (section_frames x)).
  { intros x Hx. split; [by eapply (proj1 (Forall_forall _ _)); [apply Hb|]|].
    apply Forall_concat in Hsec. rewrite Forall_fmap, Forall_forall in Hsec. by apply (Hsec x). }
  apply panics_only_bind.
  - apply (panics_only_ofold (fun s => exists O, mm_inv s n O)); [eauto| |].
    + intros x s1 s2 Hx [O1 Hi1] Hrun. destruct (Hin x Hx) as [Hlx Hpx].
      apply map_section_eq in Hrun as [_ Hrun]; [|done].
      destruct (map_pairs_spec _ _ _ _ _ Hi1 Hpx Hrun) as (_ & (O2 & ? & _) & _). eauto.
    + intros x s1 Hx [O1 Hi1]. destruct (Hin x Hx) as [Hlx Hpx].
      destruct (decide (aligned_section x)); [|rewrite map_section_misaligned by done; apply panics_only_panic].
      rewrite map_section_run by done. by eapply map_pairs_panics.
  - intros s1 Hrun. apply map_sections_eq in Hrun; [|apply Hb].
    destruct (map_pairs_spec _ _ _ _ _ Hi Hsec Hrun) as (_ & (O2 & ? & _) & _). by eapply map_pairs_panics.
Qed.

(** The translations after [paging::init]: the frames of the kernel, but not
    the old P4 table. *)
Record kernel_space (m : mem) (n r : Z) (frames : list (Z * Z)) : Prop := {
  ks_guard : walk m n (mkPage r) = None;
  ks_frames : forall f fl, (f, fl) ∈ frames -> f <> r ->
    walk m n (mkPage f) = Some (f, flag_rights fl);
  ks_others : forall q, user_page q -> pnumber q ∉ frames.*1 -> walk m n q = None }.

Lemma temp_page_user : user_page (mkPage 0xcafebabe).
Proof. apply low_page. lia. Qed.

(** The frames [paging::init] may take: the new P4 table, two times the tables
    of the temporary page, and three tables for each page of the kernel. *)
Definition init_frames (frames : list (Z * Z)) : nat := 7 + 3 * length frames.

(** A fresh table, filled by the closure of [paging::init]. *)
Lemma fill_new_table boot_info sections s r O n tp res s1 s2 :
  mm_inv s r O -> active s = r -> user_page (tp_page tp) -> low_boot boot_info sections ->
  0 <= n < 2 ^ 40 -> O !! n = None -> ~ fs_avail (falloc s) n ->
  inactive_new (mkFrame n) tp s = Ok (res, s1) ->
  apt_with res tp (map_kernel boot_info) s1 = Ok s2 ->
  let l := kernel_frames boot_info sections in
  res = mkInactive (mkFrame n) /\ active s2 = r /\
  (exists O' On, mm_inv s2 r O' /\ inactive s2 O' n On /\ tidy (pm s2) n On) /\
  Forall (fun p => has_table (pm s2) n (mkPage (fst p)) /\
    walk (pm s2) n (mkPage (fst p)) = Some (fst p, flag_rights (snd p))) l /\
  (forall q, user_page q -> pnumber q ∉ l.*1 -> walk (pm s2) n q = None) /\
  forall k, frames_left (falloc s) (6 + 3 * length l + k) -> frames_left (falloc s2) k.
Proof.
  intros Hi Ha Hu Hb Hn Hnone Hnav Hnew Hwith l. assert (Hnr : n <> r).
  { intros ->. rewrite (tr_root _ _ _ (mi_tree _ _ _ Hi)) in Hnone. done. }
  destruct (inactive_new_spec _ _ _ _ _ _ _ Hi Ha Hu Hn Hnone Hnav Hnr Hnew)
    as (-> & Hcr1 & Hw1 & O1 & Hi1 & _ & Hin1 & Htn1 & [_ _ Hf1]).
  pose proof (active_cr3 _ _ Hcr1) as Ha1. rewrite Ha in Ha1.
  pose proof (map_kernel_well_behaved boot_info sections n Hb) as Hwb.
  destruct (apt_with_spec _ _ _ _ _ _ _ _ _ Hi1 Ha1 Hin1 Hu Hwb Hwith)
    as (Hcr2 & _ & O2 & On & sa & sb & Hi2 & Hin2 & Hia & Hrun & Hsa & Hsb & Hib & [_ Ht2 Hf2]).
  apply (map_kernel_eq _ sections) in Hrun; [|done].
  pose proof (kernel_frames_ok _ _ Hb) as Hok. fold l in Hok.
  destruct (map_pairs_spec _ _ _ _ _ Hia Hok Hrun) as (_ & _ & Hall & Hoth).
  pose proof (same_tables_walks _ _ _ _ Hsb (mi_tree _ _ _ Hib)) as Hwb2.
  pose proof (same_tables_walks _ _ _ _ Hsa (in_tree _ _ _ _ Hin1)) as Hwa.
  split; [done|]. split; [by rewrite (active_cr3 _ _ Hcr2)|]. split; [exists O2, On; split_and!; auto|]. split_and!.
  - apply Forall_forall. intros p Hp. rewrite Forall_forall in Hall, Hok.
    destruct (Hok p Hp) as [Hr _], (Hall p Hp) as (_ & Htab & Hwp). split.
    + eapply keeps_has_table; [apply low_page, Hr| |done]. eapply same_tables_keeps; [exact Hsb|apply Hib].
    + by rewrite (same_walks_page _ _ _ _ Hwb2) by apply low_page, Hr.
  - intros q Hq Hnot. rewrite (same_walks_page _ _ _ _ Hwb2) by apply Hq. rewrite Hoth by done.
    rewrite (same_walks_page _ _ _ _ Hwa) by apply Hq. by apply Hw1.
  - intros k Hk. apply Hf2, Hf1. by eapply frames_left_le; [|exact Hk]; unfold l; lia.
Qed.

(** The last steps of [paging::init]. *)
Definition guard_old (table : InactivePageTable) s : outcome (mm A) :=
  let? (old_table, s) := switch table s in
  let? a := frame_start (p4_frame old_table) in
  let? old_p4_page := page_containing (VirtAddr (pa_get a)) in
  let? (result, s) := unmap old_p4_page s in
  mapper_flush result s.

Lemma guard_old_eq s r O n On :
  mm_inv s r O -> active s = r -> r < 2 ^ 35 -> inactive s O n On ->
  guard_old (mkInactive (mkFrame n)) s =
  let? (_, s) := unmap (mkPage r) (mkMM (pm s) (n * PAGE_SIZE) (tlb s) (falloc s)) in
  Ok (log_flush s (FlushPage (mkPage r))).
Proof.
  intros Hi Ha Hr35 Hin. destruct (backup_frame s r O Hi Ha) as [_ Hr].
  destruct (switch_spec s r O n On Hi Hin) as (Hsw & Ha3 & Hi3). unfold guard_old. rewrite Hsw, Ha.
  set (s3 := mkMM _ _ _ _) in *. cbn [obind p4_frame]. unfold frame_start. cbn [fnumber].
  rewrite mul_w_fits by (unfold in_width, PAGE_SIZE; lia). cbn [obind pa_get].
  destruct (low_page r ltac:(lia)) as [Hc Hp].
  destruct (page_start_canonical (mkPage r) Hc) as (_ & Hpc & _). cbn [pnumber] in Hpc. rewrite Hpc.
  cbn [obind]. pose proof (unmap_spec s3 n On (mkPage r) Hi3 Hc Hp) as H0.
  destruct (unmap (mkPage r) s3) as [[fl s4]|]; [|done]. destruct H0 as (-> & _). cbn [obind].
  by rewrite mapper_flush_eq.
Qed.

Lemma paging_init_run boot_info s :
  paging_init boot_info s =
  let? (f, s) := alloc_frame s in
  let? frame := expect f "out of memory" in
  let? (new_table, s) := inactive_new frame (temporary_page_new (mkPage 0xcafebabe)) s in
  let? s := apt_with new_table (temporary_page_new (mkPage 0xcafebabe)) (map_kernel boot_info) s in
  guard_old new_table s.
Proof. done. Qed.

Lemma paging_init_spec boot_info sections s r O s' :
  mm_inv s r O -> active s = r -> r < 2 ^ 35 -> low_boot boot_info sections ->
  paging_init boot_info s = Ok s' ->
  exists n O', fs_avail (falloc s) n /\ active s' = n /\ mm_inv s' n O' /\ tidy (pm s') n O' /\
    kernel_space (pm s') n r (kernel_frames boot_info sections) /\
    forall k, frames_left (falloc s) (init_frames (kernel_frames boot_info sections) + k) ->
      frames_left (falloc s') k.
Proof.
  intros Hi Ha Hr35 Hb Hrun. rewrite paging_init_run in Hrun. unfold alloc_frame in Hrun.
  pose proof (mi_alloc s r O Hi) as Hok. destruct (backup_frame s r O Hi Ha) as [_ Hr].
  destruct (fs_alloc (falloc s)) as [[[[n]|] a]|] eqn:Hal; [|done..]. cbn [obind expect] in Hrun.
  destruct (fs_alloc_some _ _ _ Hok Hal) as [Hav Hnav]. simpl in Hav, Hnav.
  pose proof (set_falloc_inv _ _ _ _ _ Hi Hal) as Hi0.
  destruct (avail_fresh s r O n Hi Hav) as (Hnone & _).
  pose proof (fs_avail_bound _ _ Hok Hav) as Hn.
  apply obind_Ok in Hrun as ([res s1] & Hnew & Hrun). apply obind_Ok in Hrun as (s2 & Hwith & Hrun).
  destruct (fill_new_table boot_info sections (set_falloc s a) r O n (temporary_page_new (mkPage 0xcafebabe)) res s1 s2)
    as (-> & Ha2 & (O2 & On & Hi2 & Hin2 & Ht2) & Hall & Hoth & Hf2); try done; [apply temp_page_user|].
  rewrite (guard_old_eq s2 r O2 n On) in Hrun by done.
  destruct (switch_spec s2 r O2 n On Hi2 Hin2) as (_ & Ha3 & Hi3). set (s3 := mkMM _ _ _ _) in *.
  destruct (low_page r ltac:(lia)) as [Hc Hp].
  pose proof (unmap_spec s3 n On (mkPage r) Hi3 Hc Hp) as H0.
  destruct (unmap (mkPage r) s3) as [[fl s4]|] eqn:Hun; [|done]. cbn [obind] in Hrun.
  destruct H0 as (-> & _ & _ & Hi4 & Hm). injection Hrun as <-. exists n, On. split; [done|].
  split; [change (active s4 = n); by rewrite (active_cr3 _ _ (mp_cr3 _ _ _ _ _ _ _ Hm))|].
  split; [by apply log_flush_inv|]. split; [by apply Hm|]. split; [split; simpl|].
  - apply Hm.
  - intros f flg Hin Hne. rewrite Forall_forall in Hall.
    pose proof (kernel_frames_ok _ _ Hb) as Hko. rewrite Forall_forall in Hko.
    destruct (low_page f) as [Hfc Hfp]; [apply (Hko _ Hin)|].
    rewrite (mapped_other _ _ _ _ _ _ _ (mkPage f) Hm) by congruence. by apply (Hall (f, flg)).
  - intros q Hq Hnot. destruct (decide (q = mkPage r)) as [->|Hne]; [apply Hm|].
    rewrite (mapped_other _ _ _ _ _ _ _ q Hm) by (done || apply Hq). by apply Hoth.
  - intros k Hk. simpl. rewrite (unmap_falloc _ _ _ _ Hun). apply Hf2. simpl.
    unfold init_frames in Hk. destruct (frames_left_alloc _ _ Hok Hk) as (? & ? & Hal' & Hl').
    rewrite Hal in Hal'. injection Hal' as _ <-. exact Hl'.
Qed.

Lemma paging_init_panics boot_info sections s r O :
  mm_inv s r O -> active s = r -> r < 2 ^ 35 -> low_boot boot_info sections ->
  panics_only (paging_init boot_info s).
Proof.
  intros Hi Ha Hr35 Hb. rewrite paging_init_run. unfold alloc_frame.
  pose proof (mi_alloc s r O Hi) as Hok.
  destruct (fs_alloc_returns _ Hok) as [[[[n]|] a] Hal]; rewrite Hal; cbn [obind expect];
    [|apply panics_only_panic].
  destruct (fs_alloc_some _ _ _ Hok Hal) as [Hav Hnav]. simpl in Hav, Hnav.
  pose proof (set_falloc_inv _ _ _ _ _ Hi Hal) as Hi0. destruct (avail_fresh s r O n Hi Hav) as (Hnone & Hnr & _).
  pose proof (fs_avail_bound _ _ Hok Hav) as Hn. set (tp := temporary_page_new (mkPage 0xcafebabe)).
  assert (Hu : user_page (tp_page tp)) by apply temp_page_user.
  apply panics_only_bind; [by eapply inactive_new_panics|]. intros [res s1] Hnew.
  destruct (inactive_new_spec _ _ _ _ _ _ _ Hi0 Ha Hu Hn Hnone Hnav Hnr Hnew)
    as (-> & Hcr1 & Hw1 & O1 & Hi1 & _ & Hin1 & _).
  pose proof (active_cr3 _ _ Hcr1) as Ha1. change (active (set_falloc s a)) with (active s) in Ha1. rewrite Ha in Ha1.
  pose proof (map_kernel_well_behaved boot_info sections n Hb) as Hwb.
  apply panics_only_bind.
  - intros e He. destruct (apt_with_errors _ _ _ _ _ _ _ _ _ Hi1 Ha1 Hin1 Hu Hwb He) as [?|(sa & Hia & _ & Hrun)];
      [done|]. by eapply (map_kernel_panics boot_info sections sa).
  - intros s2 Hwith.
    destruct (apt_with_spec _ _ _ _ _ _ _ _ _ Hi1 Ha1 Hin1 Hu Hwb Hwith) as (Hcr2 & _ & O2 & On & _ & _ & Hi2 & Hin2 & _).
    pose proof (active_cr3 _ _ Hcr2) as Ha2. rewrite Ha1 in Ha2.
    rewrite (guard_old_eq s2 r O2 n On) by done. destruct (switch_spec s2 r O2 n On Hi2 Hin2) as (_ & _ & Hi3).
    destruct (low_page r) as [Hc Hp]; [split; [|done]; by eapply tr_range; apply Hi|].
    apply panics_only_bind; [by eapply unmap_panics|]. intros [? ?] _. apply panics_only_ok.
Qed.

(** What [paging::init] needs to succeed: aligned sections, frames that do not
    overlap, the old P4 table in the kernel image, the temporary page unmapped,
    tidy tables and enough memory. *)
Record init_ready boot_info sections s r O : Prop := {
  ir_aligned : Forall aligned_section sections;
  ir_apart : NoDup (kernel_frames boot_info sections).*1;
  ir_old : r ∈ (kernel_frames boot_info sections).*1;
  ir_temp : walk (pm s) r (mkPage 0xcafebabe) = None;
  ir_tidy : tidy (pm s) r O;
  ir_frames : frames_left (falloc s) (init_frames (kernel_frames boot_info sections)) }.

Lemma paging_init_returns boot_info sections s r O :
  mm_inv s r O -> active s = r -> r < 2 ^ 35 -> low_boot boot_info sections ->
  init_ready boot_info sections s r O -> exists s', paging_init boot_info s = Ok s'.
Proof.
  intros Hi Ha Hr35 Hb [Hal Hnd Hold Htemp Htidy Hl]. rewrite paging_init_run. unfold alloc_frame.
  pose proof (mi_alloc s r O Hi) as Hok. unfold init_frames in Hl.
  destruct (frames_left_alloc _ _ Hok Hl) as ([n] & a & Hra & Hl0). rewrite Hra. cbn [obind expect].
  destruct (fs_alloc_some _ _ _ Hok Hra) as [Hav Hnav]. simpl in Hav, Hnav.
  pose proof (set_falloc_inv _ _ _ _ _ Hi Hra) as Hi0. destruct (avail_fresh s r O n Hi Hav) as (Hnone & Hnr & _).
  pose proof (fs_avail_bound _ _ Hok Hav) as Hn. set (tp := temporary_page_new (mkPage 0xcafebabe)) in *.
  assert (Hu : user_page (tp_page tp)) by apply temp_page_user. set (s0 := set_falloc s a) in *.
  set (l := kernel_frames boot_info sections) in *.
  destruct (inactive_new_returns s0 r O n tp Hi0 Ha Hu Hn Hnone Hnav Hnr Htidy Htemp) as [s1 Hnew].
  { by eapply frames_left_le; [|exact Hl0]; lia. }
  rewrite Hnew. cbn [obind].
  destruct (inactive_new_spec _ _ _ _ _ _ _ Hi0 Ha Hu Hn Hnone Hnav Hnr Hnew)
    as (_ & Hcr1 & Hw1 & O1 & Hi1 & _ & Hin1 & Htn1 & [_ Ht1 Hf1]).
  pose proof (active_cr3 _ _ Hcr1) as Ha1. change (active s0) with (active s) in Ha1. rewrite Ha in Ha1.
  pose proof (map_kernel_well_behaved boot_info sections n Hb) as Hwb.
  assert (Hl1 : frames_left (falloc s1) (3 + 3 * length l)) by (apply Hf1; by eapply frames_left_le; [|exact Hl0]; lia).
  destruct (apt_with_returns s1 r O1 n _ tp _ _ Hi1 Ha1 Hin1 Hu Hwb (Ht1 Htidy)) as (sa & Hia & Hsa & Hfa & Hret).
  { by rewrite (proj2 (Hw1 _ Hu)). } { by eapply frames_left_le; [|exact Hl1]; lia. }
  pose proof (kernel_frames_ok _ _ Hb) as Hpok.
  destruct (map_pairs_returns l sa n {[n := []]} Hia) as [sb Hrun]; [..|by apply Hfa|].
  { eapply same_tables_tidy; [exact Hsa|apply Hin1|done]. } { done. } { done. }
  { apply Forall_forall. intros p Hp. rewrite Forall_forall in Hpok. pose proof (low_page _ (proj1 (Hpok p Hp))) as Hup.
    rewrite (same_walks_page n (pm s1)); [by apply Hw1|by eapply same_tables_walks; [exact Hsa|apply Hin1]|apply Hup]. }
  destruct (Hret sb) as [s2 Hwith]; [by rewrite (map_kernel_run _ sections)|]. rewrite Hwith. cbn [obind].
  destruct (fill_new_table boot_info sections s0 r O n tp _ s1 s2 Hi0 Ha Hu Hb Hn Hnone Hnav Hnew Hwith)
    as (_ & Ha2 & (O2 & On & Hi2 & Hin2 & _) & Hall & _).
  rewrite (guard_old_eq s2 r O2 n On) by done. destruct (switch_spec s2 r O2 n On Hi2 Hin2) as (_ & _ & Hi3).
  destruct (low_page r) as [Hc Hp]; [split; [|done]; by eapply tr_range; apply Hi|].
  apply list_elem_of_fmap in Hold as (p & -> & Hpin). rewrite Forall_forall in Hall.
  destruct (Hall p Hpin) as [Htab Hwp].
  destruct (unmap_returns _ _ _ _ Hi3 Hc Hp (ex_intro _ _ Hwp) Htab) as [s4 ->]. by eexists.
Qed.

(** C10: [paging::init] leaves the machine on a new, well-formed set of tables
    whose root is a fresh frame: every allocated section, the VGA buffer and
    the multiboot structure are identity mapped with the write permission of
    their flags, the page of the old P4 table is a guard page, and nothing
    else is mapped.  When it does not return it panics, without a page fault;
    with aligned sections, no overlap, tidy tables and enough memory it
    returns. *)
Theorem paging_init_correct boot_info sections s r O :
  mm_inv s r O -> active s = r -> r < 2 ^ 35 -> low_boot boot_info sections ->
  match paging_init boot_info s with
  | Ok s' =>
      exists n O', fs_avail (falloc s) n /\ active s' = n /\ mm_inv s' n O' /\
        walk (pm s') n (mkPage r) = None /\
        (forall f fl, (f, fl) ∈ kernel_frames boot_info sections -> f <> r ->
           walk (pm s') n (mkPage f) = Some (f, flag_rights fl)) /\
        (forall q, user_page q -> pnumber q ∉ (kernel_frames boot_info sections).*1 ->
           walk (pm s') n q = None)
  | Err e => is_panic e
  end /\
  (init_ready boot_info sections s r O -> exists s', paging_init boot_info s = Ok s').
Proof.
  intros Hi Ha Hr Hb. split; [|by apply paging_init_returns].
  destruct (paging_init boot_info s) as [s'|e] eqn:Hrun.
  - destruct (paging_init_spec _ _ _ _ _ _ Hi Ha Hr Hb Hrun) as (n & O' & ? & ? & ? & _ & [] & _).
    by exists n, O'.
  - by eapply (paging_init_panics boot_info sections s r O).
Qed.

End Init.

(** ** [memory::init] *)

(** [Iterator::min] and [Iterator::max]. *)
Definition iter_min (l : list Z) : option Z :=
  match l with [] => None | a :: l => Some (foldl Z.min a l) end.
Definition iter_max (l : list Z) : option Z :=
  match l with [] => None | a :: l => Some (foldl Z.max a l) end.

(** The addresses [start_address() + size()] of the sections. *)
Fixpoint section_ends (l : list ElfSection) : outcome (list Z) :=
  match l with
  | [] => Ok []
  | x :: l =>
      let? e := add_w 64 (sec_start x) (sec_size x) in
      let? l := section_ends l in
      Ok (e :: l)
  end.

Abbreviation machine := (mm (option AreaFrameAllocator)).

(** Mapping the heap, and the range of the stack allocator. *)
Definition setup_heap (s : machine) : outcome (StackAllocator * machine) :=
  let? heap_start_page := page_containing (VirtAddr HEAP_START) in
  let? e := usize_add HEAP_START HEAP_SIZE in
  let? e := usize_sub e 1 in
  let? heap_end_page := page_containing (VirtAddr e) in
  let? pages := pages_of (page_range_inclusive heap_start_page heap_end_page) in
  let? s := ofold (map_and_flush (Z.lor PRESENT WRITABLE)) pages s in
  let? stack_start_page := page_add heap_end_page 1 in
  let? stack_end_page := page_add stack_start_page 100 in
  let stack_alloc_range := page_range_inclusive stack_start_page stack_end_page in
  Ok (stack_allocator_new stack_alloc_range, s).

(** Lines up to the call of [acpi::init]; [called] is the flag of
    [assert_has_not_been_called!].  The result has the range given to the heap
    allocator and the range of the kernel stacks. *)
Definition memory_setup (called : bool) (boot_info : BootInformation) (s : machine)
  : outcome ((Z * Z) * StackAllocator * machine) :=
  let? _ := assertb (negb called) "memory::init must be called only once" in
  let? memory_areas := expect (bi_areas boot_info) "Memory map tag required" in
  let? sections := expect (bi_sections boot_info) "Elf sections tag required" in
  let allocated := filter (fun x => sec_allocated x) sections in
  let? kernel_start := unwrap (iter_min (sec_start <$> allocated)) in
  let? ends := section_ends allocated in
  let? kernel_end := unwrap (iter_max ends) in
  let? frame_allocator :=
    new_allocator kernel_start kernel_end (bi_start boot_info) (bi_end boot_info) memory_areas in
  let s := set_falloc s (Some frame_allocator) in
  let? s := paging_init boot_info s in
  let? (stack_allocator, s) := setup_heap s in
  Ok ((HEAP_START, HEAP_SIZE), stack_allocator, s).

(** The 125 pages of the heap. *)
Definition heap_pages : list Page := mkPage <$> seqZ 0x40000 125.

Lemma setup_heap_eq s :
  setup_heap s =
  let? s := ofold (map_and_flush (Z.lor PRESENT WRITABLE)) heap_pages s in
  Ok (mkStackAllocator (mkPageIter (mkPage 0x4007d) (mkPage 0x400e1)), s).
Proof.
  unfold setup_heap. change (page_containing (VirtAddr HEAP_START)) with (@Ok Page (mkPage 0x40000)).
  cbn [obind]. change (usize_add HEAP_START HEAP_SIZE) with (@Ok Z 0x4007d000). cbn [obind].
  change (usize_sub 0x4007d000 1) with (@Ok Z 0x4007cfff). cbn [obind].
  change (page_containing (VirtAddr 0x4007cfff)) with (@Ok Page (mkPage 0x4007c)). cbn [obind].
  rewrite pages_of_seq by lia. cbn [obind]. done.
Qed.

Lemma heap_pages_ok : Forall user_page heap_pages /\ NoDup heap_pages.
Proof.
  split.
  - apply Forall_fmap, Forall_forall. intros k Hk. apply elem_of_seqZ in Hk. apply low_page. lia.
  - apply NoDup_fmap_2; [by intros ? ? [= ->]|apply NoDup_seqZ].
Qed.

Lemma iter_min_le l m x : iter_min l = Some m -> x ∈ l -> m <= x.
Proof.
  destruct l as [|a l]; [done|]. simpl. intros [= <-] Hx.
  enough (forall l a, foldl Z.min a l <= a /\ forall x, x ∈ l -> foldl Z.min a l <= x) as Hgo.
  { destruct (Hgo l a) as [H1 H2]. apply elem_of_cons in Hx as [->|Hx]; auto. }
  clear. intros l. induction l as [|b l IH]; intros a; simpl; [by split; [|intros x []%elem_of_nil]|].
  destruct (IH (Z.min a b)) as [H1 H2]. split; [lia|]. intros x [->|Hx]%elem_of_cons; [lia|auto].
Qed.

Lemma iter_max_ge l m x : iter_max l = Some m -> x ∈ l -> x <= m.
Proof.
  destruct l as [|a l]; [done|]. simpl. intros [= <-] Hx.
  enough (forall l a, a <= foldl Z.max a l /\ forall x, x ∈ l -> x <= foldl Z.max a l) as Hgo.
  { destruct (Hgo l a) as [H1 H2]. apply elem_of_cons in Hx as [->|Hx]; auto. }
  clear. intros l. induction l as [|b l IH]; intros a; simpl; [by split; [|intros x []%elem_of_nil]|].
  destruct (IH (Z.max a b)) as [H1 H2]. split; [lia|]. intros x [->|Hx]%elem_of_cons; [lia|auto].
Qed.

Lemma iter_max_in l m : iter_max l = Some m -> m ∈ l.
Proof.
  destruct l as [|a l]; [done|]. simpl. intros [= <-]. revert a.
  induction l as [|b l IH]; intros a; simpl; [by left|].
  destruct (Z.max_spec a b) as [[_ ->]|[_ ->]]; [right; apply IH|].
  specialize (IH a). apply elem_of_cons in IH as [->|]; [by left|by do 2 right].
Qed.

Lemma section_ends_eq l ends : section_ends l = Ok ends -> ends = sec_end <$> l.
Proof.
  revert ends. induction l as [|x l IH]; intros ends Hrun; cbn [section_ends] in Hrun.
  - by injection Hrun as <-.
  - apply obind_Ok in Hrun as (e & He & Hrun). apply obind_Ok in Hrun as (es & Hes & Hrun).
    injection Hrun as <-. apply add_w_Ok in He as [-> _]. unfold sec_size. simpl.
    f_equal; [lia|by apply IH].
Qed.

(** The tables of the boot code lie in the kernel image. *)
Definition in_image (sections : list ElfSection) (f : Z) : Prop :=
  exists x, x ∈ sections /\ sec_allocated x = true /\ sec_start x <= f * PAGE_SIZE < sec_end x.

Lemma image_not_avail sections ks ke ends mstart mend ars a f :
  Forall low_section sections -> Forall area_wf ars -> 0 <= mend < 2 ^ 52 ->
  iter_min (sec_start <$> filter (fun x => sec_allocated x) sections) = Some ks ->
  section_ends (filter (fun x => sec_allocated x) sections) = Ok ends -> iter_max ends = Some ke ->
  new_allocator ks ke mstart mend ars = Ok a -> in_image sections f ->
  fs_ok (Some a) /\ ~ fs_avail (Some a) f.
Proof.
  intros Hlow Har Hm Hmin Hends Hmax Hnew (x & Hx & Hal & Hr). apply section_ends_eq in Hends as ->.
  assert (Hxf : x ∈ filter (fun x => sec_allocated x) sections).
  { apply list_elem_of_filter. by rewrite Hal. }
  pose proof (iter_min_le _ _ (sec_start x) Hmin) as Hle. pose proof (iter_max_ge _ _ (sec_end x) Hmax) as Hge.
  rewrite !list_elem_of_fmap in *. specialize (Hle ltac:(eauto)). specialize (Hge ltac:(eauto)).
  apply iter_max_in, list_elem_of_fmap in Hmax as (y & -> & Hy).
  apply list_elem_of_filter in Hy as [_ Hy]. rewrite Forall_forall in Hlow.
  destruct (Hlow y Hy) as [_ Hly].
  destruct (new_allocator_spec ks (sec_end y) mstart mend ars Har ltac:(lia) Hm) as (a' & Ha' & Hwf & Hc & _).
  rewrite Hnew in Ha'. injection Ha' as <-. split; [done|]. intros [_ Hu].
  apply (usable_config _ _ _ Hc) in Hu as (_ & Hk & _). apply Hk. unfold in_kernel. simpl.
  unfold PAGE_SIZE in *. Z.div_mod_to_equations. lia.
Qed.

Lemma setup_boot_inv m0 p4 p3 p2 sections ks ke ends mstart mend ars a log :
  p4 <> p3 /\ p4 <> p2 /\ p3 <> p2 ->
  0 <= p4 < 2 ^ 20 /\ 0 <= p3 < 2 ^ 20 /\ 0 <= p2 < 2 ^ 20 ->
  (forall f i, f ∈ [p4; p3; p2] -> rd m0 f i = 0) ->
  Forall (in_image sections) [p4; p3; p2] ->
  Forall low_section sections -> Forall area_wf ars -> 0 <= mend < 2 ^ 52 ->
  iter_min (sec_start <$> filter (fun x => sec_allocated x) sections) = Some ks ->
  section_ends (filter (fun x => sec_allocated x) sections) = Ok ends -> iter_max ends = Some ke ->
  new_allocator ks ke mstart mend ars = Ok a ->
  mm_inv (mkMM (set_up_page_tables m0 p4 p3 p2) (p4 * PAGE_SIZE) log (Some a)) p4 (boot_owner p4 p3 p2).
Proof.
  intros Hd Hr Hbss Himg Hlow Har Hm Hmin Hends Hmax Hnew.
  assert (Hav : forall f, f ∈ [p4; p3; p2] -> fs_ok (Some a) /\ ~ fs_avail (Some a) f).
  { intros f Hf. rewrite Forall_forall in Himg. eapply image_not_avail; eauto. }
  apply boot_inv; [done|done|done|apply (Hav p4); by left|]. intros f Hf. by apply Hav.
Qed.

Lemma setup_heap_spec (s : machine) n O sa s' :
  mm_inv s n O -> setup_heap s = Ok (sa, s') ->
  sa_pages sa 0x4007d 0x400e1 /\ active s' = active s /\
  (exists O', mm_inv s' n O' /\ costs s n O 500 s' O') /\
  Forall (fun p => walk (pm s) n p = None /\ exists f, walk (pm s') n p = Some (f, full_access)) heap_pages /\
  (forall q, user_page q -> q ∉ heap_pages -> walk (pm s') n q = walk (pm s) n q).
Proof.
  intros Hi Hrun. rewrite setup_heap_eq in Hrun. apply obind_Ok in Hrun as (s1 & Hmap & Hrun).
  injection Hrun as <- <-. destruct heap_pages_ok as [Hu Hnd].
  destruct (map_pages_spec _ _ _ n O _ Hi Hu Hnd present_writable_ok Hmap) as (Hcr & _ & (O' & HO & Hco) & Hall & Hoth).
  split; [done|]. split; [by apply active_cr3|]. split_and!; [by exists O'| |done].
  eapply Forall_impl; [exact Hall|]. intros p [? [f Hf]]. split; [done|]. exists f. rewrite Hf. done.
Qed.

Lemma setup_heap_panics (s : machine) n O : mm_inv s n O -> panics_only (setup_heap s).
Proof.
  intros Hi. rewrite setup_heap_eq. apply panics_only_bind; [|intros; apply panics_only_ok].
  intros e He. apply map_pages_errors with (r := n) (O := O) in He; [|done|apply heap_pages_ok|apply present_writable_ok].
  by destruct He as [->|[->|[->| ->]]]; eexists.
Qed.

(** Five hundred frames are enough for the heap. *)
Lemma setup_heap_returns (s : machine) n O :
  mm_inv s n O -> tidy (pm s) n O -> Forall (fun p => walk (pm s) n p = None) heap_pages ->
  frames_left (falloc s) 500 -> exists sa s', setup_heap s = Ok (sa, s').
Proof.
  intros Hi Ht Hw Hl. rewrite setup_heap_eq. destruct heap_pages_ok as [Hu Hnd].
  destruct (map_pages_returns (Z.lor PRESENT WRITABLE) heap_pages s n O Hi Ht Hu Hnd present_writable_ok Hw) as [s' ->].
  { by unfold heap_pages; rewrite length_fmap, length_seqZ. }
  by eexists _, _.
Qed.

Lemma heap_pages_low f : f < 2 ^ 18 -> mkPage f ∉ heap_pages.
Proof.
  intros Hf Hin. unfold heap_pages in Hin. apply list_elem_of_fmap in Hin as (k & [= ->] & Hk).
  apply elem_of_seqZ in Hk. lia.
Qed.

(** [memory::init], started on the tables [boot.asm] builds in the kernel
    image and up to its call of [acpi::init], leaves the machine on a fresh,
    well-formed set of tables: the kernel is identity mapped as by
    [paging::init], the page of the old P4 table is unmapped, each of the 125
    pages of the heap at 1 GiB is mapped writable, nothing else is mapped, and
    the kernel stacks get the 101 pages after the heap. *)
Lemma memory_setup_spec m0 p4 p3 p2 boot_info sections ars log g h sa s' :
  p4 <> p3 /\ p4 <> p2 /\ p3 <> p2 ->
  0 <= p4 < 2 ^ 18 /\ 0 <= p3 < 2 ^ 18 /\ 0 <= p2 < 2 ^ 18 ->
  (forall f i, f ∈ [p4; p3; p2] -> rd m0 f i = 0) ->
  Forall (in_image sections) [p4; p3; p2] ->
  low_boot boot_info sections -> bi_areas boot_info = Some ars -> Forall area_wf ars ->
  memory_setup false boot_info (mkMM (set_up_page_tables m0 p4 p3 p2) (p4 * PAGE_SIZE) log g)
    = Ok (h, sa, s') ->
  h = (HEAP_START, HEAP_SIZE) /\ sa_pages sa 0x4007d 0x400e1 /\
  exists n O', active s' = n /\ n <> p4 /\ mm_inv s' n O' /\ tidy (pm s') n O' /\ walk (pm s') n (mkPage p4) = None /\
    (forall f fl, (f, fl) ∈ kernel_frames boot_info sections -> f <> p4 ->
       walk (pm s') n (mkPage f) = Some (f, flag_rights fl)) /\
    Forall (fun p => exists f, walk (pm s') n p = Some (f, full_access)) heap_pages /\
    (forall q, user_page q -> pnumber q ∉ (kernel_frames boot_info sections).*1 ->
       q ∉ heap_pages -> walk (pm s') n q = None).
Proof.
  intros Hd Hr Hbss Himg Hb Har Hawf Hrun. unfold memory_setup in Hrun. cbn [negb assertb obind] in Hrun.
  rewrite Har in Hrun. pose proof Hb as (Hsec & Hlow & Hmb). rewrite Hsec in Hrun.
  cbn [expect obind] in Hrun. apply obind_Ok in Hrun as (ks & Hks & Hrun).
  apply obind_Ok in Hrun as (ends & Hends & Hrun). apply obind_Ok in Hrun as (ke & Hke & Hrun).
  apply obind_Ok in Hrun as (a & Hnew & Hrun). apply expect_Ok in Hks, Hke.
  apply obind_Ok in Hrun as (s1 & Hinit & Hrun). apply obind_Ok in Hrun as ([sa' s2] & Hheap & Hrun).
  injection Hrun as <- -> ->.
  assert (Hm : 0 <= bi_end boot_info < 2 ^ 52) by (destruct Hmb; lia).
  assert (Hr20 : 0 <= p4 < 2 ^ 20 /\ 0 <= p3 < 2 ^ 20 /\ 0 <= p2 < 2 ^ 20) by lia.
  pose proof (setup_boot_inv m0 p4 p3 p2 sections ks ke ends _ _ ars a log Hd Hr20 Hbss Himg Hlow Hawf Hm Hks Hends Hke Hnew) as Hi.
  assert (H35 : p4 < 2 ^ 35) by lia.
  destruct (paging_init_spec _ _ _ p4 _ _ Hi (Z.div_mul p4 PAGE_SIZE ltac:(done)) H35 Hb Hinit)
    as (n & O1 & Hn & Ha1 & Hi1 & Ht1 & [Hg Hf Ho] & _).
  destruct (avail_fresh _ _ _ n Hi Hn) as (_ & Hn4 & _).
  destruct (setup_heap_spec _ _ _ _ _ Hi1 Hheap) as (Hsa & Ha2 & (O2 & Hi2 & Hco2) & Hall & Hoth).
  assert (H4 : user_page (mkPage p4)) by (apply low_page; lia).
  pose proof (kernel_frames_ok _ _ Hb) as Hok. rewrite Forall_forall in Hok. rewrite Forall_forall in Hall.
  split; [done|]. split; [done|]. exists n, O2.
  split_and!; [congruence|done|done|by apply Hco2| | | |].
  - rewrite Hoth; [done|done|]. apply heap_pages_low. lia.
  - intros f fl Hin Hne. rewrite Hoth; [by apply Hf|apply low_page, (Hok _ Hin)|].
    intros Hh. destruct (Hall _ Hh) as [Hx _]. rewrite (Hf f fl Hin Hne) in Hx. done.
  - apply Forall_forall. intros p Hp. by apply Hall.
  - intros q Hq Hnot Hnh. rewrite Hoth by done. by apply Ho.
Qed.

(** *** Failing and returning *)

Section Setup.
Context (m0 : mem) (p4 p3 p2 : Z) (boot_info : BootInformation) (sections : list ElfSection) (ars : list MemoryArea).
Context (log : list flush) (g : option AreaFrameAllocator).
Hypothesis Hdistinct : p4 <> p3 /\ p4 <> p2 /\ p3 <> p2.
Hypothesis Hrange : 0 <= p4 < 2 ^ 18 /\ 0 <= p3 < 2 ^ 18 /\ 0 <= p2 < 2 ^ 18.
Hypothesis Hbss : forall f i, f ∈ [p4; p3; p2] -> rd m0 f i = 0.
Hypothesis Himage : Forall (in_image sections) [p4; p3; p2].
Hypothesis Hboot : low_boot boot_info sections.
Hypothesis Hareas : bi_areas boot_info = Some ars.
Hypothesis Hwf : Forall area_wf ars.

#[local] Abbreviation s0 := (mkMM (set_up_page_tables m0 p4 p3 p2) (p4 * PAGE_SIZE) log g : machine).
#[local] Abbreviation allocated := (filter (fun x => sec_allocated x) sections).
#[local] Abbreviation frames := (kernel_frames boot_info sections).

Lemma section_ends_returns l : Forall low_section l -> section_ends l = Ok (sec_end <$> l).
Proof.
  induction 1 as [|x l [Hs He] Hl IH]; [done|]. cbn [section_ends]. unfold sec_size.
  rewrite add_w_fits by (unfold in_width; lia). cbn [obind]. rewrite IH. cbn [obind]. simpl. do 2 f_equal. lia.
Qed.

(** What [memory::init] knows of memory, before the first frame is taken. *)
Definition image_alloc : AreaFrameAllocator :=
  mkAllocator (mkFrame 0) None ars
    (frame_containing (PhysAddr (default 0 (iter_min (sec_start <$> allocated)))))
    (frame_containing (PhysAddr (default 0 (iter_max (sec_end <$> allocated)))))
    (frame_containing (PhysAddr (bi_start boot_info))) (frame_containing (PhysAddr (bi_end boot_info))).

(** The steps before [paging::init] succeed: an allocator is made, and the boot
    tables satisfy the invariant of the page-table code. *)
Lemma memory_setup_run :
  exists a, memory_setup false boot_info s0 =
      (let? s := paging_init boot_info (set_falloc s0 (Some a)) in
       let? (stack_allocator, s) := setup_heap s in
       Ok ((HEAP_START, HEAP_SIZE), stack_allocator, s)) /\
    mm_inv (set_falloc s0 (Some a)) p4 (boot_owner p4 p3 p2) /\
    forall n, (exists l, NoDup l /\ length l = S n /\ Forall (usable image_alloc) l) -> frames_left (Some a) n.
Proof.
  pose proof Hboot as (Hsec & Hlow & Hmb). assert (Hm : 0 <= bi_end boot_info < 2 ^ 52) by (destruct Hmb; lia).
  assert (Hal : Forall low_section allocated).
  { apply Forall_forall. intros x [_ Hx]%list_elem_of_filter. by eapply (proj1 (Forall_forall _ _)). }
  pose proof (section_ends_returns _ Hal) as Hends.
  assert (Hne : exists ks ke, iter_min (sec_start <$> allocated) = Some ks /\ iter_max (sec_end <$> allocated) = Some ke).
  { apply Forall_cons in Himage as [(x & Hx & Hxa & _) _].
    assert (Hxf : x ∈ allocated) by (apply list_elem_of_filter; by rewrite Hxa).
    destruct allocated as [|y l]; [by apply elem_of_nil in Hxf|]. by eexists _, _. }
  destruct Hne as (ks & ke & Hks & Hke).
  assert (Hkr : 0 <= ke < 2 ^ 52).
  { apply iter_max_in, list_elem_of_fmap in Hke as (y & -> & Hy). rewrite Forall_forall in Hal.
    destruct (Hal y Hy) as [_ ?]. lia. }
  destruct (new_allocator_spec ks ke (bi_start boot_info) (bi_end boot_info) ars Hwf Hkr Hm) as (a & Hnew & _ & Hc & _).
  exists a. split_and!.
  - unfold memory_setup. rewrite Hareas, Hsec. cbn [negb assertb expect obind]. rewrite Hks. cbn [unwrap expect obind].
    rewrite Hends. cbn [obind]. rewrite Hke. cbn [unwrap expect obind]. rewrite Hnew. done.
  - apply (setup_boot_inv m0 p4 p3 p2 sections ks ke (sec_end <$> allocated) (bi_start boot_info) (bi_end boot_info) ars a log);
      (done || lia).
  - intros n (l & Hnd & Hlen & Hl). apply (new_allocator_frames ks ke (bi_start boot_info) (bi_end boot_info) ars); try done.
    exists l. split_and!; [done..|]. eapply Forall_impl; [exact Hl|]. intros f Hf.
    apply (usable_config _ _ _ Hc). unfold image_alloc in Hf. by rewrite Hks, Hke in Hf.
Qed.

Lemma memory_setup_panics : panics_only (memory_setup false boot_info s0).
Proof.
  destruct memory_setup_run as (a & -> & Hi & _). set (s := set_falloc s0 (Some a)) in *.
  assert (Ha : active s = p4) by (apply Z.div_mul; done). assert (H35 : p4 < 2 ^ 35) by lia.
  apply panics_only_bind; [by eapply paging_init_panics|]. intros s1 Hinit.
  destruct (paging_init_spec _ _ _ _ _ _ Hi Ha H35 Hboot Hinit) as (n & O1 & _ & _ & Hi1 & _).
  apply panics_only_bind; [by eapply setup_heap_panics|]. intros [? ?] _. apply panics_only_ok.
Qed.

(** What [memory::init] needs of the boot information: aligned sections that
    overlap neither each other nor the VGA buffer, the multiboot structure or the
    heap, and enough memory: seven frames, three for each frame of the kernel,
    five hundred for the heap and the one the allocator drops. *)
Record boot_ready : Prop := {
  br_aligned : Forall aligned_section sections;
  br_apart : NoDup frames.*1;
  br_heap : Forall (fun p => pnumber p ∉ frames.*1) heap_pages;
  br_memory : exists l, NoDup l /\ length l = S (init_frames frames + 500) /\ Forall (usable image_alloc) l }.

Lemma image_frame f : in_image sections f -> f ∈ frames.*1.
Proof.
  intros (x & Hx & Hxa & Hr). unfold kernel_frames. rewrite fmap_app. apply elem_of_app. left.
  apply list_elem_of_fmap. exists (f, from_elf_section_flags x). split; [done|].
  apply list_elem_of_In, in_concat. exists (section_frames x). rewrite <-!list_elem_of_In. split.
  - apply list_elem_of_fmap. by exists x.
  - unfold section_frames. rewrite Hxa. apply list_elem_of_fmap. exists f. split; [done|].
    apply elem_of_seqZ. unfold PAGE_SIZE in *. Z.div_mod_to_equations. lia.
Qed.

Lemma memory_setup_returns : boot_ready -> exists sa s', memory_setup false boot_info s0 = Ok ((HEAP_START, HEAP_SIZE), sa, s').
Proof.
  intros [Hal Hnd Hheap Hmem]. destruct memory_setup_run as (a & -> & Hi & Hfr). set (s := set_falloc s0 (Some a)) in *.
  specialize (Hfr _ Hmem). assert (Hr20 : 0 <= p4 < 2 ^ 20 /\ 0 <= p3 < 2 ^ 20 /\ 0 <= p2 < 2 ^ 20) by lia.
  assert (Ha : active s = p4) by (apply Z.div_mul; done). assert (H35 : p4 < 2 ^ 35) by lia.
  assert (Hready : init_ready boot_info sections s p4 (boot_owner p4 p3 p2)).
  { split; [done|done| | | |].
    - apply image_frame. by apply Forall_cons in Himage as [? _].
    - simpl. by rewrite (boot_walk m0 p4 p3 p2 Hdistinct Hr20 Hbss) by (vm_compute; discriminate).
    - by apply boot_tidy.
    - by eapply frames_left_le; [|exact Hfr]; lia. }
  destruct (paging_init_returns _ _ _ _ _ Hi Ha H35 Hboot Hready) as [s1 Hinit]. rewrite Hinit. cbn [obind].
  destruct (paging_init_spec _ _ _ _ _ _ Hi Ha H35 Hboot Hinit) as (n & O1 & _ & _ & Hi1 & Ht1 & [_ _ Ho] & Hf1).
  destruct (setup_heap_returns s1 n O1 Hi1 Ht1) as (sa & s' & ->); [|by apply Hf1|by eexists _, _].
  pose proof (proj1 heap_pages_ok) as Hu. rewrite Forall_forall in Hu, Hheap |- *. intros p Hp. apply Ho; auto.
Qed.

End Setup.

(** ** A concrete boot *)

Definition demo_sections : list ElfSection :=
  [mkSection 0x100000 0x104000 true false true; mkSection 0x180000 0x183800 true true false;
   mkSection 0 0x2000 false false false].

Definition demo_boot : BootInformation :=
  mkBootInfo (Some demo_sections) (Some [low_mem; high_mem]) 0x200000 0x201800.

Lemma demo_boot_low : low_boot demo_boot demo_sections.
Proof.
  split; [done|]. split; [|split; simpl; lia]. repeat constructor; simpl; lia.
Qed.

Definition demo_temp : TemporaryPage := temporary_page_new (mkPage 0xcafebabe).

(** A new table in frame 0x190, filled with the kernel. *)
Definition demo_fill : outcome machine :=
  let? (t, s) := inactive_new (mkFrame 0x190) demo_temp boot_state in
  apt_with t demo_temp (map_kernel demo_boot) s.

Lemma demo_fill_ok : ok_bool demo_fill = true.
Proof. vm_compute. reflexivity. Qed.

Lemma demo_free_frame : boot_own !! 0x190 = None /\ ~ fs_avail (falloc boot_state) 0x190.
Proof. split; [reflexivity|]. intros [Hge _]. simpl in Hge. lia. Qed.

Lemma demo_frame_small : 0 <= 0x190 < 2 ^ 40.
Proof. lia. Qed.

Lemma boot_active : active boot_state = 0x180.
Proof. reflexivity. Qed.

Lemma inactive_new_correct_witness :
  exists s', inactive_new (mkFrame 0x190) demo_temp boot_state = Ok (mkInactive (mkFrame 0x190), s') /\
    walk (pm s') 0x190 heap_page = None.
Proof.
  pose proof demo_fill_ok as Hok. pose proof demo_free_frame as [Hfree Hnav].
  pose proof demo_frame_small as Hsmall. pose proof boot_active as Hact.
  assert (Hhp : user_page heap_page) by (split; [exact heap_page_canonical|exact heap_page_p4]).
  apply ok_bool_run in Hok as [s2 E]. unfold demo_fill in E.
  apply obind_Ok in E as ([res s'] & E & _).
  destruct (inactive_new_correct boot_state 0x180 boot_own 0x190 demo_temp
    boot_state_inv Hact temp_page_user Hsmall Hfree Hnav) as [H _].
  rewrite E in H. destruct H as (Hres & _ & Hw & _).
  exists s'. split; [rewrite E, Hres; reflexivity|]. exact (proj1 (Hw heap_page Hhp)).
Defined.

Lemma with_correct_witness :
  exists s1 s2, apt_with (mkInactive (mkFrame 0x190)) demo_temp (map_kernel demo_boot) s1 = Ok s2 /\
    cr3 s2 = cr3 s1 /\ walk (pm s2) 0x180 heap_page = walk (pm s1) 0x180 heap_page.
Proof.
  pose proof demo_fill_ok as Hok. pose proof demo_free_frame as [Hfree Hnav].
  pose proof demo_frame_small as Hsmall. pose proof boot_active as Hact.
  assert (Hhp : user_page heap_page) by (split; [exact heap_page_canonical|exact heap_page_p4]).
  assert (Hne : 0x190 <> 0x180) by discriminate.
  apply ok_bool_run in Hok as [s2 E]. unfold demo_fill in E.
  apply obind_Ok in E as ([res s1] & E1 & E2).
  destruct (inactive_new_spec boot_state 0x180 boot_own 0x190 demo_temp res s1
    boot_state_inv Hact temp_page_user Hsmall Hfree Hnav Hne E1)
    as (Hres & Hcr & _ & O1 & Hi1 & _ & Hin1 & _).
  rewrite Hres in E2. exists s1, s2. split; [exact E2|].
  pose proof (active_cr3 _ _ Hcr) as Ha1. rewrite Hact in Ha1.
  destruct (with_correct s1 0x180 O1 0x190 _ demo_temp _ (map_kernel demo_boot) Hi1 Ha1 Hin1
    temp_page_user (map_kernel_well_behaved demo_boot demo_sections 0x190 demo_boot_low)) as [H _].
  rewrite E2 in H. destruct H as (Hc2 & Hw & _).
  split; [exact Hc2|exact (Hw heap_page Hhp)].
Defined.

Lemma demo_vga : (0xb8, WRITABLE) ∈ kernel_frames demo_boot demo_sections.
Proof. unfold kernel_frames. apply elem_of_app. right. by left. Qed.

Lemma demo_ready : init_ready demo_boot demo_sections boot_state 0x180 boot_own.
Proof.
  split.
  - repeat constructor; intros ?; done.
  - apply (bool_decide_unpack _). vm_compute. done.
  - apply (bool_decide_unpack _). vm_compute. done.
  - vm_compute. reflexivity.
  - exact boot_state_tidy.
  - apply boot_state_frames, Nat.leb_le. vm_compute. reflexivity.
Qed.

Lemma paging_init_correct_witness :
  exists s', paging_init demo_boot boot_state = Ok s' /\
    walk (pm s') (active s') (mkPage 0xb8) = Some (0xb8, full_access) /\
    walk (pm s') (active s') (mkPage 0x180) = None.
Proof.
  assert (Hlt : 0x180 < 2 ^ 35) by lia. assert (Hne : 0xb8 <> 0x180) by discriminate.
  destruct (paging_init_correct demo_boot demo_sections boot_state 0x180 boot_own boot_state_inv
    boot_active Hlt demo_boot_low) as [H Hret].
  destruct (Hret demo_ready) as [s' E]. exists s'. split; [exact E|]. rewrite E in H.
  destruct H as (n & O' & _ & Ha & _ & Hg & Hf & _).
  rewrite Ha. split; [exact (Hf 0xb8 WRITABLE demo_vga Hne)|exact Hg].
Defined.

Lemma demo_image : Forall (in_image demo_sections) [0x180; 0x181; 0x182].
Proof.
  repeat constructor; exists (mkSection 0x180000 0x183800 true true false);
    (split; [by right; left|split; [done|simpl; unfold PAGE_SIZE; lia]]).
Qed.

Lemma demo_areas : Forall area_wf [low_mem; high_mem].
Proof. repeat constructor; simpl; lia. Qed.
