(* ===== verification/Task.v ===== *)
(** * Processes and the task table

    [task/context.rs], [task/process.rs] and [task/proc_list.rs]: saved register
    contexts and the context switch, processes, and the table that gives out
    process ids. *)

From S2P Require Import Prelude.

(** [core::result::Result] *)
Inductive result (A E : Type) := ROk (a : A) | RErr (e : E).
Arguments ROk {A E} a.
Arguments RErr {A E} e.

(** ** Register contexts *)

(** The registers a [Context] saves; the processor's own registers of the same
    names are a value of this type too. *)
Record Context := mkContext {
  c_cr3 : Z; c_rbp : Z; c_rflags : Z; c_rsp : Z; c_rbx : Z;
  c_r12 : Z; c_r13 : Z; c_r14 : Z; c_r15 : Z }.

Definition context_new : Context := mkContext 0 0 0 0 0 0 0 0 0.

Definition set_page_table (address : Z) (c : Context) : Context :=
  mkContext address (c_rbp c) (c_rflags c) (c_rsp c) (c_rbx c) (c_r12 c) (c_r13 c) (c_r14 c) (c_r15 c).

Definition set_stack (address : Z) (c : Context) : Context :=
  mkContext (c_cr3 c) (c_rbp c) (c_rflags c) address (c_rbx c) (c_r12 c) (c_r13 c) (c_r14 c) (c_r15 c).

(** The registers one by one, as the assembly of [switch_to] moves them. *)
Definition with_rflags (c : Context) (v : Z) : Context :=
  mkContext (c_cr3 c) (c_rbp c) v (c_rsp c) (c_rbx c) (c_r12 c) (c_r13 c) (c_r14 c) (c_r15 c).
Definition with_rbx (c : Context) (v : Z) : Context :=
  mkContext (c_cr3 c) (c_rbp c) (c_rflags c) (c_rsp c) v (c_r12 c) (c_r13 c) (c_r14 c) (c_r15 c).
Definition with_r12 (c : Context) (v : Z) : Context :=
  mkContext (c_cr3 c) (c_rbp c) (c_rflags c) (c_rsp c) (c_rbx c) v (c_r13 c) (c_r14 c) (c_r15 c).
Definition with_r13 (c : Context) (v : Z) : Context :=
  mkContext (c_cr3 c) (c_rbp c) (c_rflags c) (c_rsp c) (c_rbx c) (c_r12 c) v (c_r14 c) (c_r15 c).
Definition with_r14 (c : Context) (v : Z) : Context :=
  mkContext (c_cr3 c) (c_rbp c) (c_rflags c) (c_rsp c) (c_rbx c) (c_r12 c) (c_r13 c) v (c_r15 c).
Definition with_r15 (c : Context) (v : Z) : Context :=
  mkContext (c_cr3 c) (c_rbp c) (c_rflags c) (c_rsp c) (c_rbx c) (c_r12 c) (c_r13 c) (c_r14 c) v.
Definition with_rbp (c : Context) (v : Z) : Context :=
  mkContext (c_cr3 c) v (c_rflags c) (c_rsp c) (c_rbx c) (c_r12 c) (c_r13 c) (c_r14 c) (c_r15 c).

(** [Context::switch_to]: the processor's registers and [self] after the
    switch; [next] is only read.  [self] and [next] belong to two different
    processes. *)
Definition switch_to (cpu self next : Context) : Context * Context :=
  let self := with_rflags self (c_rflags cpu) in
  let cpu := with_rflags cpu (c_rflags next) in
  let self := set_page_table (c_cr3 cpu) self in
  let self := with_rbx self (c_rbx cpu) in
  let self := with_r12 self (c_r12 cpu) in
  let self := with_r13 self (c_r13 cpu) in
  let self := with_r14 self (c_r14 cpu) in
  let self := with_r15 self (c_r15 cpu) in
  let self := set_stack (c_rsp cpu) self in
  let self := with_rbp self (c_rbp cpu) in
  let cpu := if negb (c_cr3 next =? c_cr3 self) then set_page_table (c_cr3 next) cpu else cpu in
  let cpu := with_rbx cpu (c_rbx next) in
  let cpu := with_r12 cpu (c_r12 next) in
  let cpu := with_r13 cpu (c_r13 next) in
  let cpu := with_r14 cpu (c_r14 next) in
  let cpu := with_r15 cpu (c_r15 next) in
  let cpu := set_stack (c_rsp next) cpu in
  let cpu := with_rbp cpu (c_rbp next) in
  (cpu, self).

(** The switch saves every register and loads every register; the test that
    avoids reloading an equal CR3 makes no difference to the result. *)
Lemma switch_to_eq cpu self next : switch_to cpu self next = (next, cpu).
Proof.
  destruct cpu, self, next. unfold switch_to. simpl.
  match goal with |- context [Z.eqb ?a ?b] => destruct (Z.eqb_spec a b) as [->|] end; reflexivity.
Qed.

#[global] Arguments switch_to : simpl never.

(** ** Processes *)

Inductive State := Free | Current | Suspended | Ready.

#[global] Instance State_eq_dec : EqDecision State.
Proof. solve_decision. Defined.

Definition NULL_PROC : Z := 0.

Record Process := mkProcess {
  pid : Z;
  name : string;
  state : State;
  priority : Z;
  ctx : Context;
  stack : option (list Z) }.

Definition process_new (id : Z) : Process :=
  mkProcess id "new_proc" Suspended 0 context_new None.

Definition set_state (new : State) (p : Process) : Process :=
  mkProcess (pid p) (name p) new (priority p) (ctx p) (stack p).

Definition set_ctx (c : Context) (p : Process) : Process :=
  mkProcess (pid p) (name p) (state p) (priority p) c (stack p).

Definition set_pstack (st : option (list Z)) (p : Process) : Process :=
  mkProcess (pid p) (name p) (state p) (priority p) (ctx p) st.

Definition set_name (n : string) (p : Process) : Process :=
  mkProcess (pid p) n (state p) (priority p) (ctx p) (stack p).

(** [Process::set_page_table] and [Process::set_stack] *)
Definition process_set_page_table (addr : Z) (p : Process) : Process :=
  set_ctx (set_page_table addr (ctx p)) p.
Definition process_set_stack (addr : Z) (p : Process) : Process :=
  set_ctx (set_stack addr (ctx p)) p.

(** ** The task table *)

(** [usize::max_value() - 1] *)
Definition MAX_PROCS : Z := 2 ^ 64 - 2.

Record ProcessList := mkProcs { procs : gmap Z Process; next : Z }.

Definition proclist_new : ProcessList :=
  let null_proc := process_new NULL_PROC in
  let null_proc := set_state Current null_proc in
  let null_proc := set_pstack (Some []) null_proc in
  mkProcs (<[NULL_PROC := null_proc]> ∅) 1.

Definition proclist_get (id : Z) (l : ProcessList) : option Process := procs l !! id.

(** [while self.procs.contains_key(&ProcessId(self.next)) { self.next += 1 }] *)
Fixpoint skip_used (fuel : nat) (l : gmap Z Process) (next : Z) : outcome Z :=
  match fuel with
  | O => Err EFuel
  | S fuel =>
      match l !! next with
      | Some _ => let? next := usize_add next 1 in skip_used fuel l next
      | None => Ok next
      end
  end.

(** The new process is referred to by its id.  The loop runs on enough fuel
    to look at every process once. *)
Definition proclist_add (l : ProcessList) : outcome (result Z Z * ProcessList) :=
  let n := if MAX_PROCS <=? next l then 1 else next l in
  let? n := skip_used (S (size (procs l))) (procs l) n in
  if MAX_PROCS <=? n then Ok (RErr (-1), mkProcs (procs l) n) else
  let id := n in
  let? n := usize_add n 1 in
  let? _ := assertb (bool_decide (procs l !! id = None)) "Process already exists" in
  let l := mkProcs (<[id := process_new id]> (procs l)) n in
  let? p := expect (procs l !! id) "Failed to add new process." in
  Ok (ROk id, l).

Definition proclist_remove (id : Z) (l : ProcessList) : option Process * ProcessList :=
  (procs l !! id, mkProcs (delete id (procs l)) (next l)).

(** ** Well-formed tables *)

Record table_wf (l : ProcessList) : Prop := {
  tw_next : 1 <= next l <= MAX_PROCS;
  tw_pid : forall k p, procs l !! k = Some p -> pid p = k /\ 0 <= k < MAX_PROCS }.

Lemma proclist_new_wf : table_wf proclist_new.
Proof.
  split; [simpl; unfold MAX_PROCS; lia|]. simpl. intros k p Hp.
  rewrite lookup_insert in Hp. case_decide; [|by rewrite lookup_empty in Hp]. simplify_eq. simpl.
  split; [done|]. unfold MAX_PROCS, NULL_PROC. lia.
Qed.

(** The ids a run of [skip_used] passes are in the table. *)
Lemma skip_used_spec fuel (l : gmap Z Process) n :
  0 <= n <= MAX_PROCS -> (forall k p, l !! k = Some p -> k < MAX_PROCS) ->
  (size (filter (fun k => (n <= k)%Z) (dom l)) < fuel)%nat ->
  exists m, skip_used fuel l n = Ok m /\ n <= m <= MAX_PROCS /\ l !! m = None /\
    forall k, n <= k < m -> is_Some (l !! k).
Proof.
  intros Hn Hmax. revert n Hn. induction fuel as [|fuel IH]; intros n Hn Hf; [lia|].
  cbn [skip_used]. destruct (l !! n) as [p|] eqn:E.
  2:{ exists n. split_and!; [done|lia|lia|done|]. intros k Hk. lia. }
  pose proof (Hmax n p E) as Hlt. unfold MAX_PROCS in *.
  rewrite add_w_fits by (unfold in_width; lia). cbn [obind].
  destruct (IH (n + 1)) as (m & Hm & Hr & Hnone & Hall); [lia| |].
  - enough (filter (fun k => n + 1 <= k) (dom l) ⊂ filter (fun k => n <= k) (dom l)) as Hs
      by (apply subset_size in Hs; lia).
    split; [intros k; rewrite !elem_of_filter; intros [? ?]; split; [lia|done]|].
    intros Hs. specialize (Hs n). rewrite !elem_of_filter in Hs. destruct Hs as [? _]; [|lia].
    split; [lia|]. by apply elem_of_dom_2 in E.
  - exists m. split_and!; [done|lia|lia|done|]. intros k Hk.
    destruct (decide (k = n)) as [->|]; [by exists p|]. apply Hall. lia.
Qed.

(** Where [add] starts its search. *)
Definition search_start (l : ProcessList) : Z := if MAX_PROCS <=? next l then 1 else next l.

Lemma proclist_add_spec l :
  table_wf l ->
  exists id, search_start l <= id <= MAX_PROCS /\ procs l !! id = None /\
    (forall k, search_start l <= k < id -> is_Some (procs l !! k)) /\
    proclist_add l =
    if MAX_PROCS <=? id then Ok (RErr (-1), mkProcs (procs l) id)
    else Ok (ROk id, mkProcs (<[id := process_new id]> (procs l)) (id + 1)).
Proof.
  intros [Hn Hp]. unfold proclist_add. fold (search_start l).
  assert (Hs : 1 <= search_start l <= MAX_PROCS).
  { unfold search_start. destruct (_ <=? _); [unfold MAX_PROCS; lia|done]. }
  destruct (skip_used_spec (S (size (procs l))) (procs l) (search_start l)) as (id & -> & Hid & Hnone & Hall).
  - lia.
  - intros k p Hk. apply (Hp k p Hk).
  - rewrite <-(size_dom (D:=gset Z)). apply Nat.lt_succ_r, subseteq_size. set_solver.
  - exists id. split; [done|]. split; [done|]. split; [done|]. cbn [obind].
    destruct (Z.leb_spec MAX_PROCS id); [done|]. unfold MAX_PROCS in *.
    rewrite add_w_fits by (unfold in_width; lia). cbn [obind].
    rewrite bool_decide_eq_true_2 by done. cbn [assertb obind]. simpl.
    by rewrite lookup_insert_eq.
Qed.

Lemma proclist_add_wf l r l' : table_wf l -> proclist_add l = Ok (r, l') -> table_wf l'.
Proof.
  intros Hw Hrun. destruct (proclist_add_spec l Hw) as (id & Hid & Hnone & _ & Heq).
  rewrite Heq in Hrun. destruct Hw as [Hn Hp].
  assert (1 <= search_start l) by (unfold search_start; destruct (MAX_PROCS <=? next l); [done|apply Hn]).
  destruct (Z.leb_spec MAX_PROCS id) as [Hge|Hlt]; injection Hrun as <- <-;
    (split; simpl; [lia|]).
  - apply Hp.
  - intros k p. rewrite lookup_insert. case_decide as E; [|by apply Hp]. subst k. intros [= <-].
    simpl. split; [done|lia].
Qed.
