(* ===== verification/Sched.v ===== *)
(** * The cooperative scheduler

    [task/coop_sched.rs], [task/mod.rs] and [process_return] of
    [task/process.rs].  The state [kernel] is the scheduler together with the
    processor's registers: a context switch changes both.  The locks do not
    appear here; [LockUse] has them, and shows that none is held across the
    switch. *)

From S2P Require Import Prelude Task.

Definition INITIAL_STACK : Z := 1024.

Record CoopScheduler := mkSched {
  current_pid : Z;
  task_table : ProcessList;
  ready_list : list Z }.

Definition sched_new : CoopScheduler := mkSched NULL_PROC proclist_new [].

Record kernel := mkKernel { sch : CoopScheduler; cpu : Context }.

Definition set_table (s : CoopScheduler) (l : gmap Z Process) : CoopScheduler :=
  mkSched (current_pid s) (mkProcs l (next (task_table s))) (ready_list s).

Definition get_id (s : CoopScheduler) : Z := current_pid s.

(** [stack[i] = val] on a [Vec]: out of bounds panics. *)
Definition vec_set (v : list Z) (i val : Z) : outcome (list Z) :=
  let? _ := assertb ((0 <=? i) && (i <? Z.of_nat (length v))) "index out of bounds" in
  Ok (<[Z.to_nat i := val]> v).

(** [create]: [func] is the entry point, [stack_ptr] the address the heap gives
    the stack vector, [process_return] the address of that function and
    [self_ptr] the boxed pointer to the scheduler. *)
Definition create (func : Z) (nm : string) (stack_ptr process_return self_ptr : Z) (k : kernel)
  : outcome (result Z Z * kernel) :=
  let s := sch k in
  let st := replicate (Z.to_nat INITIAL_STACK) 0 in
  let? proc_top := usize_sub (Z.of_nat (length st)) 3 in
  let? off := usize_mul proc_top 8 in
  let? proc_sp := usize_add stack_ptr off in
  let stack_vals := [func; process_return; self_ptr] in
  let? st :=
    ofold (fun (iv : nat * Z) st =>
             let? i := usize_add proc_top (Z.of_nat (fst iv)) in
             vec_set st i (snd iv))
      (imap (fun i v => (i, v)) stack_vals) st in
  let? (r, table) := proclist_add (task_table s) in
  match r with
  | RErr e => Ok (RErr e, mkKernel (mkSched (current_pid s) table (ready_list s)) (cpu k))
  | ROk id =>
      let? p := expect (procs table !! id) "Failed to add new process." in
      let p := set_pstack (Some st) p in
      let p := set_name nm p in
      let p := process_set_page_table (c_cr3 (cpu k)) p in
      let p := process_set_stack proc_sp p in
      let table := mkProcs (<[id := p]> (procs table)) (next table) in
      Ok (ROk (pid p), mkKernel (mkSched (current_pid s) table (ready_list s)) (cpu k))
  end.

Definition ready (id : Z) (k : kernel) : kernel :=
  let s := sch k in
  mkKernel (mkSched (current_pid s) (task_table s) (ready_list s ++ [id])) (cpu k).

(** The part of [resched] under the locks: the processes to switch between. *)
Definition pick_next (s : CoopScheduler) : outcome (option (Z * Z) * CoopScheduler) :=
  let curr_id := get_id s in
  let? prev := expect (proclist_get curr_id (task_table s)) "Could not find old process" in
  let s :=
    if decide (state prev = Current) then
      let s := set_table s (<[curr_id := set_state Ready prev]> (procs (task_table s))) in
      mkSched (current_pid s) (task_table s) (ready_list s ++ [curr_id])
    else s in
  match ready_list s with
  | [] => Ok (None, s)
  | next_id :: rest =>
      let s := mkSched (current_pid s) (task_table s) rest in
      if negb (next_id =? get_id s) then
        let? nxt := expect (proclist_get next_id (task_table s)) "Could not find new process" in
        let s := set_table s (<[next_id := set_state Current nxt]> (procs (task_table s))) in
        let s := mkSched (pid nxt) (task_table s) (ready_list s) in
        Ok (Some (curr_id, next_id), s)
      else Ok (None, s)
  end.

Definition resched (k : kernel) : outcome kernel :=
  match ready_list (sch k) with
  | [] => Ok k
  | _ =>
      let? (ptrs, s) := pick_next (sch k) in
      match ptrs with
      | None => Ok (mkKernel s (cpu k))
      | Some (prev_id, next_id) =>
          (* the pointers are those of the table's entries *)
          let? prev := unwrap (procs (task_table s) !! prev_id) in
          let? nxt := unwrap (procs (task_table s) !! next_id) in
          let (cpu', ctx') := switch_to (cpu k) (ctx prev) (ctx nxt) in
          Ok (mkKernel (set_table s (<[prev_id := set_ctx ctx' prev]> (procs (task_table s)))) cpu')
      end
  end.

(** [drop(&mut proc_lock.name)] drops a reference: the name stays. *)
Definition kill (id : Z) (k : kernel) : outcome kernel :=
  let s := sch k in
  let? p := expect (proclist_get id (task_table s)) "Cannot kill a non-existent process" in
  let p := set_state Free p in
  let p := set_pstack None p in
  resched (mkKernel (set_table s (<[id := p]> (procs (task_table s)))) (cpu k)).

(** [process_return]: a process that returns from its entry point is killed. *)
Definition process_return_ (k : kernel) : outcome kernel := kill (get_id (sch k)) k.

(** ** The invariant of the scheduler *)

Record sched_inv (s : CoopScheduler) : Prop := {
  si_table : table_wf (task_table s);
  si_current : is_Some (procs (task_table s) !! current_pid s);
  si_one : forall id p, procs (task_table s) !! id = Some p -> state p = Current -> id = current_pid s }.

Lemma sched_new_inv : sched_inv sched_new.
Proof.
  split; simpl.
  - apply proclist_new_wf.
  - rewrite lookup_insert_eq. eauto.
  - intros id p. rewrite lookup_insert. case_decide; [done|]. by rewrite lookup_empty.
Qed.

(** A change of a process that keeps its id. *)
Lemma set_table_wf l id p q n :
  table_wf (mkProcs l n) -> l !! id = Some p -> pid q = pid p -> table_wf (mkProcs (<[id := q]> l) n).
Proof.
  intros [Hn Hp] Hid Hpid. split; simpl in *; [done|]. intros k x. rewrite lookup_insert.
  case_decide as E; [|by apply Hp]. subst k. intros [= <-]. rewrite Hpid. by apply Hp.
Qed.

(** ** One register file per process

    Seen from above, every process has the whole processor: its registers are
    the processor's while it is current and its saved context otherwise. *)
Definition registers (k : kernel) : gmap Z Context :=
  <[current_pid (sch k) := cpu k]> (ctx <$> procs (task_table (sch k))).

Lemma registers_lookup k id :
  registers k !! id =
  if decide (id = current_pid (sch k)) then Some (cpu k) else ctx <$> procs (task_table (sch k)) !! id.
Proof.
  unfold registers. rewrite lookup_insert, lookup_fmap. case_decide; case_decide; congruence.
Qed.

Lemma resched_empty k : ready_list (sch k) = [] -> resched k = Ok k.
Proof. intros Hl. unfold resched. by rewrite Hl. Qed.

(** What [resched] does, in the four ways it can go. *)
Inductive resched_result (k : kernel) : kernel -> Prop :=
  | RsNothing : ready_list (sch k) = [] -> resched_result k k
  | RsSwitch prev nxt id rest :
      procs (task_table (sch k)) !! current_pid (sch k) = Some prev ->
      ready_list (sch k) ++ (if decide (state prev = Current) then [current_pid (sch k)] else []) = id :: rest ->
      ready_list (sch k) <> [] -> id <> current_pid (sch k) ->
      procs (task_table (sch k)) !! id = Some nxt ->
      resched_result k
        (mkKernel
          (mkSched (pid nxt)
            (mkProcs
              (<[current_pid (sch k) :=
                   set_ctx (cpu k) (if decide (state prev = Current) then set_state Ready prev else prev)]>
                (<[id := set_state Current nxt]> (procs (task_table (sch k)))))
              (next (task_table (sch k)))) rest)
          (ctx nxt))
  | RsSelf prev rest :
      procs (task_table (sch k)) !! current_pid (sch k) = Some prev ->
      ready_list (sch k) ++ (if decide (state prev = Current) then [current_pid (sch k)] else [])
        = current_pid (sch k) :: rest ->
      ready_list (sch k) <> [] ->
      resched_result k
        (mkKernel
          (mkSched (current_pid (sch k))
            (mkProcs
              (<[current_pid (sch k) :=
                   (if decide (state prev = Current) then set_state Ready prev else prev)]>
                (procs (task_table (sch k))))
              (next (task_table (sch k)))) rest)
          (cpu k)).

(** The table when the current process has been put back in the queue. *)
Definition requeue (s : CoopScheduler) (prev : Process) : CoopScheduler :=
  if decide (state prev = Current) then
    mkSched (current_pid s)
      (mkProcs (<[current_pid s := set_state Ready prev]> (procs (task_table s))) (next (task_table s)))
      (ready_list s ++ [current_pid s])
  else s.

Lemma requeue_fields s prev :
  procs (task_table s) !! current_pid s = Some prev ->
  ready_list (requeue s prev) =
    ready_list s ++ (if decide (state prev = Current) then [current_pid s] else []) /\
  procs (task_table (requeue s prev)) =
    <[current_pid s := if decide (state prev = Current) then set_state Ready prev else prev]>
      (procs (task_table s)) /\
  current_pid (requeue s prev) = current_pid s /\
  next (task_table (requeue s prev)) = next (task_table s).
Proof.
  intros Hp. unfold requeue. destruct (decide _); simpl; [done|].
  by rewrite app_nil_r, insert_id.
Qed.

Lemma pick_next_eq s :
  pick_next s =
  let? prev := expect (procs (task_table s) !! current_pid s) "Could not find old process" in
  let s := requeue s prev in
  match ready_list s with
  | [] => Ok (None, s)
  | id :: rest =>
      if decide (id = current_pid s) then Ok (None, mkSched (current_pid s) (task_table s) rest) else
      let? nxt := expect (procs (task_table s) !! id) "Could not find new process" in
      Ok (Some (current_pid s, id),
          mkSched (pid nxt)
            (mkProcs (<[id := set_state Current nxt]> (procs (task_table s))) (next (task_table s))) rest)
  end.
Proof.
  unfold pick_next, proclist_get, get_id. destruct (procs (task_table s) !! current_pid s) as [prev|]; [|done].
  cbn [expect obind]. fold (requeue s prev).
  assert (Hc : current_pid (requeue s prev) = current_pid s) by (unfold requeue; by destruct (decide _)).
  change (if decide (state prev = Current) then _ else s) with (requeue s prev).
  destruct (ready_list (requeue s prev)) as [|id rest]; [done|]. simpl. rewrite Hc.
  destruct (Z.eqb_spec id (current_pid s)), (decide (id = current_pid s)); done.
Qed.

Lemma resched_spec k k' : resched k = Ok k' -> resched_result k k'.
Proof.
  intros Hrun. unfold resched in Hrun. destruct (ready_list (sch k)) as [|x0 l0] eqn:Hrl.
  { injection Hrun as <-. by constructor. }
  assert (Hne : ready_list (sch k) <> []) by (by rewrite Hrl). clear Hrl x0 l0.
  rewrite pick_next_eq in Hrun.
  destruct (procs (task_table (sch k)) !! current_pid (sch k)) as [prev|] eqn:Hprev; [|done].
  cbn [expect obind] in Hrun. destruct (requeue_fields _ _ Hprev) as (Hl & Hp & Hc & Hn).
  rewrite Hl, Hc, Hn, Hp in Hrun.
  destruct (ready_list (sch k) ++ _) as [|id rest] eqn:Happ in Hrun.
  { apply app_eq_nil in Happ as [? _]. done. }
  destruct (decide (id = current_pid (sch k))) as [->|Hid].
  - cbn [obind] in Hrun. injection Hrun as <-.
    replace (task_table (requeue (sch k) prev)) with
      (mkProcs (procs (task_table (requeue (sch k) prev))) (next (task_table (requeue (sch k) prev))))
      by (by destruct (task_table (requeue _ _))).
    rewrite Hp, Hn. by apply RsSelf.
  - rewrite lookup_insert_ne in Hrun by congruence.
    destruct (procs (task_table (sch k)) !! id) as [nxt|] eqn:Hnxt; [|done].
    cbn [expect obind task_table procs next] in Hrun.
    rewrite (insert_insert_ne _ _ _ _ _ Hid) in Hrun.
    rewrite lookup_insert_eq in Hrun. rewrite lookup_insert_ne, lookup_insert_eq in Hrun by congruence.
    cbn [expect unwrap obind] in Hrun. rewrite switch_to_eq in Hrun. injection Hrun as <-.
    unfold set_table. cbn [current_pid task_table procs next ready_list].
    rewrite insert_insert_eq. by eapply RsSwitch.
Qed.

Lemma requeue_state prev p :
  p = (if decide (state prev = Current) then set_state Ready prev else prev) ->
  state p <> Current /\ pid p = pid prev /\ stack p = stack prev /\ ctx p = ctx prev.
Proof. intros ->. destruct (decide _); by destruct prev. Qed.

Lemma resched_inv k k' : sched_inv (sch k) -> resched k = Ok k' -> sched_inv (sch k').
Proof.
  intros [Ht Hc Ho] Hrun. apply resched_spec in Hrun.
  destruct Hrun as [|prev nxt id rest Hprev Hl Hne Hid Hnxt|prev rest Hprev Hl Hne]; [done|..].
  - destruct (tw_pid _ Ht id nxt Hnxt) as [Hpid _]. destruct (task_table (sch k)) as [l n]. simpl in *.
    destruct (requeue_state prev _ eq_refl) as (Hst & Hpp & _ & _). revert Hst Hpp.
    generalize (if decide (state prev = Current) then set_state Ready prev else prev) as q.
    intros q Hst Hpp. clear Hl. split; simpl.
    + eapply set_table_wf; [eapply (set_table_wf l id nxt); done| |simpl; done].
      rewrite lookup_insert_ne by congruence. done.
    + rewrite Hpid, lookup_insert_ne, lookup_insert_eq by congruence. eauto.
    + intros j p. rewrite lookup_insert. case_decide as E.
      { subst j. intros [= <-]. simpl. done. }
      rewrite lookup_insert. case_decide as E2; [subst j; by rewrite Hpid|].
      intros Hj Hs. by destruct E; symmetry; eapply Ho.
  - destruct (requeue_state prev _ eq_refl) as (Hst & Hpp & _ & _). revert Hst Hpp.
    generalize (if decide (state prev = Current) then set_state Ready prev else prev) as q.
    intros q Hst Hpp. clear Hl. destruct (task_table (sch k)) as [l n]. simpl in *. split; simpl.
    + by eapply set_table_wf.
    + rewrite lookup_insert_eq. eauto.
    + intros j p. rewrite lookup_insert. case_decide as E; [by subst|]. apply Ho.
Qed.

(** A context switch changes nobody's registers. *)
Lemma resched_registers k k' :
  sched_inv (sch k) -> resched k = Ok k' -> registers k' = registers k.
Proof.
  intros [Ht Hc Ho] Hrun. apply resched_spec in Hrun.
  destruct Hrun as [|prev nxt id rest Hprev Hl Hne Hid Hnxt|prev rest Hprev Hl Hne]; [done|..];
    apply map_eq; intros j; rewrite !registers_lookup; simpl.
  - destruct (tw_pid _ Ht id nxt Hnxt) as [Hpid _]. rewrite Hpid, !lookup_insert.
    generalize (if decide (state prev = Current) then set_state Ready prev else prev) as q. intros q. clear Hl.
    repeat case_decide; simplify_eq; try done. by rewrite Hnxt.
  - clear Hl. rewrite lookup_insert. repeat case_decide; by simplify_eq.
Qed.

Lemma kill_table k id p :
  sched_inv (sch k) -> procs (task_table (sch k)) !! id = Some p ->
  let k1 := mkKernel (set_table (sch k)
    (<[id := set_pstack None (set_state Free p)]> (procs (task_table (sch k))))) (cpu k) in
  sched_inv (sch k1) /\ registers k1 = registers k.
Proof.
  intros [Ht Hc Ho] Hp k1. split.
  - destruct (task_table (sch k)) as [l n] eqn:E. simpl in *. split; simpl; rewrite ?E; simpl.
    + by eapply set_table_wf.
    + rewrite lookup_insert. case_decide; eauto.
    + intros j q. rewrite lookup_insert. case_decide; [by intros [= <-]|apply Ho].
  - apply map_eq. intros j. rewrite !registers_lookup. simpl. rewrite lookup_insert.
    repeat case_decide; simplify_eq; [done..| |done]. by rewrite Hp.
Qed.

Lemma kill_run id k k' :
  sched_inv (sch k) -> kill id k = Ok k' ->
  exists p k1, procs (task_table (sch k)) !! id = Some p /\
    k1 = mkKernel (set_table (sch k)
      (<[id := set_pstack None (set_state Free p)]> (procs (task_table (sch k))))) (cpu k) /\
    sched_inv (sch k1) /\ registers k1 = registers k /\ resched k1 = Ok k'.
Proof.
  intros Hi Hrun. unfold kill, proclist_get in Hrun. apply obind_Ok in Hrun as (p & Hp & Hrun).
  apply expect_Ok in Hp. destruct (kill_table k id p Hi Hp) as [Hi1 Hr1].
  eexists p, _. split; [done|]. split; [reflexivity|]. done.
Qed.

(** The stack [create] prepares. *)
Lemma create_stack func ret self :
  ofold (fun (iv : nat * Z) st =>
           let? i := usize_add 1021 (Z.of_nat (fst iv)) in vec_set st i (snd iv))
    (imap (fun i v => (i, v)) [func; ret; self]) (replicate 1024 0)
  = Ok (replicate 1021 0 ++ [func; ret; self]).
Proof.
  vm_compute. reflexivity.
Qed.

(** The process [create] enters in the table. *)
Definition new_process (id : Z) (nm : string) (cr3 sp : Z) (st : list Z) : Process :=
  mkProcess id nm Suspended 0 (mkContext cr3 0 0 sp 0 0 0 0 0) (Some st).

Lemma create_eq func nm stack_ptr ret self k :
  0 <= stack_ptr -> stack_ptr + 8192 < 2 ^ 64 ->
  create func nm stack_ptr ret self k =
  let? (r, table) := proclist_add (task_table (sch k)) in
  match r with
  | RErr e => Ok (RErr e, mkKernel (mkSched (current_pid (sch k)) table (ready_list (sch k))) (cpu k))
  | ROk id =>
      let? p := expect (procs table !! id) "Failed to add new process." in
      let p := process_set_stack (stack_ptr + 8168) (process_set_page_table (c_cr3 (cpu k))
        (set_name nm (set_pstack (Some (replicate 1021 0 ++ [func; ret; self])) p))) in
      Ok (ROk (pid p), mkKernel (mkSched (current_pid (sch k))
        (mkProcs (<[id := p]> (procs table)) (next table)) (ready_list (sch k))) (cpu k))
  end.
Proof.
  intros H0 H1. unfold create. change (Z.to_nat INITIAL_STACK) with 1024%nat.
  change (usize_sub (Z.of_nat (length (replicate 1024 (0:Z)))) 3) with (@Ok Z 1021). cbn [obind].
  change (usize_mul 1021 8) with (@Ok Z 8168). cbn [obind].
  rewrite add_w_fits by (unfold in_width; lia). cbn [obind].
  rewrite create_stack. reflexivity.
Qed.

(** A successful [create]. *)
Lemma create_spec func nm stack_ptr ret self k r k' :
  sched_inv (sch k) -> 0 <= stack_ptr -> stack_ptr + 8192 < 2 ^ 64 ->
  create func nm stack_ptr ret self k = Ok (r, k') ->
  cpu k' = cpu k /\ current_pid (sch k') = current_pid (sch k) /\
  ready_list (sch k') = ready_list (sch k) /\ sched_inv (sch k') /\
  match r with
  | RErr e => e = -1 /\ procs (task_table (sch k')) = procs (task_table (sch k))
  | ROk id =>
      procs (task_table (sch k)) !! id = None /\
      procs (task_table (sch k')) =
        <[id := new_process id nm (c_cr3 (cpu k)) (stack_ptr + 8168)
                  (replicate 1021 0 ++ [func; ret; self])]> (procs (task_table (sch k)))
  end.
Proof.
  intros [Ht Hc Ho] H0 H1 Hrun. rewrite create_eq in Hrun by done.
  apply obind_Ok in Hrun as ([r0 table] & Hadd & Hrun).
  pose proof (proclist_add_wf _ _ _ Ht Hadd) as Htw.
  destruct (proclist_add_spec _ Ht) as (id & Hid & Hnone & _ & Heq). rewrite Hadd in Heq.
  destruct (MAX_PROCS <=? id); injection Heq as -> ->; cbn [obind expect procs next] in Hrun.
  - injection Hrun as <- <-. simpl. split_and!; [done..| |done|done]. by split.
  - rewrite lookup_insert_eq in Hrun. cbn [obind expect] in Hrun. injection Hrun as <- <-.
    cbn [cpu sch current_pid ready_list task_table procs].
    assert (Hcur : id <> current_pid (sch k)).
    { intros ->. rewrite Hnone in Hc. by destruct Hc. }
    split_and!; [done..| |done|].
    + split; simpl; [|rewrite !lookup_insert_ne by done; done|].
      * eapply set_table_wf; [done|by rewrite lookup_insert_eq|done].
      * intros j p. rewrite insert_insert_eq, lookup_insert. case_decide; [by intros [= <-]|apply Ho].
    + by rewrite insert_insert_eq.
Qed.

(** ** Traces of scheduler calls *)

(** What happens in the kernel, as the scheduler sees it: its operations, and
    the current process changing the registers. *)
Inductive event :=
  | ECreate (func : Z) (nm : string) (stack_ptr ret self : Z)
  | EReady (id : Z)
  | EKill (id : Z)
  | EReturn
  | EResched
  | ERun (c : Context).

Definition exec (ev : event) (k : kernel) : outcome kernel :=
  match ev with
  | ECreate func nm stack_ptr ret self =>
      let? (_, k) := create func nm stack_ptr ret self k in Ok k
  | EReady id => Ok (ready id k)
  | EKill id => kill id k
  | EReturn => process_return_ k
  | EResched => resched k
  | ERun c => Ok (mkKernel (sch k) c)
  end.

(** The heap places a new stack inside the address space. *)
Definition event_ok (ev : event) : Prop :=
  match ev with
  | ECreate _ _ stack_ptr _ _ => 0 <= stack_ptr /\ stack_ptr + 8192 < 2 ^ 64
  | _ => True
  end.

Inductive reachable : kernel -> Prop :=
  | ReachNew c : reachable (mkKernel sched_new c)
  | ReachStep k ev k' : reachable k -> event_ok ev -> exec ev k = Ok k' -> reachable k'.

Lemma exec_inv ev k k' :
  sched_inv (sch k) -> event_ok ev -> exec ev k = Ok k' -> sched_inv (sch k').
Proof.
  intros Hi Hok Hrun. destruct ev; simpl in Hrun.
  - destruct Hok. apply obind_Ok in Hrun as ([r k1] & Hrun & Heq). injection Heq as <-.
    by eapply create_spec.
  - injection Hrun as <-. by destruct Hi.
  - apply kill_run in Hrun as (p & k1 & _ & _ & Hi1 & _ & Hrun); [|done]. by eapply resched_inv.
  - apply kill_run in Hrun as (p & k1 & _ & _ & Hi1 & _ & Hrun); [|done]. by eapply resched_inv.
  - by eapply resched_inv.
  - by injection Hrun as <-.
Qed.

(** The registers of a process change only while it runs. *)
Lemma exec_registers ev k k' id c :
  sched_inv (sch k) -> event_ok ev -> exec ev k = Ok k' ->
  (forall c', ev = ERun c' -> current_pid (sch k) <> id) ->
  registers k !! id = Some c -> registers k' !! id = Some c.
Proof.
  intros Hi Hok Hrun Hev Hc. destruct ev; simpl in Hrun.
  - destruct Hok. apply obind_Ok in Hrun as ([r k1] & Hrun & Heq). injection Heq as <-.
    destruct (create_spec _ _ _ _ _ _ _ _ Hi H H0 Hrun) as (Hcpu & Hcur & _ & _ & Hr).
    rewrite registers_lookup, Hcpu, Hcur in *.
    destruct (decide (id = current_pid (sch k))); [done|]. destruct r as [j|e].
    + destruct Hr as [Hnone ->]. rewrite lookup_insert_ne; [done|]. intros ->. by rewrite Hnone in Hc.
    + by destruct Hr as [_ ->].
  - injection Hrun as <-. done.
  - apply kill_run in Hrun as (p & k1 & _ & _ & Hi1 & Hr1 & Hrun); [|done].
    by rewrite (resched_registers _ _ Hi1 Hrun), Hr1.
  - apply kill_run in Hrun as (p & k1 & _ & _ & Hi1 & Hr1 & Hrun); [|done].
    by rewrite (resched_registers _ _ Hi1 Hrun), Hr1.
  - by rewrite (resched_registers _ _ Hi Hrun).
  - injection Hrun as <-. rewrite registers_lookup in *. simpl.
    rewrite decide_False; [|by intros ->; eapply Hev]. rewrite decide_False in Hc; [done|].
    by intros ->; eapply Hev.
Qed.

(** Along the trace, [id] executes no instruction of its own. *)
Fixpoint parked (id : Z) (evs : list event) (k : kernel) : Prop :=
  match evs with
  | [] => True
  | ev :: evs =>
      event_ok ev /\ (forall c, ev = ERun c -> current_pid (sch k) <> id) /\
      forall k', exec ev k = Ok k' -> parked id evs k'
  end.

(** ** Properties *)

(** C21: in every state the kernel can reach by scheduler calls, in whatever
    order, the current process is in the task table, at most one process is in
    state [Current], and it is the one [get_id] names. *)
Theorem one_current k :
  reachable k ->
  is_Some (procs (task_table (sch k)) !! get_id (sch k)) /\
  forall id p, procs (task_table (sch k)) !! id = Some p -> state p = Current ->
    id = get_id (sch k) /\ pid p = id.
Proof.
  intros Hr. assert (Hi : sched_inv (sch k)).
  { induction Hr; [apply sched_new_inv|by eapply exec_inv]. }
  split; [apply Hi|]. intros id p Hp Hs. split; [by eapply si_one|]. by apply (tw_pid _ (si_table _ Hi)).
Qed.

(** C5: the scheduler gives every process its own registers.  Over any sequence
    of scheduler calls and of instructions of other processes, the registers of
    a process stay what they were when it last ran; when it is current again
    the processor holds exactly these values. *)
Theorem context_preserved evs k k' id c :
  sched_inv (sch k) -> registers k !! id = Some c -> parked id evs k -> ofold exec evs k = Ok k' ->
  registers k' !! id = Some c /\ (current_pid (sch k') = id -> cpu k' = c).
Proof.
  intros Hi Hc Hp Hrun. enough (Hr : registers k' !! id = Some c).
  { split; [done|]. intros Hcur. rewrite registers_lookup, decide_True in Hr by done. by injection Hr. }
  revert k Hi Hc Hp Hrun. induction evs as [|ev evs IH]; intros k Hi Hc Hp Hrun; cbn [ofold] in Hrun.
  { by injection Hrun as <-. }
  apply obind_Ok in Hrun as (k1 & H1 & Hrun). destruct Hp as (Hok & Hev & Hp).
  apply (IH k1); [by eapply exec_inv|by eapply exec_registers|by apply Hp|done].
Qed.

(** ** Round robin *)

(** The queue a well-used scheduler keeps: the current process, then the ready
    ones, all different, alive and in the table. *)
Record rr (s : CoopScheduler) : Prop := {
  rr_nodup : NoDup (current_pid s :: ready_list s);
  rr_current : exists p, procs (task_table s) !! current_pid s = Some p /\ state p = Current;
  rr_ready : forall id, id ∈ ready_list s -> exists p, procs (task_table s) !! id = Some p /\ state p <> Free }.

Definition queue (s : CoopScheduler) : list Z := current_pid s :: ready_list s.

Definition rot1 (l : list Z) : list Z := match l with [] => [] | x :: l => l ++ [x] end.

Lemma resched_to k prev nxt id rest :
  procs (task_table (sch k)) !! current_pid (sch k) = Some prev ->
  ready_list (sch k) = id :: rest -> id <> current_pid (sch k) ->
  procs (task_table (sch k)) !! id = Some nxt ->
  resched k = Ok
    (mkKernel
      (mkSched (pid nxt)
        (mkProcs
          (<[current_pid (sch k) :=
               set_ctx (cpu k) (if decide (state prev = Current) then set_state Ready prev else prev)]>
            (<[id := set_state Current nxt]> (procs (task_table (sch k)))))
          (next (task_table (sch k))))
        (rest ++ (if decide (state prev = Current) then [current_pid (sch k)] else [])))
      (ctx nxt)).
Proof.
  intros Hp Hl Hid Hn. unfold resched. rewrite Hl, pick_next_eq, Hp. cbn [expect obind].
  destruct (requeue_fields _ _ Hp) as (-> & -> & -> & ->). rewrite Hl. cbn [app].
  rewrite decide_False by done. rewrite lookup_insert_ne, Hn by congruence. cbn [expect obind].
  cbn [task_table procs next].
  rewrite (insert_insert_ne _ _ _ _ _ Hid), lookup_insert_eq, lookup_insert_ne, lookup_insert_eq by congruence.
  cbn [unwrap expect obind]. rewrite switch_to_eq. unfold set_table.
  cbn [current_pid task_table procs next ready_list]. by rewrite insert_insert_eq.
Qed.

Lemma resched_switch k prev nxt id rest :
  procs (task_table (sch k)) !! current_pid (sch k) = Some prev -> state prev = Current ->
  ready_list (sch k) = id :: rest -> id <> current_pid (sch k) ->
  procs (task_table (sch k)) !! id = Some nxt ->
  resched k = Ok
    (mkKernel
      (mkSched (pid nxt)
        (mkProcs
          (<[current_pid (sch k) := set_ctx (cpu k) (set_state Ready prev)]>
            (<[id := set_state Current nxt]> (procs (task_table (sch k)))))
          (next (task_table (sch k)))) (rest ++ [current_pid (sch k)]))
      (ctx nxt)).
Proof.
  intros Hp Hs Hl Hid Hn. rewrite (resched_to k prev nxt id rest Hp Hl Hid Hn). by rewrite !decide_True by done.
Qed.

(** [kill] of the process at the head of the ready list: the switch of [resched] on the table in which the
    process is [Free] and has no stack. *)
Lemma kill_switch k prev nxt id rest :
  procs (task_table (sch k)) !! current_pid (sch k) = Some prev -> state prev = Current ->
  ready_list (sch k) = id :: rest -> id <> current_pid (sch k) ->
  procs (task_table (sch k)) !! id = Some nxt ->
  let freed := set_pstack None (set_state Free nxt) in
  kill id k = Ok
    (mkKernel
      (mkSched (pid nxt)
        (mkProcs
          (<[current_pid (sch k) := set_ctx (cpu k) (set_state Ready prev)]>
            (<[id := set_state Current freed]> (<[id := freed]> (procs (task_table (sch k))))))
          (next (task_table (sch k)))) (rest ++ [current_pid (sch k)]))
      (ctx nxt)).
Proof.
  intros Hp Hs Hl Hid Hn freed. unfold kill, proclist_get. rewrite Hn. cbn [expect obind].
  destruct k as [[cur [ps nx] rl] regs]. cbn [sch task_table procs current_pid ready_list next cpu] in *.
  unfold set_table. cbn [task_table next current_pid ready_list].
  rewrite (resched_switch _ prev freed id rest); [reflexivity| |exact Hs|exact Hl|exact Hid|].
  - cbn [sch task_table procs current_pid]. by rewrite lookup_insert_ne.
  - cbn [sch task_table procs current_pid]. by rewrite lookup_insert_eq.
Qed.

(** The current process at the head of its own ready list keeps running. *)
Lemma resched_self k prev rest :
  procs (task_table (sch k)) !! current_pid (sch k) = Some prev ->
  ready_list (sch k) = current_pid (sch k) :: rest ->
  resched k = Ok
    (mkKernel
      (mkSched (current_pid (sch k))
        (mkProcs
          (<[current_pid (sch k) := if decide (state prev = Current) then set_state Ready prev else prev]>
            (procs (task_table (sch k))))
          (next (task_table (sch k))))
        (rest ++ (if decide (state prev = Current) then [current_pid (sch k)] else [])))
      (cpu k)).
Proof.
  intros Hp Hl. unfold resched. rewrite Hl, pick_next_eq, Hp. cbn [expect obind].
  destruct (requeue_fields _ _ Hp) as (-> & Ht & Hc & Hn). rewrite Hl. cbn [app].
  rewrite Hc, decide_True by done. cbn [obind]. rewrite <-Ht, <-Hn.
  by destruct (task_table (requeue (sch k) prev)).
Qed.

Lemma resched_rr k :
  sched_inv (sch k) -> rr (sch k) ->
  exists k', resched k = Ok k' /\ sched_inv (sch k') /\ rr (sch k') /\
    queue (sch k') = rot1 (queue (sch k)).
Proof.
  intros Hi [Hnd (prev & Hp & Hs) Hrd].
  destruct (ready_list (sch k)) as [|id rest] eqn:Hl.
  { exists k. unfold resched, queue. rewrite Hl. split_and!; [done|done| |done].
    split; rewrite ?Hl; [done|eauto|]. intros ? []%elem_of_nil. }
  apply NoDup_cons in Hnd as [Hnin Hnd]. rewrite not_elem_of_cons in Hnin. destruct Hnin as [Hne Hnin].
  destruct (Hrd id) as (nxt & Hnx & Hfree); [by left|].
  pose proof (resched_switch k prev nxt id rest Hp Hs Hl ltac:(congruence) Hnx) as Hrun.
  eexists. split; [exact Hrun|]. split; [by eapply resched_inv|].
  destruct (tw_pid _ (si_table _ Hi) id nxt Hnx) as [Hpid _].
  split; [|unfold queue; simpl; by rewrite Hl, Hpid].
  apply NoDup_cons in Hnd as [Hid Hnd]. split; simpl; rewrite ?Hpid.
  - apply NoDup_cons. rewrite elem_of_app, list_elem_of_singleton. split; [naive_solver|].
    apply NoDup_app. split; [done|]. split; [|apply NoDup_singleton].
    intros x Hx ->%list_elem_of_singleton. done.
  - rewrite lookup_insert_ne, lookup_insert_eq by done. eauto.
  - intros j Hj. rewrite lookup_insert. case_decide; [eexists; split; [done|]; done|].
    rewrite lookup_insert. case_decide; [eexists; split; [done|]; done|].
    apply Hrd. apply elem_of_app in Hj as [Hj|Hj%list_elem_of_singleton]; [by right|congruence].
Qed.

Lemma rot1_iter n q : (n <= length q)%nat -> Nat.iter n rot1 q = drop n q ++ take n q.
Proof.
  induction n as [|n IH]; intros Hn; simpl; [by rewrite app_nil_r|]. rewrite IH by lia.
  destruct (lookup_lt_is_Some_2 q n) as [x Hx]; [lia|].
  rewrite (drop_S _ _ _ Hx), (take_S_r _ _ _ Hx). simpl. by rewrite <-app_assoc.
Qed.

(** Time slices: instructions of the current process, and calls of [resched]. *)
Definition slice (ev : event) : Prop := match ev with ERun _ | EResched => True | _ => False end.
Definition is_resched (ev : event) : bool := match ev with EResched => true | _ => false end.
Definition switches (evs : list event) : nat := length (filter (fun ev => is_resched ev) evs).

Lemma slices_rr evs k :
  sched_inv (sch k) -> rr (sch k) -> Forall slice evs ->
  exists k', ofold exec evs k = Ok k' /\ sched_inv (sch k') /\ rr (sch k') /\
    queue (sch k') = Nat.iter (switches evs) rot1 (queue (sch k)).
Proof.
  revert k. induction evs as [|ev evs IH]; intros k Hi Hr Hev; [by exists k|].
  inversion Hev as [|? ? Hs Hl]; subst. cbn [ofold]. destruct ev; try done; simpl exec.
  - destruct (resched_rr k Hi Hr) as (k1 & -> & Hi1 & Hr1 & Hq1). cbn [obind].
    destruct (IH k1 Hi1 Hr1 Hl) as (k' & -> & Hi' & Hr' & Hq'). exists k'. split_and!; [done..|].
    rewrite Hq', Hq1, <-Nat.iter_succ_r. done.
  - cbn [obind]. by apply (IH (mkKernel (sch k) c)).
Qed.

(** C6: round-robin scheduling.  From a well-formed queue, any sequence of time
    slices runs without a panic; each [resched] moves the queue on by one, so
    the process at position [j] of the ready list is current after exactly
    [j + 1] switches, and after as many switches as there are processes the
    queue is what it was. *)
Theorem round_robin evs k :
  sched_inv (sch k) -> rr (sch k) -> Forall slice evs ->
  exists k', ofold exec evs k = Ok k' /\ rr (sch k') /\
    (forall j id, ready_list (sch k) !! j = Some id -> switches evs = S j -> get_id (sch k') = id) /\
    (switches evs = length (queue (sch k)) -> queue (sch k') = queue (sch k)).
Proof.
  intros Hi Hr Hev. destruct (slices_rr evs k Hi Hr Hev) as (k' & Hrun & _ & Hr' & Hq).
  exists k'. split_and!; [done|done| |].
  - intros j id Hj Hn. pose proof (lookup_lt_Some _ _ _ Hj) as Hlt.
    rewrite Hn, rot1_iter in Hq by (unfold queue; simpl; lia).
    unfold queue in Hq. simpl in Hq. rewrite (drop_S _ _ _ Hj) in Hq. by injection Hq.
  - intros Hn. rewrite Hn, rot1_iter, drop_all, take_ge in Hq by lia. done.
Qed.

(** ** Creating and ending processes *)

(** The word of a stack at address [a], for a stack vector at [base]. *)
Definition stack_word (base : Z) (st : list Z) (a : Z) : option Z := st !! Z.to_nat ((a - base) / 8).

(** A process that is new in the table, put at the end of the ready list. *)
Lemma ready_new k k1 id p :
  sched_inv (sch k) -> rr (sch k) -> procs (task_table (sch k)) !! id = None ->
  procs (task_table (sch k1)) = <[id := p]> (procs (task_table (sch k))) -> state p <> Free ->
  current_pid (sch k1) = current_pid (sch k) -> ready_list (sch k1) = ready_list (sch k) ->
  rr (sch (ready id k1)) /\ queue (sch (ready id k1)) = queue (sch k) ++ [id].
Proof.
  intros Hi [Hnd Hcur Hrd] Hnone Hprocs Hfree Hpid Hrl.
  assert (Hnew : forall j q, procs (task_table (sch k)) !! j = Some q -> procs (task_table (sch k1)) !! j = Some q).
  { intros j q Hj. rewrite Hprocs, lookup_insert_ne; [done|]. intros ->. congruence. }
  split; [|unfold queue; simpl; by rewrite Hpid, Hrl]. split; simpl; rewrite ?Hpid, ?Hrl.
  - rewrite app_comm_cons. apply NoDup_app. split; [done|]. split; [|apply NoDup_singleton].
    intros x Hx ->%list_elem_of_singleton. apply elem_of_cons in Hx as [->|Hx].
    + destruct Hcur as (q & Hq & _). congruence.
    + destruct (Hrd _ Hx) as (q & Hq & _). congruence.
  - destruct Hcur as (q & Hq & ?). exists q. by split; [apply Hnew|].
  - intros j [Hj|Hj%list_elem_of_singleton]%elem_of_app.
    + destruct (Hrd j Hj) as (q & Hq & ?). exists q. by split; [apply Hnew|].
    + subst. rewrite Hprocs, lookup_insert_eq. by eexists.
Qed.

(** The four words at the top of a new stack. *)
Lemma new_stack_words base func ret self :
  let st := replicate 1021 0 ++ [func; ret; self] in
  stack_word base st (base + 8168) = Some func /\ stack_word base st (base + 8168 + 8) = Some ret /\
  stack_word base st (base + 8168 + 16) = Some self /\ base + 8168 + 24 = base + 8 * Z.of_nat (length st).
Proof.
  intros st. unfold stack_word.
  assert (Hidx : forall n, (base + 8168 + 8 * n - base) / 8 = 1021 + n) by (intros n; Z.div_mod_to_equations; lia).
  pose proof (Hidx 0) as E0. pose proof (Hidx 1) as E1. pose proof (Hidx 2) as E2.
  rewrite Z.add_0_r in E0. change (8 * 1) with 8 in E1. change (8 * 2) with 16 in E2.
  rewrite E0, E1, E2. unfold st. rewrite length_app, length_replicate. split_and!; [reflexivity..|simpl; lia].
Qed.

(** a process that returns from its entry point gives up the processor to
    the process at the head of the ready list, is marked free, loses its stack
    and is not in the queue any more. *)
Theorem exit_correct k id rest :
  sched_inv (sch k) -> rr (sch k) -> ready_list (sch k) = id :: rest ->
  exists k', process_return_ k = Ok k' /\ queue (sch k') = id :: rest /\ rr (sch k') /\
    get_id (sch k) ∉ queue (sch k') /\
    registers k' = registers k /\
    exists p, procs (task_table (sch k')) !! get_id (sch k) = Some p /\ state p = Free /\ stack p = None.
Proof.
  intros Hi [Hnd (prev & Hp & Hs) Hrd] Hl. rewrite Hl in Hnd, Hrd.
  apply NoDup_cons in Hnd as [Hnin Hnd]. pose proof Hnin as Hnin'.
  rewrite not_elem_of_cons in Hnin. destruct Hnin as [Hne Hnin].
  destruct (Hrd id) as (nxt & Hnx & Hfree); [by left|].
  destruct (tw_pid _ (si_table _ Hi) id nxt Hnx) as [Hpid _].
  destruct (kill_table k _ prev Hi Hp) as [Hi1 Hr1].
  set (k1 := mkKernel _ _) in *.
  assert (Hrun : process_return_ k = resched k1).
  { unfold process_return_, kill, proclist_get, get_id. by rewrite Hp. }
  assert (Hres : exists k', resched k1 = Ok k' /\ queue (sch k') = id :: rest /\
    procs (task_table (sch k')) = <[get_id (sch k) := set_ctx (cpu k) (set_pstack None (set_state Free prev))]>
      (<[id := set_state Current nxt]> (procs (task_table (sch k))))).
  { assert (Hp1 : procs (task_table (sch k1)) !! current_pid (sch k1) =
      Some (set_pstack None (set_state Free prev))) by (simpl; by rewrite lookup_insert_eq).
    assert (Hn1 : procs (task_table (sch k1)) !! id = Some nxt)
      by (simpl; by rewrite lookup_insert_ne by congruence).
    rewrite (resched_to k1 _ nxt id rest Hp1 Hl ltac:(simpl; congruence) Hn1). eexists. split; [done|].
    rewrite !decide_False by done. unfold queue. simpl. rewrite Hpid, app_nil_r. split; [done|].
    rewrite (insert_insert_ne _ id) by congruence. by rewrite insert_insert_eq. }
  destruct Hres as (k' & Hk & Hq & Hprocs). exists k'. unfold queue in Hq. injection Hq as Hq1 Hq2.
  split; [by rewrite Hrun|]. split; [unfold queue; by rewrite Hq1, Hq2|].
  split; [|split; [unfold queue; by rewrite Hq1, Hq2|split; [by rewrite (resched_registers _ _ Hi1 Hk)|]]].
  - split; rewrite ?Hq1, ?Hq2, ?Hprocs; unfold get_id.
    + done.
    + rewrite lookup_insert_ne, lookup_insert_eq by done. eauto.
    + intros j Hj. rewrite lookup_insert_ne by congruence. rewrite lookup_insert_ne.
      * apply Hrd. by right.
      * intros ->. apply NoDup_cons in Hnd as [? _]. done.
  - rewrite Hprocs, lookup_insert_eq. by eexists.
Qed.

(** ** What the scheduler does not guard against *)

(** [kill] does not take its victim out of the ready list.  Killing the
    process at the head of the ready list makes it the current process, in
    state [Current], although its stack has just been freed. *)
Theorem kill_ready_resumes k id rest :
  sched_inv (sch k) -> rr (sch k) -> ready_list (sch k) = id :: rest ->
  exists k' p, kill id k = Ok k' /\ get_id (sch k') = id /\
    procs (task_table (sch k')) !! id = Some p /\ state p = Current /\ stack p = None.
Proof.
  intros Hi [Hnd (prev & Hp & Hs) Hrd] Hl. rewrite Hl in Hnd, Hrd.
  apply NoDup_cons in Hnd as [Hnin _]. rewrite not_elem_of_cons in Hnin. destruct Hnin as [Hne _].
  destruct (Hrd id) as (nxt & Hnx & _); [by left|].
  destruct (tw_pid _ (si_table _ Hi) id nxt Hnx) as [Hpid _].
  rewrite (kill_switch k prev nxt id rest Hp Hs Hl ltac:(congruence) Hnx).
  eexists _, (set_state Current (set_pstack None (set_state Free nxt))). split; [reflexivity|].
  cbn [sch task_table procs get_id current_pid]. split; [exact Hpid|].
  rewrite lookup_insert_ne, lookup_insert_eq by congruence. done.
Qed.

(** [kill] of the only process returns to it: with an empty ready list the
    current process goes on running after its stack has been freed. *)
Theorem kill_last_returns k p :
  procs (task_table (sch k)) !! get_id (sch k) = Some p -> ready_list (sch k) = [] ->
  exists k' q, kill (get_id (sch k)) k = Ok k' /\ get_id (sch k') = get_id (sch k) /\ cpu k' = cpu k /\
    procs (task_table (sch k')) !! get_id (sch k) = Some q /\ state q = Free /\ stack q = None.
Proof.
  intros Hp Hl. unfold kill, proclist_get, get_id in *. rewrite Hp. cbn [expect obind].
  destruct k as [[cur [ps nx] rl] regs]. cbn [sch task_table procs current_pid ready_list cpu] in *. subst rl.
  unfold set_table. cbn [task_table next current_pid ready_list].
  eexists _, (set_pstack None (set_state Free p)). split; [by rewrite resched_empty|].
  cbn [sch task_table procs current_pid cpu]. rewrite lookup_insert_eq. done.
Qed.

(** a process that marks itself ready is lost.  After [ready] of the current
    process and two calls of [resched] it is still running, but in state
    [Ready] and out of the queue; the next process that becomes ready takes
    the processor for good. *)
Theorem ready_self_lost k p id :
  sched_inv (sch k) -> rr (sch k) -> ready_list (sch k) = [] ->
  procs (task_table (sch k)) !! id = Some p -> id <> get_id (sch k) ->
  exists k', ofold exec [EReady (get_id (sch k)); EResched; EResched; EReady id; EResched] k = Ok k' /\
    get_id (sch k') = id /\ ready_list (sch k') = [] /\
    exists q, procs (task_table (sch k')) !! get_id (sch k) = Some q /\ state q = Ready.
Proof.
  intros Hi [_ (prev & Hp & Hs) _] Hl Hid Hne. unfold get_id in *. cbn [ofold exec obind].
  set (c := current_pid (sch k)) in *.
  rewrite (resched_self _ prev []); [|done|simpl; by rewrite Hl]. rewrite !decide_True by done. cbn [obind].
  rewrite (resched_self _ (set_state Ready prev) []); [|simpl; apply lookup_insert_eq|done].
  rewrite !decide_False by done. cbn [obind].
  rewrite (resched_to _ (set_state Ready prev) p id []);
    [|simpl; apply lookup_insert_eq|done|done|simpl; rewrite !lookup_insert_ne by (intros E; by apply Hne); done].
  cbn [obind]. eexists. split; [done|]. rewrite !decide_False by done. simpl.
  split; [by apply (tw_pid _ (si_table _ Hi))|]. split; [done|].
  rewrite lookup_insert_eq. by eexists.
Qed.

(** ** A concrete kernel: the null process and two ready ones *)

Definition regs (n : Z) : Context := mkContext 0x1000 n n n n n n n n.

Definition demo_proc (id : Z) (st : State) : Process := mkProcess id "p" st 0 (regs id) (Some []).

Definition demo_table : gmap Z Process :=
  <[0 := demo_proc 0 Current]> (<[1 := demo_proc 1 Ready]> (<[2 := demo_proc 2 Suspended]> ∅)).

Definition demo_kernel (queue : list Z) : kernel :=
  mkKernel (mkSched 0 (mkProcs demo_table 3) queue) (regs 7).

Lemma demo_lookup j p :
  demo_table !! j = Some p -> (j = 0 \/ j = 1 \/ j = 2) /\ pid p = j /\ (state p = Current -> j = 0).
Proof.
  unfold demo_table. rewrite !lookup_insert, lookup_empty.
  repeat case_decide; intros; simplify_eq; simpl; naive_solver.
Qed.

Lemma demo_inv q : sched_inv (sch (demo_kernel q)).
Proof.
  split; simpl.
  - split; simpl; [unfold MAX_PROCS; lia|]. intros j p (Hj & Hp & _)%demo_lookup.
    split; [done|]. unfold MAX_PROCS. lia.
  - eexists. reflexivity.
  - intros j p Hp Hs. by apply demo_lookup in Hp as (_ & _ & ->).
Qed.

Lemma demo_rr : rr (sch (demo_kernel [1; 2])).
Proof.
  split; simpl.
  - repeat (apply NoDup_cons; split; [rewrite ?not_elem_of_cons; auto using not_elem_of_nil|]); constructor.
  - by eexists.
  - intros id [->|[->|[]%elem_of_nil]%elem_of_cons]%elem_of_cons; by eexists.
Qed.

Lemma demo_rr_alone : rr (sch (demo_kernel [])).
Proof. split; simpl; [apply NoDup_singleton|by eexists|by intros id []%elem_of_nil]. Qed.

Lemma one_current_witness :
  is_Some (procs (task_table sched_new) !! get_id sched_new).
Proof. apply (one_current (mkKernel sched_new (regs 7))), ReachNew. Defined.

(** Process 0 yields to 1, which yields to 2 and back; its registers survive. *)
Lemma context_preserved_witness :
  exists k', ofold exec [EResched; ERun (regs 8); EResched; ERun (regs 9); EResched] (demo_kernel [1; 2]) = Ok k' /\
    cpu k' = regs 7.
Proof.
  assert (Hrun : exists k', ofold exec [EResched; ERun (regs 8); EResched; ERun (regs 9); EResched]
    (demo_kernel [1; 2]) = Ok k' /\ current_pid (sch k') = 0)
    by (eexists; split; [vm_compute; reflexivity|reflexivity]).
  destruct Hrun as (k' & Hrun & Hcur). exists k'. split; [exact Hrun|].
  destruct (context_preserved [EResched; ERun (regs 8); EResched; ERun (regs 9); EResched]
    (demo_kernel [1; 2]) k' 0 (regs 7) (demo_inv _) eq_refl) as [_ Hc].
  - cbn [parked event_ok]. split; [exact I|]. split; [done|]. intros k1 H1. vm_compute in H1. injection H1 as <-.
    split; [exact I|]. split; [done|]. intros k2 H2. vm_compute in H2. injection H2 as <-.
    split; [exact I|]. split; [done|]. intros k3 H3. vm_compute in H3. injection H3 as <-.
    split; [exact I|]. split; [done|]. intros k4 H4. vm_compute in H4. injection H4 as <-.
    split; [exact I|]. split; [done|]. done.
  - exact Hrun.
  - exact (Hc Hcur).
Defined.

Lemma round_robin_witness :
  exists k', ofold exec [EResched; ERun (regs 8); EResched] (demo_kernel [1; 2]) = Ok k' /\
    get_id (sch k') = 2.
Proof.
  destruct (round_robin [EResched; ERun (regs 8); EResched] (demo_kernel [1; 2]) (demo_inv _) demo_rr)
    as (k' & Hrun & _ & Hid & _).
  - repeat constructor.
  - exists k'. split; [exact Hrun|]. apply (Hid 1%nat 2); reflexivity.
Defined.

Lemma exit_correct_witness :
  exists k', process_return_ (demo_kernel [1; 2]) = Ok k' /\ queue (sch k') = [1; 2].
Proof.
  destruct (exit_correct (demo_kernel [1; 2]) 1 [2] (demo_inv _) demo_rr eq_refl) as (k' & H1 & H2 & _).
  exists k'. split; [exact H1|exact H2].
Defined.

Lemma kill_ready_resumes_witness :
  exists k' p, kill 1 (demo_kernel [1; 2]) = Ok k' /\ get_id (sch k') = 1 /\
    procs (task_table (sch k')) !! 1 = Some p /\ state p = Current /\ stack p = None.
Proof. apply (kill_ready_resumes (demo_kernel [1; 2]) 1 [2] (demo_inv _) demo_rr eq_refl). Defined.

Lemma kill_last_returns_witness :
  exists k' q, kill 0 (demo_kernel []) = Ok k' /\ get_id (sch k') = 0 /\ cpu k' = regs 7 /\
    procs (task_table (sch k')) !! 0 = Some q /\ state q = Free /\ stack q = None.
Proof. apply (kill_last_returns (demo_kernel []) (demo_proc 0 Current)); reflexivity. Defined.

Lemma ready_self_lost_witness :
  exists k', ofold exec [EReady 0; EResched; EResched; EReady 1; EResched] (demo_kernel []) = Ok k' /\
    get_id (sch k') = 1 /\ ready_list (sch k') = [] /\
    exists q, procs (task_table (sch k')) !! 0 = Some q /\ state q = Ready.
Proof.
  apply (ready_self_lost (demo_kernel []) (demo_proc 1 Ready) 1 (demo_inv _) demo_rr_alone);
    [reflexivity|reflexivity|discriminate].
Defined.
