(* ===== verification/Acpi.v ===== *)
(** * ACPI tables

    [acpi/sdt.rs], [acpi/rsdp.rs], [acpi/rsdt.rs], [acpi/xsdt.rs] and [acpi/madt.rs].  The tables
    are read in place: the model reads bytes of the kernel's address space [m],
    in which an address that is not mapped has no byte and faults when it is
    read; a reference to a structure is its address and a field is read
    little-endian at its offset in the packed structure.  Mapping the pages the
    tables lie in is in [AcpiInit.v]; the messages printed are not modelled. *)

From S2P Require Import Prelude.

Definition bytes := Z -> option Z.

Definition rd8 (m : bytes) (a : Z) : Z := trunc 8 (default 0 (m a)).
Definition rd16 (m : bytes) (a : Z) : Z := rd8 m a + 2 ^ 8 * rd8 m (a + 1).
Definition rd32 (m : bytes) (a : Z) : Z := rd16 m a + 2 ^ 16 * rd16 m (a + 2).
Definition rd64 (m : bytes) (a : Z) : Z := rd32 m a + 2 ^ 32 * rd32 m (a + 4).

(** The [n] bytes at [a]. *)
Definition slice (m : bytes) (a : Z) (n : nat) : list Z := (fun i => rd8 m (a + i)) <$> seqZ 0 (Z.of_nat n).

(** A read of [n] bytes at [a] faults unless all of them are mapped. *)
Definition readable (m : bytes) (a n : Z) : bool := forallb (fun i => bool_decide (is_Some (m (a + i)))) (seqZ 0 n).
Definition access (m : bytes) (a n : Z) : outcome unit := if readable m a n then Ok tt else Err (EFault a).

(** ** System description tables *)

(** [mem::size_of::<SdtHeader>()], packed. *)
Definition HEADER_SIZE : Z := 36.

Definition sdt_signature (m : bytes) (sdt : Z) : list Z := slice m sdt 4.
Definition sdt_length (m : bytes) (sdt : Z) : Z := rd32 m (sdt + 4).

Definition data_address (sdt : Z) : outcome Z := usize_add sdt HEADER_SIZE.

Definition data_len (m : bytes) (sdt : Z) : Z :=
  let total_size := sdt_length m sdt in
  if HEADER_SIZE <=? total_size then total_size - HEADER_SIZE else 0.

(** ** The root pointer *)

Definition RSD_PTR : list Z := [0x52; 0x53; 0x44; 0x20; 0x50; 0x54; 0x52; 0x20].

Record RsdpDescriptor := mkRsdp {
  rp_signature : list Z;
  rp_checksum : Z;
  rp_oem_id : list Z;
  rp_revision : Z;
  rp_rsdt_address : Z;
  rp_length : Z;
  rp_xsdt_address : Z;
  rp_extended_checksum : Z;
  rp_reserved : list Z }.

(** The copy [*rsdp] of the packed structure, 36 bytes. *)
Definition read_rsdp (m : bytes) (a : Z) : RsdpDescriptor :=
  mkRsdp (slice m a 8) (rd8 m (a + 8)) (slice m (a + 9) 6) (rd8 m (a + 15)) (rd32 m (a + 16))
    (rd32 m (a + 20)) (rd64 m (a + 24)) (rd8 m (a + 32)) (slice m (a + 33) 3).

(** [RsdpDescriptor::search]: the loop over the indices [l]. *)
Fixpoint search_from (m : bytes) (start_addr : Z) (l : list Z) : outcome (option RsdpDescriptor) :=
  match l with
  | [] => Ok None
  | i :: l =>
      let? o := usize_mul i 16 in
      let? rsdp := usize_add start_addr o in
      let? _ := access m rsdp 8 in
      if decide (slice m rsdp 8 = RSD_PTR) then
        let? _ := access m rsdp 36 in Ok (Some (read_rsdp m rsdp))
      else search_from m start_addr l
  end.

Definition rsdp_search (m : bytes) (start_addr end_addr : Z) : outcome (option RsdpDescriptor) :=
  let? e := usize_add end_addr 1 in
  let? e := usize_sub e start_addr in
  search_from m start_addr (seqZ 0 (e / 16)).

(** [RsdpDescriptor::sdt] *)
Definition rsdp_sdt (d : RsdpDescriptor) : Z :=
  if 2 <=? rp_revision d then rp_xsdt_address d else rp_rsdt_address d.

(** ** The root table *)

Definition RSDT_SIG : list Z := [0x52; 0x53; 0x44; 0x54].
Definition XSDT_SIG : list Z := [0x58; 0x53; 0x44; 0x54].
Definition APIC_SIG : list Z := [0x41; 0x50; 0x49; 0x43].

(** [other_entries] is a slice: the address of its first [u32] and their number. *)
Record Rsdt := mkRsdt { rsdt_sdt : Z; other_entries : Z * Z }.

(** [Rsdt::data] *)
Definition rsdt_data (m : bytes) (sdt : Z) : outcome (Z * Z) :=
  let? a := data_address sdt in
  let? _ := access m (sdt + 4) 4 in
  Ok (a, data_len m sdt / 4).

Definition rsdt_new (m : bytes) (sdt : Z) : outcome Rsdt :=
  let? _ := access m sdt 4 in
  if decide (sdt_signature m sdt = RSDT_SIG) then
    let? array := rsdt_data m sdt in Ok (mkRsdt sdt array)
  else panic "Non-matching signature, aborting ...".

(** [Xsdt(sdt)] is its address. *)
Definition xsdt_new (m : bytes) (sdt : Z) : outcome (option Z) :=
  let? _ := access m sdt 4 in
  Ok (if decide (sdt_signature m sdt = XSDT_SIG) then Some sdt else None).

(** ** The interrupt controllers ([acpi/madt.rs]) *)

Record Madt := mkMadt { m_sdt : Z; m_address : Z; m_flags : Z }.

Definition madt_new (m : bytes) (sdt : Z) : outcome Madt :=
  let? a := data_address sdt in
  let? _ := access m a 8 in
  Ok (mkMadt sdt (rd32 m a) (rd32 m (a + 4))).

(** [find_sdt], the entries at the addresses [l]: only a request for the MADT
    has a result. *)
Fixpoint find_sdt_in (m : bytes) (l : list Z) (signature : list Z) : outcome (option Madt) :=
  match l with
  | [] => Ok None
  | i :: l =>
      let? _ := access m i 4 in
      let sdt := rd32 m i in
      let? _ := access m sdt 4 in
      if negb (bool_decide (sdt_signature m sdt = signature)) then find_sdt_in m l signature
      else if decide (signature = APIC_SIG) then let? t := madt_new m sdt in Ok (Some t)
      else Ok None
  end.

Definition find_sdt (m : bytes) (r : Rsdt) (signature : list Z) : outcome (option Madt) :=
  let '(a, n) := other_entries r in
  find_sdt_in m ((fun i => a + 4 * i) <$> seqZ 0 n) signature.

Record LapicEntry := mkLapic { la_processor_id : Z; la_id : Z; la_flags : Z }.
Record IoApic := mkIoApic { io_id : Z; io_address : Z; io_gsib : Z }.
Record InterruptSourceOverride := mkIso { iso_bus : Z; iso_irq : Z; iso_gsi : Z; iso_flags : Z }.
Record ApicNMI := mkNmi { nmi_processor_id : Z; nmi_flags : Z; nmi_lint_no : Z }.

Inductive MadtEntry :=
  | ELapic (e : LapicEntry)
  | EInvalidLapic (len : Z)
  | EIoApic (e : IoApic)
  | EInvalidIoApic (len : Z)
  | EIso (e : InterruptSourceOverride)
  | EInvalidIso (len : Z)
  | ENmi (e : ApicNMI)
  | EInvalidNmi (len : Z)
  | EUnknown (ty : Z).

(** The packed structures behind the two bytes of type and length; the second
    byte of an [IoApic] is reserved. *)
Definition read_lapic (m : bytes) (a : Z) : LapicEntry := mkLapic (rd8 m a) (rd8 m (a + 1)) (rd32 m (a + 2)).
Definition read_ioapic (m : bytes) (a : Z) : IoApic := mkIoApic (rd8 m a) (rd32 m (a + 2)) (rd32 m (a + 6)).
Definition read_iso (m : bytes) (a : Z) : InterruptSourceOverride :=
  mkIso (rd8 m a) (rd8 m (a + 1)) (rd32 m (a + 2)) (rd16 m (a + 6)).
Definition read_nmi (m : bytes) (a : Z) : ApicNMI := mkNmi (rd8 m a) (rd16 m (a + 1)) (rd8 m (a + 3)).

(** The [match] on the type of an entry; the sizes are those of the structures.
    The fields are read where the reference is made: the loop that uses it
    writes nothing to memory in between. *)
Definition madt_item (m : bytes) (ty len a : Z) : outcome MadtEntry :=
  if ty =? 0 then if len =? 6 + 2 then let? _ := access m a 6 in Ok (ELapic (read_lapic m a)) else Ok (EInvalidLapic len)
  else if ty =? 1 then
    if len =? 10 + 2 then let? _ := access m a 10 in Ok (EIoApic (read_ioapic m a)) else Ok (EInvalidIoApic len)
  else if ty =? 2 then if len =? 8 + 2 then let? _ := access m a 8 in Ok (EIso (read_iso m a)) else Ok (EInvalidIso len)
  else if ty =? 4 then if len =? 4 + 2 then let? _ := access m a 4 in Ok (ENmi (read_nmi m a)) else Ok (EInvalidNmi len)
  else Ok (EUnknown ty).

(** [MadtIter::next]: the entry at offset [i] of the data, and the next offset. *)
Definition madt_next (m : bytes) (sdt i : Z) : outcome (option (MadtEntry * Z)) :=
  let? i1 := usize_add i 1 in
  let? _ := access m (sdt + 4) 4 in
  if i1 <? data_len m sdt then
    let? base := data_address sdt in
    let? _ := access m (base + i) 2 in
    let ty := rd8 m (base + i) in
    let len := rd8 m (base + i + 1) in
    let? e := usize_add i len in
    if e <=? data_len m sdt then
      let? item := madt_item m ty len (base + i + 2) in
      Ok (Some (item, e))
    else Ok None
  else Ok None.

(** [heapless::Vec::push] with the capacity of its array, and the [expect]. *)
Definition static_push {A} (cap : nat) (l : list A) (a : A) : outcome (list A) :=
  if (length l <? cap)%nat then Ok (l ++ [a]) else panic "Failed to push element to static vector".

(** What [Madt::init] collects; [cpus] counts the processors other than the one
    it takes for the boot processor. *)
Record found_apics := mkFound {
  local_apics : list LapicEntry;
  io_apics : list IoApic;
  isos : list InterruptSourceOverride;
  nmis : list ApicNMI;
  cpus : Z }.

(** One iteration of the loop of [Madt::init]; [None] is its early [return].
    [apic_base] is the value of the IA32_APIC_BASE register. *)
Definition madt_entry (apic_base : Z) (e : MadtEntry) (f : found_apics) : outcome (option found_apics) :=
  match e with
  | ELapic x =>
      let c :=
        if Z.land (la_flags x) 1 =? 1 then
          if Z.land apic_base (2 ^ 8) =? la_id x then cpus f else trunc 64 (cpus f + 1)
        else cpus f in
      let? l := static_push 20 (local_apics f) x in
      Ok (Some (mkFound l (io_apics f) (isos f) (nmis f) c))
  | EIoApic x =>
      let? l := static_push 10 (io_apics f) x in
      Ok (Some (mkFound (local_apics f) l (isos f) (nmis f) (cpus f)))
  | EIso x =>
      let? l := static_push 10 (isos f) x in
      Ok (Some (mkFound (local_apics f) (io_apics f) l (nmis f) (cpus f)))
  | ENmi x =>
      let? l := static_push 10 (nmis f) x in
      Ok (Some (mkFound (local_apics f) (io_apics f) (isos f) l (cpus f)))
  | _ => Ok None
  end.

Fixpoint madt_loop (fuel : nat) (m : bytes) (apic_base sdt i : Z) (f : found_apics)
  : outcome (option found_apics) :=
  match fuel with
  | O => Err EFuel
  | S fuel =>
      let? n := madt_next m sdt i in
      match n with
      | None => Ok (Some f)
      | Some (e, i) =>
          let? f := madt_entry apic_base e f in
          match f with
          | None => Ok None
          | Some f => madt_loop fuel m apic_base sdt i f
          end
      end
  end.

(** [Madt::init] up to the point where it stores the manager: [None] when it
    returns early and there is no manager.  An entry has at least six bytes, so
    the table's length is enough fuel. *)
Definition madt_collect (m : bytes) (apic_base : Z) (t : Madt) : outcome (option found_apics) :=
  let? _ := access m (m_sdt t + 4) 4 in
  madt_loop (S (Z.to_nat (data_len m (m_sdt t)))) m apic_base (m_sdt t) 8 (mkFound [] [] [] [] 0).

(** ** Reading *)

Lemma rd8_range m a : 0 <= rd8 m a < 256.
Proof. unfold rd8, trunc. apply Z.mod_pos_bound. lia. Qed.

Lemma rd16_range m a : 0 <= rd16 m a < 2 ^ 16.
Proof. unfold rd16. pose proof (rd8_range m a). pose proof (rd8_range m (a + 1)). lia. Qed.

Lemma rd32_range m a : 0 <= rd32 m a < 2 ^ 32.
Proof. unfold rd32. pose proof (rd16_range m a). pose proof (rd16_range m (a + 2)). lia. Qed.

(** Two memories with the same bytes in a range. *)
Definition same_bytes (m m' : bytes) (lo hi : Z) : Prop := forall a, lo <= a < hi -> m' a = m a.

Lemma rd8_same m m' lo hi a : same_bytes m m' lo hi -> lo <= a < hi -> rd8 m' a = rd8 m a.
Proof. intros H Ha. unfold rd8. by rewrite H. Qed.

Lemma rd16_same m m' lo hi a : same_bytes m m' lo hi -> lo <= a -> a + 2 <= hi -> rd16 m' a = rd16 m a.
Proof. intros H H1 H2. unfold rd16. rewrite !(rd8_same m m' lo hi) by (done || lia). done. Qed.

Lemma rd32_same m m' lo hi a : same_bytes m m' lo hi -> lo <= a -> a + 4 <= hi -> rd32 m' a = rd32 m a.
Proof. intros H H1 H2. unfold rd32. rewrite !(rd16_same m m' lo hi) by (done || lia). done. Qed.

Lemma access_same m m' lo hi a n :
  same_bytes m m' lo hi -> lo <= a -> a + n <= hi -> access m' a n = access m a n.
Proof.
  intros H H1 H2. unfold access. replace (readable m' a n) with (readable m a n); [done|].
  apply eq_true_iff_eq. unfold readable. rewrite !forallb_forall.
  split; intros Hr i Hi; specialize (Hr i Hi); apply list_elem_of_In, elem_of_seqZ in Hi;
    [rewrite H by lia; done|rewrite H in Hr by lia; done].
Qed.

Lemma readable_sub m a n b k : readable m a n = true -> a <= b -> b + k <= a + n -> readable m b k = true.
Proof.
  unfold readable. rewrite !forallb_forall. intros H Ha Hk i Hi. apply list_elem_of_In, elem_of_seqZ in Hi.
  replace (b + i) with (a + (b - a + i)) by lia. apply H, list_elem_of_In, elem_of_seqZ. lia.
Qed.

Lemma readable_prefix m a n k : readable m a n = true -> k <= n -> access m a k = Ok tt.
Proof. intros H Hk. unfold access. rewrite (readable_sub m a n a k) by (done || lia). done. Qed.

Lemma access_cases m a n : access m a n = Ok tt \/ access m a n = Err (EFault a).
Proof. unfold access. destruct (readable m a n); auto. Qed.

(** Take the next read of the goal; the other case is a fault. *)
Ltac access_step :=
  match goal with |- context [access ?m ?a ?n] => destruct (access_cases m a n) as [->| ->]; cbn [obind] end.

(** Entries that the loop goes on after have at least six bytes. *)
Lemma madt_next_spec m sdt i :
  0 <= i < 2 ^ 33 -> 0 <= sdt < 2 ^ 63 ->
  match madt_next m sdt i with
  | Ok None => True
  | Ok (Some (e, j)) => i <= j <= data_len m sdt /\
      match e with ELapic _ | EIoApic _ | EIso _ | ENmi _ => i + 6 <= j | _ => True end
  | Err e => exists va, e = EFault va
  end.
Proof.
  intros Hi Hs. unfold madt_next. rewrite add_w_fits by (unfold in_width; lia). cbn [obind].
  access_step; [|by eexists]. destruct (i + 1 <? data_len m sdt); [|done]. unfold data_address, HEADER_SIZE.
  rewrite add_w_fits by (unfold in_width; lia). cbn [obind]. access_step; [|by eexists].
  pose proof (rd8_range m (sdt + 36 + i + 1)) as Hl.
  rewrite add_w_fits by (unfold in_width; lia). cbn [obind].
  destruct (Z.leb_spec (i + rd8 m (sdt + 36 + i + 1)) (data_len m sdt)); [|done]. unfold madt_item.
  case_bools; try lia; try access_step; cbn [obind]; try (by eexists); (split; [lia|]); try exact I; lia.
Qed.

Lemma data_len_range m sdt : 0 <= data_len m sdt < 2 ^ 32.
Proof. unfold data_len, sdt_length, HEADER_SIZE. pose proof (rd32_range m (sdt + 4)). case_bools; lia. Qed.

Lemma static_push_fuel {A} cap (l : list A) a : static_push cap l a <> Err EFuel.
Proof. unfold static_push, panic. by destruct (_ <? _)%nat. Qed.

Lemma madt_entry_fuel apic_base e f : madt_entry apic_base e f <> Err EFuel.
Proof.
  destruct e; simpl; try discriminate;
    match goal with |- context [static_push ?c ?l ?x] =>
      pose proof (static_push_fuel c l x); destruct (static_push c l x); simpl; congruence end.
Qed.

Lemma madt_loop_fuel fuel m apic_base sdt i f :
  0 <= i < 2 ^ 33 -> 0 <= sdt < 2 ^ 63 -> data_len m sdt - i < 6 * Z.of_nat fuel ->
  (0 < fuel)%nat -> madt_loop fuel m apic_base sdt i f <> Err EFuel.
Proof.
  revert i f. induction fuel as [|fuel IH]; intros i f Hi Hs Hf Hpos; [lia|]. cbn [madt_loop].
  pose proof (madt_next_spec m sdt i Hi Hs) as Hr. destruct (madt_next m sdt i) as [[[e j]|]|err]; cbn [obind];
    [|discriminate|destruct Hr as [va ->]; discriminate]. destruct Hr as [Hj He].
  pose proof (madt_entry_fuel apic_base e f) as Hne. pose proof (data_len_range m sdt) as Hd.
  destruct (madt_entry apic_base e f) as [[f'|]|err] eqn:Em; cbn [obind]; [|discriminate|congruence].
  assert (i + 6 <= j) by (destruct e; simpl in Em; try done). apply IH; [lia|done|lia|lia].
Qed.

(** ** Properties of the MADT parser *)

Lemma madt_next_same m m' sdt i :
  0 <= i < 2 ^ 33 -> 0 <= sdt < 2 ^ 63 ->
  same_bytes m m' sdt (sdt + Z.max HEADER_SIZE (sdt_length m sdt)) ->
  madt_next m' sdt i = madt_next m sdt i.
Proof.
  intros Hi Hs Hm. assert (Hlen : sdt_length m' sdt = sdt_length m sdt).
  { unfold sdt_length. eapply rd32_same; [done|lia|unfold HEADER_SIZE; lia]. }
  unfold madt_next, data_len. rewrite Hlen, (access_same m m' _ _ (sdt + 4) 4 Hm) by (unfold HEADER_SIZE; lia).
  rewrite add_w_fits by (unfold in_width; lia). cbn [obind]. access_step; [|done].
  set (len := if HEADER_SIZE <=? sdt_length m sdt then _ else _).
  destruct (Z.ltb_spec (i + 1) len) as [Hlt|]; [|done]. unfold data_address.
  assert (Hl : len = sdt_length m sdt - HEADER_SIZE) by (unfold len in *; unfold HEADER_SIZE in *; case_bools; lia).
  unfold HEADER_SIZE in *. rewrite add_w_fits by (unfold in_width; lia). cbn [obind].
  rewrite (access_same m m' _ _ _ _ Hm) by lia. access_step; [|done].
  rewrite !(rd8_same m m' _ _ _ Hm) by lia. pose proof (rd8_range m (sdt + 36 + i + 1)) as H8.
  rewrite add_w_fits by (unfold in_width; lia). cbn [obind].
  destruct (Z.leb_spec (i + rd8 m (sdt + 36 + i + 1)) len) as [Hle|]; [|done].
  unfold madt_item, read_lapic, read_ioapic, read_iso, read_nmi.
  case_bools; try done; rewrite (access_same m m' _ _ _ _ Hm) by lia;
    rewrite ?(rd8_same m m' _ _ _ Hm), ?(rd16_same m m' _ _ _ Hm), ?(rd32_same m m' _ _ _ Hm) by lia; done.
Qed.

(** Two memories that agree on the bytes of the table (its header and the length it
    declares) give the same result. *)
Lemma madt_collect_same m m' apic_base t :
  0 <= m_sdt t < 2 ^ 63 ->
  same_bytes m m' (m_sdt t) (m_sdt t + Z.max HEADER_SIZE (sdt_length m (m_sdt t))) ->
  madt_collect m' apic_base t = madt_collect m apic_base t.
Proof.
  intros Hs Hm. unfold madt_collect. set (sdt := m_sdt t) in *.
  assert (Hlen : data_len m' sdt = data_len m sdt).
  { unfold data_len, sdt_length. rewrite (rd32_same m m' _ _ (sdt + 4) Hm); [done|lia|unfold HEADER_SIZE; lia]. }
  rewrite Hlen, (access_same m m' _ _ (sdt + 4) 4 Hm) by (unfold HEADER_SIZE; lia). access_step; [|done].
  generalize (mkFound [] [] [] [] 0) as f. assert (Hi : 0 <= 8 < 2 ^ 33) by lia. revert Hi.
  generalize (S (Z.to_nat (data_len m sdt))) as fuel. generalize 8 as i. intros i fuel. revert i.
  induction fuel as [|fuel IH]; intros i Hi f; [done|]. cbn [madt_loop].
  rewrite (madt_next_same m m' sdt i Hi Hs Hm). pose proof (madt_next_spec m sdt i Hi Hs) as Hr.
  destruct (madt_next m sdt i) as [[[e j]|]|]; cbn [obind]; [|done..]. destruct Hr as [Hj _]. pose proof (data_len_range m sdt).
  destruct (madt_entry apic_base e f) as [[f'|]|]; [|done..]. cbn [obind]. apply IH. lia.
Qed.

(** C25: [Madt::init] always gets to the end of the table or stops at an entry
    it does not know, whatever the bytes of the table are (zero and oversized
    entry lengths included), and reads nothing outside the table it was given. *)
Theorem madt_terminates m apic_base t :
  0 <= m_sdt t < 2 ^ 63 ->
  madt_collect m apic_base t <> Err EFuel /\
  forall m', same_bytes m m' (m_sdt t) (m_sdt t + Z.max HEADER_SIZE (sdt_length m (m_sdt t))) ->
    madt_collect m' apic_base t = madt_collect m apic_base t.
Proof.
  intros Hs. split; [|intros m'; by apply madt_collect_same]. unfold madt_collect.
  pose proof (data_len_range m (m_sdt t)). access_step; [|done]. apply madt_loop_fuel; [lia|done|lia|lia].
Qed.

(** *** Round trip *)

Definition le16 (v : Z) : list Z := [v mod 256; v / 2 ^ 8 mod 256].
Definition le32 (v : Z) : list Z := le16 v ++ [v / 2 ^ 16 mod 256; v / 2 ^ 24 mod 256].

(** The bytes of an entry, as the specification lays them out. *)
Definition encode (e : MadtEntry) : list Z :=
  match e with
  | ELapic x => [0; 8; la_processor_id x; la_id x] ++ le32 (la_flags x)
  | EIoApic x => [1; 12; io_id x; 0] ++ le32 (io_address x) ++ le32 (io_gsib x)
  | EIso x => [2; 10; iso_bus x; iso_irq x] ++ le32 (iso_gsi x) ++ le16 (iso_flags x)
  | ENmi x => [4; 6; nmi_processor_id x] ++ le16 (nmi_flags x) ++ [nmi_lint_no x]
  | _ => []
  end.

Definition entry_ok (e : MadtEntry) : Prop :=
  match e with
  | ELapic x => in_width 8 (la_processor_id x) /\ in_width 8 (la_id x) /\ in_width 32 (la_flags x)
  | EIoApic x => in_width 8 (io_id x) /\ in_width 32 (io_address x) /\ in_width 32 (io_gsib x)
  | EIso x => in_width 8 (iso_bus x) /\ in_width 8 (iso_irq x) /\ in_width 32 (iso_gsi x) /\ in_width 16 (iso_flags x)
  | ENmi x => in_width 8 (nmi_processor_id x) /\ in_width 16 (nmi_flags x) /\ in_width 8 (nmi_lint_no x)
  | _ => False
  end.

(** *** What the parser collects is well-typed *)

(** Every field within its width, every vector within its capacity. *)
Record found_ok (f : found_apics) : Prop := {
  fo_local : Forall (fun x => entry_ok (ELapic x)) (local_apics f) /\ (length (local_apics f) <= 20)%nat;
  fo_io : Forall (fun x => entry_ok (EIoApic x)) (io_apics f) /\ (length (io_apics f) <= 10)%nat;
  fo_iso : Forall (fun x => entry_ok (EIso x)) (isos f) /\ (length (isos f) <= 10)%nat;
  fo_nmi : Forall (fun x => entry_ok (ENmi x)) (nmis f) /\ (length (nmis f) <= 10)%nat;
  fo_cpus : in_width 64 (cpus f) }.

Lemma madt_next_type m sdt i e j :
  madt_next m sdt i = Ok (Some (e, j)) ->
  match e with ELapic _ | EIoApic _ | EIso _ | ENmi _ => entry_ok e | _ => True end.
Proof.
  intros Hrun. unfold madt_next in Hrun. apply obind_Ok in Hrun as (i1 & _ & Hrun).
  apply obind_Ok in Hrun as (u & _ & Hrun). destruct (i1 <? _); [|done].
  apply obind_Ok in Hrun as (b & _ & Hrun). apply obind_Ok in Hrun as (u2 & _ & Hrun).
  apply obind_Ok in Hrun as (j' & _ & Hrun). destruct (j' <=? _); [|done].
  apply obind_Ok in Hrun as (e' & Hit & Hrun). injection Hrun as -> _. revert Hit. unfold madt_item, access.
  repeat case_match; cbn [obind]; intros Hit; try done; injection Hit as <-; simpl;
    repeat split; first [apply rd8_range|apply rd16_range|apply rd32_range].
Qed.

Lemma static_push_ok {A} (P : A -> Prop) cap (l : list A) a l' :
  Forall P l /\ (length l <= cap)%nat -> P a -> static_push cap l a = Ok l' -> Forall P l' /\ (length l' <= cap)%nat.
Proof.
  intros [Hl Hc] Ha. unfold static_push. destruct (Nat.ltb_spec (length l) cap); [|done]. intros [= <-].
  rewrite Forall_app, length_app. simpl. split; [split; [done|by constructor]|lia].
Qed.

Lemma madt_entry_type apic_base e f f' :
  found_ok f -> match e with ELapic _ | EIoApic _ | EIso _ | ENmi _ => entry_ok e | _ => True end ->
  madt_entry apic_base e f = Ok (Some f') -> found_ok f'.
Proof.
  intros [H1 H2 H3 H4 H5] He Hrun. destruct e; try done; simpl in Hrun;
    apply obind_Ok in Hrun as (l & Hl & Hrun); injection Hrun as <-; split; simpl; try done;
    try (by eapply static_push_ok; [|exact He|exact Hl]).
  repeat case_match; try done. unfold in_width, trunc. apply Z.mod_pos_bound. lia.
Qed.

Lemma madt_loop_type fuel m apic_base sdt i f f' :
  found_ok f -> madt_loop fuel m apic_base sdt i f = Ok (Some f') -> found_ok f'.
Proof.
  revert i f. induction fuel as [|fuel IH]; intros i f H0 Hrun; [done|].
  cbn [madt_loop] in Hrun. apply obind_Ok in Hrun as ([[e j]|] & Hn & Hrun); [|by injection Hrun as <-].
  apply obind_Ok in Hrun as ([f1|] & He & Hrun); [|done].
  eapply IH; [|exact Hrun]. eapply madt_entry_type; [exact H0| |exact He]. by eapply madt_next_type.
Qed.

Lemma found_nothing_ok : found_ok (mkFound [] [] [] [] 0).
Proof. split; simpl; [..|unfold in_width; lia]; split; (done || lia). Qed.

(** The bytes [l] lie at address [a]. *)
Definition holds (m : bytes) (a : Z) (l : list Z) : Prop :=
  forall i b, l !! i = Some b -> m (a + Z.of_nat i) = Some b /\ in_width 8 b.

Lemma holds_app m a l1 l2 : holds m a (l1 ++ l2) -> holds m a l1 /\ holds m (a + Z.of_nat (length l1)) l2.
Proof.
  intros H. split.
  - intros i b Hi. apply H. by apply lookup_app_l_Some.
  - intros i b Hi. replace (a + Z.of_nat (length l1) + Z.of_nat i) with (a + Z.of_nat (length l1 + i)) by lia.
    apply H. rewrite lookup_app_r by lia. by replace (length l1 + i - length l1)%nat with i by lia.
Qed.

Lemma holds_cons m a b l : holds m a (b :: l) -> rd8 m a = b /\ holds m (a + 1) l.
Proof.
  intros H. change (b :: l) with ([b] ++ l) in H. apply holds_app in H as [H1 H2]. split; [|exact H2].
  destruct (H1 0%nat b eq_refl) as [H0 Hb]. rewrite Z.add_0_r in H0. unfold rd8, trunc. rewrite H0. by apply Z.mod_small.
Qed.

Lemma holds_access m a l n : holds m a l -> n <= Z.of_nat (length l) -> access m a n = Ok tt.
Proof.
  intros H Hn. unfold access, readable. replace (forallb _ _) with true; [done|]. symmetry. apply forallb_forall.
  intros i Hi. apply list_elem_of_In, elem_of_seqZ in Hi. apply bool_decide_eq_true_2.
  destruct (lookup_lt_is_Some_2 l (Z.to_nat i)) as [b Hb]; [lia|]. destruct (H _ _ Hb) as [Hm _].
  rewrite Z2Nat.id in Hm by lia. by rewrite Hm.
Qed.

Lemma holds_le16 m a v : in_width 16 v -> holds m a (le16 v) -> rd16 m a = v.
Proof.
  intros Hv H. apply holds_cons in H as [H0 H]. apply holds_cons in H as [H1 _]. unfold rd16. rewrite H0, H1.
  unfold in_width in Hv. Z.div_mod_to_equations. lia.
Qed.

Lemma holds_le32 m a v : in_width 32 v -> holds m a (le32 v) -> rd32 m a = v.
Proof.
  intros Hv H. apply holds_app in H as [H1 H2]. apply holds_cons in H1 as [H0 H1]. apply holds_cons in H1 as [H1 _].
  apply holds_cons in H2 as [H2 H3]. apply holds_cons in H3 as [H3 _]. simpl length in *.
  unfold rd32, rd16. change (a + Z.of_nat 2) with (a + 2) in *. rewrite H0, H1, H2, H3.
  unfold in_width in Hv. Z.div_mod_to_equations. lia.
Qed.

Lemma encode_length e : entry_ok e -> 6 <= Z.of_nat (length (encode e)) <= 12.
Proof. destruct e; simpl; intros; try done; lia. Qed.

Lemma encode_count l : Forall entry_ok l -> (length l <= length (concat (encode <$> l)))%nat.
Proof.
  induction 1 as [|e l He Hl IH]; [done|]. rewrite fmap_cons. cbn [concat length]. rewrite length_app.
  pose proof (encode_length e He). lia.
Qed.

(** The header of the table declares [n] bytes of data. *)
Definition declares (m : bytes) (sdt n : Z) : Prop :=
  0 <= n /\ in_width 32 (HEADER_SIZE + n) /\ holds m (sdt + 4) (le32 (HEADER_SIZE + n)).

Lemma declares_spec m sdt n :
  declares m sdt n -> access m (sdt + 4) 4 = Ok tt /\ data_len m sdt = n /\ 0 <= n < 2 ^ 32.
Proof.
  intros (H0 & Hw & Hh). split; [by eapply holds_access|]. unfold data_len, sdt_length.
  rewrite (holds_le32 _ _ _ Hw Hh). unfold in_width, HEADER_SIZE in *. case_bools; lia.
Qed.

Lemma madt_next_head m sdt n i ty len rest :
  0 <= i -> 0 <= sdt < 2 ^ 63 -> declares m sdt n -> 2 <= len < 256 -> i + len <= n ->
  holds m (sdt + HEADER_SIZE + i) (ty :: len :: rest) ->
  madt_next m sdt i =
    (let? item := madt_item m ty len (sdt + HEADER_SIZE + i + 2) in Ok (Some (item, i + len))) /\
  holds m (sdt + HEADER_SIZE + i + 2) rest.
Proof.
  intros Hi Hs (Hacc & Hlen & Hn)%declares_spec Hl Hd Hh.
  assert (Hacc2 : access m (sdt + HEADER_SIZE + i) 2 = Ok tt) by (eapply holds_access; [done|simpl; lia]).
  apply holds_cons in Hh as [Hty Hh]. apply holds_cons in Hh as [Hlen' Hh].
  split; [|by replace (sdt + HEADER_SIZE + i + 2) with (sdt + HEADER_SIZE + i + 1 + 1) by lia].
  unfold madt_next. rewrite add_w_fits by (unfold in_width; lia). cbn [obind]. rewrite Hacc, Hlen. cbn [obind].
  destruct (Z.ltb_spec (i + 1) n); [|lia]. unfold data_address.
  rewrite add_w_fits by (unfold in_width, HEADER_SIZE; lia). cbn [obind]. rewrite Hacc2, Hty, Hlen'. cbn [obind].
  rewrite add_w_fits by (unfold in_width; lia). cbn [obind].
  destruct (Z.leb_spec (i + len) n); [done|lia].
Qed.

Lemma read_lapic_spec m a x :
  entry_ok (ELapic x) -> holds m a ([la_processor_id x; la_id x] ++ le32 (la_flags x)) -> read_lapic m a = x.
Proof.
  intros (_ & _ & Hf) [[H1 [H2 _]%holds_cons]%holds_cons H3%holds_le32]%holds_app; [|done].
  unfold read_lapic. simpl in H3. rewrite H1, H2. change (a + 2) with (a + Z.of_nat 2). rewrite H3. by destruct x.
Qed.

Lemma read_ioapic_spec m a x :
  entry_ok (EIoApic x) -> holds m a ([io_id x; 0] ++ le32 (io_address x) ++ le32 (io_gsib x)) -> read_ioapic m a = x.
Proof.
  intros (_ & Ha & Hg) [[H1 _]%holds_cons [H2%holds_le32 H3%holds_le32]%holds_app]%holds_app; [|done..].
  unfold read_ioapic. rewrite H1. simpl length in *. change (a + 2) with (a + Z.of_nat 2).
  replace (a + 6) with (a + Z.of_nat 2 + Z.of_nat 4) by lia. rewrite H2, H3. by destruct x.
Qed.

Lemma read_iso_spec m a x :
  entry_ok (EIso x) -> holds m a ([iso_bus x; iso_irq x] ++ le32 (iso_gsi x) ++ le16 (iso_flags x)) -> read_iso m a = x.
Proof.
  intros (_ & _ & Hg & Hf) [[H1 [H2 _]%holds_cons]%holds_cons [H3%holds_le32 H4%holds_le16]%holds_app]%holds_app; [|done..].
  unfold read_iso. rewrite H1, H2. simpl length in *. change (a + 2) with (a + Z.of_nat 2).
  replace (a + 6) with (a + Z.of_nat 2 + Z.of_nat 4) by lia. rewrite H3, H4. by destruct x.
Qed.

Lemma read_nmi_spec m a x :
  entry_ok (ENmi x) -> holds m a ([nmi_processor_id x] ++ le16 (nmi_flags x) ++ [nmi_lint_no x]) -> read_nmi m a = x.
Proof.
  intros (_ & Hf & _) [[H1 _]%holds_cons [H2%holds_le16 [H3 _]%holds_cons]%holds_app]%holds_app; [|done].
  unfold read_nmi. rewrite H1. simpl length in *. change (a + 1) with (a + Z.of_nat 1).
  replace (a + 3) with (a + Z.of_nat 1 + Z.of_nat 2) by lia. rewrite H2, H3. by destruct x.
Qed.

Lemma madt_next_encode m sdt n i e :
  0 <= i -> 0 <= sdt < 2 ^ 63 -> declares m sdt n -> entry_ok e ->
  i + Z.of_nat (length (encode e)) <= n -> holds m (sdt + HEADER_SIZE + i) (encode e) ->
  madt_next m sdt i = Ok (Some (e, i + Z.of_nat (length (encode e)))).
Proof.
  intros Hi Hs Hn He Hd Hh. destruct e as [x| |x| |x| |x| |]; try done; simpl length in Hd |- *.
  - destruct (madt_next_head m sdt n i 0 8 _ Hi Hs Hn ltac:(lia) Hd Hh) as [-> Hr].
    unfold madt_item. simpl. erewrite holds_access; [|exact Hr|done]. simpl. by rewrite (read_lapic_spec _ _ x).
  - destruct (madt_next_head m sdt n i 1 12 _ Hi Hs Hn ltac:(lia) Hd Hh) as [-> Hr].
    unfold madt_item. simpl. erewrite holds_access; [|exact Hr|done]. simpl. by rewrite (read_ioapic_spec _ _ x).
  - destruct (madt_next_head m sdt n i 2 10 _ Hi Hs Hn ltac:(lia) Hd Hh) as [-> Hr].
    unfold madt_item. simpl. erewrite holds_access; [|exact Hr|done]. simpl. by rewrite (read_iso_spec _ _ x).
  - destruct (madt_next_head m sdt n i 4 6 _ Hi Hs Hn ltac:(lia) Hd Hh) as [-> Hr].
    unfold madt_item. simpl. erewrite holds_access; [|exact Hr|done]. simpl. by rewrite (read_nmi_spec _ _ x).
Qed.

(** The entries of each kind, and the processors [Madt::init] counts. *)
Definition lapics_of (l : list MadtEntry) : list LapicEntry :=
  omap (fun e => match e with ELapic x => Some x | _ => None end) l.
Definition ioapics_of (l : list MadtEntry) : list IoApic :=
  omap (fun e => match e with EIoApic x => Some x | _ => None end) l.
Definition isos_of (l : list MadtEntry) : list InterruptSourceOverride :=
  omap (fun e => match e with EIso x => Some x | _ => None end) l.
Definition nmis_of (l : list MadtEntry) : list ApicNMI :=
  omap (fun e => match e with ENmi x => Some x | _ => None end) l.

(** The lists after the entries [l]. *)
Definition collects (f f' : found_apics) (l : list MadtEntry) : Prop :=
  local_apics f' = local_apics f ++ lapics_of l /\ io_apics f' = io_apics f ++ ioapics_of l /\
  isos f' = isos f ++ isos_of l /\ nmis f' = nmis f ++ nmis_of l.

(** There is room for the entries [l]. *)
Definition room (f : found_apics) (l : list MadtEntry) : Prop :=
  (length (local_apics f) + length (lapics_of l) <= 20)%nat /\ (length (io_apics f) + length (ioapics_of l) <= 10)%nat /\
  (length (isos f) + length (isos_of l) <= 10)%nat /\ (length (nmis f) + length (nmis_of l) <= 10)%nat.

Lemma madt_entry_collects apic_base e l f :
  entry_ok e -> room f (e :: l) ->
  exists f', madt_entry apic_base e f = Ok (Some f') /\ room f' l /\
    (forall f2, collects f' f2 l -> collects f f2 (e :: l)).
Proof.
  intros He (R1 & R2 & R3 & R4). destruct e as [x| |x| |x| |x| |]; try done; simpl in *;
    unfold static_push; (destruct (Nat.ltb_spec (length (local_apics f)) 20) as [?|?] || idtac);
    (destruct (Nat.ltb_spec (length (io_apics f)) 10) as [?|?] || idtac);
    (destruct (Nat.ltb_spec (length (isos f)) 10) as [?|?] || idtac);
    (destruct (Nat.ltb_spec (length (nmis f)) 10) as [?|?] || idtac); try lia; cbn [obind];
    (eexists; split; [done|]); unfold room, collects; simpl; rewrite ?length_app; simpl;
    (split; [lia|]); intros f2 (-> & -> & -> & ->); by rewrite <-?app_assoc.
Qed.

(** The loop collects the encoded entries [l] and goes on behind them. *)
Lemma madt_loop_encode l k fuel m apic_base sdt n i f :
  0 <= i -> 0 <= sdt < 2 ^ 63 -> declares m sdt n -> Forall entry_ok l -> room f l -> fuel = (length l + k)%nat ->
  i + Z.of_nat (length (concat (encode <$> l))) <= n ->
  holds m (sdt + HEADER_SIZE + i) (concat (encode <$> l)) ->
  exists f', collects f f' l /\
    madt_loop fuel m apic_base sdt i f = madt_loop k m apic_base sdt (i + Z.of_nat (length (concat (encode <$> l)))) f'.
Proof.
  revert fuel i f. induction l as [|e l IH]; intros fuel i f Hi Hs Hn Hok Hr -> Hd Hh.
  - exists f. simpl. rewrite Z.add_0_r. split; [|done]. unfold collects. simpl. by rewrite !app_nil_r.
  - inversion Hok as [|? ? He Hl]; subst. rewrite fmap_cons in Hd, Hh |- *. cbn [concat] in Hd, Hh |- *.
    rewrite length_app in Hd |- *. apply holds_app in Hh as [Hh1 Hh2]. simpl plus. cbn [madt_loop].
    rewrite (madt_next_encode m sdt n i e) by (done || lia). cbn [obind].
    destruct (madt_entry_collects apic_base e l f He Hr) as (f1 & -> & Hr1 & Hc1). cbn [obind].
    destruct (IH (length l + k)%nat (i + Z.of_nat (length (encode e))) f1) as (f2 & Hc2 & ->);
      [lia|done|done|done|done|done|lia|by rewrite Z.add_assoc|].
    exists f2. split; [by apply Hc1|]. f_equal. lia.
Qed.

(** C24: the parser inverts the layout of the table.  If the table's data are
    eight bytes (local APIC address and flags) followed by the bytes of a list
    of local APICs, I/O APICs, source overrides and NMIs, no more of each than
    the kernel has room for, [Madt::init] collects exactly these, in order. *)
Theorem madt_roundtrip m apic_base t l :
  0 <= m_sdt t < 2 ^ 63 -> Forall entry_ok l -> room (mkFound [] [] [] [] 0) l ->
  declares m (m_sdt t) (8 + Z.of_nat (length (concat (encode <$> l)))) ->
  holds m (m_sdt t + HEADER_SIZE + 8) (concat (encode <$> l)) ->
  exists f, madt_collect m apic_base t = Ok (Some f) /\
    local_apics f = lapics_of l /\ io_apics f = ioapics_of l /\ isos f = isos_of l /\ nmis f = nmis_of l.
Proof.
  intros Hs Hok Hr Hn Hh. unfold madt_collect. destruct (declares_spec _ _ _ Hn) as (Hacc & Hd & Hb).
  rewrite Hacc. cbn [obind]. pose proof (encode_count l Hok).
  destruct (madt_loop_encode l (S (Z.to_nat (data_len m (m_sdt t))) - length l) (S (Z.to_nat (data_len m (m_sdt t)))) m
    apic_base (m_sdt t) _ 8 (mkFound [] [] [] [] 0) ltac:(lia) Hs Hn Hok Hr) as (f & Hc & ->); [lia|lia|done|].
  exists f. split; [|exact Hc]. rewrite Nat.sub_succ_l by lia. cbn [madt_loop]. unfold madt_next.
  rewrite add_w_fits by (unfold in_width; lia). cbn [obind]. rewrite Hacc, Hd. cbn [obind].
  by destruct (Z.ltb_spec (8 + Z.of_nat (length (concat (encode <$> l))) + 1)
    (8 + Z.of_nat (length (concat (encode <$> l))))); [lia|].
Qed.

(** *** Soundness for arbitrary bytes *)

(** The bytes [l] can be read at address [a]. *)
Definition reads (m : bytes) (a : Z) (l : list Z) : Prop :=
  access m a (Z.of_nat (length l)) = Ok tt /\ slice m a (length l) = l.

(** An entry's bytes, with the reserved byte of an I/O APIC. *)
Definition encode_with (r : Z) (e : MadtEntry) : list Z :=
  match e with EIoApic x => [1; 12; io_id x; r] ++ le32 (io_address x) ++ le32 (io_gsib x) | _ => encode e end.

(** At [a] lie the entries [l], one behind the other. *)
Fixpoint encodings (m : bytes) (a : Z) (l : list MadtEntry) : Prop :=
  match l with
  | [] => True
  | e :: l => (exists r, reads m a (encode_with r e)) /\ encodings m (a + Z.of_nat (length (encode e))) l
  end.

Definition known_entries : list (Z * Z) := [(0, 8); (1, 12); (2, 10); (4, 6)].

Lemma slice_S m a n : slice m a (S n) = rd8 m a :: slice m (a + 1) n.
Proof.
  unfold slice. rewrite seqZ_cons by lia. rewrite fmap_cons, Z.add_0_r. f_equal.
  replace (Z.pred (Z.of_nat (S n))) with (Z.of_nat n) by lia. rewrite <-(fmap_add_seqZ 1 0).
  rewrite <-list_fmap_compose. apply list_fmap_ext. intros i x _. simpl. f_equal. lia.
Qed.

Lemma le16_rd m a : le16 (rd16 m a) = [rd8 m a; rd8 m (a + 1)].
Proof.
  unfold le16, rd16. pose proof (rd8_range m a). pose proof (rd8_range m (a + 1)).
  f_equal; [|f_equal]; Z.div_mod_to_equations; lia.
Qed.

Lemma le32_rd m a : le32 (rd32 m a) = [rd8 m a; rd8 m (a + 1); rd8 m (a + 2); rd8 m (a + 3)].
Proof.
  unfold le32, le16, rd32, rd16. pose proof (rd8_range m a). pose proof (rd8_range m (a + 1)).
  pose proof (rd8_range m (a + 2)). pose proof (rd8_range m (a + 2 + 1)) as H3. replace (a + 2 + 1) with (a + 3) in * by lia.
  cbn [app]. f_equal; [|f_equal; [|f_equal; [|f_equal]]]; Z.div_mod_to_equations; lia.
Qed.

Lemma access_join m a n k : access m a n = Ok tt -> access m (a + n) k = Ok tt -> access m a (n + k) = Ok tt.
Proof.
  unfold access. destruct (readable m a n) eqn:H1; [|done]. destruct (readable m (a + n) k) eqn:H2; [|done]. intros _ _.
  replace (readable m a (n + k)) with true; [done|]. symmetry. unfold readable in *. rewrite forallb_forall in *.
  intros i Hi. apply list_elem_of_In, elem_of_seqZ in Hi. destruct (decide (i < n)).
  - apply H1, list_elem_of_In, elem_of_seqZ. lia.
  - replace (a + i) with (a + n + (i - n)) by lia. apply H2, list_elem_of_In, elem_of_seqZ. lia.
Qed.

Lemma unknown_entry ty len :
  (ty = 0 -> len <> 8) -> (ty = 1 -> len <> 12) -> (ty = 2 -> len <> 10) -> (ty = 4 -> len <> 6) ->
  (ty, len) ∉ known_entries.
Proof.
  intros H0 H1 H2 H4. unfold known_entries. rewrite !elem_of_cons.
  intros [[= ? ?]|[[= ? ?]|[[= ? ?]|[[= ? ?]|[]%elem_of_nil]]]]; lia.
Qed.

(** What an iteration has read. *)
Lemma madt_next_sound m sdt i e j :
  0 <= i < 2 ^ 33 -> 0 <= sdt < 2 ^ 63 -> madt_next m sdt i = Ok (Some (e, j)) ->
  let a := sdt + HEADER_SIZE + i in
  match e with
  | ELapic _ | EIoApic _ | EIso _ | ENmi _ =>
      entry_ok e /\ (exists r, reads m a (encode_with r e)) /\ j = i + Z.of_nat (length (encode e))
  | _ => (rd8 m a, rd8 m (a + 1)) ∉ known_entries /\ i + 1 < data_len m sdt /\ i + rd8 m (a + 1) <= data_len m sdt
  end.
Proof.
  intros Hi Hs Hrun a. pose proof (madt_next_type _ _ _ _ _ Hrun) as Hty. unfold madt_next in Hrun.
  rewrite add_w_fits in Hrun by (unfold in_width; lia). cbn [obind] in Hrun.
  apply obind_Ok in Hrun as (u & _ & Hrun). destruct (Z.ltb_spec (i + 1) (data_len m sdt)) as [Hlt|]; [|done].
  unfold data_address in Hrun. rewrite add_w_fits in Hrun by (unfold in_width, HEADER_SIZE; lia). cbn [obind] in Hrun.
  fold a in Hrun. apply obind_Ok in Hrun as ([] & Ha & Hrun). pose proof (rd8_range m (a + 1)) as Hl.
  rewrite add_w_fits in Hrun by (unfold in_width; lia). cbn [obind] in Hrun.
  destruct (Z.leb_spec (i + rd8 m (a + 1)) (data_len m sdt)) as [Hle|]; [|done].
  apply obind_Ok in Hrun as (e' & Hit & Hrun). injection Hrun as -> <-. unfold madt_item in Hit.
  assert (Hread : forall n (l : list Z), access m (a + 2) (Z.of_nat n) = Ok tt -> length l = (2 + n)%nat ->
    slice m a (2 + n) = l -> reads m a l).
  { intros n l Hac Hlen Hsl. unfold reads. rewrite Hlen. split; [|exact Hsl].
    replace (Z.of_nat (2 + n)) with (2 + Z.of_nat n) by lia. by apply access_join. }
  destruct (Z.eqb_spec (rd8 m a) 0) as [E0|]; [destruct (Z.eqb_spec (rd8 m (a + 1)) (6 + 2)) as [El|]|
   destruct (Z.eqb_spec (rd8 m a) 1) as [E0|]; [destruct (Z.eqb_spec (rd8 m (a + 1)) (10 + 2)) as [El|]|
   destruct (Z.eqb_spec (rd8 m a) 2) as [E0|]; [destruct (Z.eqb_spec (rd8 m (a + 1)) (8 + 2)) as [El|]|
   destruct (Z.eqb_spec (rd8 m a) 4) as [E0|]; [destruct (Z.eqb_spec (rd8 m (a + 1)) (4 + 2)) as [El|]|]]]];
   [| |idtac..]; try (injection Hit as <-; split; [apply unknown_entry; lia|lia]);
   apply obind_Ok in Hit as ([] & Hac & Hit); injection Hit as <-; (split; [exact Hty|]); (split; [|simpl; lia]).
  - exists 0. apply (Hread 6%nat); [exact Hac|done|]. cbn [Nat.add]; rewrite !slice_S. cbn [encode_with encode read_lapic la_processor_id la_id la_flags app].
    rewrite le32_rd, E0, El, <-!Z.add_assoc. reflexivity.
  - exists (rd8 m (a + 3)). apply (Hread 10%nat); [exact Hac|done|]. cbn [Nat.add]; rewrite !slice_S.
    cbn [encode_with read_ioapic io_id io_address io_gsib app]. rewrite !le32_rd, E0, El, <-!Z.add_assoc. reflexivity.
  - exists 0. apply (Hread 8%nat); [exact Hac|done|]. cbn [Nat.add]; rewrite !slice_S.
    cbn [encode_with encode read_iso iso_bus iso_irq iso_gsi iso_flags app]. rewrite le32_rd, le16_rd, E0, El, <-!Z.add_assoc. reflexivity.
  - exists 0. apply (Hread 4%nat); [exact Hac|done|]. cbn [Nat.add]; rewrite !slice_S.
    cbn [encode_with encode read_nmi nmi_processor_id nmi_flags nmi_lint_no app]. rewrite le16_rd, E0, El, <-!Z.add_assoc. reflexivity.
Qed.

(** No entry ends the table at offset [j]: too few bytes are left, or the length of
    the entry there leads beyond the end. *)
Definition table_ends (m : bytes) (sdt j : Z) : Prop :=
  data_len m sdt <= j + 1 \/ data_len m sdt < j + rd8 m (sdt + HEADER_SIZE + j + 1).

Lemma madt_next_end m sdt i :
  0 <= i < 2 ^ 33 -> 0 <= sdt < 2 ^ 63 -> madt_next m sdt i = Ok None -> table_ends m sdt i.
Proof.
  intros Hi Hs Hrun. unfold madt_next in Hrun. rewrite add_w_fits in Hrun by (unfold in_width; lia). cbn [obind] in Hrun.
  apply obind_Ok in Hrun as (u & _ & Hrun). destruct (Z.ltb_spec (i + 1) (data_len m sdt)) as [Hlt|]; [|left; lia].
  unfold data_address in Hrun. rewrite add_w_fits in Hrun by (unfold in_width, HEADER_SIZE; lia). cbn [obind] in Hrun.
  apply obind_Ok in Hrun as ([] & Ha & Hrun). pose proof (rd8_range m (sdt + HEADER_SIZE + i + 1)) as Hl.
  rewrite add_w_fits in Hrun by (unfold in_width; lia). cbn [obind] in Hrun.
  destruct (Z.leb_spec (i + rd8 m (sdt + HEADER_SIZE + i + 1)) (data_len m sdt)); [|right; lia].
  by apply obind_Ok in Hrun as (e' & _ & Hrun).
Qed.

Lemma static_push_app {A} cap (l : list A) a l' : static_push cap l a = Ok l' -> l' = l ++ [a].
Proof. unfold static_push. destruct (_ <? _)%nat; [|done]. by intros [= <-]. Qed.

Lemma madt_entry_run apic_base e f f' :
  madt_entry apic_base e f = Ok (Some f') -> forall l f2, collects f' f2 l -> collects f f2 (e :: l).
Proof.
  intros Hrun l f2. unfold collects. destruct e; try done; simpl in Hrun;
    apply obind_Ok in Hrun as (l' & Hp & Hrun); injection Hrun as <-; apply static_push_app in Hp as ->; simpl;
    intros (-> & -> & -> & ->); by rewrite <-?app_assoc.
Qed.

(** The loop from offset [i] on. *)
Lemma madt_loop_sound fuel m apic_base sdt i f r :
  0 <= i < 2 ^ 33 -> 0 <= sdt < 2 ^ 63 -> madt_loop fuel m apic_base sdt i f = Ok r ->
  exists l, Forall entry_ok l /\ encodings m (sdt + HEADER_SIZE + i) l /\
    let j := i + Z.of_nat (length (concat (encode <$> l))) in
    match r with
    | Some f' => collects f f' l /\ table_ends m sdt j
    | None => (rd8 m (sdt + HEADER_SIZE + j), rd8 m (sdt + HEADER_SIZE + j + 1)) ∉ known_entries /\ ~ table_ends m sdt j
    end.
Proof.
  revert i f. induction fuel as [|fuel IH]; intros i f Hi Hs Hrun; [done|]. cbn [madt_loop] in Hrun.
  apply obind_Ok in Hrun as ([[e j]|] & Hn & Hrun); cycle 1.
  { injection Hrun as <-. exists []. split; [constructor|]. split; [exact I|]. simpl. rewrite Z.add_0_r.
    split; [|by eapply madt_next_end]. unfold collects. simpl. by rewrite !app_nil_r. }
  pose proof (madt_next_sound m sdt i e j Hi Hs Hn) as Hsound. cbv zeta in Hsound.
  pose proof (madt_next_spec m sdt i Hi Hs) as Hspec. rewrite Hn in Hspec. destruct Hspec as [Hj _].
  pose proof (data_len_range m sdt) as Hd. apply obind_Ok in Hrun as ([f1|] & He & Hrun).
  - assert (Hok : entry_ok e /\ (exists r, reads m (sdt + HEADER_SIZE + i) (encode_with r e)) /\
      j = i + Z.of_nat (length (encode e))) by (destruct e; done). destruct Hok as (Hok & Hr & ->).
    destruct (IH (i + Z.of_nat (length (encode e))) f1 ltac:(lia) Hs Hrun) as (l & Hl & Henc & Hres). exists (e :: l).
    split; [by constructor|]. split; [split; [exact Hr|by rewrite <-Z.add_assoc]|].
    rewrite fmap_cons. cbn [concat]. rewrite length_app, Nat2Z.inj_add, Z.add_assoc. cbv zeta in Hres |- *.
    destruct r as [f'|]; [|exact Hres]. destruct Hres as [Hc He']. split; [|exact He']. by eapply madt_entry_run.
  - injection Hrun as <-. exists []. split; [constructor|]. split; [exact I|]. cbn [fmap list_fmap concat length].
    rewrite Z.add_0_r. cbv zeta.
    assert (Hbad : (rd8 m (sdt + HEADER_SIZE + i), rd8 m (sdt + HEADER_SIZE + i + 1)) ∉ known_entries /\
      i + 1 < data_len m sdt /\ i + rd8 m (sdt + HEADER_SIZE + i + 1) <= data_len m sdt).
    { destruct e; try exact Hsound; simpl in He; apply obind_Ok in He as (? & _ & He); discriminate He. }
    destruct Hbad as (Hk & H1 & H2). split; [exact Hk|]. unfold table_ends. lia.
Qed.

(** C26: [Madt::init] reads no more into a table than there is, whatever bytes it holds.
    When it gets to the end, the bytes behind the first eight of the data are those of
    a list of entries with fields of their widths (an I/O APIC with any reserved byte),
    what it has collected are exactly these entries, in order, and behind them the
    table ends, or the entry there would lead beyond its end.  When it returns early, the
    entry behind such a list is complete, but has a type or a length it does not
    know. *)
Theorem madt_sound m apic_base t r :
  0 <= m_sdt t < 2 ^ 63 -> madt_collect m apic_base t = Ok r ->
  exists l, Forall entry_ok l /\ encodings m (m_sdt t + HEADER_SIZE + 8) l /\
    let j := 8 + Z.of_nat (length (concat (encode <$> l))) in
    match r with
    | Some f =>
        local_apics f = lapics_of l /\ io_apics f = ioapics_of l /\ isos f = isos_of l /\ nmis f = nmis_of l /\
        table_ends m (m_sdt t) j
    | None =>
        (rd8 m (m_sdt t + HEADER_SIZE + j), rd8 m (m_sdt t + HEADER_SIZE + j + 1)) ∉ known_entries /\
        ~ table_ends m (m_sdt t) j
    end.
Proof.
  intros Hs Hrun. unfold madt_collect in Hrun. apply obind_Ok in Hrun as (u & _ & Hrun).
  destruct (madt_loop_sound _ _ _ _ 8 _ r ltac:(lia) Hs Hrun) as (l & Hl & He & Hr). exists l.
  split; [exact Hl|]. split; [exact He|]. cbv zeta in Hr |- *. destruct r as [f|]; [|exact Hr].
  destruct Hr as ((H1 & H2 & H3 & H4) & Hend). by split_and!.
Qed.

(** one entry of a kind the kernel does not know (a local x2APIC or an
    address override, say) anywhere after well-formed ones makes [Madt::init]
    return without setting up the APIC manager. *)
Theorem madt_unknown_entry m apic_base t l n ty len rest :
  0 <= m_sdt t < 2 ^ 63 -> Forall entry_ok l -> room (mkFound [] [] [] [] 0) l ->
  2 <= len < 256 -> ~ ty ∈ [0; 1; 2; 4] ->
  declares m (m_sdt t) n -> 8 + Z.of_nat (length (concat (encode <$> l))) + len <= n ->
  holds m (m_sdt t + HEADER_SIZE + 8) (concat (encode <$> l) ++ ty :: len :: rest) ->
  madt_collect m apic_base t = Ok None.
Proof.
  intros Hs Hok Hr Hl Hty Hn Hd [Hh1 Hh2]%holds_app. unfold madt_collect.
  destruct (declares_spec _ _ _ Hn) as (Hacc & Hdl & Hb). rewrite Hacc. cbn [obind]. pose proof (encode_count l Hok).
  destruct (madt_loop_encode l (S (Z.to_nat (data_len m (m_sdt t))) - length l) (S (Z.to_nat (data_len m (m_sdt t)))) m
    apic_base (m_sdt t) n 8 (mkFound [] [] [] [] 0) ltac:(lia) Hs Hn Hok Hr) as (f & Hc & ->); [lia|lia|done|].
  rewrite Nat.sub_succ_l by lia. cbn [madt_loop]. rewrite <-Z.add_assoc in Hh2.
  destruct (madt_next_head m (m_sdt t) n (8 + Z.of_nat (length (concat (encode <$> l)))) ty len rest) as [-> _];
    try (done || lia). unfold madt_item. rewrite !not_elem_of_cons in Hty. case_bools; try lia; done.
Qed.

(** the boot processor is counted as an application processor.  On the boot
    processor bit 8 of IA32_APIC_BASE is set; [Madt::init] compares the masked
    register (0x100) with the 8-bit APIC id, so that every enabled local APIC,
    the boot processor's own included, is counted. *)
Theorem bsp_counted apic_base x f :
  Z.testbit apic_base 8 = true -> in_width 8 (la_id x) -> Z.odd (la_flags x) = true ->
  0 <= cpus f < 2 ^ 63 -> (length (local_apics f) < 20)%nat ->
  exists f', madt_entry apic_base (ELapic x) f = Ok (Some f') /\ cpus f' = cpus f + 1.
Proof.
  intros Hb Hid Hodd Hc Hl. simpl. unfold static_push. destruct (Nat.ltb_spec (length (local_apics f)) 20); [|lia].
  cbn [obind]. eexists. split; [done|]. cbn [cpus].
  assert (H1 : Z.land (la_flags x) 1 = 1).
  { change 1 with (Z.ones 1) at 1. rewrite Z.land_ones by lia. change (2 ^ 1) with 2.
    rewrite Zmod_odd, Hodd. done. }
  assert (H8 : Z.land apic_base (2 ^ 8) = 2 ^ 8).
  { apply Z.bits_inj'. intros n Hn. rewrite Z.land_spec. rewrite Z.pow2_bits_eqb by lia.
    destruct (Z.eqb_spec 8 n) as [<-|]; [by rewrite Hb|apply andb_false_r]. }
  unfold in_width in Hid. rewrite H1, H8. destruct (Z.eqb_spec (2 ^ 8) (la_id x)); [lia|].
  unfold trunc. apply Z.mod_small. lia.
Qed.

(** ** Finding the tables *)

(** The descriptor the search finds over the indices [l], with memory mapped. *)
Lemma search_from_spec m start l :
  0 <= start < 2 ^ 60 -> Forall (fun i => 0 <= i < 2 ^ 58) l ->
  Forall (fun i => readable m (start + i * 16) 36 = true) l ->
  exists r, search_from m start l = Ok r /\
  match r with
  | Some d => exists l1 i l2, l = l1 ++ i :: l2 /\ d = read_rsdp m (start + i * 16) /\
      slice m (start + i * 16) 8 = RSD_PTR /\ Forall (fun j => slice m (start + j * 16) 8 <> RSD_PTR) l1
  | None => Forall (fun j => slice m (start + j * 16) 8 <> RSD_PTR) l
  end.
Proof.
  intros Hs. induction l as [|i l IH]; intros Hl Hr; cbn [search_from]; [by exists None|].
  inversion Hl as [|? ? Hi Hl']; subst. inversion Hr as [|? ? Hri Hrl]; subst. specialize (IH Hl' Hrl).
  rewrite mul_w_fits by (unfold in_width; lia). cbn [obind]. rewrite add_w_fits by (unfold in_width; lia). cbn [obind].
  rewrite (readable_prefix _ _ 36) by (done || lia). cbn [obind]. case_decide as Hsig.
  - rewrite (readable_prefix _ _ 36) by (done || lia). cbn [obind]. eexists. split; [done|]. exists [], i, l.
    repeat split; [done|constructor].
  - destruct IH as (r & -> & Hsp). exists r. split; [done|]. destruct r as [d|].
    + destruct Hsp as (l1 & j & l2 & -> & Ha & Hsj & Hl1). exists (i :: l1), j, l2. repeat split; [done|done|by constructor].
    + by constructor.
Qed.

Lemma rsdp_sdt_nonneg m a : 0 <= rsdp_sdt (read_rsdp m a).
Proof.
  unfold rsdp_sdt, read_rsdp, rd64. cbn [rp_revision rp_xsdt_address rp_rsdt_address].
  pose proof (rd32_range m (a + 16)). pose proof (rd32_range m (a + 24)). pose proof (rd32_range m (a + 24 + 4)).
  case_bools; lia.
Qed.

Lemma search_from_read m start l d : search_from m start l = Ok (Some d) -> exists a, d = read_rsdp m a.
Proof.
  induction l as [|i l IH]; cbn [search_from]; intros Hrun; [done|].
  apply obind_Ok in Hrun as (o & _ & Hrun). apply obind_Ok in Hrun as (a & _ & Hrun).
  apply obind_Ok in Hrun as (u & _ & Hrun). case_decide; [|auto].
  apply obind_Ok in Hrun as (u2 & _ & Hrun). injection Hrun as <-. by eexists.
Qed.

Lemma rsdp_search_nonneg m start end_ d : rsdp_search m start end_ = Ok (Some d) -> 0 <= rsdp_sdt d.
Proof.
  unfold rsdp_search. intros Hx. apply obind_Ok in Hx as (e & _ & Hx). apply obind_Ok in Hx as (e2 & _ & Hx).
  apply search_from_read in Hx as [a ->]. apply rsdp_sdt_nonneg.
Qed.

(** [RsdpDescriptor::search] returns the descriptor at the first address of the
    range, in steps of 16 bytes, at which the signature lies, and nothing
    exactly when there is none. *)
Theorem rsdp_search_first m start end_ :
  0 <= start <= end_ -> end_ < 2 ^ 60 -> readable m start (end_ - start + 37) = true ->
  exists r, rsdp_search m start end_ = Ok r /\
  match r with
  | Some d => exists i, 0 <= i < (end_ + 1 - start) / 16 /\ d = read_rsdp m (start + i * 16) /\
      slice m (start + i * 16) 8 = RSD_PTR /\ forall j, 0 <= j < i -> slice m (start + j * 16) 8 <> RSD_PTR
  | None => forall j, 0 <= j < (end_ + 1 - start) / 16 -> slice m (start + j * 16) 8 <> RSD_PTR
  end.
Proof.
  intros Hs He Hr. unfold rsdp_search. rewrite add_w_fits by (unfold in_width; lia). cbn [obind].
  rewrite sub_w_fits by (unfold in_width; lia). cbn [obind]. set (n := (end_ + 1 - start) / 16).
  assert (Hn : 0 <= n < 2 ^ 58 /\ n * 16 <= end_ + 1 - start) by (subst n; Z.div_mod_to_equations; lia).
  destruct (search_from_spec m start (seqZ 0 n)) as (r & -> & Hsp); [lia| | |].
  - apply Forall_forall. intros i Hi%elem_of_seqZ. lia.
  - apply Forall_forall. intros i Hi%elem_of_seqZ. eapply readable_sub; [exact Hr|lia|lia].
  - exists r. split; [done|]. destruct r as [a|].
    + destruct Hsp as (l1 & i & l2 & Hl & Ha & Hsig & Hnone).
      assert (Hi : seqZ 0 n !! length l1 = Some i) by (by rewrite Hl, list_lookup_middle).
      apply lookup_seqZ in Hi as [Hi Hlt]. exists i. split; [lia|]. split; [done|]. split; [done|].
      intros j Hj. rewrite Forall_forall in Hnone. apply Hnone. apply list_elem_of_lookup. exists (Z.to_nat j).
      rewrite <-(lookup_app_l l1 (i :: l2)) by lia. rewrite <-Hl. apply lookup_seqZ. lia.
    + intros j Hj. rewrite Forall_forall in Hsp. apply Hsp, elem_of_seqZ. lia.
Qed.

(** An ACPI 2.0 machine stops the kernel.  For a root pointer of revision 2
    or more the kernel follows the pointer to the extended table, whose
    signature is "XSDT", and [Rsdt::new] accepts nothing but "RSDT".  [Xsdt::new]
    would take the table, but nothing calls it. *)
Theorem xsdt_panics m d :
  2 <= rp_revision d -> holds m (rp_xsdt_address d) XSDT_SIG ->
  rsdt_new m (rsdp_sdt d) = panic "Non-matching signature, aborting ..." /\
  xsdt_new m (rsdp_sdt d) = Ok (Some (rsdp_sdt d)).
Proof.
  intros Hr Hs. unfold rsdp_sdt. destruct (Z.leb_spec 2 (rp_revision d)); [|lia].
  assert (Hsig : sdt_signature m (rp_xsdt_address d) = XSDT_SIG).
  { unfold sdt_signature, slice, XSDT_SIG in *. simpl. repeat (apply holds_cons in Hs as [? Hs]).
    rewrite <-!Z.add_assoc in *. simpl in *. rewrite Z.add_0_r. by repeat f_equal. }
  unfold rsdt_new, xsdt_new. rewrite (holds_access _ _ _ 4 Hs) by done. cbn [obind]. rewrite Hsig.
  by split.
Qed.

(** The other tables are read before anything maps them: where the first entry
    of the root table points to an address that is not mapped, the search for the
    MADT takes a page fault. *)
Theorem find_sdt_faults m r a n :
  other_entries r = (a, n) -> 0 < n -> readable m a 4 = true -> m (rd32 m a) = None ->
  find_sdt m r APIC_SIG = Err (EFault (rd32 m a)).
Proof.
  intros Hr Hn Ha Hm. unfold find_sdt. rewrite Hr, seqZ_cons by lia. rewrite fmap_cons. cbn [find_sdt_in].
  rewrite Z.mul_0_r, Z.add_0_r. rewrite (readable_prefix _ _ 4) by (done || lia). cbn [obind].
  unfold access, readable. rewrite seqZ_cons by lia. cbn [forallb]. rewrite Z.add_0_r, Hm. done.
Qed.

(** ** Concrete tables *)

(** A memory with the bytes [l] at [base]. *)
Definition mem_of (base : Z) (l : list Z) : bytes :=
  fun a => if base <=? a then l !! Z.to_nat (a - base) else None.

Definition demo_entries : list MadtEntry :=
  [ELapic (mkLapic 0 0 1); ELapic (mkLapic 1 1 1); EIoApic (mkIoApic 2 0xfec00000 0);
   EIso (mkIso 0 0 2 5); ENmi (mkNmi 255 0 1)].

Definition demo_madt_bytes (tail : list Z) : list Z :=
  APIC_SIG ++ le32 (36 + 8 + Z.of_nat (length (concat (encode <$> demo_entries) ++ tail))) ++ replicate 28 0 ++
  le32 0xfee00000 ++ le32 1 ++ concat (encode <$> demo_entries) ++ tail.

Definition demo_mem (tail : list Z) : bytes := mem_of 0x7fe0000 (demo_madt_bytes tail).
Definition demo_madt : Madt := mkMadt 0x7fe0000 0xfee00000 1.

Lemma demo_entries_ok : Forall entry_ok demo_entries /\ room (mkFound [] [] [] [] 0) demo_entries.
Proof. split; [repeat constructor; simpl; lia|]. unfold room. simpl. lia. Qed.

Definition holdsb (m : bytes) (a : Z) (l : list Z) : bool :=
  forallb (fun ib => fits 8 (snd ib) && bool_decide (m (a + Z.of_nat (fst ib)) = Some (snd ib))) (imap pair l).

Lemma holds_check m a l : holdsb m a l = true -> holds m a l.
Proof.
  unfold holdsb. rewrite forallb_forall. intros H i b Hi.
  specialize (H (i, b)). rewrite andb_true_iff, fits_spec, bool_decide_eq_true in H. apply and_comm, H.
  apply list_elem_of_In, list_elem_of_lookup. exists i. by rewrite list_lookup_imap, Hi.
Qed.

Lemma demo_holds : holds (demo_mem []) (0x7fe0000 + HEADER_SIZE + 8) (concat (encode <$> demo_entries)).
Proof. apply holds_check. vm_compute. reflexivity. Qed.

Lemma demo_declares tail n :
  n = 8 + Z.of_nat (length (concat (encode <$> demo_entries) ++ tail)) -> holdsb (demo_mem tail) 0x7fe0004 (le32 (36 + n)) = true ->
  n < 2 ^ 30 -> declares (demo_mem tail) (m_sdt demo_madt) n.
Proof. intros -> H Hn. split; [lia|]. split; [unfold in_width, HEADER_SIZE; lia|]. by apply holds_check. Qed.

Lemma demo_sdt_range : 0 <= m_sdt demo_madt < 2 ^ 63.
Proof. simpl. lia. Qed.

Lemma madt_terminates_witness :
  madt_collect (demo_mem [0; 0]) 0x900 demo_madt <> Err EFuel /\
  madt_collect (fun a => if a <? 0x7fe0000 then Some 77 else demo_mem [] a) 0x900 demo_madt
  = madt_collect (demo_mem []) 0x900 demo_madt.
Proof.
  split; [exact (proj1 (madt_terminates (demo_mem [0; 0]) 0x900 demo_madt demo_sdt_range))|].
  apply (madt_terminates (demo_mem []) 0x900 demo_madt demo_sdt_range).
  intros a Ha. simpl in Ha. destruct (Z.ltb_spec a 0x7fe0000); [lia|reflexivity].
Defined.

Lemma madt_roundtrip_witness :
  exists f, madt_collect (demo_mem []) 0x900 demo_madt = Ok (Some f) /\
    local_apics f = lapics_of demo_entries /\ io_apics f = ioapics_of demo_entries /\
    isos f = isos_of demo_entries /\ nmis f = nmis_of demo_entries.
Proof.
  apply (madt_roundtrip (demo_mem []) 0x900 demo_madt demo_entries demo_sdt_range
    (proj1 demo_entries_ok) (proj2 demo_entries_ok)); [|exact demo_holds].
  apply demo_declares; [reflexivity|vm_compute; reflexivity|simpl; lia].
Defined.

(** The bytes of the demo table are read back as its five entries. *)
Lemma madt_sound_witness :
  exists f l, madt_collect (demo_mem []) 0x900 demo_madt = Ok (Some f) /\
    encodings (demo_mem []) (m_sdt demo_madt + HEADER_SIZE + 8) l /\
    lapics_of l = [mkLapic 0 0 1; mkLapic 1 1 1] /\ ioapics_of l = [mkIoApic 2 0xfec00000 0].
Proof.
  assert (Hrun : exists f, madt_collect (demo_mem []) 0x900 demo_madt = Ok (Some f) /\
    local_apics f = [mkLapic 0 0 1; mkLapic 1 1 1] /\ io_apics f = [mkIoApic 2 0xfec00000 0])
    by (eexists; split; [vm_compute; reflexivity|split; reflexivity]).
  destruct Hrun as (f & Hrun & Hf & Hg).
  destruct (madt_sound _ _ _ _ demo_sdt_range Hrun) as (l & _ & He & Hl & Hi & _).
  exists f, l. split; [exact Hrun|]. split; [exact He|]. rewrite <-Hl, <-Hi. split; [exact Hf|exact Hg].
Defined.

(** A type 9 entry (local x2APIC) behind the others. *)
Lemma madt_unknown_entry_witness :
  madt_collect (demo_mem ([9; 16] ++ replicate 14 0)) 0x900 demo_madt = Ok None.
Proof.
  apply (madt_unknown_entry _ 0x900 demo_madt demo_entries 68 9 16 (replicate 14 0) demo_sdt_range
    (proj1 demo_entries_ok) (proj2 demo_entries_ok)); [lia| | | |].
  - rewrite !not_elem_of_cons. repeat split; try discriminate. apply not_elem_of_nil.
  - apply demo_declares; [reflexivity|vm_compute; reflexivity|simpl; lia].
  - vm_compute. discriminate.
  - apply holds_check. vm_compute. reflexivity.
Defined.

Lemma bsp_counted_witness :
  exists f', madt_entry 0xfee00900 (ELapic (mkLapic 0 0 1)) (mkFound [] [] [] [] 0) = Ok (Some f') /\ cpus f' = 0 + 1.
Proof.
  apply (bsp_counted 0xfee00900 (mkLapic 0 0 1) (mkFound [] [] [] [] 0));
    [reflexivity|unfold in_width; simpl; lia|reflexivity|simpl; lia|simpl; lia].
Defined.

(** A revision 2 root pointer at 0xe0010, its extended table at 0xe0100. *)
Definition demo_acpi2 : bytes :=
  mem_of 0xe0010 (RSD_PTR ++ replicate 7 0 ++ [2] ++ replicate 8 0 ++ le32 0xe0100 ++ replicate 212 0 ++ XSDT_SIG).

Lemma xsdt_panics_witness :
  rsdt_new demo_acpi2 (rsdp_sdt (read_rsdp demo_acpi2 0xe0010)) = panic "Non-matching signature, aborting ..." /\
  xsdt_new demo_acpi2 (rsdp_sdt (read_rsdp demo_acpi2 0xe0010)) = Ok (Some (rsdp_sdt (read_rsdp demo_acpi2 0xe0010))).
Proof.
  apply (xsdt_panics demo_acpi2 (read_rsdp demo_acpi2 0xe0010));
    [vm_compute; discriminate|apply holds_check; vm_compute; reflexivity].
Defined.
