(* ===== verification/Apic.v ===== *)
(** * The APIC manager

    [device/apic.rs].  The accessors of the local and the I/O APIC take the
    address of a temporary: [&(self.lapic_base + register) as *const u32] is a
    pointer to the sum on the stack, not the sum as a pointer, and the same holds
    of [&mut addr] and [&mut (addr + 4)].  The model follows the code: a
    volatile access reads or overwrites that stack cell ([cell_read],
    [cell_write]), and the registers of the devices, which are frames of
    physical memory, are only reached through the page tables. *)

From S2P Require Import Prelude Frames FrameSource Entry Mmu Table PageTree Mapper Paging Identity Acpi.

(** [ptr::read_volatile] and [ptr::write_volatile] on a pointer to a local
    variable that holds [cell]. *)
Definition cell_read (cell : Z) : Z := cell.
Definition cell_write (cell value : Z) : Z := value.

Record ApicManager := mkApic {
  lapic_base : Z;
  am_local_apics : list LapicEntry;
  am_io_apics : list IoApic;
  am_nmis : list ApicNMI;
  am_isos : list InterruptSourceOverride }.

Definition apic_manager_new : ApicManager := mkApic 0 [] [] [] [].

(** Indexing a [StaticVec]. *)
Definition index {A} (l : list A) (i : Z) : outcome A := expect (l !! Z.to_nat i) "index out of bounds".

Definition lapic_read (register : Z) (self : ApicManager) : outcome Z :=
  let? tmp := add_w 32 (lapic_base self) register in Ok (cell_read tmp).

Definition lapic_write (register value : Z) (self : ApicManager) : outcome unit :=
  let? tmp := add_w 32 (lapic_base self) register in
  let _ := cell_write tmp value in Ok tt.

(** [800] is a [u8] literal: it is cut to 8 bits. *)
Definition lapic_set_nmi (vec flags lint : Z) (self : ApicManager) : outcome unit :=
  let nmi := Z.lor (trunc 8 800) vec in
  let nmi := if negb (Z.land flags 2 =? 0) then Z.lor nmi (2 ^ 13) else nmi in
  let nmi := if negb (Z.land flags 8 =? 0) then Z.lor nmi (2 ^ 15) else nmi in
  if lint =? 1 then lapic_write 0x360 nmi self
  else if lint =? 0 then lapic_write 0x350 nmi self
  else Ok tt.

(** [for (i, nmi) in self.nmis.iter().enumerate()] *)
Definition install_nmis (self : ApicManager) : outcome unit :=
  ofold (fun '(i, nmi) _ =>
    let? vec := add_w 8 0x90 (trunc 8 i) in
    lapic_set_nmi vec (nmi_flags nmi) (nmi_lint_no nmi) self)
    (imap (fun i nmi => (Z.of_nat i, nmi)) (am_nmis self)) tt.

Definition lapic_enable (self : ApicManager) : outcome unit :=
  let? read := lapic_read 0xf0 self in
  lapic_write 0xf0 (Z.lor read (Z.lor 0x100 0xff)) self.

Definition io_apic_read (reg num : Z) (self : ApicManager) : outcome Z :=
  let? a := index (am_io_apics self) num in
  let addr := io_address a in
  let addr := cell_write addr reg in
  let? ioregwin := add_w 32 addr 4 in
  Ok (cell_read ioregwin).

Definition io_apic_write (reg num data : Z) (self : ApicManager) : outcome unit :=
  let? a := index (am_io_apics self) num in
  let addr := io_address a in
  let addr := cell_write addr reg in
  let? ioregwin := add_w 32 addr 4 in
  let _ := cell_write ioregwin data in Ok tt.

Definition get_max_redirect (num : Z) (self : ApicManager) : outcome Z :=
  let? v := io_apic_read 1 num self in Ok (Z.shiftr (Z.land v 0xff0000) 16).

(** The loop of [io_apic_from_gsi] over the enumerated I/O APICs. *)
Fixpoint io_apic_search (l : list (Z * IoApic)) (gsi : Z) (self : ApicManager) : outcome (option Z) :=
  match l with
  | [] => Ok None
  | (i, apic) :: l =>
      if io_gsib apic <? gsi then
        let? r := get_max_redirect i self in
        let? e := add_w 32 (io_gsib apic) r in
        if gsi <? e then Ok (Some i) else io_apic_search l gsi self
      else io_apic_search l gsi self
  end.

Definition io_apic_from_gsi (gsi : Z) (self : ApicManager) : outcome (option Z) :=
  io_apic_search (imap (fun i a => (Z.of_nat i, a)) (am_io_apics self)) gsi self.

Definition set_redirect (irq gsi flags id : Z) (self : ApicManager) : outcome unit :=
  let? apic := io_apic_from_gsi gsi self in
  match apic with
  | None => Ok tt
  | Some io_apic =>
      let? redirection := add_w 64 irq 0x30 in
      let redirection :=
        if negb (Z.land flags 2 =? 0) then Z.lor redirection (2 ^ 13)
        else if negb (Z.land flags 8 =? 0) then Z.lor redirection (2 ^ 15) else redirection in
      let redirection := Z.lor redirection (shl_w 64 id 56) in
      let? a := index (am_io_apics self) io_apic in
      let? d := sub_w 32 gsi (io_gsib a) in
      let? d := mul_w 32 d 2 in
      let? ioredtbl := add_w 32 d 16 in
      let? _ := io_apic_write ioredtbl io_apic (trunc 32 redirection) self in
      let? r := add_w 32 ioredtbl 1 in
      io_apic_write r io_apic (trunc 32 redirection) self
  end.

Definition install_redirects (self : ApicManager) : outcome unit :=
  ofold (fun iso _ =>
    let? l := index (am_local_apics self) 0 in
    set_redirect (iso_irq iso) (iso_gsi iso) (iso_flags iso) (la_id l) self) (am_isos self) tt.

Definition manager_eoi (self : ApicManager) : outcome unit := lapic_write 0xb0 0 self.

(** [apic::eoi]; the argument is the contents of [APIC_MANAGER]. *)
Definition apic_eoi (apic_manager : option ApicManager) : outcome unit :=
  match apic_manager with
  | Some apic_manager => manager_eoi apic_manager
  | None => panic "apic not initialised"
  end.

Section Init.
Context {A : Type} `{FrameSource A}.
Implicit Types s : mm A.

Definition APIC_FLAGS : Z := Z.lor (Z.lor PRESENT WRITABLE) NO_EXECUTE.

(** Map the page of the device at [address] to its frame and flush it. *)
Definition map_device (address : Z) s : outcome (mm A) :=
  let? page := page_containing (VirtAddr address) in
  let frame := frame_containing (PhysAddr address) in
  map_to_flush page frame APIC_FLAGS s.

(** The calls that program the devices, after the pages are mapped. *)
Definition apic_configure (self : ApicManager) : outcome unit :=
  let? _ := install_nmis self in
  let? _ := install_redirects self in
  lapic_enable self.

(** [apic::init] *)
Definition apic_init (apic_manager : option ApicManager) s : outcome (mm A) :=
  match apic_manager with
  | None => Ok s
  | Some self =>
      let? _ := ofold (fun i _ => let? _ := get_max_redirect i self in Ok tt)
                  (seqZ 0 (Z.of_nat (length (am_io_apics self)))) tt in
      let? s := map_device (lapic_base self) s in
      let? s := ofold (fun io_apic => map_device (io_address io_apic)) (am_io_apics self) s in
      let? _ := apic_configure self in
      Ok s
  end.

(** ** The registers of the devices are not reached *)

(** What the MADT gives: 32-bit addresses, at most ten NMIs, a local APIC. *)
Record manager_ok (self : ApicManager) : Prop := {
  mo_base : 0 <= lapic_base self <= 2 ^ 32 - 0x400;
  mo_io : Forall (fun a => in_width 32 (io_address a) /\ in_width 32 (io_gsib a)) (am_io_apics self);
  mo_nmis : (length (am_nmis self) <= 10)%nat;
  mo_local : am_isos self = [] \/ am_local_apics self <> [] }.

Lemma lapic_write_ok register value self :
  manager_ok self -> 0 <= register < 0x400 -> lapic_write register value self = Ok tt.
Proof. intros [Hb _ _ _] Hr. unfold lapic_write. by rewrite add_w_fits by (unfold in_width; lia). Qed.

Lemma apic_eoi_ok self : manager_ok self -> apic_eoi (Some self) = Ok tt.
Proof. intros Hok. simpl. unfold manager_eoi. by apply lapic_write_ok. Qed.

Lemma max_redirect_zero num self :
  0 <= num < Z.of_nat (length (am_io_apics self)) -> get_max_redirect num self = Ok 0.
Proof.
  intros Hn. unfold get_max_redirect, io_apic_read, index.
  destruct (lookup_lt_is_Some_2 (am_io_apics self) (Z.to_nat num)) as [a ->]; [lia|]. reflexivity.
Qed.

(** No I/O APIC is ever found for an interrupt: the size of the redirection
    table is read from the stack and comes out as zero. *)
Lemma io_apic_never_found gsi self : manager_ok self -> io_apic_from_gsi gsi self = Ok None.
Proof.
  intros [_ Hio _ _]. unfold io_apic_from_gsi.
  assert (Hall : Forall (fun p => 0 <= fst p < Z.of_nat (length (am_io_apics self)) /\ in_width 32 (io_gsib (snd p)))
    (imap (fun i a => (Z.of_nat i, a)) (am_io_apics self))).
  { apply Forall_lookup. intros i [n a] Hl. rewrite list_lookup_imap in Hl.
    destruct (am_io_apics self !! i) as [b|] eqn:E; [|done]. injection Hl as <- <-. simpl.
    rewrite Forall_lookup in Hio. destruct (Hio _ _ E) as [_ Hg]. apply lookup_lt_Some in E. split; [lia|exact Hg]. }
  induction Hall as [|[i a] l [Hi Hg] Hl IH]; cbn [io_apic_search]; [done|].
  destruct (Z.ltb_spec (io_gsib a) gsi); [|done]. simpl in Hi, Hg. rewrite max_redirect_zero by done. cbn [obind].
  rewrite add_w_fits by (rewrite Z.add_0_r; done). cbn [obind].
  destruct (Z.ltb_spec gsi (io_gsib a + 0)); [lia|done].
Qed.

Lemma ofold_unit {B} (f : B -> unit -> outcome unit) l :
  Forall (fun x => f x tt = Ok tt) l -> ofold f l tt = Ok tt.
Proof. induction 1 as [|x l Hx Hl IH]; cbn [ofold]; [done|]. rewrite Hx. exact IH. Qed.

(** Configuring the devices always returns, and does nothing. *)
Lemma apic_configure_ok self : manager_ok self -> apic_configure self = Ok tt.
Proof.
  intros Hok. pose proof (mo_base _ Hok) as Hb. pose proof (mo_nmis _ Hok) as Hn.
  pose proof (mo_local _ Hok) as Hl. unfold apic_configure.
  assert (Hnmi : install_nmis self = Ok tt).
  { apply ofold_unit, Forall_lookup. intros i [k x] Hi. rewrite list_lookup_imap in Hi.
    destruct (am_nmis self !! i) eqn:El; [|done]. injection Hi as <- ->. apply lookup_lt_Some in El.
    unfold trunc. rewrite Z.mod_small, add_w_fits by (unfold in_width; lia). cbn [obind].
    unfold lapic_set_nmi. repeat case_match; try done; by apply lapic_write_ok. }
  assert (Hred : install_redirects self = Ok tt).
  { apply ofold_unit, Forall_forall. intros iso Hin. destruct Hl as [Hnil|Hl]; [by rewrite Hnil in Hin; apply elem_of_nil in Hin|].
    unfold index. destruct (am_local_apics self) as [|x lx]; [done|]. cbn [expect lookup obind].
    unfold set_redirect. by rewrite io_apic_never_found. }
  rewrite Hnmi, Hred. cbn [obind]. unfold lapic_enable, lapic_read.
  rewrite add_w_fits by (unfold in_width; lia). cbn [obind]. by apply lapic_write_ok.
Qed.

(** ** [apic::init] *)

Lemma map_device_eq address s :
  0 <= address < 2 ^ 47 ->
  map_device address s = map_to_flush (mkPage (address / PAGE_SIZE)) (mkFrame (address / PAGE_SIZE)) APIC_FLAGS s.
Proof. intros Ha. unfold map_device. rewrite page_containing_low by done. done. Qed.

(** The frames of the devices. *)
Definition device_frames (self : ApicManager) : list Z :=
  lapic_base self / PAGE_SIZE :: ((fun a => io_address a / PAGE_SIZE) <$> am_io_apics self).

Lemma map_devices_eq self s :
  in_width 32 (lapic_base self) -> Forall (fun a => in_width 32 (io_address a)) (am_io_apics self) ->
  (let? s := map_device (lapic_base self) s in
   ofold (fun io_apic => map_device (io_address io_apic)) (am_io_apics self) s) =
  ofold (fun k => map_to_flush (mkPage k) (mkFrame k) APIC_FLAGS) (device_frames self) s.
Proof.
  unfold in_width. intros Hb Hio. unfold device_frames. cbn [ofold]. rewrite map_device_eq by lia.
  destruct (map_to_flush _ _ _ s) as [s1|]; cbn [obind]; [|done]. clear Hb. revert s1.
  induction Hio as [|a l Ha Hl IH]; intros s1; cbn [ofold]; [done|]. rewrite fmap_cons. cbn [ofold].
  rewrite map_device_eq by lia. destruct (map_to_flush _ _ _ s1); cbn [obind]; [apply IH|done].
Qed.

Lemma device_frames_low self :
  in_width 32 (lapic_base self) -> Forall (fun a => in_width 32 (io_address a)) (am_io_apics self) ->
  Forall (fun k => 0 <= k < 2 ^ 35) (device_frames self).
Proof.
  unfold device_frames, in_width, PAGE_SIZE. intros Hb Hio. constructor; [Z.div_mod_to_equations; lia|].
  apply Forall_fmap. eapply Forall_impl; [exact Hio|]. intros a Ha. simpl in Ha |- *. Z.div_mod_to_equations; lia.
Qed.

Lemma apic_flags_ok : flags_ok APIC_FLAGS.
Proof. unfold APIC_FLAGS. solve_flags. Qed.

Lemma apic_rights : flag_rights APIC_FLAGS = read_write.
Proof. reflexivity. Qed.

(** Each of the devices at its own address, writable and not executable. *)
Definition device_rights (self : ApicManager) (k : Z) (w : rights) : Prop := k ∈ device_frames self /\ w = read_write.

(** C35: [apic::init] maps the page of every APIC at its own address, writable and not
    executable; every page but these has the translation it had, mapped or not; it
    fails only where mapping fails.  It does not program the devices: all its
    register accesses go to the stack, so memory outside the page tables, the
    registers of the APICs included, is what it was. *)
Theorem apic_init_correct self s r O :
  mm_inv s r O -> manager_ok self ->
  match apic_init (Some self) s with
  | Ok s' =>
      Forall (fun k => walk (pm s') r (mkPage k) = Some (k, read_write)) (device_frames self) /\
      (forall q, user_page q -> pnumber q ∉ device_frames self -> walk (pm s') r q = walk (pm s) r q) /\
      (exists O', mm_inv s' r O') /\ cr3 s' = cr3 s /\
      (forall f j, O !! f = None -> ~ fs_avail (falloc s) f -> rd (pm s') f j = rd (pm s) f j)
  | Err e => map_error e
  end.
Proof.
  intros Hi Hok. unfold apic_init.
  rewrite ofold_unit; cycle 1.
  { apply Forall_forall. intros i Hin%elem_of_seqZ. by rewrite max_redirect_zero by lia. }
  assert (Hb : in_width 32 (lapic_base self)) by (pose proof (mo_base _ Hok); unfold in_width; lia).
  assert (Hio : Forall (fun a => in_width 32 (io_address a)) (am_io_apics self))
    by (eapply Forall_impl; [exact (mo_io _ Hok)|]; by intros a [? _]).
  cbn [obind]. rewrite <-obind_assoc, map_devices_eq by done.
  pose proof (map_identities_spec _ APIC_FLAGS s r O Hi (device_frames_low self Hb Hio) apic_flags_ok) as H0.
  destruct (ofold _ (device_frames self) s) as [s'|e]; cbn [obind]; [|exact H0].
  rewrite apic_configure_ok by done. cbn [obind]. destruct H0 as (Hall & O' & He). split; [exact Hall|]. split.
  - intros q Hq Hno. eapply extends_other; [exact He|exact Hq|]. by intros w [? _].
  - split; [exists O'; apply He|]. split; [apply He|]. apply (ex_local _ _ _ _ _ _ He).
Qed.

End Init.

(** A machine with one processor and one I/O APIC. *)
Definition demo_manager : ApicManager :=
  mkApic 0xfee00000 [mkLapic 0 0 1] [mkIoApic 0 0xfec00000 0] [mkNmi 255 0 1] [mkIso 0 0 2 0].

Lemma demo_manager_ok : manager_ok demo_manager.
Proof.
  split; simpl; [lia| |lia|by right]. constructor; [|constructor]. simpl. unfold in_width. lia.
Qed.
