(* ===== verification/Ports.v ===== *)
(** * I/O ports

    [device/io/cpuio.rs].  The devices behind the ports are not part of the
    program: what an [in] instruction reads is given by a function [hw] of the
    whole history of port accesses ([Hardware]), about which the theorems
    assume what they need.  The history itself is the state of the model. *)

From S2P Require Import Prelude.

Inductive io_event :=
  | PIn (w port v : Z)
  | POut (w port v : Z).

#[global] Instance io_event_eq_dec : EqDecision io_event.
Proof. solve_decision. Defined.

Abbreviation io_log := (list io_event).

(** The value the hardware answers, given the history, the width of the access
    in bits and the port. *)
Class Hardware := hw : io_log -> Z -> Z -> Z.

Definition ev_port (e : io_event) : Z := match e with PIn _ p _ | POut _ p _ => p end.

Section Ports.
Context `{Hardware}.

(** [Port<T>]: its address; [T] is given by its width. *)
Record Port := mkPort { port_width : Z; port_addr : Z }.

Definition port_new (w port : Z) : Port := mkPort w port.

(** [InOut::port_in] and [port_out]: [inb], [inw], [inl], [outb], [outw], [outl]. *)
Definition port_in (w port : Z) (l : io_log) : Z * io_log :=
  let v := trunc w (hw l w port) in (v, l ++ [PIn w port v]).

Definition port_out (w port v : Z) (l : io_log) : io_log := l ++ [POut w port v].

Definition port_read (p : Port) (l : io_log) : Z * io_log := port_in (port_width p) (port_addr p) l.
Definition port_write (p : Port) (v : Z) (l : io_log) : io_log := port_out (port_width p) (port_addr p) v l.

(** [UnsafePort<T>]: the same accesses, for callers that vouch for them. *)
Record UnsafePort := mkUnsafePort { unsafe_width : Z; unsafe_addr : Z }.

Definition unsafe_port_new (w port : Z) : UnsafePort := mkUnsafePort w port.
Definition unsafe_port_read (p : UnsafePort) (l : io_log) : Z * io_log :=
  port_in (unsafe_width p) (unsafe_addr p) l.
Definition unsafe_port_write (p : UnsafePort) (v : Z) (l : io_log) : io_log :=
  port_out (unsafe_width p) (unsafe_addr p) v l.

Lemma unsafe_port_eq w port l v :
  unsafe_port_read (unsafe_port_new w port) l = port_read (port_new w port) l /\
  unsafe_port_write (unsafe_port_new w port) v l = port_write (port_new w port) v l.
Proof. done. Qed.

(** [while busy(port.read()) {}]: the loops that wait for a status register. *)
Fixpoint poll (fuel : nat) (p : Port) (busy : Z -> bool) (l : io_log) : outcome io_log :=
  match fuel with
  | O => Err EFuel
  | S fuel => let (v, l) := port_read p l in if busy v then poll fuel p busy l else Ok l
  end.

(** The history after [k] further reads of a port. *)
Fixpoint reads (k : nat) (p : Port) (l : io_log) : io_log :=
  match k with O => l | S k => reads k p (snd (port_read p l)) end.

(** The device is ready after at most [n] reads of its status, whenever they
    start: what a driver that polls relies on. *)
Definition settles (p : Port) (busy : Z -> bool) (n : nat) : Prop :=
  forall l, exists k, (k <= n)%nat /\ busy (fst (port_read p (reads k p l))) = false.

(** The events of a loop that polled: busy answers, then one that is not. *)
Definition polled (p : Port) (busy : Z -> bool) (evs : io_log) : Prop :=
  exists vs v, evs = (PIn (port_width p) (port_addr p) <$> vs) ++ [PIn (port_width p) (port_addr p) v] /\
    Forall (fun v => busy v = true /\ in_width (port_width p) v) vs /\ busy v = false /\ in_width (port_width p) v.

Lemma port_read_range p l : 0 <= port_width p -> in_width (port_width p) (fst (port_read p l)).
Proof. intros Hw. unfold port_read, port_in, trunc, in_width. simpl. apply Z.mod_pos_bound. lia. Qed.

(** A loop on a device that settles ends. *)
Lemma poll_settles p busy n fuel l :
  0 <= port_width p -> settles p busy n -> (n < fuel)%nat ->
  exists evs, poll fuel p busy l = Ok (l ++ evs) /\ polled p busy evs.
Proof.
  intros Hw Hs Hf. destruct (Hs l) as (k & Hk & Hb). assert (Hkf : (k < fuel)%nat) by lia. clear Hs Hf Hk.
  revert k l Hb Hkf. induction fuel as [|fuel IH]; intros k l Hb Hkf; [lia|]. cbn [poll].
  pose proof (port_read_range p l Hw) as Hr. destruct (port_read p l) as [v l1] eqn:E.
  assert (El : l1 = l ++ [PIn (port_width p) (port_addr p) v]) by (unfold port_read, port_in in E; by injection E as <- <-).
  destruct (busy v) eqn:Ev.
  - destruct k as [|k]; cbn [reads] in Hb; rewrite E in Hb; simpl in Hb; [congruence|].
    destruct (IH k l1 Hb) as (evs & -> & vs & v' & -> & Hvs & Hv); [lia|]. subst l1.
    exists ((PIn (port_width p) (port_addr p) <$> v :: vs) ++ [PIn (port_width p) (port_addr p) v']).
    rewrite <-app_assoc. split; [done|]. exists (v :: vs), v'. split; [done|]. split; [by constructor|done].
  - subst l1. exists [PIn (port_width p) (port_addr p) v]. split; [done|]. by exists [], v.
Qed.

End Ports.

(** What was written to and read from a port, in order. *)
Definition outs (port : Z) (l : io_log) : list Z :=
  omap (fun e => match e with POut _ p v => if decide (p = port) then Some v else None | PIn _ _ _ => None end) l.
Definition ins (port : Z) (l : io_log) : list Z :=
  omap (fun e => match e with PIn _ p v => if decide (p = port) then Some v else None | POut _ _ _ => None end) l.

Lemma outs_app port l1 l2 : outs port (l1 ++ l2) = outs port l1 ++ outs port l2.
Proof. apply omap_app. Qed.
Lemma ins_app port l1 l2 : ins port (l1 ++ l2) = ins port l1 ++ ins port l2.
Proof. apply omap_app. Qed.

(** Polling writes nothing, and reads nothing but its port. *)
Lemma polled_outs p busy evs port : polled p busy evs -> outs port evs = [].
Proof.
  intros (vs & v & -> & _ & _). rewrite outs_app. simpl. rewrite app_nil_r. by induction vs.
Qed.
Lemma polled_port p busy evs : polled p busy evs -> Forall (fun e => ev_port e = port_addr p) evs.
Proof.
  intros (vs & v & -> & _ & _). apply Forall_app. split; [|by repeat constructor]. apply Forall_fmap, Forall_true. done.
Qed.
Lemma polled_ins p busy evs port : polled p busy evs -> port_addr p <> port -> ins port evs = [].
Proof.
  intros (vs & v & -> & _ & _) Hp. rewrite ins_app. simpl. rewrite decide_False, app_nil_r by done.
  induction vs as [|x vs IH]; simpl; [done|]. by rewrite decide_False.
Qed.

(** The last value written to a port. *)
Fixpoint last_out (port : Z) (l : io_log) : option Z :=
  match l with
  | [] => None
  | e :: l =>
      match last_out port l with
      | Some v => Some v
      | None => match e with POut _ p v => if decide (p = port) then Some v else None | PIn _ _ _ => None end
      end
  end.

Lemma last_out_app port l1 l2 :
  last_out port (l1 ++ l2) =
  match last_out port l2 with Some v => Some v | None => last_out port l1 end.
Proof.
  induction l1 as [|e l1 IH]; simpl; [by destruct (last_out port l2)|].
  rewrite IH. by destruct (last_out port l2).
Qed.

Lemma last_out_none port l : Forall (fun e => ev_port e <> port) l -> last_out port l = None.
Proof.
  induction 1 as [|e l He Hl IH]; [done|]. simpl. rewrite IH. destruct e; simpl in *; [done|].
  by rewrite decide_False.
Qed.

(** ** Memory-mapped registers

    [device/io/mmio.rs]: a register of [w] bits in memory, as a cell that keeps
    what is written. *)

Record Mmio := mkMmio { mmio_value : Z }.

Definition mmio_read (m : Mmio) : Z := mmio_value m.
Definition mmio_write (value : Z) (m : Mmio) : Mmio := mkMmio value.
Definition mmio_readf (flags : Z) (m : Mmio) : bool := Z.land (mmio_value m) flags =? flags.
Definition mmio_writef (w flags : Z) (value : bool) (m : Mmio) : Mmio :=
  let tmp := if value then Z.lor (mmio_read m) flags else Z.land (mmio_read m) (not_w w flags) in
  mmio_write tmp m.

Lemma not_w_bits w x i : in_width w x -> 0 <= i < w -> Z.testbit (not_w w x) i = negb (Z.testbit x i).
Proof.
  intros Hx Hi. unfold not_w. replace (2 ^ w - 1 - x) with (Z.lnot x mod 2 ^ w).
  - rewrite Z.mod_pow2_bits_low, Z.lnot_spec by lia. done.
  - unfold in_width in Hx. unfold Z.lnot.
    rewrite <-(Z.mod_add _ 1), Z.mod_small by lia. lia.
Qed.

(** Setting flags and reading them back: exactly the flags change. *)
Lemma mmio_writef_spec w flags value m i :
  in_width w (mmio_value m) -> in_width w flags -> 0 <= i < w ->
  Z.testbit (mmio_value (mmio_writef w flags value m)) i =
    (if Z.testbit flags i then value else Z.testbit (mmio_value m) i) /\
  (value = true -> mmio_readf flags (mmio_writef w flags value m) = true).
Proof.
  intros Hm Hf Hi. unfold mmio_writef, mmio_readf. split.
  - destruct value; simpl; [rewrite Z.lor_spec|rewrite Z.land_spec, not_w_bits by done];
      unfold mmio_read; by destruct (Z.testbit flags i), (Z.testbit (mmio_value m) i).
  - intros ->. simpl. apply Z.eqb_eq, Z.bits_inj'. intros n Hn. rewrite Z.land_spec, Z.lor_spec.
    by destruct (Z.testbit flags n), (Z.testbit (mmio_read m) n).
Qed.

(** ** DMA memory

    [device/io/dma.rs], which is not part of the build: the function it calls,
    [memory::physalloc], does not exist and is a parameter. *)

Record PhysBox := mkPhysBox { pb_address : Z; pb_size : Z }.

Definition physbox_new (physalloc : Z -> Z + string) (size : Z) : PhysBox + string :=
  match physalloc size with
  | inl address => inl (mkPhysBox address size)
  | inr e => inr e
  end.
