(* ===== verification/Serial.v ===== *)
(** * The serial port

    [device/serial.rs]: the UART behind COM1, to which the kernel prints.  Its
    loops wait for the line status register; they run on fuel, and end on a
    device that is ready after a bounded number of reads ([settles]). *)

From S2P Require Import Prelude Ports.

Inductive Register :=
  | DataOrBaudLsb
  | IntEnableOrMsb
  | InterruptIdentAndFifo
  | LineControl
  | ModemControl
  | LineStatus
  | ModemStatus
  | Scratch.

(** [register as u8 as u16] *)
Definition register_u16 (r : Register) : Z :=
  match r with
  | DataOrBaudLsb => 0
  | IntEnableOrMsb => 1
  | InterruptIdentAndFifo => 2
  | LineControl => 3
  | ModemControl => 4
  | LineStatus => 5
  | ModemStatus => 6
  | Scratch => 7
  end.

Record SerialPort := mkSerial { base : Z; is_initialized : bool }.

Definition serial_new (base : Z) : SerialPort := mkSerial base false.

Definition serial_port (self : SerialPort) (register : Register) : outcome Port :=
  let? a := add_w 16 (base self) (register_u16 register) in Ok (port_new 8 a).

(** [self.port(register).write(value)] *)
Definition reg_write (self : SerialPort) (register : Register) (value : Z) (l : io_log) : outcome io_log :=
  let? p := serial_port self register in Ok (port_write p value l).

Definition do_init (self : SerialPort) (l : io_log) : outcome (SerialPort * io_log) :=
  if is_initialized self then Ok (self, l) else
  let self := mkSerial (base self) true in
  let? l := reg_write self IntEnableOrMsb 0x00 l in
  let? l := reg_write self LineControl 0x80 l in
  let? l := reg_write self DataOrBaudLsb 0x02 l in
  let? l := reg_write self IntEnableOrMsb 0x00 l in
  let? l := reg_write self LineControl 0x03 l in
  let? l := reg_write self InterruptIdentAndFifo 0xc7 l in
  let? l := reg_write self ModemControl 0x0b l in
  Ok (self, l).

(** [can_read] and [is_transmit_empty] as tests of the line status: both are true
    while the caller has to wait. *)
Definition can_read (status : Z) : bool := Z.land status 1 =? 0.
Definition is_transmit_empty (status : Z) : bool := Z.land status 0x20 =? 0.

Section Serial.
Context `{Hardware}.

Definition serial_read (fuel : nat) (self : SerialPort) (l : io_log) : outcome (Z * io_log) :=
  let? status := serial_port self LineStatus in
  let? l := poll fuel status can_read l in
  let? p := serial_port self DataOrBaudLsb in
  Ok (port_read p l).

Definition serial_write (fuel : nat) (data : Z) (self : SerialPort) (l : io_log) : outcome io_log :=
  let? status := serial_port self LineStatus in
  let? l := poll fuel status is_transmit_empty l in
  reg_write self DataOrBaudLsb data l.

(** [write_str], what [print!] ends in. *)
Definition serial_write_str (fuel : nat) (s : list Z) (self : SerialPort) (l : io_log) : outcome io_log :=
  ofold (fun byte l => serial_write fuel byte self l) s l.

Definition COM1 : SerialPort := serial_new 0x3f8.

(** [println!], without the lock of the port. *)
Definition println (fuel : nat) (text : list Z) (l : io_log) : outcome io_log := serial_write_str fuel text COM1 l.

Definition serial_init (l : io_log) : outcome (SerialPort * io_log) := do_init COM1 l.

(** ** Properties *)

Lemma com1_base : 0 <= base COM1 < 2 ^ 16 - 7.
Proof. simpl. lia. Qed.

Lemma serial_port_eq self r : 0 <= base self < 2 ^ 16 - 7 -> serial_port self r = Ok (port_new 8 (base self + register_u16 r)).
Proof. intros Hb. unfold serial_port. rewrite add_w_fits; [done|]. unfold in_width. destruct r; simpl; lia. Qed.

Lemma do_init_eq self l :
  0 <= base self < 2 ^ 16 - 7 ->
  do_init self l = Ok (mkSerial (base self) true, if is_initialized self then l else
    l ++ [POut 8 (base self + 1) 0; POut 8 (base self + 3) 0x80; POut 8 (base self + 0) 2; POut 8 (base self + 1) 0;
          POut 8 (base self + 3) 3; POut 8 (base self + 2) 0xc7; POut 8 (base self + 4) 0x0b]).
Proof.
  intros Hb. unfold do_init. destruct self as [b i]. simpl in *. destruct i; [done|].
  unfold reg_write. rewrite !serial_port_eq by (simpl; lia). cbn [obind]. unfold port_write, port_out. simpl.
  rewrite <-!app_assoc. done.
Qed.

(** The UART is programmed once, however often it is initialised: the divisor 2
    (57600 baud) is latched while the divisor registers are selected, and
    afterwards the line is set to eight bits, no parity, one stop bit. *)
Theorem serial_init_once self l n :
  0 <= base self < 2 ^ 16 - 7 -> is_initialized self = false ->
  exists l', ofold (fun _ '(self, l) => do_init self l) (seq 0 (S n)) (self, l) = Ok (mkSerial (base self) true, l ++ l') /\
    outs (base self + 3) l' = [0x80; 0x03] /\
    (exists l1 l2, l' = l1 ++ l2 /\ last_out (base self + 3) l1 = Some 0x80 /\
       outs (base self + 0) l1 = [2] /\ outs (base self + 0) l2 = []).
Proof.
  intros Hb Hi. eexists. split.
  - cbn [seq ofold]. rewrite do_init_eq, Hi by done. cbn [obind]. generalize 1%nat as k.
    induction n as [|n IH]; intros k; [reflexivity|]. cbn [seq ofold]. rewrite do_init_eq by done. cbn [obind]. apply IH.
  - split; [simpl; repeat case_decide; (done || lia)|].
    exists [POut 8 (base self + 1) 0; POut 8 (base self + 3) 0x80; POut 8 (base self + 0) 2; POut 8 (base self + 1) 0].
    eexists. split; [reflexivity|]. simpl. repeat case_decide; (done || lia).
Qed.

(** What transmitting [bytes] looks like on the ports: before each byte the
    status is read until the transmitter is empty, then the byte is written. *)
Inductive transmission (self : SerialPort) : list Z -> io_log -> Prop :=
  | tx_done : transmission self [] []
  | tx_byte b bytes evs rest :
      polled (port_new 8 (base self + 5)) is_transmit_empty evs -> transmission self bytes rest ->
      transmission self (b :: bytes) (evs ++ POut 8 (base self) b :: rest).

Lemma transmission_outs self bytes evs : transmission self bytes evs -> outs (base self) evs = bytes.
Proof.
  induction 1 as [|b bytes evs rest Hp Ht IH]; [done|]. rewrite outs_app, (polled_outs _ _ _ _ Hp).
  simpl. by rewrite decide_True, IH.
Qed.

Lemma serial_write_spec n fuel self bytes l :
  0 <= base self < 2 ^ 16 - 7 -> settles (port_new 8 (base self + 5)) is_transmit_empty n -> (n < fuel)%nat ->
  exists evs, serial_write_str fuel bytes self l = Ok (l ++ evs) /\ transmission self bytes evs.
Proof.
  intros Hb Hs Hf. revert l. induction bytes as [|b bytes IH]; intros l; cbn [serial_write_str ofold].
  { exists []. rewrite app_nil_r. split; [done|constructor]. }
  unfold serial_write at 1. rewrite serial_port_eq by done. cbn [obind].
  destruct (poll_settles (port_new 8 (base self + 5)) is_transmit_empty n fuel l) as (evs & Hp & Hpd); [done..|].
  simpl register_u16. rewrite Hp. cbn [obind]. unfold reg_write. rewrite serial_port_eq by done. cbn [obind].
  unfold port_write, port_out. simpl. rewrite Z.add_0_r.
  destruct (IH ((l ++ evs) ++ [POut 8 (base self) b])) as (rest & Hr & Ht). exists (evs ++ POut 8 (base self) b :: rest).
  split; [|by constructor]. unfold serial_write_str in Hr. rewrite Hr, <-!app_assoc. done.
Qed.

(** What a message looks like on the ports: its bytes on the data port of COM1, and
    nothing else but reads of the line status. *)
Record message (text : list Z) (evs : io_log) : Prop := {
  msg_text : outs 0x3f8 evs = text;
  msg_outs : forall p, p <> 0x3f8 -> outs p evs = [];
  msg_ins : forall p, p <> 0x3f8 + 5 -> ins p evs = [];
  msg_ports : Forall (fun e => ev_port e = 0x3f8 \/ ev_port e = 0x3f8 + 5) evs }.

Lemma transmission_message text evs : transmission COM1 text evs -> message text evs.
Proof.
  induction 1 as [|b bytes evs rest Hp Ht [I1 I2 I3 I4]]; [by split|].
  split; [|intros p Hne..|]; rewrite ?outs_app, ?ins_app, ?(polled_outs _ _ _ _ Hp); simpl.
  - by rewrite I1.
  - rewrite decide_False by done. by apply I2.
  - rewrite (polled_ins _ _ _ p Hp) by done. by apply I3.
  - apply Forall_app. split; [|by constructor; [left|]].
    eapply Forall_impl; [by eapply polled_port|]. intros e He. right. exact He.
Qed.

Lemma println_transmits n fuel text l :
  settles (port_new 8 (0x3f8 + 5)) is_transmit_empty n -> (n < fuel)%nat ->
  exists evs, println fuel text l = Ok (l ++ evs) /\ transmission COM1 text evs.
Proof. apply (serial_write_spec n fuel COM1 text l com1_base). Qed.

Lemma println_spec n fuel text l :
  settles (port_new 8 (0x3f8 + 5)) is_transmit_empty n -> (n < fuel)%nat ->
  exists evs, println fuel text l = Ok (l ++ evs) /\ message text evs.
Proof.
  intros Hs Hf. destruct (println_transmits n fuel text l Hs Hf) as (evs & -> & Ht).
  exists evs. split; [done|]. by apply transmission_message.
Qed.

(** C37: Printing never gets stuck and loses nothing: on a UART that empties its
    transmitter within [n] reads of the status, [write_str] returns, exactly the
    bytes of the string reach the data register, in order, and each is written
    only after the status has shown the transmitter empty. *)
Theorem serial_write_correct n fuel self bytes l :
  0 <= base self < 2 ^ 16 - 7 -> settles (port_new 8 (base self + 5)) is_transmit_empty n -> (n < fuel)%nat ->
  exists evs, serial_write_str fuel bytes self l = Ok (l ++ evs) /\ transmission self bytes evs /\
    outs (base self) evs = bytes.
Proof.
  intros Hb Hs Hf. destruct (serial_write_spec n fuel self bytes l Hb Hs Hf) as (evs & Hrun & Ht).
  exists evs. split; [done|]. split; [done|]. by apply transmission_outs.
Qed.

(** [read] returns a byte that was received: the status read before it has the
    data-ready bit set. *)
Theorem serial_read_correct n fuel self l :
  0 <= base self < 2 ^ 16 - 7 -> settles (port_new 8 (base self + 5)) can_read n -> (n < fuel)%nat ->
  exists evs v, serial_read fuel self l = Ok (v, l ++ evs ++ [PIn 8 (base self) v]) /\ in_width 8 v /\
    polled (port_new 8 (base self + 5)) can_read evs.
Proof.
  intros Hb Hs Hf. unfold serial_read. rewrite !serial_port_eq by done. cbn [obind].
  destruct (poll_settles (port_new 8 (base self + 5)) can_read n fuel l) as (evs & Hp & Hpd); [done..|].
  simpl register_u16. rewrite Hp. cbn [obind]. rewrite Z.add_0_r.
  pose proof (port_read_range (port_new 8 (base self)) (l ++ evs) ltac:(simpl; lia)) as Hr.
  unfold port_read, port_in in *. simpl in *. eexists evs, _. rewrite app_assoc. split; [reflexivity|]. done.
Qed.

End Serial.

(** ** A UART that is always ready but for every third status read *)

Definition uart_hw : Hardware := fun l _ port =>
  if decide (port = 0x3f8 + 5) then if decide (length l mod 3 = 0)%nat then 0 else 0x61 else 0x41.

Lemma uart_settles busy : busy 0x61 = false -> @settles uart_hw (port_new 8 (0x3f8 + 5)) busy 1.
Proof.
  intros Hb l. assert (Hv : forall l, (length l mod 3 <> 0)%nat -> fst (@port_read uart_hw (port_new 8 (0x3f8 + 5)) l) = 0x61).
  { intros l' Hl. unfold port_read, port_in, hw, uart_hw. simpl port_addr. rewrite decide_True, decide_False by done. done. }
  destruct (decide (length l mod 3 = 0)%nat) as [E|E].
  - exists 1%nat. split; [lia|]. cbn [reads]. rewrite Hv; [done|]. unfold port_read, port_in. simpl snd.
    rewrite length_app. simpl length. rewrite Nat.Div0.add_mod, E. done.
  - exists 0%nat. split; [lia|]. cbn [reads]. by rewrite Hv.
Qed.

Lemma serial_init_once_witness :
  exists l', ofold (fun _ '(self, l) => do_init self l) (seq 0 2) (COM1, []) = Ok (mkSerial 0x3f8 true, l') /\
    outs 0x3fb l' = [0x80; 0x03].
Proof.
  destruct (serial_init_once COM1 [] 1 com1_base eq_refl) as (l' & Hrun & Ho & _).
  exists l'. split; [exact Hrun|exact Ho].
Defined.

Lemma serial_write_correct_witness :
  exists evs, @serial_write_str uart_hw 2 [0x68; 0x69] COM1 [] = Ok evs /\ outs 0x3f8 evs = [0x68; 0x69].
Proof.
  destruct (@serial_write_correct uart_hw 1 2 COM1 [0x68; 0x69] [] com1_base (uart_settles _ eq_refl) (le_n 2))
    as (evs & Hrun & _ & Ho).
  exists evs. split; [exact Hrun|exact Ho].
Defined.

Lemma serial_read_correct_witness :
  exists evs v, @serial_read uart_hw 2 COM1 [] = Ok (v, evs ++ [PIn 8 0x3f8 v]) /\ in_width 8 v.
Proof.
  destruct (@serial_read_correct uart_hw 1 2 COM1 [] com1_base (uart_settles _ eq_refl) (le_n 2))
    as (evs & v & Hrun & Hv & _).
  exists evs, v. split; [exact Hrun|exact Hv].
Defined.
