(* ===== verification/Ps2.v ===== *)
(** * The PS/2 controller

    [device/ps2_8042.rs].  The controller answers on its status and command port
    0x64 and on its data port 0x60; the loops that wait for it run on fuel. *)

From S2P Require Import Prelude Fmt Ports Serial.

Record Ps2 := mkPs2 { controller : Port; ps2_device : Port }.

Definition ps2_new (controller device : Z) : Ps2 := mkPs2 (port_new 8 controller) (port_new 8 device).

Definition PS2 : Ps2 := ps2_new 0x64 0x60.

(** The conditions of the two waiting loops, on the status read. *)
Definition output_empty (status : Z) : bool := Z.land status 0x1 =? 0.
Definition input_full (status : Z) : bool := Z.land status 0x2 =? 1.

Section Ps2.
Context `{Hardware}.

Definition wait_then_read (fuel : nat) (self : Ps2) (l : io_log) : outcome (Z * io_log) :=
  let? l := poll fuel (controller self) output_empty l in
  Ok (port_read (ps2_device self) l).

Definition wait_then_write (fuel : nat) (data : Z) (self : Ps2) (l : io_log) : outcome io_log :=
  let? l := poll fuel (controller self) input_full l in
  Ok (port_write (ps2_device self) data l).

(** [Ps2::init]; [pf] is the fuel of its two messages, and [failed] is what an [assert!]
    that fails runs, with its message and the accesses made until then. *)
Definition ps2_init_or (failed : string -> io_log -> outcome io_log) (pf fuel : nat) (self : Ps2) (l : io_log) : outcome io_log :=
  let command v l := port_write (controller self) v l in
  let? l := println pf (bytes_of "[ dev ] Initialising PS/2 8042 controller." ++ nl) l in
  let l := command 0xAD l in
  let l := command 0xA7 l in
  let (_, l) := port_read (ps2_device self) l in
  let l := command 0x20 l in
  let? (config_byte, l) := wait_then_read fuel self l in
  let config_byte := Z.land config_byte (not_w 8 (2 ^ 0)) in
  let config_byte := Z.land config_byte (not_w 8 (2 ^ 1)) in
  let l := command 0x60 l in
  let? l := wait_then_write fuel config_byte self l in
  let l := command 0xAA l in
  let? (test, l) := wait_then_read fuel self l in
  if negb (test =? 0x55) then failed "PS/2 self test failed" l else
  let l := command 0xAB l in
  let? (test, l) := wait_then_read fuel self l in
  if negb (test =? 0x0) then failed "Interface tests failed" l else
  let l := command 0xAE l in
  let l := command 0x20 l in
  let? (enable, l) := wait_then_read fuel self l in
  let enable := Z.lor enable (2 ^ 0) in
  let l := command 0x60 l in
  let? l := wait_then_write fuel enable self l in
  let (_, l) := port_read (ps2_device self) l in
  println pf (bytes_of "[ dev ] PS/2 8042 initialised." ++ nl) l.

Definition ps2_init (pf fuel : nat) (self : Ps2) (l : io_log) : outcome io_log :=
  ps2_init_or (fun msg _ => panic msg) pf fuel self l.

Definition ps2_read_char (self : Ps2) (l : io_log) : Z * io_log := port_read (ps2_device self) l.

Definition read_char (l : io_log) : Z * io_log := ps2_read_char PS2 l.

(** ** Waiting *)

(** A conversation with the controller, one step after the other: a message printed on
    the serial port, a command, a data byte (the status is read once before it), a read of
    the data port that waits for the status to show data, and one that does not. *)
Inductive step :=
  | Say (text : list Z)
  | Command (v : Z)
  | Data (v : Z)
  | Answer (v : Z)
  | Flush (v : Z).

(** What the steps of a conversation look like on the ports: these accesses, in this
    order, and no others. *)
Inductive dialogue : list step -> io_log -> Prop :=
  | dl_done : dialogue [] []
  | dl_say text evs r rest :
      transmission COM1 text evs -> dialogue r rest -> dialogue (Say text :: r) (evs ++ rest)
  | dl_command v r rest : dialogue r rest -> dialogue (Command v :: r) (POut 8 0x64 v :: rest)
  | dl_data v status r rest :
      dialogue r rest -> dialogue (Data v :: r) (PIn 8 0x64 status :: POut 8 0x60 v :: rest)
  | dl_answer v evs r rest :
      polled (controller PS2) output_empty evs -> in_width 8 v -> dialogue r rest ->
      dialogue (Answer v :: r) (evs ++ PIn 8 0x60 v :: rest)
  | dl_flush v r rest : dialogue r rest -> dialogue (Flush v :: r) (PIn 8 0x60 v :: rest).

Ltac converse :=
  repeat first [apply dl_done | apply dl_command | apply dl_data | apply dl_flush
    | eapply dl_answer; [eassumption|eassumption|] | eapply dl_say; [eassumption|]].

Lemma wait_read_spec n fuel l :
  settles (controller PS2) output_empty n -> (n < fuel)%nat ->
  exists v evs, wait_then_read fuel PS2 l = Ok (v, l ++ evs ++ [PIn 8 0x60 v]) /\ in_width 8 v /\
    polled (controller PS2) output_empty evs.
Proof.
  intros Hs Hf. unfold wait_then_read.
  destruct (poll_settles (controller PS2) output_empty n fuel l) as (evs & -> & Hp); [done..|]. cbn [obind].
  pose proof (port_read_range (ps2_device PS2) (l ++ evs) ltac:(simpl; lia)) as Hr.
  unfold port_read, port_in in *. simpl in *. eexists _, evs. rewrite app_assoc. by split.
Qed.

(** The masked status is 0 or 2, never 1. *)
Lemma input_full_false status : input_full status = false.
Proof.
  unfold input_full. destruct (Z.eqb_spec (Z.land status 2) 1) as [E|]; [|done].
  apply (f_equal (fun x => Z.testbit x 0)) in E. rewrite Z.land_spec, andb_false_r in E. done.
Qed.

Lemma wait_write_eq fuel data l :
  (0 < fuel)%nat ->
  wait_then_write fuel data PS2 l = Ok (l ++ [PIn 8 0x64 (trunc 8 (hw l 8 0x64)); POut 8 0x60 data]).
Proof.
  intros Hf. destruct fuel as [|fuel]; [lia|]. unfold wait_then_write. cbn [poll]. unfold port_read, port_in.
  rewrite input_full_false. cbn [obind]. unfold port_write, port_out. simpl. by rewrite <-app_assoc.
Qed.

Lemma wait_write_spec fuel data l :
  (0 < fuel)%nat -> exists status, wait_then_write fuel data PS2 l = Ok (l ++ [PIn 8 0x64 status; POut 8 0x60 data]).
Proof. intros Hf. eexists. by apply wait_write_eq. Qed.

(** The controller must not be written to while bit 1 of its status is set.
    [wait_then_write] compares the masked status with 1, which it never is: on a
    controller whose status shows a full input buffer it writes all the same,
    after a single read. *)
Theorem ps2_write_never_waits fuel data l :
  (0 < fuel)%nat -> Z.testbit (hw l 8 0x64) 1 = true ->
  exists status, wait_then_write fuel data PS2 l = Ok (l ++ [PIn 8 0x64 status; POut 8 0x60 data]) /\
    Z.testbit status 1 = true.
Proof.
  intros Hf Hfull. rewrite wait_write_eq by done. eexists. split; [reflexivity|]. unfold trunc.
  by rewrite Z.mod_pow2_bits_low by lia.
Qed.

(** ** [Ps2::init] *)

(** The conversation up to the answer [t1] of the self test, from there to the answer
    [t2] of the interface test, and the rest.  [c1] and [c2] are the configurations the
    controller reports, [x] and [y] what the data port held. *)
Definition starting (x c1 t1 : Z) : list step :=
  [Say (bytes_of "[ dev ] Initialising PS/2 8042 controller." ++ nl); Command 0xAD; Command 0xA7; Flush x;
   Command 0x20; Answer c1; Command 0x60; Data (Z.land (Z.land c1 0xfe) 0xfd); Command 0xAA; Answer t1].
Definition interface_test (t2 : Z) : list step := [Command 0xAB; Answer t2].
Definition enabling (c2 y : Z) : list step :=
  [Command 0xAE; Command 0x20; Answer c2; Command 0x60; Data (Z.lor c2 1); Flush y;
   Say (bytes_of "[ dev ] PS/2 8042 initialised." ++ nl)].

Lemma flush_spec l : exists x, port_read (ps2_device PS2) l = (x, l ++ [PIn 8 0x60 x]).
Proof. unfold port_read, port_in. simpl. by eexists. Qed.

Ltac flushes x :=
  match goal with |- context [port_read (ps2_device PS2) ?l] => destruct (flush_spec l) as [x ->] end.
Ltac answers v p :=
  match goal with Hs : settles (controller PS2) _ ?n, Hf : (?n < ?fuel)%nat |- context [wait_then_read _ PS2 ?l] =>
    destruct (wait_read_spec n fuel l Hs Hf) as (v & p & -> & ? & ?) end; cbn [obind].
Ltac writes x :=
  match goal with |- context [wait_then_write ?fuel ?d PS2 ?l] =>
    destruct (wait_write_spec fuel d l ltac:(assumption)) as [x ->] end; cbn [obind].
Ltac same_log :=
  f_equal; unfold port_write, port_out; repeat first [rewrite <-!app_assoc | progress cbn [app]]; reflexivity.

Lemma ps2_init_spec n k pf fuel l :
  settles (controller PS2) output_empty n -> (n < fuel)%nat ->
  settles (port_new 8 (0x3f8 + 5)) is_transmit_empty k -> (k < pf)%nat ->
  exists x c1 t1 e1, dialogue (starting x c1 t1) e1 /\
    if negb (t1 =? 0x55) then forall failed, ps2_init_or failed pf fuel PS2 l = failed "PS/2 self test failed" (l ++ e1)
    else exists t2 e2, dialogue (interface_test t2) e2 /\
      if negb (t2 =? 0) then forall failed, ps2_init_or failed pf fuel PS2 l = failed "Interface tests failed" (l ++ e1 ++ e2)
      else exists c2 y e3, dialogue (enabling c2 y) e3 /\
        forall failed, ps2_init_or failed pf fuel PS2 l = Ok (l ++ e1 ++ e2 ++ e3).
Proof.
  intros Hs Hf Hser Hpf. assert (H0 : (0 < fuel)%nat) by lia. unfold ps2_init_or.
  destruct (println_transmits k pf (bytes_of "[ dev ] Initialising PS/2 8042 controller." ++ nl) l Hser Hpf)
    as (m1 & -> & G1). cbn [obind]. flushes x. answers c1 p1. writes s1. answers t1 p2.
  exists x, c1, t1, (m1 ++ POut 8 0x64 0xAD :: POut 8 0x64 0xA7 :: PIn 8 0x60 x :: POut 8 0x64 0x20 ::
    p1 ++ PIn 8 0x60 c1 :: POut 8 0x64 0x60 :: PIn 8 0x64 s1 :: POut 8 0x60 (Z.land (Z.land c1 0xfe) 0xfd) ::
    POut 8 0x64 0xAA :: p2 ++ [PIn 8 0x60 t1]).
  split; [converse|]. destruct (t1 =? 0x55); cbn [negb]; [|intros failed; same_log]. answers t2 p3.
  exists t2, (POut 8 0x64 0xAB :: p3 ++ [PIn 8 0x60 t2]).
  split; [converse|]. destruct (t2 =? 0); cbn [negb]; [|intros failed; same_log]. answers c2 p4. writes s2. flushes y.
  match goal with |- context [println pf ?t ?l'] =>
    destruct (println_transmits k pf t l' Hser Hpf) as (m2 & -> & G2) end.
  exists c2, y, (POut 8 0x64 0xAE :: POut 8 0x64 0x20 :: p4 ++ PIn 8 0x60 c2 :: POut 8 0x64 0x60 :: PIn 8 0x64 s2 ::
    POut 8 0x60 (Z.lor c2 1) :: PIn 8 0x60 y :: m2 ++ []).
  split; [converse|]. intros failed. rewrite (app_nil_r m2). same_log.
Qed.

(** C38: Initialising the controller ends, on a controller that shows its data within [n]
    reads of its status, and a UART that is ready within [k].  Its accesses, in their
    order, are the conversation [starting]: one line printed, both devices disabled, the
    data port flushed, the configuration the controller reports written back with both
    interrupts off, and the self test.  Unless the answer is 0x55 that is all, and the
    first assertion fails.  Then the interface test; unless the answer is 0, the second
    assertion fails there.  Otherwise [enabling] follows: the devices are enabled and the
    configuration written back with the first interrupt on, and only now, last of all,
    the second line is printed.  In [ps2_init] a failed assertion is a panic. *)
Theorem ps2_init_correct n k pf fuel l :
  settles (controller PS2) output_empty n -> (n < fuel)%nat ->
  settles (port_new 8 (0x3f8 + 5)) is_transmit_empty k -> (k < pf)%nat ->
  ps2_init pf fuel PS2 l = ps2_init_or (fun msg _ => panic msg) pf fuel PS2 l /\
  exists x c1 t1 e1, dialogue (starting x c1 t1) e1 /\
    if negb (t1 =? 0x55) then forall failed, ps2_init_or failed pf fuel PS2 l = failed "PS/2 self test failed" (l ++ e1)
    else exists t2 e2, dialogue (interface_test t2) e2 /\
      if negb (t2 =? 0) then forall failed, ps2_init_or failed pf fuel PS2 l = failed "Interface tests failed" (l ++ e1 ++ e2)
      else exists c2 y e3, dialogue (enabling c2 y) e3 /\
        forall failed, ps2_init_or failed pf fuel PS2 l = Ok (l ++ e1 ++ e2 ++ e3).
Proof. intros Hs Hf Hser Hpf. split; [done|by apply (ps2_init_spec n k)]. Qed.

(** It fails only when a test fails. *)
Lemma ps2_init_err n k pf fuel l e :
  settles (controller PS2) output_empty n -> (n < fuel)%nat ->
  settles (port_new 8 (0x3f8 + 5)) is_transmit_empty k -> (k < pf)%nat ->
  ps2_init pf fuel PS2 l = Err e -> e = EPanic "PS/2 self test failed" \/ e = EPanic "Interface tests failed".
Proof.
  intros H1 H2 H3 H4. unfold ps2_init. destruct (ps2_init_spec n k pf fuel l H1 H2 H3 H4) as (x & c1 & t1 & e1 & _ & Hr).
  destruct (negb (t1 =? 0x55)); [rewrite Hr; intros [= <-]; by left|]. destruct Hr as (t2 & e2 & _ & Hr).
  destruct (negb (t2 =? 0)); [rewrite Hr; intros [= <-]; by right|]. destruct Hr as (c2 & y & e3 & _ & ->). done.
Qed.

End Ps2.

(** ** A controller that is ready at once and passes its tests *)

Definition ps2_hw : Hardware := fun l _ port =>
  if decide (port = 0x3f8 + 5) then 0x60 else
  if decide (port = 0x64) then 0x1f else
  match last_out 0x64 l with
  | Some 0xAA => 0x55
  | Some 0x20 => 0x65
  | _ => 0
  end.

Lemma ps2_hw_settles : @settles ps2_hw (controller PS2) output_empty 0.
Proof. intros l. exists 0%nat. split; [lia|]. cbn [reads]. reflexivity. Qed.

Lemma ps2_hw_serial : @settles ps2_hw (port_new 8 (0x3f8 + 5)) is_transmit_empty 0.
Proof. intros l. exists 0%nat. split; [lia|]. cbn [reads]. reflexivity. Qed.

Lemma ps2_write_never_waits_witness :
  exists status, @wait_then_write ps2_hw 5 0x42 PS2 [] = Ok [PIn 8 0x64 status; POut 8 0x60 0x42] /\
    Z.testbit status 1 = true.
Proof. exact (@ps2_write_never_waits ps2_hw 5 0x42 [] ltac:(lia) eq_refl). Defined.

(** The same controller with a self test that fails. *)
Definition broken_hw : Hardware := fun l w port =>
  if decide (port = 0x60) then 0xfc else ps2_hw l w port.

Lemma broken_hw_settles : @settles broken_hw (controller PS2) output_empty 0.
Proof. intros l. exists 0%nat. split; [lia|]. cbn [reads]. reflexivity. Qed.

Lemma broken_hw_serial : @settles broken_hw (port_new 8 (0x3f8 + 5)) is_transmit_empty 0.
Proof. intros l. exists 0%nat. split; [lia|]. cbn [reads]. reflexivity. Qed.

(** The first controller is initialised, in the three parts of the conversation; the
    second fails the self test, and its conversation ends there. *)
Lemma ps2_init_correct_witness :
  (exists x c1 t1 t2 c2 y e1 e2 e3, @ps2_init ps2_hw 1 1 PS2 [] = Ok (e1 ++ e2 ++ e3) /\
     dialogue (starting x c1 t1) e1 /\ dialogue (interface_test t2) e2 /\ dialogue (enabling c2 y) e3) /\
  (exists x c1 t1 e1, dialogue (starting x c1 t1) e1 /\
     @ps2_init_or broken_hw (fun _ l => Ok l) 1 1 PS2 [] = Ok e1).
Proof.
  split.
  - assert (Hok : ok_bool (@ps2_init ps2_hw 1 1 PS2 []) = true) by (vm_compute; reflexivity).
    destruct (@ps2_init_correct ps2_hw 0 0 1 1 [] ps2_hw_settles (le_n 1) ps2_hw_serial (le_n 1)) as [E H]. rewrite E in *.
    destruct H as (x & c1 & t1 & e1 & D1 & H).
    destruct (negb (t1 =? 0x55)); [rewrite H in Hok; discriminate Hok|]. destruct H as (t2 & e2 & D2 & H).
    destruct (negb (t2 =? 0)); [rewrite H in Hok; discriminate Hok|]. destruct H as (c2 & y & e3 & D3 & H).
    exists x, c1, t1, t2, c2, y, e1, e2, e3.
    split; [|exact (conj D1 (conj D2 D3))]. exact (H (fun msg _ => panic msg)).
  - pose (r := @ps2_init_or broken_hw (fun msg l => Err (EPanic msg)) 1 1 PS2 []).
    assert (Hbad : r = Err (EPanic "PS/2 self test failed")) by (vm_compute; reflexivity). unfold r in Hbad. clear r.
    destruct (@ps2_init_correct broken_hw 0 0 1 1 [] broken_hw_settles (le_n 1) broken_hw_serial (le_n 1)) as [_ H].
    destruct H as (x & c1 & t1 & e1 & D1 & H). destruct (negb (t1 =? 0x55)).
    + exists x, c1, t1, e1. split; [exact D1|exact (H (fun _ l => Ok l))].
    + exfalso. destruct H as (t2 & e2 & _ & H).
      destruct (negb (t2 =? 0)); [|destruct H as (c2 & y & e3 & _ & H)]; rewrite H in Hbad; discriminate Hbad.
Defined.
