(* ===== verification/Interrupts.v ===== *)
(** * Interrupts: the 8259 controllers, critical sections and the timer

    [device/pic.rs], [device/pit.rs], [arch/x86_64/interrupts/utils.rs] and
    [timer_handler] of [arch/x86_64/interrupts/irq.rs].  The interrupt flag is
    bit 9 of the processor's [rflags], so that a context switch changes it. *)

From S2P Require Import Prelude Fmt Task Sched Apic Ports Serial.

(** ** The controllers *)

Definition CMD_INIT : Z := 0x11.
Definition CMD_END_OF_INTERRUPT : Z := 0x20.
Definition MODE_8086 : Z := 0x01.

Record Pic := mkPic { pic_offset : Z; pic_command : Port; pic_data : Port }.
Record ChainedPics := mkPics { pic0 : Pic; pic1 : Pic }.

Definition pics_new (offset1 offset2 : Z) : ChainedPics :=
  mkPics (mkPic offset1 (port_new 8 0x20) (port_new 8 0x21))
         (mkPic offset2 (port_new 8 0xA0) (port_new 8 0xA1)).

Definition PICS : ChainedPics := pics_new 0x20 0x28.

(** [self.offset + 8] is a [u8] addition, evaluated only after the first
    comparison. *)
Definition pic_handles_interrupt (p : Pic) (interrupt_id : Z) : outcome bool :=
  if pic_offset p <=? interrupt_id then
    let? top := add_w 8 (pic_offset p) 8 in Ok (interrupt_id <? top)
  else Ok false.

Definition pic_end_of_interrupt (p : Pic) (l : io_log) : io_log :=
  port_write (pic_command p) CMD_END_OF_INTERRUPT l.

Definition pics_init (p : ChainedPics) (l : io_log) : io_log :=
  let wait (l : io_log) := port_write (port_new 8 0x80) 0 l in
  let l := wait (port_write (pic_command (pic0 p)) CMD_INIT l) in
  let l := wait (port_write (pic_command (pic1 p)) CMD_INIT l) in
  let l := wait (port_write (pic_data (pic0 p)) (pic_offset (pic0 p)) l) in
  let l := wait (port_write (pic_data (pic1 p)) (pic_offset (pic1 p)) l) in
  let l := wait (port_write (pic_data (pic0 p)) 4 l) in
  let l := wait (port_write (pic_data (pic1 p)) 2 l) in
  let l := wait (port_write (pic_data (pic0 p)) MODE_8086 l) in
  port_write (pic_data (pic1 p)) MODE_8086 l.

Definition pics_handles_interrupt (p : ChainedPics) (interrupt_id : Z) : outcome bool :=
  let? a := pic_handles_interrupt (pic0 p) interrupt_id in
  if a then Ok true else pic_handles_interrupt (pic1 p) interrupt_id.

Definition notify_end_of_interrupt (p : ChainedPics) (interrupt_id : Z) (l : io_log) : outcome io_log :=
  let? h := pics_handles_interrupt p interrupt_id in
  if h then
    let? s := pic_handles_interrupt (pic1 p) interrupt_id in
    let l := if s then pic_end_of_interrupt (pic1 p) l else l in
    Ok (pic_end_of_interrupt (pic0 p) l)
  else Ok l.

Definition disable_8259_pic (p : ChainedPics) (l : io_log) : io_log :=
  let l := port_write (pic_data (pic0 p)) 0xff l in
  port_write (pic_data (pic1 p)) 0xff l.

(** ** The programmable interval timer *)

Definition PIT_SET : Z := 0x36.
Definition DIVISOR : Z := 2685.

(** [pf] is the fuel of the messages. *)
Definition pit_init `{Hardware} (pf : nat) (l : io_log) : outcome io_log :=
  let? l := println pf (bytes_of "[ dev ] Setting pit mode." ++ nl) l in
  let l := port_write (port_new 8 0x43) PIT_SET l in
  let? l := println pf (bytes_of "[ dev ] Setting up frequency." ++ nl) l in
  let l := port_write (port_new 8 0x40) (trunc 8 (Z.land DIVISOR 0xFF)) l in
  let l := port_write (port_new 8 0x40) (trunc 8 (Z.shiftr DIVISOR 8)) l in
  let frequency := 1193182 / 2685 in
  let? irq0_int_timeout := let val := 1 / frequency in mul_w 32 val 1000 in
  println pf (bytes_of "[ dev ] Initialising PIT, setup to interrupt every " ++ fmt_dec irq0_int_timeout ++
    bytes_of " ms" ++ nl) l.

(** ** Critical sections *)

(** The scheduler, the processor and the ports. *)
Record ist := mkIst { i_kernel : kernel; i_log : io_log }.

Definition set_if (on : bool) (c : Context) : Context :=
  with_rflags c (if on then Z.setbit (c_rflags c) 9 else Z.clearbit (c_rflags c) 9).

Definition interrupts_on (s : ist) : bool := Z.testbit (c_rflags (cpu (i_kernel s))) 9.

(** [cli] and [sti] *)
Definition disable (s : ist) : ist :=
  mkIst (mkKernel (sch (i_kernel s)) (set_if false (cpu (i_kernel s)))) (i_log s).
Definition enable (s : ist) : ist :=
  mkIst (mkKernel (sch (i_kernel s)) (set_if true (cpu (i_kernel s)))) (i_log s).

Section Interrupts.
Context `{Hardware}.

Definition disable_interrupts (s : ist) : (Z * Z) * ist :=
  let s := disable s in
  let (mask_pic0, l) := port_read (pic_data (pic0 PICS)) (i_log s) in
  let (mask_pic1, l) := port_read (pic_data (pic1 PICS)) l in
  let l := port_write (pic_data (pic0 PICS)) 0xff l in
  let l := port_write (pic_data (pic1 PICS)) 0xff l in
  ((mask_pic0, mask_pic1), mkIst (i_kernel s) l).

Definition enable_interrupts (s : ist) : ist := enable (disable s).

Definition restore_interrupts (saved_masks : Z * Z) (s : ist) : ist :=
  let s := disable s in
  let l := port_write (pic_data (pic0 PICS)) (fst saved_masks) (i_log s) in
  let l := port_write (pic_data (pic1 PICS)) (snd saved_masks) l in
  enable (mkIst (i_kernel s) l).

(** For a closure that does not switch to another process. *)
Definition disable_interrupts_and_then {T} (f : ist -> outcome (T * ist)) (s : ist) : outcome (T * ist) :=
  let (saved_masks, s) := disable_interrupts s in
  let? (result, s) := f s in
  Ok (result, restore_interrupts saved_masks s).

(** ** The timer *)

(** [PIT_TICKS], [APIC_MANAGER], and the masks saved by the
    processes that wait in the critical section of the handler: after a context
    switch it is the resumed process that restores the masks it saved, while a
    process that runs for the first time starts at its entry point. *)
Record timer := mkTimer {
  t_ticks : Z;
  t_apic : option ApicManager;
  t_saved : gmap Z (Z * Z);
  t_ist : ist }.

Definition timer_text : list Z := bytes_of "timer interrupt." ++ nl.

Definition timer_handler (pf : nat) (t : timer) : outcome timer :=
  let? l := println pf timer_text (i_log (t_ist t)) in
  let t := mkTimer (t_ticks t) (t_apic t) (t_saved t) (mkIst (i_kernel (t_ist t)) l) in
  let? _ := apic_eoi (t_apic t) in
  let old := t_ticks t in
  let ticks := trunc 64 (old + 1) in
  if 10 <=? old then
    let ticks := 0 in
    let (saved_masks, s) := disable_interrupts (t_ist t) in
    let me := get_id (sch (i_kernel s)) in
    let? k := resched (i_kernel s) in
    let s := mkIst k (i_log s) in
    let saved := <[me := saved_masks]> (t_saved t) in
    let id := get_id (sch k) in
    match saved !! id with
    | Some m => Ok (mkTimer ticks (t_apic t) (delete id saved) (restore_interrupts m s))
    | None => Ok (mkTimer ticks (t_apic t) saved s)
    end
  else Ok (mkTimer ticks (t_apic t) (t_saved t) (t_ist t)).

(** ** Masks and the interrupt flag *)

Lemma set_if_bit on c : Z.testbit (c_rflags (set_if on c)) 9 = on.
Proof.
  destruct on; cbn [set_if with_rflags c_rflags]; [apply Z.setbit_eq; lia|apply Z.clearbit_eq].
Qed.

(** The ports of the two controllers. *)
Definition pic_port (port : Z) : Prop := port = 0x20 \/ port = 0x21 \/ port = 0xA0 \/ port = 0xA1.

(** The documented behaviour of the mask registers after the history [base]: as
    long as no command is written to a controller, reading its data port gives
    the last mask written there, and [m0] or [m1] before any. *)
Definition mask_law (base : io_log) (m0 m1 : Z) : Prop :=
  forall l, Forall (fun e => ev_port e <> 0x20 /\ ev_port e <> 0xA0) l ->
  hw (base ++ l) 8 0x21 = default m0 (last_out 0x21 l) /\
  hw (base ++ l) 8 0xA1 = default m1 (last_out 0xA1 l).

(** It goes on after accesses to other ports. *)
Lemma mask_law_skip base m0 m1 l :
  mask_law base m0 m1 -> Forall (fun e => ~ pic_port (ev_port e)) l -> mask_law (base ++ l) m0 m1.
Proof.
  intros Hm Hl l' Hl'. rewrite <-app_assoc.
  destruct (Hm (l ++ l')) as [-> ->].
  { apply Forall_app. split; [|done]. eapply Forall_impl; [exact Hl|]. intros e He. unfold pic_port in He. tauto. }
  assert (Hn : forall p, pic_port p -> last_out p l = None).
  { intros p Hp. clear -Hl Hp. induction Hl as [|e l He _ IH]; [done|]. simpl. rewrite IH. destruct e as [|w q v]; [done|].
    rewrite decide_False; [done|]. intros ->. done. }
  rewrite !last_out_app, !Hn by (unfold pic_port; tauto). split; by case_match.
Qed.

Lemma message_no_pic text evs : message text evs -> Forall (fun e => ~ pic_port (ev_port e)) evs.
Proof. intros [_ _ _ Hp]. eapply Forall_impl; [exact Hp|]. unfold pic_port. intros e [He|He]; rewrite He; lia. Qed.

Definition mask0 (s : ist) : Z := hw (i_log s) 8 0x21.
Definition mask1 (s : ist) : Z := hw (i_log s) 8 0xA1.

(** A closure that leaves the controllers alone. *)
Definition no_pic {T} (f : ist -> outcome (T * ist)) : Prop :=
  forall s r s', f s = Ok (r, s') ->
  exists l, i_log s' = i_log s ++ l /\ Forall (fun e => ~ pic_port (ev_port e)) l.

Lemma disable_interrupts_eq s m0 m1 :
  mask_law (i_log s) m0 m1 -> in_width 8 m0 -> in_width 8 m1 ->
  disable_interrupts s =
  ((m0, m1), mkIst (i_kernel (disable s))
    (i_log s ++ [PIn 8 0x21 m0; PIn 8 0xA1 m1; POut 8 0x21 0xff; POut 8 0xA1 0xff])).
Proof.
  intros Hm H0 H1. unfold in_width in *. unfold disable_interrupts, port_read, port_in. simpl.
  destruct (Hm []) as [E0 _]; [constructor|]. rewrite app_nil_r in E0. rewrite E0. simpl.
  unfold trunc. rewrite (Z.mod_small m0) by done.
  destruct (Hm [PIn 8 0x21 m0]) as [_ E1]; [by repeat constructor|]. rewrite E1. simpl.
  rewrite (Z.mod_small m1) by done. unfold port_write, port_out. simpl. by rewrite <-!app_assoc.
Qed.

(** C29: a critical section: the closure runs with the interrupt flag clear and
    both controllers fully masked; afterwards both masks are what they were,
    and interrupts are on.  The section returns exactly when its closure does. *)
Theorem critical_section {T} (f : ist -> outcome (T * ist)) s m0 m1 :
  mask_law (i_log s) m0 m1 -> in_width 8 m0 -> in_width 8 m1 -> no_pic f ->
  exists s1, interrupts_on s1 = false /\ mask0 s1 = 0xff /\ mask1 s1 = 0xff /\
    sch (i_kernel s1) = sch (i_kernel s) /\
    match f s1 with
    | Ok (r, s2) => exists s', disable_interrupts_and_then f s = Ok (r, s') /\
        mask0 s' = m0 /\ mask1 s' = m1 /\ interrupts_on s' = true
    | Err e => disable_interrupts_and_then f s = Err e
    end.
Proof.
  intros Hm H0 H1 Hf. unfold disable_interrupts_and_then.
  rewrite (disable_interrupts_eq s m0 m1 Hm H0 H1). set (pre := [PIn _ _ _; _; _; _]) in *.
  assert (Hpre : Forall (fun e => ev_port e <> 0x20 /\ ev_port e <> 0xA0) pre) by (by repeat constructor).
  match goal with |- context [obind (f ?x) _] => exists x end. split; [apply set_if_bit|].
  unfold mask0, mask1. simpl i_log.
  destruct (Hm pre Hpre) as [-> ->]. do 3 (split; [done|]).
  destruct (f _) as [[r s2]|e] eqn:Hfs; cbn [obind]; [|done]. eexists. split; [reflexivity|].
  destruct (Hf _ _ _ Hfs) as (l & Hl & Hnp). simpl i_log in Hl.
  assert (Hpost : forall v0 v1, Forall (fun e => ev_port e <> 0x20 /\ ev_port e <> 0xA0)
    (pre ++ l ++ [POut 8 0x21 v0; POut 8 0xA1 v1])).
  { intros v0 v1. apply Forall_app. split; [done|]. apply Forall_app. split; [|by repeat constructor].
    eapply Forall_impl; [exact Hnp|]. intros e He. unfold pic_port in He. tauto. }
  assert (Hlog : i_log (restore_interrupts (m0, m1) s2) = i_log s ++ pre ++ l ++ [POut 8 0x21 m0; POut 8 0xA1 m1]).
  { change (i_log (restore_interrupts (m0, m1) s2)) with ((i_log s2 ++ [POut 8 0x21 m0]) ++ [POut 8 0xA1 m1]).
    by rewrite Hl, <-!app_assoc. }
  destruct (Hm _ (Hpost m0 m1)) as [E0 E1]. rewrite Hlog, E0, E1.
  split; [by rewrite !last_out_app|]. split; [by rewrite !last_out_app|apply set_if_bit].
Qed.

(** critical sections do not nest.  Inside an outer section, the end of an
    inner one turns interrupts on: the code of the outer closure after it runs
    with the interrupt flag set. *)
Theorem nested_section {T U} (f : ist -> outcome (T * ist)) (g : T -> ist -> outcome (U * ist)) s r s' :
  disable_interrupts_and_then (fun s => let? (x, s) := disable_interrupts_and_then f s in g x s) s
    = Ok (r, s') ->
  exists x s2 s3, interrupts_on s2 = true /\ g x s2 = Ok (r, s3).
Proof.
  intros Hrun. unfold disable_interrupts_and_then at 1 in Hrun. destruct (disable_interrupts s) as [m s1].
  apply obind_Ok in Hrun as ([r' s3] & Hin & Hrun). injection Hrun as -> _.
  apply obind_Ok in Hin as ([x s2] & Hin & Hg). unfold disable_interrupts_and_then in Hin.
  destruct (disable_interrupts s1) as [m' s1']. apply obind_Ok in Hin as ([y s4] & _ & Hin).
  injection Hin as <- <-. eexists y, _, s3. split; [|exact Hg]. apply set_if_bit.
Qed.

(** [notify_end_of_interrupt] for the controllers as the kernel sets them
    up (vectors 0x20 and 0x28): nothing for a vector of neither, the master
    alone for its eight vectors, first the slave and then the master for the
    slave's eight. *)
Theorem eoi_correct id l :
  in_width 8 id ->
  notify_end_of_interrupt PICS id l =
  Ok (l ++ if (0x20 <=? id) && (id <? 0x28) then [POut 8 0x20 0x20]
           else if (0x28 <=? id) && (id <? 0x30) then [POut 8 0xA0 0x20; POut 8 0x20 0x20]
           else []).
Proof.
  intros Hid. unfold notify_end_of_interrupt, pics_handles_interrupt, pic_handles_interrupt,
    pic_end_of_interrupt, port_write, port_out. simpl.
  change (add_w 8 0x20 8) with (@Ok Z 0x28). change (add_w 8 0x28 8) with (@Ok Z 0x30). cbn [obind].
  case_bools; try lia; simpl; rewrite ?app_nil_r, <-?app_assoc; done.
Qed.

(** ** The timer drives the scheduler *)

Section Timer.
Context (k pf : nat) (Hready : settles (port_new 8 (0x3f8 + 5)) is_transmit_empty k) (Hpf : (k < pf)%nat).

Lemma disable_interrupts_sch s m s' : disable_interrupts s = (m, s') -> sch (i_kernel s') = sch (i_kernel s).
Proof.
  unfold disable_interrupts. destruct (port_read _ _), (port_read _ _). by intros [= <- <-].
Qed.

(** The controllers are reached through their own ports. *)
Lemma disable_interrupts_outs s m s' :
  disable_interrupts s = (m, s') -> exists evs, i_log s' = i_log s ++ evs /\ outs 0x3f8 evs = [].
Proof.
  unfold disable_interrupts, port_read, port_write, port_in, port_out. intros [= <- <-].
  eexists. split; [simpl; rewrite <-!app_assoc; reflexivity|done].
Qed.

Lemma restore_interrupts_outs m s :
  exists evs, i_log (restore_interrupts m s) = i_log s ++ evs /\ outs 0x3f8 evs = [].
Proof.
  unfold restore_interrupts, port_write, port_out. eexists. split; [simpl; rewrite <-!app_assoc; reflexivity|done].
Qed.

Lemma timer_tick t self :
  t_apic t = Some self -> manager_ok self -> 0 <= t_ticks t <= 10 ->
  sched_inv (sch (i_kernel (t_ist t))) -> rr (sch (i_kernel (t_ist t))) ->
  exists t', timer_handler pf t = Ok t' /\ t_apic t' = Some self /\
    sched_inv (sch (i_kernel (t_ist t'))) /\ rr (sch (i_kernel (t_ist t'))) /\
    outs 0x3f8 (i_log (t_ist t')) = outs 0x3f8 (i_log (t_ist t)) ++ timer_text /\
    t_ticks t' = (t_ticks t + 1) mod 11 /\
    queue (sch (i_kernel (t_ist t'))) =
      (if t_ticks t =? 10 then rot1 (queue (sch (i_kernel (t_ist t)))) else queue (sch (i_kernel (t_ist t)))).
Proof.
  intros Hap Hok Ht Hi Hr. unfold timer_handler.
  destruct (println_spec k pf timer_text (i_log (t_ist t)) Hready Hpf) as (e1 & -> & [A1 _ _ _]).
  cbn [obind t_apic t_ticks t_saved t_ist]. rewrite Hap, (apic_eoi_ok self Hok). cbn [obind].
  destruct (Z.leb_spec 10 (t_ticks t)) as [Hge|Hlt].
  - replace (t_ticks t) with 10 by lia.
    destruct (disable_interrupts _) as [m s] eqn:Hd. pose proof (disable_interrupts_sch _ _ _ Hd) as Hs.
    destruct (disable_interrupts_outs _ _ _ Hd) as (e2 & Hl2 & A2). cbn [i_kernel i_log] in Hs, Hl2.
    destruct (resched_rr (i_kernel s)) as (k' & -> & Hi' & Hr' & Hq); [by rewrite Hs..|]. rewrite Hs in Hq.
    cbn [obind]. destruct (_ !! _) as [m'|].
    + destruct (restore_interrupts_outs m' (mkIst k' (i_log s))) as (e3 & Hl3 & A3). cbn [i_log] in Hl3.
      eexists. split; [done|]. cbn [t_ist t_ticks]. rewrite Hl3, Hl2, !outs_app, A1, A2, A3, !app_nil_r. simpl. by rewrite Hq.
    + eexists. split; [done|]. cbn [t_ist t_ticks i_log]. rewrite Hl2, !outs_app, A1, A2, !app_nil_r. simpl. by rewrite Hq.
  - eexists. split; [done|]. cbn [t_ist t_ticks i_log]. rewrite outs_app, A1. simpl. unfold trunc. rewrite !Z.mod_small by lia.
    destruct (Z.eqb_spec (t_ticks t) 10); [lia|]. done.
Qed.

Lemma div11_succ n : (S n / 11)%nat = if (Z.of_nat n mod 11 =? 10) then S (n / 11) else (n / 11)%nat.
Proof.
  apply Nat2Z.inj. rewrite Nat2Z.inj_div. pose proof (Nat2Z.inj_div n 11) as Hn.
  destruct (Z.eqb_spec (Z.of_nat n mod 11) 10); rewrite ?Nat2Z.inj_succ, Hn; change (Z.of_nat 11) with 11;
    Z.div_mod_to_equations; lia.
Qed.

(** C28: time slicing.  Starting from a fresh tick counter, [n] timer interrupts
    run without a panic, print a line each, and call the scheduler [n / 11] times:
    every eleventh interrupt moves the round-robin queue on by one. *)
Theorem timer_round_robin n t self :
  t_apic t = Some self -> manager_ok self -> t_ticks t = 0 ->
  sched_inv (sch (i_kernel (t_ist t))) -> rr (sch (i_kernel (t_ist t))) ->
  exists t', ofold (fun _ => timer_handler pf) (seq 0 n) t = Ok t' /\
    outs 0x3f8 (i_log (t_ist t')) = outs 0x3f8 (i_log (t_ist t)) ++ concat (replicate n timer_text) /\
    t_ticks t' = Z.of_nat n mod 11 /\
    queue (sch (i_kernel (t_ist t'))) = Nat.iter (n / 11) rot1 (queue (sch (i_kernel (t_ist t)))).
Proof.
  intros Hap Hok H0 Hi Hr.
  enough (exists t', ofold (fun _ => timer_handler pf) (seq 0 n) t = Ok t' /\ t_apic t' = Some self /\
    sched_inv (sch (i_kernel (t_ist t'))) /\ rr (sch (i_kernel (t_ist t'))) /\
    outs 0x3f8 (i_log (t_ist t')) = outs 0x3f8 (i_log (t_ist t)) ++ concat (replicate n timer_text) /\
    t_ticks t' = Z.of_nat n mod 11 /\
    queue (sch (i_kernel (t_ist t'))) = Nat.iter (n / 11) rot1 (queue (sch (i_kernel (t_ist t))))) as Hgo.
  { destruct Hgo as (t' & ? & _ & _ & _ & ? & ? & ?). by exists t'. }
  induction n as [|n (t1 & Hrun & Hap1 & Hi1 & Hr1 & Ho1 & Ht1 & Hq1)]; [exists t; by rewrite app_nil_r|].
  rewrite seq_S, ofold_app, Hrun. cbn [obind ofold].
  destruct (timer_tick t1 self Hap1 Hok) as (t2 & -> & Hap2 & Hi2 & Hr2 & Ho2 & Ht2 & Hq2); [Z.div_mod_to_equations; lia|done|done|].
  cbn [obind]. exists t2. split_and!; try done.
  - rewrite Ho2, Ho1, replicate_S_end, concat_app, <-app_assoc. cbn [concat]. by rewrite app_nil_r.
  - rewrite Ht2, Ht1. Z.div_mod_to_equations. lia.
  - rewrite Hq2, Hq1, Ht1, div11_succ. by destruct (Z.of_nat n mod 11 =? 10).
Qed.

(** the timer cannot interrupt a new process.  When the handler switches to
    a process that has not run yet, the interrupt flag is clear (its saved
    [rflags] is zero) and both controllers stay masked: the masks the handler
    saved are restored only when the interrupted process runs again. *)
Theorem new_process_masked t self prev p id rest m0 m1 :
  t_apic t = Some self -> manager_ok self -> t_ticks t = 10 -> mask_law (i_log (t_ist t)) m0 m1 -> in_width 8 m0 -> in_width 8 m1 ->
  let s := sch (i_kernel (t_ist t)) in
  sched_inv s -> procs (task_table s) !! get_id s = Some prev -> state prev = Current ->
  ready_list s = id :: rest -> id <> get_id s -> procs (task_table s) !! id = Some p ->
  c_rflags (ctx p) = 0 -> t_saved t !! id = None ->
  exists t', timer_handler pf t = Ok t' /\ get_id (sch (i_kernel (t_ist t'))) = id /\
    interrupts_on (t_ist t') = false /\ mask0 (t_ist t') = 0xff /\ mask1 (t_ist t') = 0xff.
Proof.
  intros Hap Hok H10 Hm H0 H1 s Hi Hprev Hst Hl Hne Hp Hfl Hsv. unfold timer_handler.
  destruct (println_spec k pf timer_text (i_log (t_ist t)) Hready Hpf) as (e1 & -> & Hmsg).
  apply (mask_law_skip _ _ _ e1) in Hm; [|by eapply message_no_pic]. cbn [obind t_apic t_ticks t_saved t_ist].
  rewrite Hap, (apic_eoi_ok self Hok), H10. cbn [obind]. change (10 <=? 10) with true. cbv iota beta.
  rewrite (disable_interrupts_eq (mkIst (i_kernel (t_ist t)) (i_log (t_ist t) ++ e1)) m0 m1 Hm H0 H1).
  destruct (tw_pid _ (si_table _ Hi) id p Hp) as [Hpid _].
  cbn [i_kernel i_log]. rewrite (resched_switch _ prev p id rest) by done. cbn [obind].
  unfold get_id in *. cbn [sch current_pid i_kernel]. rewrite Hpid. simpl sch.
  rewrite (lookup_insert_ne (t_saved t)) by done. rewrite Hsv. eexists. split; [done|]. split; [done|].
  unfold interrupts_on, mask0, mask1. cbn [t_ist i_kernel i_log cpu]. rewrite Hfl.
  destruct (Hm [PIn 8 33 m0; PIn 8 161 m1; POut 8 33 255; POut 8 161 255]) as [-> ->]; [by repeat constructor|].
  done.
Qed.

End Timer.

(** [pit::init] programs the divisor 2685 (low byte first), a period of
    more than two milliseconds, but the message says the period is 0 ms. *)
Theorem pit_init_period n pf l :
  settles (port_new 8 (0x3f8 + 5)) is_transmit_empty n -> (n < pf)%nat ->
  exists evs lo hi, pit_init pf l = Ok (l ++ evs) /\ outs 0x43 evs = [PIT_SET] /\ outs 0x40 evs = [lo; hi] /\
    lo + 256 * hi = DIVISOR /\ 2 * 1193182 < 1000 * DIVISOR /\
    outs 0x3f8 evs = bytes_of "[ dev ] Setting pit mode." ++ nl ++ bytes_of "[ dev ] Setting up frequency." ++ nl ++
      bytes_of "[ dev ] Initialising PIT, setup to interrupt every 0 ms" ++ nl.
Proof.
  intros Hs Hf. unfold pit_init.
  match goal with |- context [println pf ?t l] => destruct (println_spec n pf t l Hs Hf) as (e1 & -> & [A1 A2 _ _]) end.
  cbn [obind]. unfold port_write, port_out. cbn [port_width port_addr port_new].
  match goal with |- context [println pf ?t ?l'] => destruct (println_spec n pf t l' Hs Hf) as (e2 & -> & [B1 B2 _ _]) end.
  cbn [obind]. change (mul_w 32 (1 / (1193182 / 2685)) 1000) with (@Ok Z 0). cbn [obind].
  match goal with |- context [println pf ?t ?l'] => destruct (println_spec n pf t l' Hs Hf) as (e3 & -> & [C1 C2 _ _]) end.
  eexists _, _, _. split; [rewrite <-!app_assoc; reflexivity|].
  rewrite !outs_app, A1, B1, C1, !A2, !B2, !C2 by done. repeat split; reflexivity.
Qed.

End Interrupts.

(** ** A concrete machine: registers that read back what was written *)

Definition demo_hw : Hardware := fun l _ port =>
  if decide (port = 0x3f8 + 5) then 0x60 else default 0 (last_out port l).

Lemma demo_hw_ready : @settles demo_hw (port_new 8 (0x3f8 + 5)) is_transmit_empty 0.
Proof. intros l. exists 0%nat. split; [lia|]. reflexivity. Qed.

Lemma demo_mask_law : @mask_law demo_hw [] 0 0.
Proof. intros l _. done. Qed.

Definition demo_ist : ist := mkIst (demo_kernel [1; 2]) [].

Definition demo_body (s : ist) : outcome (Z * ist) := Ok (5, s).

Lemma demo_body_no_pic : no_pic demo_body.
Proof. intros s r s' [= <- <-]. exists []. by rewrite app_nil_r. Qed.

Lemma critical_section_witness :
  exists s', @disable_interrupts_and_then demo_hw Z demo_body demo_ist = Ok (5, s') /\
    @mask0 demo_hw s' = 0 /\ interrupts_on s' = true.
Proof.
  assert (Hw : in_width 8 0) by (unfold in_width; lia).
  destruct (@critical_section demo_hw Z demo_body demo_ist 0 0 demo_mask_law Hw Hw demo_body_no_pic)
    as (s1 & _ & _ & _ & _ & H).
  destruct H as (s' & Hrun & H0 & _ & Hon). exists s'.
  split; [exact Hrun|]. split; [exact H0|exact Hon].
Defined.

Lemma nested_section_witness :
  exists (x : Z) s2 s3, interrupts_on s2 = true /\ demo_body s2 = Ok (5, s3).
Proof.
  eassert (Hrun : @disable_interrupts_and_then demo_hw Z (fun s =>
    let? (x, s) := @disable_interrupts_and_then demo_hw Z demo_body s in demo_body s) demo_ist = Ok (5, _))
    by (vm_compute; reflexivity).
  exact (@nested_section demo_hw Z Z demo_body (fun _ => demo_body) demo_ist 5 _ Hrun).
Defined.

Lemma eoi_correct_witness :
  notify_end_of_interrupt PICS 0x2c [] = Ok [POut 8 0xA0 0x20; POut 8 0x20 0x20].
Proof. rewrite (eoi_correct 0x2c []); [reflexivity|unfold in_width; lia]. Defined.

Definition demo_timer (ticks : Z) : timer := mkTimer ticks (Some demo_manager) ∅ demo_ist.

Lemma timer_round_robin_witness :
  exists t', ofold (fun _ => @timer_handler demo_hw 1) (seq 0 22) (demo_timer 0) = Ok t' /\
    queue (sch (i_kernel (t_ist t'))) = [2; 0; 1].
Proof.
  destruct (@timer_round_robin demo_hw 0 1 demo_hw_ready (le_n 1) 22 (demo_timer 0) demo_manager eq_refl demo_manager_ok eq_refl (demo_inv _) demo_rr)
    as (t' & Hrun & _ & _ & Hq).
  exists t'. split; [exact Hrun|rewrite Hq; reflexivity].
Defined.

(** The kernel with a new process, at the head of the queue. *)
Definition fresh_kernel : kernel :=
  mkKernel (mkSched 0 (mkProcs (<[3 := new_process 3 "init" 0x1000 0x40001fe8 []]> demo_table) 4) [3]) (regs 7).

Lemma fresh_inv : sched_inv (sch fresh_kernel).
Proof.
  destruct (demo_inv [3]) as [[Hn Hp] Hc Ho]. split; simpl.
  - split; simpl; [unfold MAX_PROCS; lia|]. intros j p. rewrite lookup_insert. case_decide; [|apply Hp].
    intros [= <-]. subst. simpl. unfold MAX_PROCS. lia.
  - eexists. reflexivity.
  - intros j p. rewrite lookup_insert. case_decide; [by intros [= <-]|apply Ho].
Qed.

Lemma new_process_masked_witness :
  exists t', @timer_handler demo_hw 1 (mkTimer 10 (Some demo_manager) ∅ (mkIst fresh_kernel [])) = Ok t' /\
    get_id (sch (i_kernel (t_ist t'))) = 3 /\ interrupts_on (t_ist t') = false.
Proof.
  assert (Hw : in_width 8 0) by (unfold in_width; lia).
  destruct (@new_process_masked demo_hw 0 1 demo_hw_ready (le_n 1) (mkTimer 10 (Some demo_manager) ∅ (mkIst fresh_kernel [])) demo_manager (demo_proc 0 Current)
    (new_process 3 "init" 0x1000 0x40001fe8 []) 3 [] 0 0) as (t' & Hrun & Hid & Hoff & _);
    [reflexivity|exact demo_manager_ok|reflexivity|exact demo_mask_law|exact Hw|exact Hw|exact fresh_inv|reflexivity
    |reflexivity|reflexivity|discriminate|reflexivity|reflexivity|reflexivity|].
  exists t'. split; [exact Hrun|]. split; [exact Hid|exact Hoff].
Defined.
