(* ===== verification/AcpiInit.v ===== *)
(** * Initialising ACPI, and the whole of [memory::init]

    [acpi/mod.rs], [RsdpDescriptor::init], the end of [Madt::init] and the call
    of [acpi::init] that ends [memory::init].  The tables are read through the
    page tables: [vbytes] is the kernel's address space, in which the pages
    mapped so far can be read and every other address faults. *)

From S2P Require Import Prelude Frames FrameSource AreaAlloc Entry Mmu Table PageTree Mapper Boot.
From S2P Require Import StackAlloc Paging Identity MemoryInit Acpi Apic Ports Interrupts.

(** The [i]-th byte of a 64-bit word, little-endian. *)
Definition byte_of (w i : Z) : Z := trunc 8 (Z.shiftr w (8 * i)).

Section Acpi.
Context {A : Type} `{FrameSource A}.
Implicit Types s : mm A.

Definition vbytes s : bytes := fun a =>
  if canonical a then
    match walk (pm s) (active s) (mkPage (a / PAGE_SIZE)) with
    | Some (f, _) => Some (byte_of (rd (pm s) f (a mod PAGE_SIZE / 8)) (a mod 8))
    | None => None
    end
  else None.

Definition TABLE_FLAGS : Z := Z.lor PRESENT NO_EXECUTE.

(** [RsdpDescriptor::init] *)
Definition map_rsdp_frame (frame : Frame) s : outcome (mm A) :=
  let? a := frame_start frame in
  let? page := page_containing (VirtAddr (pa_get a)) in
  map_to_flush page frame TABLE_FLAGS s.

Definition rsdp_init s : outcome (option RsdpDescriptor * mm A) :=
  let rsdp_start := 0xe0000 in
  let rsdp_end := 0xfffff in
  let start_frame := frame_containing (PhysAddr rsdp_start) in
  let end_frame := frame_containing (PhysAddr rsdp_end) in
  let? frames := frames_of (frame_range_inclusive start_frame end_frame) in
  let? s := ofold map_rsdp_frame frames s in
  let? r := rsdp_search (vbytes s) rsdp_start rsdp_end in
  Ok (r, s).

(** The block of [get_sdt] that maps a page unless it is mapped. *)
Definition map_missing (page : Page) s : outcome (mm A) :=
  let? t := translate_page page s in
  match t with
  | Some _ => Ok s
  | None =>
      let? a := page_start page in
      let frame := frame_containing (PhysAddr (va_get a)) in
      map_to_flush page frame TABLE_FLAGS s
  end.

Definition get_sdt (address : Z) s : outcome (Z * mm A) :=
  let? page := page_containing (VirtAddr address) in
  let? s := map_missing page s in
  let? a := usize_add address 4096 in
  let? start_page := page_containing (VirtAddr a) in
  let? _ := access (vbytes s) (address + 4) 4 in
  let? e := usize_add address (sdt_length (vbytes s) address) in
  let? end_page := page_containing (VirtAddr e) in
  let? pages := pages_of (page_range_inclusive start_page end_page) in
  let? s := ofold map_missing pages s in
  Ok (address, s).

(** [APIC_MANAGER] and the port accesses beside the memory. *)
Record acpi_state := mkAcpi { ac_mm : mm A; ac_manager : option ApicManager; ac_log : io_log }.

(** [Madt::init]; [apic_base] is IA32_APIC_BASE, [has_apic] the answer of CPUID. *)
Definition madt_init (apic_base : Z) (has_apic : bool) (t : Madt) (st : acpi_state) : outcome acpi_state :=
  let? f := madt_collect (vbytes (ac_mm st)) apic_base t in
  match f with
  | None => Ok st
  | Some f =>
      let apic_manager := mkApic (m_address t) (local_apics f) (io_apics f) (nmis f) (isos f) in
      let log := pics_init PICS (ac_log st) in
      let? s := if has_apic then apic_init (Some apic_manager) (ac_mm st) else Ok (ac_mm st) in
      Ok (mkAcpi s (Some apic_manager) log)
  end.

(** [acpi::init]; the length of the data is computed for a message, with the port
    locked ([BootLocks.rsdt_length_acts]). *)
Definition acpi_init (apic_base : Z) (has_apic : bool) (st : acpi_state) : outcome acpi_state :=
  let? (r, s) := rsdp_init (ac_mm st) in
  let? rsdp := expect r "Could not find rsdp, aborting ..." in
  let? (sdt, s) := get_sdt (rsdp_sdt rsdp) s in
  let? rsdt := rsdt_new (vbytes s) sdt in
  let? _ := access (vbytes s) (sdt + 4) 4 in
  let? _ := usize_sub (sdt_length (vbytes s) sdt) HEADER_SIZE in
  let? m := find_sdt (vbytes s) rsdt APIC_SIG in
  match m with
  | Some m => madt_init apic_base has_apic m (mkAcpi s (ac_manager st) (ac_log st))
  | None => Ok (mkAcpi s (ac_manager st) (ac_log st))
  end.

(** ** Mapping the tables *)

(** The pages of [l], neither writable nor executable. *)
Definition read_only_pages (l : list Z) (k : Z) (w : rights) : Prop := k ∈ l /\ w = read_only.

Lemma table_flags_ok : flags_ok TABLE_FLAGS.
Proof. unfold TABLE_FLAGS. solve_flags. Qed.

Lemma table_rights : flag_rights TABLE_FLAGS = read_only.
Proof. reflexivity. Qed.

Lemma map_table_page s r O k s' :
  mm_inv s r O -> 0 <= k < 2 ^ 35 -> map_to_flush (mkPage k) (mkFrame k) TABLE_FLAGS s = Ok s' ->
  walk (pm s') r (mkPage k) = Some (k, read_only) /\ exists O', extends (read_only_pages [k]) s r O s' O'.
Proof.
  intros Hi Hk Hrun. pose proof (map_identity_spec s r O k TABLE_FLAGS Hi Hk table_flags_ok) as H0.
  rewrite Hrun in H0. destruct H0 as (_ & Hw & O' & He). split; [exact Hw|]. exists O'.
  eapply extends_weaken; [|exact He]. intros j w [-> ->]. split; [left|done].
Qed.

Lemma map_missing_spec s r O k s' :
  mm_inv s r O -> 0 <= k < 2 ^ 35 -> map_missing (mkPage k) s = Ok s' ->
  is_Some (walk (pm s') r (mkPage k)) /\ exists O', extends (read_only_pages [k]) s r O s' O'.
Proof.
  intros Hi Hk Hrun. destruct (low_page k Hk) as [Hc Hp]. unfold map_missing in Hrun.
  rewrite (translate_page_walk s r O) in Hrun by done. cbn [obind] in Hrun.
  destruct (walk (pm s) r (mkPage k)) as [[f w]|] eqn:Hw.
  - injection Hrun as <-. rewrite Hw. split; [by eexists|]. exists O. by apply extends_refl.
  - destruct (page_start_canonical _ Hc) as (Hps & _). rewrite Hps in Hrun. cbn [obind pnumber va_get] in Hrun.
    unfold frame_containing in Hrun. cbn [pa_get] in Hrun. rewrite Z.div_mul in Hrun by done.
    destruct (map_table_page s r O k s' Hi Hk Hrun) as [-> He]. split; [by eexists|exact He].
Qed.

Lemma map_missing_list l s r O s' :
  mm_inv s r O -> Forall (fun k => 0 <= k < 2 ^ 35) l -> ofold map_missing (mkPage <$> l) s = Ok s' ->
  Forall (fun k => is_Some (walk (pm s') r (mkPage k))) l /\ exists O', extends (read_only_pages l) s r O s' O'.
Proof.
  intros Hi Hl Hrun. revert s O Hi Hrun. induction Hl as [|k l Hk Hl IH]; intros s O Hi Hrun.
  - injection Hrun as <-. split; [constructor|]. exists O. by apply extends_refl.
  - rewrite fmap_cons in Hrun. cbn [ofold] in Hrun. apply obind_Ok in Hrun as (s1 & H1 & Hrun).
    destruct (map_missing_spec s r O k s1 Hi Hk H1) as ([t Ht] & O1 & He1).
    destruct (IH s1 O1 (ex_inv _ _ _ _ _ _ He1) Hrun) as (Hall & O2 & He2). split.
    + constructor; [|exact Hall]. exists t. eapply extends_keeps; [exact He2|by apply low_page|exact Ht].
    + exists O2. eapply extends_trans; (eapply extends_weaken; [|eassumption]); intros j w [Hj ->]; (split; [|done]).
      * apply list_elem_of_singleton in Hj as ->. left.
      * by right.
Qed.

(** The pages [get_sdt] asks for, given the address of a table and its length:
    that of the header, and those from the next one to the end. *)
Definition sdt_pages (address length : Z) : list Z :=
  address / PAGE_SIZE :: seqZ ((address + 4096) / PAGE_SIZE)
    ((address + length) / PAGE_SIZE - (address + 4096) / PAGE_SIZE + 1).

(** The length [get_sdt] reads. *)
Definition sdt_read_length (address : Z) s : outcome Z :=
  let? page := page_containing (VirtAddr address) in
  let? s := map_missing page s in
  Ok (sdt_length (vbytes s) address).

(** The pages of the root table, as [acpi::init] finds it. *)
Definition root_pages s : outcome (list Z) :=
  let? (r, s) := rsdp_init s in
  let? rsdp := expect r "Could not find rsdp, aborting ..." in
  let? len := sdt_read_length (rsdp_sdt rsdp) s in
  Ok (sdt_pages (rsdp_sdt rsdp) len).

(** [get_sdt] maps the pages of the table that were not mapped, and no other. *)
Lemma get_sdt_spec address s r O sdt s' :
  mm_inv s r O -> 0 <= address < 2 ^ 46 -> get_sdt address s = Ok (sdt, s') ->
  sdt = address /\ exists len, sdt_read_length address s = Ok len /\
    Forall (fun k => user_page (mkPage k) /\ is_Some (walk (pm s') r (mkPage k))) (sdt_pages address len) /\
    exists O', extends (read_only_pages (sdt_pages address len)) s r O s' O'.
Proof.
  intros Hi Ha Hrun. unfold get_sdt in Hrun. unfold sdt_read_length. rewrite page_containing_low by lia. cbn [obind]. rewrite page_containing_low in Hrun by lia. cbn [obind] in Hrun.
  assert (Hk : 0 <= address / PAGE_SIZE < 2 ^ 35) by (unfold PAGE_SIZE; Z.div_mod_to_equations; lia).
  apply obind_Ok in Hrun as (s1 & H1 & Hrun). destruct (map_missing_spec _ _ _ _ _ Hi Hk H1) as ([t Ht] & O1 & He1).
  rewrite H1. cbn [obind]. set (len := sdt_length (vbytes s1) address).
  rewrite add_w_fits in Hrun by (unfold in_width; lia). cbn [obind] in Hrun.
  rewrite page_containing_low in Hrun by lia. cbn [obind] in Hrun. apply obind_Ok in Hrun as (u & _ & Hrun).
  pose proof (rd32_range (vbytes s1) (address + 4)) as Hlen. unfold sdt_length in Hrun.
  rewrite add_w_fits in Hrun by (unfold in_width; lia). cbn [obind] in Hrun.
  rewrite page_containing_low in Hrun by lia. cbn [obind] in Hrun.
  rewrite pages_of_seq in Hrun by (unfold PAGE_SIZE; Z.div_mod_to_equations; lia). cbn [obind] in Hrun.
  apply obind_Ok in Hrun as (s2 & H2 & Hrun). injection Hrun as <- <-.
  match type of H2 with ofold _ (_ <$> ?l) _ = _ =>
    assert (Hl : Forall (fun k => 0 <= k < 2 ^ 35) l)
      by (apply Forall_forall; intros k Hin%elem_of_seqZ; unfold PAGE_SIZE in *; Z.div_mod_to_equations; lia) end.
  destruct (map_missing_list _ s1 r O1 s2 (ex_inv _ _ _ _ _ _ He1) Hl H2) as (Hall & O2 & He2).
  split; [done|]. exists len. split; [done|]. split.
  - constructor.
    + split; [by apply low_page|]. exists t. eapply extends_keeps; [exact He2|by apply low_page|exact Ht].
    + apply Forall_forall. intros k Hin. rewrite Forall_forall in Hl, Hall. split; [by apply low_page, Hl|by apply Hall].
  - exists O2. eapply extends_trans; (eapply extends_weaken; [|eassumption]); intros j w [Hj ->]; (split; [|done]).
    + apply list_elem_of_singleton in Hj as ->. left.
    + by right.
Qed.

Lemma map_rsdp_frame_eq k s :
  0 <= k < 2 ^ 35 -> map_rsdp_frame (mkFrame k) s = map_to_flush (mkPage k) (mkFrame k) TABLE_FLAGS s.
Proof.
  intros Hk. unfold map_rsdp_frame, frame_start. cbn [fnumber].
  rewrite mul_w_fits by (unfold in_width, PAGE_SIZE; lia). cbn [obind pa_get].
  rewrite page_containing_low by (unfold PAGE_SIZE; lia). cbn [obind]. by rewrite Z.div_mul.
Qed.

(** The 32 pages of the BIOS area. *)
Definition bios_pages : list Z := seqZ 0xe0 32.

(** [RsdpDescriptor::init] maps the BIOS area, not writable and not executable. *)
Lemma rsdp_init_spec s r O d s' :
  mm_inv s r O -> rsdp_init s = Ok (d, s') ->
  Forall (fun k => walk (pm s') r (mkPage k) = Some (k, read_only)) bios_pages /\
  exists O', extends (read_only_pages bios_pages) s r O s' O'.
Proof.
  intros Hi Hrun. unfold rsdp_init in Hrun.
  change (frame_containing (PhysAddr 0xe0000)) with (mkFrame 0xe0) in Hrun.
  change (frame_containing (PhysAddr 0xfffff)) with (mkFrame 0xff) in Hrun.
  rewrite frames_of_seq in Hrun by lia. change (0xff - 0xe0 + 1) with 32 in Hrun. cbn [obind] in Hrun.
  apply obind_Ok in Hrun as (s1 & H1 & Hrun). apply obind_Ok in Hrun as (x & _ & Hrun). injection Hrun as _ <-.
  assert (Hl : Forall (fun k => 0 <= k < 2 ^ 35) (seqZ 0xe0 32))
    by (apply Forall_forall; intros k Hk%elem_of_seqZ; lia).
  assert (Heq : forall l s, Forall (fun k => 0 <= k < 2 ^ 35) l ->
    ofold map_rsdp_frame (mkFrame <$> l) s = ofold (fun k => map_to_flush (mkPage k) (mkFrame k) TABLE_FLAGS) l s).
  { intros l s2 Hl2. revert s2. induction Hl2 as [|k l Hk Hl2 IH]; intros s2; [done|]. rewrite fmap_cons. cbn [ofold].
    rewrite map_rsdp_frame_eq by done. destruct (map_to_flush _ _ _ s2); cbn [obind]; [apply IH|done]. }
  rewrite Heq in H1 by done. pose proof (map_identities_spec _ TABLE_FLAGS s r O Hi Hl table_flags_ok) as H0.
  rewrite H1 in H0. destruct H0 as (Hall & He). split; [exact Hall|exact He].
Qed.

Lemma rsdp_init_nonneg s d s' : rsdp_init s = Ok (Some d, s') -> 0 <= rsdp_sdt d.
Proof.
  unfold rsdp_init. intros Hrun. apply obind_Ok in Hrun as (l & _ & Hrun). apply obind_Ok in Hrun as (s1 & _ & Hrun).
  apply obind_Ok in Hrun as (x & Hx & Hrun). injection Hrun as -> _. by eapply rsdp_search_nonneg.
Qed.

(** ** The MADT *)

Lemma find_sdt_in_address m l sig t :
  find_sdt_in m l sig = Ok (Some t) -> in_width 32 (m_address t).
Proof.
  induction l as [|i l IH]; cbn [find_sdt_in]; intros Hrun; [done|].
  apply obind_Ok in Hrun as (u & _ & Hrun). apply obind_Ok in Hrun as (u2 & _ & Hrun).
  destruct (negb _); [auto|]. case_decide; [|done]. apply obind_Ok in Hrun as (x & Hx & Hrun). injection Hrun as ->.
  unfold madt_new in Hx. apply obind_Ok in Hx as (a & _ & Hx). apply obind_Ok in Hx as (u3 & _ & Hx).
  injection Hx as <-. apply rd32_range.
Qed.

(** A run of [apic::init] that returns has mapped the devices. *)
Lemma apic_init_maps self s r O s' :
  mm_inv s r O -> in_width 32 (lapic_base self) -> Forall (fun x => entry_ok (EIoApic x)) (am_io_apics self) ->
  apic_init (Some self) s = Ok s' ->
  Forall (fun k => walk (pm s') r (mkPage k) = Some (k, read_write)) (device_frames self) /\
  exists O', extends (device_rights self) s r O s' O'.
Proof.
  intros Hi Hb Hio Hrun. unfold apic_init in Hrun. apply obind_Ok in Hrun as (u & _ & Hrun).
  rewrite <-obind_assoc in Hrun. apply obind_Ok in Hrun as (s1 & H1 & Hrun).
  apply obind_Ok in Hrun as (u2 & _ & Hrun). injection Hrun as <-.
  assert (Hw : Forall (fun a => in_width 32 (io_address a)) (am_io_apics self)).
  { eapply Forall_impl; [exact Hio|]. intros a (_ & ? & _). done. }
  rewrite map_devices_eq in H1 by done. pose proof (device_frames_low self Hb Hw) as Hfr.
  pose proof (map_identities_spec _ APIC_FLAGS s r O Hi Hfr apic_flags_ok) as H0.
  rewrite H1 in H0. exact H0.
Qed.

(** The frames of the APICs of the manager, if there is one. *)
Definition apic_frames (manager : option ApicManager) (k : Z) : Prop :=
  exists self, manager = Some self /\ k ∈ device_frames self.

(** The devices that get mapped, when CPUID reports an APIC. *)
Definition mapped_devices (has_apic : bool) (manager : option ApicManager) (k : Z) : Prop :=
  has_apic = true /\ apic_frames manager k.

(** [Madt::init] keeps every translation; when it stores a manager on a machine
    with an APIC, the devices are mapped, and no other page. *)
Lemma madt_init_spec apic_base has_apic t st r O st' :
  mm_inv (ac_mm st) r O -> in_width 32 (m_address t) -> ac_manager st = None ->
  madt_init apic_base has_apic t st = Ok st' ->
  let devices := mapped_devices has_apic (ac_manager st') in
  (exists O', extends (fun k w => devices k /\ w = read_write) (ac_mm st) r O (ac_mm st') O') /\
  (forall k, devices k -> user_page (mkPage k) /\ walk (pm (ac_mm st')) r (mkPage k) = Some (k, read_write)).
Proof.
  intros Hi Ha Hnone Hrun devices. unfold madt_init in Hrun. apply obind_Ok in Hrun as ([f|] & Hf & Hrun); cycle 1.
  { injection Hrun as <-. split; [exists O; by apply extends_refl|]. intros k (_ & self & Hs & _). congruence. }
  unfold madt_collect in Hf. apply obind_Ok in Hf as (u & _ & Hf).
  apply (madt_loop_type _ _ _ _ _ _ _ found_nothing_ok) in Hf. destruct (fo_io f Hf) as [Hio _].
  set (self := mkApic _ _ _ _ _) in Hrun. apply obind_Ok in Hrun as (s' & Hs & Hrun). injection Hrun as <-.
  destruct has_apic.
  - destruct (apic_init_maps self (ac_mm st) r O s' Hi Ha Hio Hs) as (Hall & O' & He). split.
    + exists O'. eapply extends_weaken; [|exact He]. intros k w [Hk ->]. split; [|done]. split; [done|]. by exists self.
    + intros k (_ & x & Hx & Hk). injection Hx as <-. rewrite Forall_forall in Hall. split; [|by apply Hall].
      assert (Hw : Forall (fun a => in_width 32 (io_address a)) (am_io_apics self)).
      { eapply Forall_impl; [exact Hio|]. intros a (_ & ? & _). done. }
      pose proof (device_frames_low self Ha Hw) as Hfr. rewrite Forall_forall in Hfr. by apply low_page, Hfr.
  - injection Hs as <-. split; [exists O; by apply extends_refl|]. by intros k [? _].
Qed.

(** The root pointer leads to an address below 2^46. *)
Definition low_sdt s : Prop := forall d s1, rsdp_init s = Ok (Some d, s1) -> rsdp_sdt d < 2 ^ 46.

(** The pages of the root table, when [acpi::init] gets so far on [s]. *)
Definition table_pages s (k : Z) : Prop := exists l, root_pages s = Ok l /\ k ∈ l.

(** What [acpi::init] adds to an address space: the BIOS area and the root table, for
    reading only, and the APICs, for reading and writing. *)
Definition acpi_adds (tables devices : Z -> Prop) (k : Z) (w : rights) : Prop :=
  ((k ∈ bios_pages \/ tables k) /\ w = read_only) \/ (devices k /\ w = read_write).

(** [acpi::init], when it returns, has kept every translation there was, mapped
    the BIOS area, the pages of the root table that were not mapped and the APICs,
    and no other page. *)
Lemma acpi_init_spec apic_base has_apic st r O st' :
  mm_inv (ac_mm st) r O -> ac_manager st = None ->
  low_sdt (ac_mm st) -> acpi_init apic_base has_apic st = Ok st' ->
  let devices := mapped_devices has_apic (ac_manager st') in
  let tables := table_pages (ac_mm st) in
  (exists O', extends (acpi_adds tables devices) (ac_mm st) r O (ac_mm st') O') /\
  Forall (fun k => walk (pm (ac_mm st')) r (mkPage k) = Some (k, read_only)) bios_pages /\
  (forall k, tables k -> user_page (mkPage k) /\
    (walk (pm (ac_mm st)) r (mkPage k) = None -> walk (pm (ac_mm st')) r (mkPage k) = Some (k, read_only))) /\
  (forall k, devices k -> user_page (mkPage k) /\ walk (pm (ac_mm st')) r (mkPage k) = Some (k, read_write)).
Proof.
  intros Hi Hnone Hlow Hrun devices tables. unfold acpi_init in Hrun.
  apply obind_Ok in Hrun as ([d s1] & H1 & Hrun). apply obind_Ok in Hrun as (rsdp & Hd & Hrun).
  apply expect_Ok in Hd as ->. destruct (rsdp_init_spec _ _ _ _ _ Hi H1) as (Hbios & O1 & He1).
  apply obind_Ok in Hrun as ([sdt s2] & H2 & Hrun).
  assert (Hsdt : 0 <= rsdp_sdt rsdp < 2 ^ 46).
  { split; [|by eapply Hlow]. by eapply rsdp_init_nonneg. }
  destruct (get_sdt_spec _ _ _ _ _ _ (ex_inv _ _ _ _ _ _ He1) Hsdt H2) as (-> & len & Hlen & Htab & O2 & He2).
  assert (Hroot : root_pages (ac_mm st) = Ok (sdt_pages (rsdp_sdt rsdp) len))
    by (unfold root_pages; rewrite H1; cbn [obind expect]; by rewrite Hlen).
  apply obind_Ok in Hrun as (rsdt & _ & Hrun). apply obind_Ok in Hrun as (u & _ & Hrun).
  apply obind_Ok in Hrun as (n & _ & Hrun). apply obind_Ok in Hrun as (m & Hm & Hrun).
  assert (He12 : extends (fun k w => (k ∈ bios_pages \/ tables k) /\ w = read_only) (ac_mm st) r O s2 O2).
  { eapply extends_trans; (eapply extends_weaken; [|eassumption]); intros k w [Hk ->]; (split; [|done]); [by left|].
    right. exists (sdt_pages (rsdp_sdt rsdp) len). split; [exact Hroot|exact Hk]. }
  assert (Hgo : (exists O', extends (fun k w => devices k /\ w = read_write) s2 r O2 (ac_mm st') O') /\
    (forall k, devices k -> user_page (mkPage k) /\ walk (pm (ac_mm st')) r (mkPage k) = Some (k, read_write))).
  { destruct m as [t|].
    - unfold find_sdt in Hm. destruct (other_entries rsdt) as [a c]. apply find_sdt_in_address in Hm.
      by apply (madt_init_spec _ _ _ _ _ _ _ (ex_inv _ _ _ _ _ _ He2 : mm_inv (ac_mm (mkAcpi s2 _ _)) _ _) Hm Hnone Hrun).
    - injection Hrun as <-. split; [exists O2; apply extends_refl, He2|]. intros k (_ & x & Hx & _).
      simpl in Hx. congruence. }
  destruct Hgo as [[O3 He3] Hdev]. split.
  { exists O3. eapply extends_trans; (eapply extends_weaken; [|eassumption]); intros k w Hk; [by left|by right]. }
  split; [|split; [|exact Hdev]].
  - rewrite Forall_forall in Hbios |- *. intros k Hk.
    assert (Hp : user_page (mkPage k)) by (apply low_page; apply elem_of_seqZ in Hk; lia).
    eapply extends_keeps; [exact He3|exact Hp|]. eapply extends_keeps; [exact He2|exact Hp|]. exact (Hbios k Hk).
  - intros k (l & Hl & Hk). rewrite Hroot in Hl. injection Hl as <-. rewrite Forall_forall in Htab.
    destruct (Htab k Hk) as [Hp Hsome]. split; [exact Hp|]. intros Hn.
    destruct (extends_new _ _ _ _ _ _ _ He12 Hp Hn Hsome) as (w & E & _ & ->).
    eapply extends_keeps; [exact He3|exact Hp|exact E].
Qed.

End Acpi.
Arguments acpi_state A : clear implicits.

(** ** [memory::init] *)

Record MemoryController := mkController { mc_stacks : StackAllocator }.

(** The result has the range given to the heap allocator beside the controller. *)
Definition memory_init (called : bool) (apic_base : Z) (has_apic : bool) (boot_info : BootInformation)
  (st : acpi_state (option AreaFrameAllocator))
  : outcome ((Z * Z) * MemoryController * acpi_state (option AreaFrameAllocator)) :=
  let? (heap, stack_allocator, s) := memory_setup called boot_info (ac_mm st) in
  let? st := acpi_init apic_base has_apic (mkAcpi s (ac_manager st) (ac_log st)) in
  Ok (heap, mkController stack_allocator, st).

(** [MemoryController::alloc_stack] *)
Definition mc_alloc_stack (size_in_pages : Z) (mc : MemoryController) (s : machine)
  : outcome (option Stack * MemoryController * machine) :=
  let? (st, sa, s) := alloc_stack size_in_pages (mc_stacks mc) s in
  Ok (st, mkController sa, s).

(** The address space [memory::init] sets up, with the tables at [n]: the kernel,
    the VGA buffer and the multiboot structure with the rights of their flags, the
    heap with all rights, the BIOS area and the pages of [tables] for reading only
    (those of [tables] that lie in the former keep what they have), the pages of
    [devices] for reading and writing; every other page, but for those of [extra],
    is unmapped. *)
Record address_space (p4 : Z) (boot_info : BootInformation) (sections : list ElfSection)
  (tables devices extra : Z -> Prop) (s : machine) (n : Z) : Prop := {
  as_active : active s = n;
  as_fresh : n <> p4;
  as_inv : exists O, mm_inv s n O;
  as_kernel f fl : (f, fl) ∈ kernel_frames boot_info sections -> f <> p4 ->
    walk (pm s) n (mkPage f) = Some (f, flag_rights fl);
  as_heap : Forall (fun p => exists f, walk (pm s) n p = Some (f, full_access)) heap_pages;
  as_bios : Forall (fun k => walk (pm s) n (mkPage k) = Some (k, read_only)) bios_pages;
  as_tables k : tables k -> k ∉ (kernel_frames boot_info sections).*1 \/ k = p4 -> mkPage k ∉ heap_pages ->
    user_page (mkPage k) /\ walk (pm s) n (mkPage k) = Some (k, read_only);
  as_devices k : devices k -> user_page (mkPage k) /\ walk (pm s) n (mkPage k) = Some (k, read_write);
  as_other q : user_page q -> pnumber q ∉ (kernel_frames boot_info sections).*1 \/ pnumber q = p4 ->
    q ∉ heap_pages -> pnumber q ∉ bios_pages -> ~ tables (pnumber q) -> ~ devices (pnumber q) -> ~ extra (pnumber q) ->
    walk (pm s) n q = None }.

Section MemoryInit.
Context (m0 : mem) (p4 p3 p2 : Z) (boot_info : BootInformation) (sections : list ElfSection) (ars : list MemoryArea).
Context (log : list flush) (g : option AreaFrameAllocator).
Hypothesis Hdistinct : p4 <> p3 /\ p4 <> p2 /\ p3 <> p2.
Hypothesis Hrange : 0 <= p4 < 2 ^ 18 /\ 0 <= p3 < 2 ^ 18 /\ 0 <= p2 < 2 ^ 18.
Hypothesis Hbss : forall f i, f ∈ [p4; p3; p2] -> rd m0 f i = 0.
Hypothesis Himage : Forall (in_image sections) [p4; p3; p2].
Hypothesis Hboot : low_boot boot_info sections.
Hypothesis Hareas : bi_areas boot_info = Some ars.
Hypothesis Hwf : Forall area_wf ars.
Let s0 : machine := mkMM (set_up_page_tables m0 p4 p3 p2) (p4 * PAGE_SIZE) log g.
Hypothesis Hlow : forall h sa s1, memory_setup false boot_info s0 = Ok (h, sa, s1) -> low_sdt s1.

(** The address space [memory::init] leaves: the tables are the root table's pages
    as [acpi::init] finds them in the address space set up before it. *)
Definition final_space (has_apic : bool) (extra : Z -> Prop) (st' : acpi_state (option AreaFrameAllocator)) : Prop :=
  exists h sa s1 n, memory_setup false boot_info s0 = Ok (h, sa, s1) /\
    address_space p4 boot_info sections (table_pages s1) (mapped_devices has_apic (ac_manager st')) extra (ac_mm st') n.

Lemma memory_init_spec iolog apic_base has_apic h mc st' :
  memory_init false apic_base has_apic boot_info (mkAcpi s0 None iolog) = Ok (h, mc, st') ->
  h = (HEAP_START, HEAP_SIZE) /\ sa_pages (mc_stacks mc) 0x4007d 0x400e1 /\
  final_space has_apic (fun _ => False) st'.
Proof.
  intros Hrun. unfold memory_init in Hrun. set (s' := ac_mm st').
  apply obind_Ok in Hrun as ([[h1 sa] s1] & H1 & Hrun). apply obind_Ok in Hrun as (st2 & H2 & Hrun).
  injection Hrun as <- <- ->. specialize (Hlow _ _ _ H1).
  destruct (memory_setup_spec _ _ _ _ _ _ _ _ _ _ _ _ Hdistinct Hrange Hbss Himage Hboot Hareas Hwf H1)
    as (Hh & Hsa & n & O1 & Ha & Hn4 & Hi1 & _ & Hg & Hk & Hheap & Hoth).
  destruct (acpi_init_spec _ _ (mkAcpi s1 None iolog) n O1 _ Hi1 eq_refl Hlow H2) as ([O2 He] & Hbios & Htab & Hdev).
  split; [exact Hh|]. split; [exact Hsa|]. exists h1, sa, s1, n. split; [exact H1|].
  assert (Hact : active s' = n) by (rewrite <-Ha; apply active_cr3, (ex_cr3 _ _ _ _ _ _ He)).
  pose proof (kernel_frames_ok _ _ Hboot) as Hok. rewrite Forall_forall in Hok. rewrite Forall_forall in Hheap.
  assert (Hnone : forall q, user_page q -> pnumber q ∉ (kernel_frames boot_info sections).*1 \/ pnumber q = p4 ->
    q ∉ heap_pages -> walk (pm s1) n q = None).
  { intros [k] Hq [Hnot|Hqe] Hnh; [exact (Hoth _ Hq Hnot Hnh)|]. simpl in Hqe. subst k. exact Hg. }
  split; [exact Hact|exact Hn4|exists O2; apply (ex_inv _ _ _ _ _ _ He)| | | | | |].
  - intros f fl Hin Hne. eapply extends_keeps; [exact He|apply low_page, (Hok _ Hin)|]. exact (Hk f fl Hin Hne).
  - apply Forall_forall. intros p Hp. destruct (Hheap p Hp) as [f Hf]. exists f.
    eapply extends_keeps; [exact He|exact (proj1 (Forall_forall _ _) (proj1 heap_pages_ok) p Hp)|exact Hf].
  - exact Hbios.
  - intros k Hk2 Hnot Hnh. destruct (Htab k Hk2) as [Hp Hgo]. split; [exact Hp|]. apply Hgo. by apply Hnone.
  - exact Hdev.
  - intros q Hq Hnot Hnh Hnb Hnt Hnd _. rewrite (extends_other _ _ _ _ _ _ q He Hq); [by apply Hnone|].
    intros w [[[?|?] _]|[? _]]; contradiction.
Qed.

(** C9: [memory::init], started on the tables [boot.asm] builds in the kernel
    image, leaves the machine on a fresh, well-formed set of tables
    ([address_space]).  The kernel, the VGA buffer and the multiboot structure are
    identity mapped with the rights of their flags, each of the 125 pages of the
    heap at 1 GiB is mapped for all access, the BIOS area and the pages of the root
    ACPI table (the one [get_sdt] is called for; the MADT is read where it lies) are
    identity mapped, neither writable nor executable, the APICs of the manager
    writable and not executable, and the kernel stacks get the 101 pages after the
    heap.  Every other page, the guard page in place of the old P4 table among
    them, is unmapped.  It panics or fails as [acpi::init] does on the address
    space set up; when the boot information is as it should be ([boot_ready]:
    aligned, no overlap, enough memory) it gets to [acpi::init], and returns when
    that does. *)
Theorem memory_init_correct iolog apic_base has_apic :
  match memory_init false apic_base has_apic boot_info (mkAcpi s0 None iolog) with
  | Ok (h, mc, st') =>
      h = (HEAP_START, HEAP_SIZE) /\ sa_pages (mc_stacks mc) 0x4007d 0x400e1 /\
      final_space has_apic (fun _ => False) st'
  | Err e =>
      is_panic e \/
      exists h sa s1, memory_setup false boot_info s0 = Ok (h, sa, s1) /\
        acpi_init apic_base has_apic (mkAcpi s1 None iolog) = Err e
  end /\
  (boot_ready boot_info sections ars ->
   exists sa s1, memory_setup false boot_info s0 = Ok ((HEAP_START, HEAP_SIZE), sa, s1) /\
     forall st', acpi_init apic_base has_apic (mkAcpi s1 None iolog) = Ok st' ->
       memory_init false apic_base has_apic boot_info (mkAcpi s0 None iolog)
         = Ok ((HEAP_START, HEAP_SIZE), mkController sa, st')).
Proof.
  split.
  - destruct (memory_init _ _ _ _ _) as [[[h mc] st']|e] eqn:E; [by eapply memory_init_spec|].
    unfold memory_init in E. cbn [ac_mm ac_manager ac_log] in E.
    destruct (memory_setup false boot_info s0) as [[[h sa] s1]|e1] eqn:E1; cbn [obind] in E.
    + right. exists h, sa, s1. split; [reflexivity|]. destruct (acpi_init _ _ _); [discriminate|]. cbn [obind] in E. congruence.
    + left. injection E as <-. by eapply (memory_setup_panics m0 p4 p3 p2 boot_info sections ars log g).
  - intros Hready.
    destruct (memory_setup_returns m0 p4 p3 p2 boot_info sections ars log g Hdistinct Hrange Hbss Himage Hboot Hareas Hwf Hready)
      as (sa & s1 & E1). exists sa, s1. split; [exact E1|]. intros st' E2. unfold memory_init. cbn [ac_mm ac_manager ac_log].
    fold s0 in E1. rewrite E1. cbn [obind]. rewrite E2. reflexivity.
Qed.

End MemoryInit.

(** ** A machine with ACPI tables *)

(** Put bytes into memory that is zero there. *)
Definition put_bytes (a : Z) (l : list Z) (m : mem) : mem :=
  foldl (fun m ib =>
    let x := a + Z.of_nat (fst ib) in
    wr m (x / PAGE_SIZE) (x mod PAGE_SIZE / 8)
      (Z.lor (rd m (x / PAGE_SIZE) (x mod PAGE_SIZE / 8)) (Z.shiftl (snd ib) (8 * (x mod 8))))) m (imap pair l).

(** A revision 0 root pointer, the root table and behind it the MADT. *)
Definition acpi_mem : mem :=
  put_bytes 0xe0010 (RSD_PTR ++ replicate 8 0 ++ le32 0x7fe1000)
  (put_bytes 0x7fe1000 (RSDT_SIG ++ le32 40 ++ replicate 28 0 ++ le32 0x7fe1100)
  (put_bytes 0x7fe1100 (demo_madt_bytes []) ∅)).

Definition acpi_boot : machine := mkMM (set_up_page_tables acpi_mem 0x180 0x181 0x182) (0x180 * PAGE_SIZE) [] None.

Definition acpi_start : acpi_state (option AreaFrameAllocator) := mkAcpi acpi_boot None [].

(** What the witness needs of the run, as booleans to compute. *)
Definition has_root (o : outcome ((Z * Z) * StackAllocator * machine)) : bool :=
  match o with
  | Ok (_, _, s) => match root_pages s with Ok l => bool_decide (l = [0x7fe1]) | Err _ => false end
  | Err _ => false
  end.

Definition low_root (o : outcome ((Z * Z) * StackAllocator * machine)) : bool :=
  match o with
  | Ok (_, _, s) => match rsdp_init s with Ok (Some d, _) => rsdp_sdt d <? 2 ^ 46 | _ => true end
  | Err _ => true
  end.

Definition finds_apic (o : outcome ((Z * Z) * MemoryController * acpi_state (option AreaFrameAllocator))) : bool :=
  match o with
  | Ok (_, _, st) => match ac_manager st with Some self => bool_decide (device_frames self = [0xfee00; 0xfec00]) | None => false end
  | Err _ => false
  end.

Lemma acpi_run_low : low_root (memory_setup false demo_boot acpi_boot) = true.
Proof. vm_compute. reflexivity. Qed.

Lemma acpi_run_root : has_root (memory_setup false demo_boot acpi_boot) = true.
Proof. vm_compute. reflexivity. Qed.

Lemma acpi_root_pages h sa s1 : memory_setup false demo_boot acpi_boot = Ok (h, sa, s1) -> root_pages s1 = Ok [0x7fe1].
Proof.
  intros E. pose proof acpi_run_root as Hr. rewrite E in Hr. unfold has_root in Hr.
  destruct (root_pages s1); [|discriminate]. by rewrite (bool_decide_eq_true_1 _ Hr).
Qed.

Lemma acpi_run_finds : finds_apic (memory_init false 0x900 true demo_boot acpi_start) = true.
Proof. vm_compute. reflexivity. Qed.

Lemma demo_root_free : 0x7fe1 ∉ (kernel_frames demo_boot demo_sections).*1 /\ mkPage 0x7fe1 ∉ heap_pages.
Proof.
  split; [apply (bool_decide_eq_true_1 (0x7fe1 ∉ (kernel_frames demo_boot demo_sections).*1)); vm_compute; reflexivity|].
  by apply heap_pages_low.
Qed.

Lemma acpi_bss f i : f ∈ [0x180; 0x181; 0x182] -> rd acpi_mem f i = 0.
Proof.
  intros Hf. assert (Hall : map_Forall (fun k _ => fst k ∉ [0x180; 0x181; 0x182]) acpi_mem).
  { apply (bool_decide_eq_true_1 (map_Forall (fun k _ => fst k ∉ [0x180; 0x181; 0x182]) acpi_mem)).
    vm_compute. reflexivity. }
  unfold rd. destruct (acpi_mem !! (f, i)) as [x|] eqn:E; [|reflexivity]. exfalso. exact (Hall _ _ E Hf).
Qed.

Lemma acpi_low h sa s1 : memory_setup false demo_boot acpi_boot = Ok (h, sa, s1) -> low_sdt s1.
Proof.
  intros E d s2 Hd. pose proof acpi_run_low as H. rewrite E in H. unfold low_root in H. rewrite Hd in H.
  apply Z.ltb_lt in H. exact H.
Qed.

Lemma memory_init_correct_witness :
  exists h mc st', memory_init false 0x900 true demo_boot acpi_start = Ok (h, mc, st') /\
    sa_pages (mc_stacks mc) 0x4007d 0x400e1 /\
    walk (pm (ac_mm st')) (active (ac_mm st')) (mkPage 0xb8) = Some (0xb8, full_access) /\
    walk (pm (ac_mm st')) (active (ac_mm st')) (mkPage 0x7fe1) = Some (0x7fe1, read_only) /\
    walk (pm (ac_mm st')) (active (ac_mm st')) (mkPage 0xfee00) = Some (0xfee00, read_write) /\
    walk (pm (ac_mm st')) (active (ac_mm st')) (mkPage 0x180) = None.
Proof.
  pose proof acpi_run_finds as Hf.
  assert (Hd : 0x180 <> 0x181 /\ 0x180 <> 0x182 /\ 0x181 <> 0x182) by lia.
  assert (Hr : 0 <= 0x180 < 2 ^ 18 /\ 0 <= 0x181 < 2 ^ 18 /\ 0 <= 0x182 < 2 ^ 18) by lia.
  assert (Hne : 0xb8 <> 0x180) by discriminate.
  destruct (memory_init_correct acpi_mem 0x180 0x181 0x182 demo_boot demo_sections _ [] None
    Hd Hr acpi_bss demo_image demo_boot_low eq_refl demo_areas acpi_low [] 0x900 true) as [H _].
  fold acpi_boot acpi_start in H.
  destruct (memory_init false 0x900 true demo_boot acpi_start) as [[[h mc] st']|e]; [|discriminate Hf].
  exists h, mc, st'. split; [reflexivity|].
  destruct H as (_ & Hsa & h1 & sa & s1 & n & Hs1 & [Ha _ _ Hk _ _ Htab Hdev Hother]).
  pose proof (acpi_root_pages _ _ _ Hs1) as Hroot.
  split; [exact Hsa|]. rewrite Ha. split; [exact (Hk 0xb8 WRITABLE demo_vga Hne)|].
  unfold finds_apic in Hf. destruct (ac_manager st') as [self|] eqn:Em; [|discriminate Hf].
  apply (bool_decide_eq_true_1 (device_frames self = _)) in Hf.
  split; [|split].
  - apply (Htab 0x7fe1); [exists [0x7fe1]; split; [exact Hroot|left]|left|]; apply demo_root_free.
  - apply Hdev. split; [reflexivity|]. exists self. split; [reflexivity|]. rewrite Hf. left.
  - refine (Hother (mkPage 0x180) (low_page 0x180 ltac:(lia)) (or_intror eq_refl) (heap_pages_low 0x180 ltac:(lia)) _ _ _ (fun F => F)).
    + unfold bios_pages. rewrite elem_of_seqZ. simpl. lia.
    + intros (l & Hl & Hin). rewrite Hroot in Hl. injection Hl as <-. apply list_elem_of_singleton in Hin. discriminate Hin.
    + intros (_ & x & Hx & Hin). injection Hx as <-. rewrite Hf in Hin. cbn [pnumber] in Hin.
      apply (bool_decide_eq_false_1 (0x180 ∈ [0xfee00; 0xfec00])) in Hin; [exact Hin|reflexivity].
Defined.

Lemma apic_init_correct_witness :
  exists s', apic_init (Some demo_manager) boot_state = Ok s' /\
    walk (pm s') 0x180 (mkPage 0xfee00) = Some (0xfee00, read_write) /\
    walk (pm s') 0x180 (mkPage 0xfec00) = Some (0xfec00, read_write).
Proof.
  assert (Hok : ok_bool (apic_init (Some demo_manager) boot_state) = true) by (vm_compute; reflexivity).
  pose proof (apic_init_correct demo_manager boot_state 0x180 boot_own boot_state_inv demo_manager_ok) as H.
  destruct (apic_init (Some demo_manager) boot_state) as [s'|e]; [|discriminate Hok].
  exists s'. split; [reflexivity|]. destruct H as (Hall & _).
  inversion Hall as [|? ? H1 Hrest]; inversion Hrest as [|? ? H2 _]. split; [exact H1|exact H2].
Defined.
