(* ===== verification/Heap.v ===== *)
(** * The kernel heap

    [arch/x86_64/memory/heap_allocator.rs].  The allocator itself is the package
    [linked_list_allocator]: its heap is a parameter ([InnerHeap]), with what its
    documentation promises as laws ([InnerHeapOk]).  [HeapAllocator] wraps each
    call in [disable_interrupts_and_then].  The theorems join three parts: the
    range [memory::init] gives the heap, the pages it maps there, and the
    critical sections. *)

From S2P Require Import Prelude Frames FrameSource AreaAlloc Entry Mmu Table PageTree Mapper Boot.
From S2P Require Import MemoryInit Task Sched Ports Apic Interrupts.

Record Layout := mkLayout { l_size : Z; l_align : Z }.

(** [LockedHeap]: [alloc] returns an address, or [AllocErr]. *)
Class InnerHeap := {
  heap : Type;
  heap_empty : heap;
  heap_init : Z -> Z -> heap -> heap;
  heap_extend : Z -> heap -> heap;
  inner_alloc : Layout -> heap -> option Z * heap;
  inner_dealloc : Z -> Layout -> heap -> heap }.

Section Heap.
Context `{InnerHeap} `{Hardware}.

(** The allocator beside the state of the critical sections. *)
Record heap_state := mkHeap { h_inner : heap; h_ist : ist }.

Definition heap_new : heap := heap_empty.

Definition heap_allocator_init (heap_bottom heap_size : Z) (s : heap_state) : heap_state :=
  mkHeap (heap_init heap_bottom heap_size (h_inner s)) (h_ist s).

Definition heap_allocator_extend (by_ : Z) (s : heap_state) : heap_state :=
  mkHeap (heap_extend by_ (h_inner s)) (h_ist s).

Definition heap_alloc (layout : Layout) (s : heap_state) : outcome (option Z * heap_state) :=
  let? ((r, h), i) := disable_interrupts_and_then (fun i => Ok (inner_alloc layout (h_inner s), i)) (h_ist s) in
  Ok (r, mkHeap h i).

Definition heap_dealloc (ptr : Z) (layout : Layout) (s : heap_state) : outcome heap_state :=
  let? (h, i) := disable_interrupts_and_then (fun i => Ok (inner_dealloc ptr layout (h_inner s), i)) (h_ist s) in
  Ok (mkHeap h i).

(** [oom]: what the callers of [alloc] do with [AllocErr]. *)
Definition oom_error : error := EPanic "Out of memory".
Definition heap_oom {T} : outcome T := Err oom_error.

(** What the documentation promises of a heap over [size] bytes from [bottom] on
    whose blocks [live] are in use ([heap_ok]): a new block lies within the heap
    and meets no block in use. *)
Class InnerHeapOk (heap_ok : Z -> Z -> list (Z * Layout) -> heap -> Prop) : Prop := {
  heap_init_ok bottom size : 0 <= bottom -> 0 <= size -> heap_ok bottom size [] (heap_init bottom size heap_empty);
  inner_alloc_ok bottom size live layout h : heap_ok bottom size live h -> 0 < l_size layout ->
    match inner_alloc layout h with
    | (Some p, h') =>
        bottom <= p /\ p + l_size layout <= bottom + size /\
        Forall (fun b => p + l_size layout <= fst b \/ fst b + l_size (snd b) <= p) live /\
        heap_ok bottom size ((p, layout) :: live) h'
    | (None, h') => heap_ok bottom size live h'
    end;
  inner_dealloc_ok bottom size live k ptr layout h : heap_ok bottom size live h -> live !! k = Some (ptr, layout) ->
    heap_ok bottom size (delete k live) (inner_dealloc ptr layout h) }.

(** A client of the heap: it allocates, and frees the [k]-th of its blocks. *)
Inductive heap_op :=
  | HAlloc (layout : Layout)
  | HFree (k : nat).

Definition heap_exec (op : heap_op) (c : list (Z * Layout) * heap_state) : outcome (list (Z * Layout) * heap_state) :=
  let (live, s) := c in
  match op with
  | HAlloc layout =>
      let? (r, s) := heap_alloc layout s in
      Ok (match r with Some p => (p, layout) :: live | None => live end, s)
  | HFree k =>
      match live !! k with
      | Some (ptr, layout) => let? s := heap_dealloc ptr layout s in Ok (delete k live, s)
      | None => Ok (live, s)
      end
  end.

Definition op_ok (op : heap_op) : Prop := match op with HAlloc layout => 0 < l_size layout | HFree _ => True end.

(** The same on the allocator alone: a refused allocation changes no block. *)
Definition inner_exec (c : list (Z * Layout) * heap) (op : heap_op) : list (Z * Layout) * heap :=
  let (live, h) := c in
  match op with
  | HAlloc layout =>
      match inner_alloc layout h with
      | (Some p, h') => ((p, layout) :: live, h')
      | (None, h') => (live, h')
      end
  | HFree k =>
      match live !! k with
      | Some (ptr, layout) => (delete k live, inner_dealloc ptr layout h)
      | None => (live, h)
      end
  end.

(** The blocks of a client. *)
Definition disjoint (b c : Z * Layout) : Prop :=
  fst b + l_size (snd b) <= fst c \/ fst c + l_size (snd c) <= fst b.
Definition within (bottom size : Z) (b : Z * Layout) : Prop :=
  bottom <= fst b /\ fst b + l_size (snd b) <= bottom + size.

Lemma mask_law_step base l n0 n1 m0 m1 :
  mask_law base n0 n1 -> Forall (fun e => ev_port e <> 0x20 /\ ev_port e <> 0xA0) l ->
  last_out 0x21 l = Some m0 -> last_out 0xA1 l = Some m1 -> mask_law (base ++ l) m0 m1.
Proof.
  intros Hm Hl E2 E3 l' Hl'. rewrite <-app_assoc. destruct (Hm (l ++ l')) as [E0 E1]; [by apply Forall_app|].
  rewrite E0, E1, !last_out_app, E2, E3. by destruct (last_out 0x21 l'), (last_out 0xA1 l').
Qed.

(** All registers but the flags are the same. *)
Definition keeps_registers (c c' : Context) : Prop := exists f, c' = with_rflags c f.

Lemma keeps_registers_refl c : keeps_registers c c.
Proof. exists (c_rflags c). by destruct c. Qed.

Lemma keeps_registers_trans c1 c2 c3 : keeps_registers c1 c2 -> keeps_registers c2 c3 -> keeps_registers c1 c3.
Proof. intros [f1 ->] [f2 ->]. by exists f2. Qed.

(** A critical section around a pure closure: it always ends, the masks are
    what they were, and interrupts are on. *)
Lemma pure_section {T} (g : T) s m0 m1 :
  mask_law (i_log s) m0 m1 -> in_width 8 m0 -> in_width 8 m1 ->
  exists s', disable_interrupts_and_then (fun i => Ok (g, i)) s = Ok (g, s') /\
    mask_law (i_log s') m0 m1 /\ interrupts_on s' = true /\ sch (i_kernel s') = sch (i_kernel s) /\
    keeps_registers (cpu (i_kernel s)) (cpu (i_kernel s')).
Proof.
  intros Hm W0 W1. unfold disable_interrupts_and_then. rewrite (disable_interrupts_eq s m0 m1 Hm W0 W1). cbn [obind].
  eexists. split; [reflexivity|]. split; [|split; [apply set_if_bit|split; [reflexivity|by eexists]]].
  cbn. rewrite <-!app_assoc. apply (mask_law_step _ _ _ _ _ _ Hm); [by repeat constructor|reflexivity|reflexivity].
Qed.

(** The same for any closure: it runs with both masks full, and what the section
    leaves are the masks from before. *)
Lemma masked_section {T} (f : ist -> outcome (T * ist)) s m0 m1 :
  mask_law (i_log s) m0 m1 -> in_width 8 m0 -> in_width 8 m1 ->
  exists i, mask_law (i_log i) 0xff 0xff /\ sch (i_kernel i) = sch (i_kernel s) /\
    keeps_registers (cpu (i_kernel s)) (cpu (i_kernel i)) /\
    disable_interrupts_and_then f s = let? (r, i) := f i in Ok (r, restore_interrupts (m0, m1) i).
Proof.
  intros Hm W0 W1. unfold disable_interrupts_and_then. rewrite (disable_interrupts_eq s m0 m1 Hm W0 W1).
  eexists. split; [|split; [|split; [|reflexivity]]]; [|done|by eexists].
  cbn [i_log]. apply (mask_law_step _ _ _ _ _ _ Hm); [by repeat constructor|reflexivity|reflexivity].
Qed.

Lemma restore_section i n0 n1 m0 m1 :
  mask_law (i_log i) n0 n1 ->
  mask_law (i_log (restore_interrupts (m0, m1) i)) m0 m1 /\ interrupts_on (restore_interrupts (m0, m1) i) = true /\
  sch (i_kernel (restore_interrupts (m0, m1) i)) = sch (i_kernel i) /\
  keeps_registers (cpu (i_kernel i)) (cpu (i_kernel (restore_interrupts (m0, m1) i))).
Proof.
  intros Hm. split; [|split; [apply set_if_bit|split; [done|by eexists]]].
  cbn. rewrite <-app_assoc. apply (mask_law_step _ _ _ _ _ _ Hm); [by repeat constructor|reflexivity|reflexivity].
Qed.

Lemma ordpairs_delete {A} (R : A -> A -> Prop) l k : ForallOrdPairs R l -> ForallOrdPairs R (delete k l).
Proof.
  intros Hl. revert k. induction Hl as [|x l Hx Hl IH]; intros k; [constructor|].
  destruct k as [|k]; [exact Hl|]. simpl. constructor; [by apply Forall_delete|apply IH].
Qed.

(** Blocks that do not meet take no more room than there is. *)
Definition block_bytes (b : Z * Layout) : list Z := seqZ (fst b) (l_size (snd b)).
Definition total_size (live : list (Z * Layout)) : Z := foldr (fun b n => l_size (snd b) + n) 0 live.

Lemma total_size_bytes live : total_size live <= Z.of_nat (length (concat (block_bytes <$> live))).
Proof.
  induction live as [|b live IH]; [done|]. rewrite fmap_cons. cbn [concat total_size foldr].
  rewrite length_app. unfold block_bytes at 1. rewrite length_seqZ. fold (total_size live). lia.
Qed.

Lemma bytes_elem live x : x ∈ concat (block_bytes <$> live) <-> exists b, b ∈ live /\ fst b <= x < fst b + l_size (snd b).
Proof.
  rewrite list_elem_of_In, in_concat. split.
  - intros (l & Hl & Hx). apply list_elem_of_In, list_elem_of_fmap in Hl as (b & -> & Hb).
    apply list_elem_of_In, elem_of_seqZ in Hx. by exists b.
  - intros (b & Hb & Hx). exists (block_bytes b). split; apply list_elem_of_In.
    + apply list_elem_of_fmap. by exists b.
    + by apply elem_of_seqZ.
Qed.

Lemma blocks_fit bottom size live :
  0 <= size -> Forall (within bottom size) live -> ForallOrdPairs disjoint live -> total_size live <= size.
Proof.
  intros Hs Hw Hd. assert (Hbytes : (length (concat (block_bytes <$> live)) <= length (seqZ bottom size))%nat).
  { apply submseteq_length, NoDup_submseteq.
    - clear Hw. induction Hd as [|b live Hb Hd IH]; [constructor|]. rewrite fmap_cons. cbn [concat].
      apply NoDup_app. split; [apply NoDup_seqZ|]. split; [|exact IH].
      intros x Hx%elem_of_seqZ (c & Hc & Hx')%bytes_elem.
      rewrite Forall_forall in Hb. specialize (Hb c Hc). unfold disjoint in *. lia.
    - intros x (c & Hc & Hx)%bytes_elem. rewrite Forall_forall in Hw. destruct (Hw c Hc). apply elem_of_seqZ. lia. }
  rewrite length_seqZ in Hbytes. pose proof (total_size_bytes live). lia.
Qed.

Section Clients.
Context (heap_ok : Z -> Z -> list (Z * Layout) -> heap -> Prop) `{!InnerHeapOk heap_ok}.

(** What a client's operations keep. *)
Definition client_inv (m0 m1 : Z) (c : list (Z * Layout) * heap_state) : Prop :=
  heap_ok HEAP_START HEAP_SIZE (fst c) (h_inner (snd c)) /\
  Forall (within HEAP_START HEAP_SIZE) (fst c) /\ ForallOrdPairs disjoint (fst c) /\
  mask_law (i_log (h_ist (snd c))) m0 m1.

Lemma heap_exec_inv m0 m1 op c :
  in_width 8 m0 -> in_width 8 m1 -> op_ok op -> client_inv m0 m1 c ->
  exists c', heap_exec op c = Ok c' /\ client_inv m0 m1 c' /\
    (fst c', h_inner (snd c')) = inner_exec (fst c, h_inner (snd c)) op /\
    (interrupts_on (h_ist (snd c)) = true -> interrupts_on (h_ist (snd c')) = true) /\
    (forall layout, op = HAlloc layout -> interrupts_on (h_ist (snd c')) = true).
Proof.
  intros W0 W1 Hop (Hh & Hin & Hd & Hm). destruct c as [live s]. cbn [fst snd] in *. destruct op as [layout|k]; cbn [heap_exec inner_exec].
  - destruct (pure_section (inner_alloc layout (h_inner s)) (h_ist s) m0 m1 Hm W0 W1) as (i & Hr & Hm' & Hon & _).
    unfold heap_alloc. rewrite Hr. cbn [obind]. pose proof (inner_alloc_ok _ _ live layout _ Hh Hop) as Ha.
    destruct (inner_alloc layout (h_inner s)) as [[p|] h']; cbn [obind].
    + destruct Ha as (Hlo & Hhi & Hdis & Hh'). eexists. split; [reflexivity|]. split; [|done].
      split; [exact Hh'|]. split; [by constructor|]. split; [|exact Hm']. constructor; [|exact Hd].
      eapply Forall_impl; [exact Hdis|]. intros b Hb. exact Hb.
    + eexists. split; [reflexivity|]. split; [|done]. done.
  - destruct (live !! k) as [[ptr layout]|] eqn:E.
    + destruct (pure_section (inner_dealloc ptr layout (h_inner s)) (h_ist s) m0 m1 Hm W0 W1) as (i & Hr & Hm' & Hon & _).
      unfold heap_dealloc. rewrite Hr. cbn [obind]. eexists. split; [reflexivity|]. split; [|done].
      split; [by apply inner_dealloc_ok|]. split; [by apply Forall_delete|]. split; [|exact Hm'].
      by apply ordpairs_delete.
    + eexists. split; [reflexivity|]. split; [done|]. split; [done|]. split; [done|]. discriminate.
Qed.

Lemma heap_run_inv m0 m1 ops c :
  in_width 8 m0 -> in_width 8 m1 -> Forall op_ok ops -> client_inv m0 m1 c ->
  exists c', ofold heap_exec ops c = Ok c' /\ client_inv m0 m1 c' /\
    (fst c', h_inner (snd c')) = foldl inner_exec (fst c, h_inner (snd c)) ops /\
    (interrupts_on (h_ist (snd c)) = true -> interrupts_on (h_ist (snd c')) = true) /\
    (forall layout, HAlloc layout ∈ ops -> interrupts_on (h_ist (snd c')) = true).
Proof.
  intros W0 W1 Hops. revert c. induction Hops as [|op ops Hop Hops IH]; intros c Hc.
  - exists c. split; [done|]. split; [done|]. split; [by destruct c|]. split; [done|]. by intros ? ?%elem_of_nil.
  - destruct (heap_exec_inv m0 m1 op c W0 W1 Hop Hc) as (c1 & Hr & Hc1 & He & Hk & Ha).
    destruct (IH c1 Hc1) as (c2 & Hr2 & Hc2 & He2 & Hk2 & Ha2). exists c2. cbn [ofold]. rewrite Hr. cbn [obind].
    split; [exact Hr2|]. split; [exact Hc2|]. split; [cbn [foldl]; by rewrite He2, He|]. split; [by auto|].
    intros layout [E|Hin]%elem_of_cons; [|by eapply Ha2]. apply Hk2. by eapply Ha.
Qed.

(** An aligned word of the heap is on a page of [heap_pages]. *)
Lemma heap_word_writable (s : machine) va v :
  Forall (fun p => exists f, walk (pm s) (active s) p = Some (f, full_access)) heap_pages ->
  HEAP_START <= va -> va + 8 <= HEAP_START + HEAP_SIZE -> va mod 8 = 0 ->
  is_ok (store64 (pm s) (active s) va v).
Proof.
  intros Hp Hlo Hhi Hal. unfold HEAP_START, HEAP_SIZE in *. unfold store64.
  assert (Hc : canonical va = true) by (unfold canonical; case_bools; done || lia). rewrite Hc, Hal. cbn [andb negb Z.eqb].
  rewrite Forall_forall in Hp. destruct (Hp (mkPage (va / PAGE_SIZE))) as [f ->]; [|by eexists].
  apply list_elem_of_fmap. exists (va / PAGE_SIZE). split; [done|]. apply elem_of_seqZ.
  unfold PAGE_SIZE. Z.div_mod_to_equations. lia.
Qed.

(** C12: The kernel heap.  It is given the range [memory::init] maps, and then it is
    used by any sequence of allocations and of releases of blocks that are live.
    Every call returns what the allocator inside returns: an allocation is refused
    ([AllocErr], and no block changes) exactly when that one refuses it, and else
    it gives a new block.  The live blocks lie in the heap and do not overlap, so
    that they never take more than its 500 KiB together; and every aligned word of
    a block can be written: no store to allocated memory takes a page fault.  The
    masks of the interrupt controllers, when they can be read back, are what they
    were before; but each allocation leaves the interrupt flag on, even when it was
    off before, as it is inside the [cli] section of [arch::init]. *)
Theorem heap_correct (s : machine) i m0 m1 ops :
  Forall (fun p => exists f, walk (pm s) (active s) p = Some (f, full_access)) heap_pages ->
  mask_law (i_log i) m0 m1 -> in_width 8 m0 -> in_width 8 m1 -> Forall op_ok ops ->
  exists live h', ofold heap_exec ops ([], heap_allocator_init HEAP_START HEAP_SIZE (mkHeap heap_new i)) = Ok (live, h') /\
    (live, h_inner h') = foldl inner_exec ([], heap_init HEAP_START HEAP_SIZE heap_empty) ops /\
    Forall (within HEAP_START HEAP_SIZE) live /\ ForallOrdPairs disjoint live /\ total_size live <= HEAP_SIZE /\
    (forall b va v, b ∈ live -> fst b <= va -> va + 8 <= fst b + l_size (snd b) -> va mod 8 = 0 ->
       is_ok (store64 (pm s) (active s) va v)) /\
    mask_law (i_log (h_ist h')) m0 m1 /\
    (forall layout, HAlloc layout ∈ ops -> interrupts_on (h_ist h') = true).
Proof.
  intros Hp Hm W0 W1 Hops.
  destruct (heap_run_inv m0 m1 ops ([], heap_allocator_init HEAP_START HEAP_SIZE (mkHeap heap_new i)) W0 W1 Hops)
    as ([live h'] & Hr & (_ & Hw & Hd & Hm') & He & _ & Ha).
  { split; [by apply heap_init_ok|]. split; [constructor|]. split; [constructor|exact Hm]. }
  cbn [fst snd] in *. exists live, h'. split; [exact Hr|]. split; [exact He|]. split; [exact Hw|]. split; [exact Hd|].
  split; [by apply (blocks_fit HEAP_START)|]. split; [|done].
  intros b va v Hb Hlo Hhi Hal. rewrite Forall_forall in Hw. destruct (Hw b Hb) as [H1' H2'].
  apply heap_word_writable; [exact Hp|lia|lia|exact Hal].
Qed.

End Clients.
End Heap.

(** ** A concrete allocator *)

(** It hands out the heap from the bottom up and takes nothing back. *)
Record bump := mkBump { b_next : Z; b_end : Z }.

#[local] Instance bump_heap : InnerHeap := {
  heap := bump;
  heap_empty := mkBump 0 0;
  heap_init bottom size _ := mkBump bottom (bottom + size);
  heap_extend by_ h := mkBump (b_next h) (b_end h + by_);
  inner_alloc layout h :=
    if b_next h + l_size layout <=? b_end h
    then (Some (b_next h), mkBump (b_next h + l_size layout) (b_end h)) else (None, h);
  inner_dealloc _ _ h := h }.

Definition bump_ok (bottom size : Z) (live : list (Z * Layout)) (h : heap) : Prop :=
  bottom <= b_next h /\ b_end h = bottom + size /\ Forall (fun b => fst b + l_size (snd b) <= b_next h) live.

#[local] Instance bump_heap_ok : InnerHeapOk bump_ok.
Proof.
  split.
  - intros bottom size Hb Hs. split; [simpl; lia|]. split; [done|constructor].
  - intros bottom size live layout h (Hlo & He & Hl) Hsz. cbn [inner_alloc bump_heap].
    destruct (Z.leb_spec (b_next h + l_size layout) (b_end h)); [|done].
    split; [done|]. split; [lia|]. split; [eapply Forall_impl; [exact Hl|]; intros b Hb; by right|].
    split; [simpl; lia|]. split; [done|]. constructor; [simpl; lia|].
    eapply Forall_impl; [exact Hl|]. simpl. intros b Hb. lia.
  - intros bottom size live k ptr layout h (Hlo & He & Hl) _. split; [done|]. split; [done|]. by apply Forall_delete.
Qed.

Lemma demo_heap_ok : ok_bool (setup_heap boot_state) = true.
Proof. vm_compute. reflexivity. Qed.

(** Two blocks, the first of which is freed, and a request that is refused. *)
Definition demo_heap_ops : list heap_op :=
  [HAlloc (mkLayout 64 8); HAlloc (mkLayout 32 8); HFree 1; HAlloc (mkLayout (600 * 1024) 8)].

Lemma heap_correct_witness :
  exists sa s live h', setup_heap boot_state = Ok (sa, s) /\
    ofold (@heap_exec _ demo_hw) demo_heap_ops
      ([], heap_allocator_init HEAP_START HEAP_SIZE (mkHeap heap_new demo_ist)) = Ok (live, h') /\
    ForallOrdPairs disjoint live /\ live = [(HEAP_START + 64, mkLayout 32 8)] /\ interrupts_on (h_ist h') = true.
Proof.
  pose proof demo_heap_ok as Hok. destruct (setup_heap boot_state) as [[sa s]|e] eqn:E; [|discriminate Hok].
  destruct (setup_heap_spec boot_state 0x180 boot_own sa s boot_state_inv E) as (_ & Ha & _ & Hp & _).
  exists sa, s. assert (Hpages : Forall (fun p => exists f, walk (pm s) (active s) p = Some (f, full_access)) heap_pages).
  { rewrite Ha, boot_active. eapply Forall_impl; [exact Hp|]. intros p [_ Hf]. exact Hf. }
  assert (Hw : in_width 8 0) by (unfold in_width; lia).
  assert (Hops : Forall op_ok demo_heap_ops) by (repeat constructor).
  destruct (@heap_correct _ demo_hw bump_ok bump_heap_ok s demo_ist 0 0 _ Hpages demo_mask_law Hw Hw Hops)
    as (live & h' & Hr & He & _ & Hd & _ & _ & _ & Ha'). exists live, h'. split; [reflexivity|]. split; [exact Hr|].
  split; [exact Hd|]. split; [|apply (Ha' (mkLayout 64 8)); by left].
  vm_compute in He. injection He as -> _. reflexivity.
Defined.
