(* ===== verification/Stacks.v ===== *)
(** * The stacks of the processes

    [Sched] creates a process on a stack whose address it is given, and [Heap]
    hands out blocks.  Here the two run together: [create] of
    [task/coop_sched.rs] with the allocations it makes, [kill] with the release of
    the stack, and any other use of the heap in between.  The state adds to the
    scheduler and the heap the pointer inside the [Vec] of each process; the list
    of live blocks is what [InnerHeapOk] speaks about. *)

From S2P Require Import Prelude Frames FrameSource AreaAlloc Entry Mmu Table PageTree Mapper Boot.
From S2P Require Import MemoryInit Task Sched Ports Apic Interrupts Heap.

Section Stacks.
Context `{InnerHeap} `{Hardware}.

(** [vec![0; INITIAL_STACK]], [Box<&Scheduling>], three values, and the name
    "new_proc" a process gets first. *)
Definition STACK : Layout := mkLayout (8 * INITIAL_STACK) 8.
Definition SELF_BOX : Layout := mkLayout 16 8.
Definition STACK_VALS : Layout := mkLayout 24 8.
Definition FIRST_NAME : Layout := mkLayout 8 1.

Record world := mkWorld {
  w_live : list (Z * Layout);
  w_heap : heap_state;
  w_stacks : gmap Z Z }.

Definition w_kernel (w : world) : kernel := i_kernel (h_ist (w_heap w)).
Definition set_kernel (k : kernel) (w : world) : world :=
  mkWorld (w_live w) (mkHeap (h_inner (w_heap w)) (mkIst k (i_log (h_ist (w_heap w))))) (w_stacks w).
Definition set_ist (i : ist) (w : world) : world := mkWorld (w_live w) (mkHeap (h_inner (w_heap w)) i) (w_stacks w).
Definition set_stacks (m : gmap Z Z) (w : world) : world := mkWorld (w_live w) (w_heap w) m.

#[local] Instance layout_eq_dec : EqDecision Layout.
Proof. solve_decision. Defined.

Definition forget (b : Z * Layout) (live : list (Z * Layout)) : list (Z * Layout) :=
  match list_find (eq b) live with Some (k, _) => delete k live | None => live end.

Definition allocate (layout : Layout) (w : world) : outcome (Z * world) :=
  let? (r, h) := heap_alloc layout (w_heap w) in
  match r with
  | Some p => Ok (p, mkWorld ((p, layout) :: w_live w) h (w_stacks w))
  | None => heap_oom
  end.

Definition release (ptr : Z) (layout : Layout) (w : world) : outcome world :=
  let? h := heap_dealloc ptr layout (w_heap w) in
  Ok (mkWorld (forget (ptr, layout) (w_live w)) h (w_stacks w)).

(** [ProcessList::add] gives a process its first name and a place in the table,
    whose [Arc] and tree nodes are the blocks [table]; [create] then replaces the
    name.  Nothing is allocated when the table is full. *)
Definition entry_blocks (table : list Layout) (w : world) : outcome world :=
  match proclist_add (task_table (sch (w_kernel w))) with
  | Ok (ROk _, _) =>
      let? (name_ptr, w) := allocate FIRST_NAME w in
      let? w := ofold (fun l w => let? (_, w) := allocate l w in Ok w) table w in
      release name_ptr FIRST_NAME w
  | _ => Ok w
  end.

(** The requests of [entry_blocks]. *)
Definition entry_layouts (table : list Layout) (w : world) : list Layout :=
  match proclist_add (task_table (sch (w_kernel w))) with Ok (ROk _, _) => FIRST_NAME :: table | _ => [] end.

(** A sequence of requests to the allocator, when none is refused. *)
Fixpoint heap_takes (ls : list Layout) (h : heap) : option heap :=
  match ls with
  | [] => Some h
  | l :: ls => match inner_alloc l h with (Some _, h) => heap_takes ls h | (None, _) => None end
  end.

(** [create] *)
Definition spawn (func : Z) (nm : string) (process_return : Z) (table : list Layout) (w : world)
  : outcome (result Z Z * world) :=
  let? (stack_ptr, w) := allocate STACK w in
  let? (self_ptr, w) := allocate SELF_BOX w in
  let? (vals_ptr, w) := allocate STACK_VALS w in
  let? w := entry_blocks table w in
  let? (r, k) := create func nm stack_ptr process_return self_ptr (w_kernel w) in
  let w := set_kernel k w in
  let? w := release vals_ptr STACK_VALS w in
  match r with
  | ROk id => Ok (ROk id, set_stacks (<[id := stack_ptr]> (w_stacks w)) w)
  | RErr e => let? w := release stack_ptr STACK w in Ok (RErr e, w)
  end.

(** The growth of the ready list's buffer: the requested block, and the buffer it
    replaces. *)
Record growth := mkGrowth { g_new : Layout; g_old : Z; g_old_layout : Layout }.

Definition releasable (ptr : Z) (layout : Layout) (w : world) : Prop :=
  (ptr, layout) ∈ w_live w /\ ~ map_Exists (fun _ a => (a, STACK) = (ptr, layout)) (w_stacks w).

(** [push_back], which reallocates a full buffer. *)
Definition push_ready (id : Z) (grow : option growth) (w : world) : outcome world :=
  let? w :=
    match grow with
    | Some g =>
        let? (_, w) := allocate (g_new g) w in
        if decide (releasable (g_old g) (g_old_layout g) w) then release (g_old g) (g_old_layout g) w else Ok w
    | None => Ok w
    end in
  Ok (set_kernel (ready id (w_kernel w)) w).

(** [syscall::process::create]; [grow] tells whether the ready list is full. *)
Definition syscall_create (func : Z) (nm : string) (process_return : Z) (table : list Layout) (grow : option growth)
  (w : world) : outcome (Z * world) :=
  let? ((id, w), i) :=
    disable_interrupts_and_then (fun i =>
      let w := set_ist i w in
      let? (r, w) := spawn func nm process_return table w in
      match r with
      | RErr _ => panic "Could not create new process!"
      | ROk id => let? w := push_ready id grow w in Ok ((id, w), h_ist (w_heap w))
      end) (h_ist (w_heap w)) in
  Ok (id, set_ist i w).

(** [kill], on the kernel and the heap. *)
Definition kill_process (id : Z) (w : world) : outcome world :=
  let s := sch (w_kernel w) in
  let? p := expect (proclist_get id (task_table s)) "Cannot kill a non-existent process" in
  let p := set_pstack None (set_state Free p) in
  let w := set_kernel (mkKernel (set_table s (<[id := p]> (procs (task_table s)))) (cpu (w_kernel w))) w in
  let? w := match w_stacks w !! id with
            | Some a => let? w := release a STACK w in Ok (set_stacks (delete id (w_stacks w)) w)
            | None => Ok w
            end in
  let? k := resched (w_kernel w) in
  Ok (set_kernel k w).

(** What happens: a new process, a process that ends, a switch, the current
    process computing, and the rest of the kernel allocating and freeing. *)
Inductive kernel_op :=
  | Spawn (func : Z) (nm : string) (process_return : Z) (table : list Layout)
  | Kill (id : Z)
  | Resched
  | MakeReady (id : Z)
  | Compute (c : Context)
  | Allocate (layout : Layout)
  | Release (ptr : Z) (layout : Layout).

Definition act (a : kernel_op) (w : world) : outcome world :=
  match a with
  | Spawn func nm ret table => let? (_, w) := spawn func nm ret table w in Ok w
  | Kill id => kill_process id w
  | Resched => let? k := resched (w_kernel w) in Ok (set_kernel k w)
  | MakeReady id => Ok (set_kernel (ready id (w_kernel w)) w)
  | Compute c => Ok (set_kernel (mkKernel (sch (w_kernel w)) c) w)
  | Allocate layout => let? (_, w) := allocate layout w in Ok w
  | Release ptr layout =>
      if decide (releasable ptr layout w) then release ptr layout w else Ok w
  end.

Definition act_ok (a : kernel_op) : Prop :=
  match a with
  | Spawn _ _ _ table => Forall (fun l => 0 < l_size l) table
  | Allocate layout => 0 < l_size layout
  | _ => True
  end.

(** ** The invariant *)

Section Inv.
Context (heap_ok : Z -> Z -> list (Z * Layout) -> heap -> Prop) `{!InnerHeapOk heap_ok} (m0 m1 : Z).
Context (W0 : in_width 8 m0) (W1 : in_width 8 m1).

(** The heap's part: stacks are live blocks, a different one for each process. *)
Record heap_part (w : world) : Prop := {
  hp_client : client_inv heap_ok m0 m1 (w_live w, w_heap w);
  hp_live id a : w_stacks w !! id = Some a -> (a, STACK) ∈ w_live w;
  hp_inj id1 id2 a : w_stacks w !! id1 = Some a -> w_stacks w !! id2 = Some a -> id1 = id2 }.

(** The scheduler's part: a process with a stack vector that is not empty has its
    block. *)
Record sched_part (w : world) : Prop := {
  sp_inv : sched_inv (sch (w_kernel w));
  sp_stack id p x st : procs (task_table (sch (w_kernel w))) !! id = Some p -> stack p = Some (x :: st) ->
    is_Some (w_stacks w !! id);
  sp_proc id : is_Some (w_stacks w !! id) -> is_Some (procs (task_table (sch (w_kernel w))) !! id) }.

Definition world_ok (w : world) : Prop := heap_part w /\ sched_part w.

Lemma heap_call {T} (g : T) w :
  heap_part w -> exists i, disable_interrupts_and_then (fun i => Ok (g, i)) (h_ist (w_heap w)) = Ok (g, i) /\
    mask_law (i_log i) m0 m1 /\ sch (i_kernel i) = sch (w_kernel w) /\
    keeps_registers (cpu (w_kernel w)) (cpu (i_kernel i)).
Proof.
  intros [(_ & _ & _ & Hm) _ _]. cbn [fst snd] in Hm.
  destruct (pure_section g (h_ist (w_heap w)) m0 m1 Hm W0 W1) as (i & Hr & Hm' & _ & Hs & Hk). by exists i.
Qed.

Lemma allocate_ok layout w :
  0 < l_size layout -> heap_part w ->
  match allocate layout w with
  | Ok (p, w') => heap_part w' /\ (p, layout) ∈ w_live w' /\ w_live w ⊆ w_live w' /\
      w_stacks w' = w_stacks w /\ sch (w_kernel w') = sch (w_kernel w) /\ within HEAP_START HEAP_SIZE (p, layout) /\
      Forall (disjoint (p, layout)) (w_live w) /\ keeps_registers (cpu (w_kernel w)) (cpu (w_kernel w')) /\
      inner_alloc layout (h_inner (w_heap w)) = (Some p, h_inner (w_heap w'))
  | Err e => e = oom_error /\ fst (inner_alloc layout (h_inner (w_heap w))) = None
  end.
Proof.
  intros Hl Hw. unfold allocate, heap_alloc.
  destruct (heap_call (inner_alloc layout (h_inner (w_heap w))) w Hw) as (i & -> & Hm & Hs & Hreg). cbn [obind].
  destruct Hw as [(Hh & Hin & Hd & _) Hlv Hinj]. cbn [fst snd] in *.
  pose proof (inner_alloc_ok _ _ _ layout _ Hh Hl) as Ha.
  destruct (inner_alloc layout (h_inner (w_heap w))) as [[p|] h']; cbn [obind]; [|done].
  destruct Ha as (Hlo & Hhi & Hdis & Hh'). split; [split|].
  - split; [exact Hh'|]. cbn [fst snd w_live w_heap]. split; [by constructor|]. split; [by constructor|exact Hm].
  - intros id a Ha. right. by eapply Hlv.
  - exact Hinj.
  - split; [by left|]. split; [intros b Hb; by right|]. by split_and!.
Qed.

Lemma forget_spec b live :
  b ∈ live -> exists k, live !! k = Some b /\ forget b live = delete k live.
Proof.
  intros Hb. unfold forget. destruct (list_find_elem_of (eq b) live b Hb eq_refl) as [[k x] Hf].
  rewrite Hf. apply list_find_Some in Hf as (Hk & <- & _). by exists k.
Qed.

Lemma forget_elem b c live : c ∈ live -> c <> b -> c ∈ forget b live.
Proof.
  intros Hc Hne. unfold forget. destruct (list_find (eq b) live) as [[k x]|] eqn:Hf; [|done].
  apply list_find_Some in Hf as (Hk & <- & _). apply list_elem_of_lookup in Hc as [j Hj].
  rewrite delete_take_drop. apply elem_of_app.
  destruct (decide (j < k)%nat).
  - left. apply list_elem_of_lookup. exists j. by rewrite lookup_take_lt.
  - right. apply list_elem_of_lookup. exists (j - S k)%nat. rewrite lookup_drop.
    replace (S k + (j - S k))%nat with j; [done|]. destruct (decide (j = k)); [subst; congruence|lia].
Qed.

(** Releasing a block that is no process's stack. *)
Lemma release_ok ptr layout w :
  heap_part w -> (ptr, layout) ∈ w_live w ->
  (forall id a, w_stacks w !! id = Some a -> (a, STACK) <> (ptr, layout)) ->
  exists w', release ptr layout w = Ok w' /\ heap_part w' /\ w_stacks w' = w_stacks w /\
    sch (w_kernel w') = sch (w_kernel w) /\ keeps_registers (cpu (w_kernel w)) (cpu (w_kernel w')) /\
    (forall b, b ∈ w_live w -> b <> (ptr, layout) -> b ∈ w_live w').
Proof.
  intros Hw Hb Hno. unfold release, heap_dealloc.
  destruct (heap_call (inner_dealloc ptr layout (h_inner (w_heap w))) w Hw) as (i & -> & Hm & Hs & Hreg). cbn [obind].
  destruct Hw as [(Hh & Hin & Hd & _) Hlv Hinj]. cbn [fst snd] in *.
  destruct (forget_spec _ _ Hb) as (k & Hk & Hf). eexists. split; [reflexivity|]. split; [split|].
  - unfold client_inv. cbn [fst snd w_live w_heap h_inner h_ist]. rewrite Hf.
    split; [by apply inner_dealloc_ok|]. split; [by apply Forall_delete|]. split; [by apply ordpairs_delete|exact Hm].
  - intros id a Ha. cbn [w_live w_stacks] in *. apply forget_elem; [by eapply Hlv|by eapply Hno].
  - exact Hinj.
  - split; [done|]. split; [done|]. split; [done|]. intros b Hb' Hne. by apply forget_elem.
Qed.

Lemma heap_part_kernel k w : heap_part w -> heap_part (set_kernel k w).
Proof. intros [Hc Hl Hi]. by split. Qed.

Lemma sched_part_ext w w' :
  sched_part w -> sch (w_kernel w') = sch (w_kernel w) -> w_stacks w' = w_stacks w -> sched_part w'.
Proof. intros [Hi Hs Hp] Hk Hst. split; rewrite ?Hk, ?Hst; done. Qed.

(** *** Between the steps of an operation

    [w1] comes from [w] by allocations and releases; the blocks [bs] are live. *)
Record mid (w w1 : world) (bs : list (Z * Layout)) : Prop := {
  mid_heap : heap_part w1;
  mid_stacks : w_stacks w1 = w_stacks w;
  mid_sch : sch (w_kernel w1) = sch (w_kernel w);
  mid_regs : keeps_registers (cpu (w_kernel w)) (cpu (w_kernel w1));
  mid_live b : b ∈ bs -> b ∈ w_live w1 }.

Lemma mid_start w : heap_part w -> mid w w [].
Proof. intros Hw. split; [done..|apply keeps_registers_refl|]. by intros b []%elem_of_nil. Qed.

Lemma mid_allocate l w w1 bs :
  0 < l_size l -> mid w w1 bs ->
  match allocate l w1 with
  | Ok (p, w2) => mid w w2 ((p, l) :: bs) /\ within HEAP_START HEAP_SIZE (p, l) /\ Forall (disjoint (p, l)) (w_live w1) /\
      inner_alloc l (h_inner (w_heap w1)) = (Some p, h_inner (w_heap w2))
  | Err e => e = oom_error /\ fst (inner_alloc l (h_inner (w_heap w1))) = None
  end.
Proof.
  intros Hl [Hh Hs Hk Hg Hb]. pose proof (allocate_ok l w1 Hl Hh) as Ha.
  destruct (allocate l w1) as [[p w2]|e]; [|done]. destruct Ha as (H1 & H2 & H3 & H4 & H5 & H6 & H7 & H8 & H9).
  split; [|done]. split; [done|congruence|congruence|by eapply keeps_registers_trans|].
  intros b [->|Hin]%elem_of_cons; [done|]. by apply H3, Hb.
Qed.

Lemma mid_allocates ls w w1 bs :
  Forall (fun l => 0 < l_size l) ls -> mid w w1 bs ->
  match ofold (fun l w => let? (_, w) := allocate l w in Ok w) ls w1 with
  | Ok w2 => mid w w2 bs /\ heap_takes ls (h_inner (w_heap w1)) = Some (h_inner (w_heap w2))
  | Err e => e = oom_error /\ heap_takes ls (h_inner (w_heap w1)) = None
  end.
Proof.
  intros Hls. revert w1. induction Hls as [|l ls Hl Hls IH]; intros w1 Hm; [done|]. cbn [ofold heap_takes].
  pose proof (mid_allocate l w w1 bs Hl Hm) as Ha. destruct (allocate l w1) as [[p w2]|e]; cbn [obind].
  - destruct Ha as ([H1 H2 H3 H4 H5] & _ & _ & ->). apply IH. split; [done..|]. intros b Hb. apply H5. by right.
  - destruct Ha as [-> Hno]. split; [done|]. destruct (inner_alloc l (h_inner (w_heap w1))) as [[p|] h]; done.
Qed.

Lemma mid_release ptr l w w1 bs bs' :
  mid w w1 bs -> (ptr, l) ∈ bs -> (forall id a, w_stacks w !! id = Some a -> (a, STACK) <> (ptr, l)) ->
  (forall b, b ∈ bs' -> b ∈ bs /\ b <> (ptr, l)) ->
  exists w2, release ptr l w1 = Ok w2 /\ mid w w2 bs'.
Proof.
  intros [Hh Hs Hk Hg Hb] Hin Hno Hsub. rewrite <-Hs in Hno.
  destruct (release_ok ptr l w1 Hh (Hb _ Hin) Hno) as (w2 & Hr & H1 & H2 & H3 & H4 & H5).
  exists w2. split; [done|]. split; [done|congruence|congruence|by eapply keeps_registers_trans|].
  intros b Hb'. destruct (Hsub b Hb') as [Hb1 Hb2]. by apply H5; [apply Hb|].
Qed.

Lemma fresh_not_stack w p :
  heap_part w -> Forall (disjoint (p, STACK)) (w_live w) -> forall id a, w_stacks w !! id = Some a -> a <> p.
Proof.
  intros Hw Hd id a Ha ->. apply (hp_live _ Hw) in Ha. rewrite Forall_forall in Hd.
  specialize (Hd _ Ha). unfold disjoint in Hd. simpl in Hd. unfold INITIAL_STACK in Hd. lia.
Qed.

Lemma create_outcome func nm stack_ptr ret self k :
  sched_inv (sch k) -> 0 <= stack_ptr -> stack_ptr + 8192 < 2 ^ 64 ->
  exists r k', create func nm stack_ptr ret self k = Ok (r, k').
Proof.
  intros [Ht _ _] B0 B1. rewrite create_eq by done.
  destruct (proclist_add_spec _ Ht) as (id & _ & _ & _ & ->).
  destruct (MAX_PROCS <=? id); cbn [obind expect procs]; [by eexists _, _|].
  rewrite lookup_insert_eq. cbn [obind expect]. by eexists _, _.
Qed.

(** No id is left: [add] looks from [next] on. *)
Definition no_id_left (l : ProcessList) : Prop :=
  forall j, search_start l <= j < MAX_PROCS -> is_Some (procs l !! j).

(** What [spawn] adds: a process that is new in the table, on a stack block of
    its own, or nothing when no id is left. *)
Definition spawned (func : Z) (nm : string) (ret : Z) (r : result Z Z) (w w' : world) : Prop :=
  keeps_registers (cpu (w_kernel w)) (cpu (w_kernel w')) /\
  current_pid (sch (w_kernel w')) = current_pid (sch (w_kernel w)) /\
  ready_list (sch (w_kernel w')) = ready_list (sch (w_kernel w)) /\
  match r with
  | ROk id => procs (task_table (sch (w_kernel w))) !! id = None /\
      exists a self, w_stacks w' = <[id := a]> (w_stacks w) /\ within HEAP_START HEAP_SIZE (a, STACK) /\
        (self, SELF_BOX) ∈ w_live w' /\
        procs (task_table (sch (w_kernel w'))) =
          <[id := new_process id nm (c_cr3 (cpu (w_kernel w))) (a + 8168) (replicate 1021 0 ++ [func; ret; self])]>
            (procs (task_table (sch (w_kernel w))))
  | RErr _ => procs (task_table (sch (w_kernel w'))) = procs (task_table (sch (w_kernel w))) /\
      w_stacks w' = w_stacks w /\ no_id_left (task_table (sch (w_kernel w)))
  end.

Lemma entry_blocks_ok table w w1 bs :
  Forall (fun l => 0 < l_size l) table -> mid w w1 bs ->
  match entry_blocks table w1 with
  | Ok w2 => mid w w2 (filter (fun b => snd b <> FIRST_NAME) bs) /\
      is_Some (heap_takes (entry_layouts table w) (h_inner (w_heap w1)))
  | Err e => e = oom_error /\ heap_takes (entry_layouts table w) (h_inner (w_heap w1)) = None
  end.
Proof.
  intros Ht M. assert (Hsame : mid w w1 (filter (fun b => snd b <> FIRST_NAME) bs)).
  { destruct M as [E1 E2 E3 E4 E5]. split; [done..|]. intros b [_ Hb]%list_elem_of_filter. by apply E5. }
  unfold entry_blocks, entry_layouts. rewrite (mid_sch _ _ _ M).
  destruct (proclist_add _) as [[[id|e] l]|e]; [|split; [done|by eexists]..]. cbn [heap_takes].
  pose proof (mid_allocate FIRST_NAME w w1 _ eq_refl M) as H4.
  destruct (allocate FIRST_NAME w1) as [[n w2]|e]; cbn [obind]; cycle 1.
  { destruct H4 as [-> Hno]. split; [done|]. by destruct (inner_alloc FIRST_NAME _) as [[p|] h]. }
  destruct H4 as (M4 & _ & _ & ->).
  pose proof (mid_allocates table w w2 _ Ht M4) as H5. destruct (ofold _ table w2) as [w3|e]; [|done]. cbn [obind].
  destruct H5 as [M5 Htk].
  destruct (mid_release n FIRST_NAME w w3 _ (filter (fun b => snd b <> FIRST_NAME) bs) M5) as (w4 & -> & M6);
    [by left|done| |split; [exact M6|by rewrite Htk]].
  intros b [Hne Hb]%list_elem_of_filter. split; [by right|]. intros ->. by apply Hne.
Qed.

(** The requests of [spawn]. *)
Definition spawn_layouts (table : list Layout) (w : world) : list Layout :=
  STACK :: SELF_BOX :: STACK_VALS :: entry_layouts table w.

(** One request, and then the rest. *)
Lemma heap_takes_some l ls p h h1 : inner_alloc l h = (Some p, h1) -> heap_takes (l :: ls) h = heap_takes ls h1.
Proof. cbn [heap_takes]. by intros ->. Qed.

Lemma heap_takes_none l ls h : fst (inner_alloc l h) = None -> heap_takes (l :: ls) h = None.
Proof. cbn [heap_takes]. by destruct (inner_alloc l h) as [[p|] h1]. Qed.

(** The allocations [spawn] starts with. *)
Lemma spawn_blocks table w :
  Forall (fun l => 0 < l_size l) table -> heap_part w ->
  match
    (let? (s, w) := allocate STACK w in
     let? (b, w) := allocate SELF_BOX w in
     let? (v, w) := allocate STACK_VALS w in
     let? w := entry_blocks table w in
     Ok (s, b, v, w))
  with
  | Ok (s, b, v, w1) => mid w w1 [(v, STACK_VALS); (b, SELF_BOX); (s, STACK)] /\
      within HEAP_START HEAP_SIZE (s, STACK) /\ (forall id a, w_stacks w !! id = Some a -> a <> s) /\
      is_Some (heap_takes (spawn_layouts table w) (h_inner (w_heap w)))
  | Err e => e = oom_error /\ heap_takes (spawn_layouts table w) (h_inner (w_heap w)) = None
  end.
Proof.
  intros Ht Hw. unfold spawn_layouts. pose proof (mid_allocate STACK w w [] eq_refl (mid_start w Hw)) as H1.
  destruct (allocate STACK w) as [[s w1]|e]; cbn [obind]; [|destruct H1; split; [done|by apply heap_takes_none]].
  destruct H1 as (M1 & Hin & Hd & A1). rewrite (heap_takes_some _ _ _ _ _ A1).
  pose proof (mid_allocate SELF_BOX w w1 _ eq_refl M1) as H2.
  destruct (allocate SELF_BOX w1) as [[b w2]|e]; cbn [obind]; [|destruct H2; split; [done|by apply heap_takes_none]].
  destruct H2 as (M2 & _ & _ & A2). rewrite (heap_takes_some _ _ _ _ _ A2).
  pose proof (mid_allocate STACK_VALS w w2 _ eq_refl M2) as H3.
  destruct (allocate STACK_VALS w2) as [[v w3]|e]; cbn [obind]; [|destruct H3; split; [done|by apply heap_takes_none]].
  destruct H3 as (M3 & _ & _ & A3). rewrite (heap_takes_some _ _ _ _ _ A3).
  pose proof (entry_blocks_ok table w w3 _ Ht M3) as H5. destruct (entry_blocks table w3) as [w5|e]; [|done].
  cbn [obind]. destruct H5 as [[E1 E2 E3 E4 E5] Htk]. split; [|split; [done|split; [by apply fresh_not_stack|done]]].
  split; [done..|]. intros x Hx. apply E5, list_elem_of_filter. split; [|exact Hx].
  by rewrite !elem_of_cons in Hx; destruct Hx as [->|[->|[->|[]%elem_of_nil]]].
Qed.

Lemma spawn_eq func nm ret table w :
  spawn func nm ret table w =
  let? (s, b, v, w1) :=
    (let? (s, w) := allocate STACK w in
     let? (b, w) := allocate SELF_BOX w in
     let? (v, w) := allocate STACK_VALS w in
     let? w := entry_blocks table w in
     Ok (s, b, v, w)) in
  let? (r, k) := create func nm s ret b (w_kernel w1) in
  let? w3 := release v STACK_VALS (set_kernel k w1) in
  match r with
  | ROk id => Ok (ROk id, set_stacks (<[id := s]> (w_stacks w3)) w3)
  | RErr e => let? w := release s STACK w3 in Ok (RErr e, w)
  end.
Proof.
  unfold spawn. destruct (allocate STACK w) as [[s w1]|e]; [|done]. cbn [obind].
  destruct (allocate SELF_BOX w1) as [[b w2]|e]; [|done]. cbn [obind].
  destruct (allocate STACK_VALS w2) as [[v w3]|e]; [|done]. cbn [obind].
  by destruct (entry_blocks table w3).
Qed.

Lemma create_full func nm stack_ptr ret self k e k' :
  sched_inv (sch k) -> 0 <= stack_ptr -> stack_ptr + 8192 < 2 ^ 64 ->
  create func nm stack_ptr ret self k = Ok (RErr e, k') -> no_id_left (task_table (sch k)).
Proof.
  intros [Ht _ _] B0 B1 Hrun. rewrite create_eq in Hrun by done.
  destruct (proclist_add_spec _ Ht) as (id & Hid & _ & Hall & Hadd). rewrite Hadd in Hrun.
  destruct (Z.leb_spec MAX_PROCS id); cbn [obind expect procs next] in Hrun.
  - intros j Hj. apply Hall. lia.
  - by rewrite lookup_insert_eq in Hrun.
Qed.

Lemma spawn_ok func nm ret table w :
  Forall (fun l => 0 < l_size l) table -> world_ok w ->
  match spawn func nm ret table w with
  | Ok (r, w') => world_ok w' /\ spawned func nm ret r w w' /\
      is_Some (heap_takes (spawn_layouts table w) (h_inner (w_heap w)))
  | Err e => e = oom_error /\ heap_takes (spawn_layouts table w) (h_inner (w_heap w)) = None
  end.
Proof.
  intros Ht [Hh Hp]. rewrite spawn_eq. pose proof (spawn_blocks table w Ht Hh) as Hb.
  destruct (let? (s, w) := _ in _) as [[[[s b] v] w1]|e] eqn:Hrun; [|done]. clear Hrun. cbn [obind].
  destruct Hb as ([Hh1 Hst1 Hk1 Hg1 Hl1] & Hin & Hnew & Htk). pose proof (sched_part_ext w w1 Hp Hk1 Hst1) as Hp1.
  assert (Hs : 0 <= s /\ s + 8192 < 2 ^ 64).
  { destruct Hin as [Hlo Hhi]. simpl in Hlo, Hhi. unfold INITIAL_STACK, HEAP_START, HEAP_SIZE in *. lia. }
  destruct Hs as [Hs0 Hs1].
  destruct (create_outcome func nm s ret b (w_kernel w1) (sp_inv _ Hp1) Hs0 Hs1) as (r & k & Hc).
  rewrite Hc. cbn [obind].
  destruct (create_spec _ _ _ _ _ _ _ _ (sp_inv _ Hp1) Hs0 Hs1 Hc) as (Hcpu & Hcur & Hrl & Hinv & Hr).
  assert (M : mid (set_kernel k w1) (set_kernel k w1) [(v, STACK_VALS); (b, SELF_BOX); (s, STACK)]).
  { split; [by apply heap_part_kernel|done|done|apply keeps_registers_refl|exact Hl1]. }
  destruct (mid_release v STACK_VALS _ _ _ [(b, SELF_BOX); (s, STACK)] M) as (w3 & -> & M3);
    [by left|done|intros x Hx; split; [by right|]; intros ->; by rewrite !elem_of_cons in Hx;
      destruct Hx as [?|[?|[]%elem_of_nil]]|].
  cbn [obind]. destruct M3 as [Hh3 Hst3 Hk3 Hg3 Hl3]. change (cpu (w_kernel (set_kernel k w1))) with (cpu k) in Hg3.
  rewrite Hcpu in Hg3. pose proof (keeps_registers_trans _ _ _ Hg1 Hg3) as Hg.
  assert (Hsch3 : sch (w_kernel w3) = sch k) by (by rewrite Hk3).
  assert (Hst : w_stacks w3 = w_stacks w) by (by rewrite Hst3).
  assert (Hcr3 : c_cr3 (cpu (w_kernel w1)) = c_cr3 (cpu (w_kernel w))) by (destruct Hg1 as [f ->]; done).
  rewrite Hk1 in Hr, Hcur, Hrl. destruct r as [id|e].
  - destruct Hr as [Hnone Hprocs]. rewrite Hcr3 in Hprocs. split; [split|split; [|done]].
    + destruct Hh3 as [Hcl Hlv Hinj]. split; [exact Hcl|..]; cbn [w_stacks w_live set_stacks]; rewrite Hst in *.
      * intros j a. rewrite lookup_insert. case_decide; [intros [= <-]; apply Hl3; right; by left|by apply Hlv].
      * intros j1 j2 a. rewrite !lookup_insert. repeat case_decide; intros; simplify_eq; try done.
        -- by edestruct Hnew.
        -- by edestruct Hnew.
        -- by eapply Hinj.
    + split; unfold set_stacks, w_kernel in *; cbn [w_heap w_stacks]; rewrite Hsch3.
      * done.
      * intros j p x st. rewrite Hprocs, Hst, !lookup_insert. case_decide; [by eexists|]. apply (sp_stack _ Hp).
      * intros j. rewrite Hprocs, Hst, !lookup_insert. case_decide; [by eexists|]. apply (sp_proc _ Hp).
    + unfold spawned, set_stacks, w_kernel in *. cbn [w_heap w_stacks w_live]. rewrite Hsch3.
      split; [exact Hg|]. split; [exact Hcur|]. split; [exact Hrl|]. split; [exact Hnone|]. exists s, b. rewrite Hst.
      split; [done|]. split; [exact Hin|]. split; [apply Hl3; by left|exact Hprocs].
  - destruct Hr as [-> Hprocs]. pose proof (create_full _ _ _ _ _ _ _ _ (sp_inv _ Hp1) Hs0 Hs1 Hc) as Hfull. rewrite Hk1 in Hfull.
    destruct (mid_release s STACK w3 w3 [(s, STACK)] []) as (w4 & -> & [Hh4 Hst4 Hk4 Hg4 _]);
      [split; [done..|apply keeps_registers_refl|]; intros x ->%list_elem_of_singleton; apply Hl3; right; by left
      |by left|intros j a; rewrite Hst; intros Ha [= ->]; by edestruct Hnew|set_solver|].
    cbn [obind]. rewrite Hst in Hst4. rewrite Hsch3 in Hk4. split; [split; [done|]|split; [|done]].
    + destruct Hp as [Hi Hs Hq]. split; rewrite ?Hk4, ?Hst4, ?Hprocs; done.
    + unfold spawned. rewrite Hk4, Hst4. split; [by eapply keeps_registers_trans|]. by split_and!.
Qed.

(** A switch moves no stack. *)
Lemma resched_stack k k' id :
  resched k = Ok k' -> stack <$> procs (task_table (sch k')) !! id = stack <$> procs (task_table (sch k)) !! id.
Proof.
  intros Hr%resched_spec. destruct Hr as [|prev nxt j rest Hp Hl Hne Hj Hn|prev rest Hp Hl Hne]; [done|..];
    destruct (requeue_state prev _ eq_refl) as (_ & _ & Hst & _); revert Hst; clear Hl;
    generalize (if decide (state prev = Current) then set_state Ready prev else prev); intros q Hst; simpl;
    rewrite !lookup_insert; repeat case_decide; subst; rewrite ?Hp, ?Hn; simpl; by rewrite ?Hst.
Qed.

Lemma resched_panics k : panics_only (resched k).
Proof.
  unfold resched. destruct (ready_list (sch k)); [auto with kernel|].
  apply panics_only_bind; [|intros [[[p n]|] s] _; [|auto with kernel]].
  - rewrite pick_next_eq. apply panics_only_bind; [auto with kernel|]. intros prev _. cbv zeta.
    destruct (ready_list _); [auto with kernel|]. destruct (decide _); [auto with kernel|].
    apply panics_only_bind; auto with kernel.
  - apply panics_only_bind; [apply panics_only_expect|]. intros prev _.
    apply panics_only_bind; [apply panics_only_expect|]. intros nxt _. destruct (switch_to _ _ _). auto with kernel.
Qed.

Lemma resched_part w k : sched_part w -> resched (w_kernel w) = Ok k -> sched_part (set_kernel k w).
Proof.
  intros [Hi Hs Hp] Hr. pose proof (fun id => resched_stack _ _ id Hr) as Hst. split.
  - by eapply resched_inv.
  - intros id p x st Hid Hstk. specialize (Hst id). cbn in Hid. rewrite Hid in Hst. simpl in Hst.
    destruct (procs (task_table (sch (w_kernel w))) !! id) as [q|] eqn:Hq; [|done]. simpl in Hst.
    injection Hst as Hst. rewrite Hstk in Hst. by eapply Hs.
  - intros id Hid. destruct (Hp id Hid) as [q Hq]. specialize (Hst id). rewrite Hq in Hst.
    cbn. destruct (procs (task_table (sch k)) !! id); [by eexists|done].
Qed.

Lemma resched_ok w :
  world_ok w ->
  match resched (w_kernel w) with Ok k => world_ok (set_kernel k w) | Err e => is_panic e end.
Proof.
  intros [Hh Hp]. destruct (resched (w_kernel w)) as [k|e] eqn:Hr; [|by eapply resched_panics].
  split; [by apply heap_part_kernel|by apply resched_part].
Qed.

Lemma kill_ok id w :
  world_ok w -> match kill_process id w with Ok w' => world_ok w' | Err e => is_panic e end.
Proof.
  intros [Hh Hp]. unfold kill_process, proclist_get.
  destruct (procs (task_table (sch (w_kernel w))) !! id) as [p|] eqn:Hid; [|by eexists]. cbn [expect obind].
  destruct (kill_table _ id p (sp_inv _ Hp) Hid) as [Hi1 _]. set (k1 := mkKernel _ _) in *.
  assert (Hprocs : procs (task_table (sch k1)) =
    <[id := set_pstack None (set_state Free p)]> (procs (task_table (sch (w_kernel w))))) by done.
  assert (Hrest : forall w2, heap_part w2 -> sch (w_kernel w2) = sch k1 ->
    (forall j, j <> id -> w_stacks w2 !! j = w_stacks w !! j) -> (is_Some (w_stacks w2 !! id) -> is_Some (w_stacks w !! id)) ->
    match (let? k := resched (w_kernel w2) in Ok (set_kernel k w2)) with Ok w' => world_ok w' | Err e => is_panic e end).
  { intros w2 Hh2 Hk2 Ho Hid2. assert (Hw2 : world_ok w2).
    { split; [done|]. split; rewrite Hk2.
      - exact Hi1.
      - intros j q x st. rewrite Hprocs, lookup_insert. case_decide; [by intros [= <-]|]. intros Hq Hst.
        rewrite Ho by done. by eapply (sp_stack _ Hp).
      - intros j Hj. rewrite Hprocs, lookup_insert. case_decide; [by eexists|]. apply (sp_proc _ Hp).
        by rewrite <-Ho by done. }
    pose proof (resched_ok w2 Hw2) as Hr. by destruct (resched (w_kernel w2)). }
  cbn [w_stacks set_kernel]. destruct (w_stacks w !! id) as [a|] eqn:Ha; cbn [obind].
  - assert (M : mid (set_stacks (delete id (w_stacks w)) (set_kernel k1 w)) (set_stacks (delete id (w_stacks w)) (set_kernel k1 w)) [(a, STACK)]).
    { destruct Hh as [Hc Hl Hj]. split; [split; [done|..]|done|done|apply keeps_registers_refl|].
      - intros j b. cbn. rewrite lookup_delete. case_decide; [done|]. apply Hl.
      - intros j1 j2 b. cbn. rewrite !lookup_delete. repeat case_decide; try done. apply Hj.
      - intros b ->%list_elem_of_singleton. by apply (Hl id). }
    destruct (mid_release a STACK _ _ _ [] M) as (w2 & Hr & [Hh2 Hs2 Hk2 _ _]).
    { by left. }
    { intros j b. cbn. rewrite lookup_delete. case_decide; [done|]. intros Hb [= ->].
      destruct Hh as [_ _ Hj]. by edestruct (Hj id j a Ha Hb). }
    { by intros b []%elem_of_nil. }
    assert (Hr' : release a STACK (set_kernel k1 w) = Ok (mkWorld (w_live w2) (w_heap w2) (w_stacks w))).
    { unfold release in *. apply obind_Ok in Hr as (h & Hd & Heq). injection Heq as <-.
      change (w_heap (set_kernel k1 w)) with (w_heap (set_stacks (delete id (w_stacks w)) (set_kernel k1 w))).
      by rewrite Hd. }
    rewrite Hr'. cbn [obind]. apply Hrest.
    + cbn. destruct w2; cbn in *. subst. exact Hh2.
    + exact Hk2.
    + intros j Hj. cbn. by rewrite lookup_delete_ne.
    + by eexists.
  - apply Hrest; [by apply heap_part_kernel|done|done|]. cbn. by rewrite Ha.
Qed.

Lemma act_world_ok a w :
  act_ok a -> world_ok w -> match act a w with Ok w' => world_ok w' | Err e => is_panic e end.
Proof.
  intros Ha Hw. pose proof Hw as [Hh Hp]. destruct a as [func nm ret table|id| |id|c|layout|ptr layout]; cbn [act act_ok] in *.
  - pose proof (spawn_ok func nm ret table w Ha Hw) as Hs. destruct (spawn _ _ _ _ _) as [[r w']|e]; [|destruct Hs as [-> _]; by eexists].
    by destruct Hs.
  - by apply kill_ok.
  - pose proof (resched_ok w Hw) as Hr. by destruct (resched (w_kernel w)).
  - split; [by apply heap_part_kernel|]. destruct Hp as [[Ht Hc Ho] Hs Hq]. by split; [split|..].
  - split; [by apply heap_part_kernel|]. by eapply sched_part_ext.
  - pose proof (allocate_ok layout w Ha Hh) as Hall. destruct (allocate layout w) as [[p w']|e];
      [|destruct Hall as [-> _]; by eexists].
    destruct Hall as (Hh' & _ & _ & Hst & Hk & _). split; [done|]. by eapply sched_part_ext.
  - destruct (decide _) as [[Hlive Hno]|]; [|done].
    destruct (release_ok ptr layout w Hh Hlive) as (w' & -> & Hh' & Hst & Hk & _).
    { intros id a Hid E. apply Hno. by exists id, a. }
    split; [done|]. by eapply sched_part_ext.
Qed.

Lemma acts_world_ok l w :
  Forall act_ok l -> world_ok w -> match ofold act l w with Ok w' => world_ok w' | Err e => is_panic e end.
Proof.
  intros Hl. revert w. induction Hl as [|a l Ha Hl IH]; intros w Hw; [done|]. cbn [ofold].
  pose proof (act_world_ok a w Ha Hw) as Hw1. destruct (act a w) as [w1|e]; [|done]. cbn [obind]. by apply IH.
Qed.

(** C13: the stacks of the processes, over any sequence of process creations, exits
    and switches, of computations that change the registers, and of allocations
    and releases of other blocks.  The sequence ends normally or in a panic, never
    in a page fault.  Then every process that has a stack has a block of the heap
    for it; the stacks of two processes do not overlap; and every aligned word of a
    stack can be written through the page tables [memory::init] built. *)
Theorem stacks_correct (s : machine) l w :
  Forall (fun p => exists f, walk (pm s) (active s) p = Some (f, full_access)) heap_pages ->
  Forall act_ok l -> world_ok w ->
  match ofold act l w with
  | Ok w' =>
      world_ok w' /\
      (forall id p x st, procs (task_table (sch (w_kernel w'))) !! id = Some p -> stack p = Some (x :: st) ->
         exists a, w_stacks w' !! id = Some a) /\
      (forall id1 id2 a1 a2, w_stacks w' !! id1 = Some a1 -> w_stacks w' !! id2 = Some a2 -> id1 <> id2 ->
         a1 + 8 * INITIAL_STACK <= a2 \/ a2 + 8 * INITIAL_STACK <= a1) /\
      (forall id a va v, w_stacks w' !! id = Some a -> a <= va -> va + 8 <= a + 8 * INITIAL_STACK -> va mod 8 = 0 ->
         is_ok (store64 (pm s) (active s) va v))
  | Err e => is_panic e
  end.
Proof.
  intros Hpages Hl Hw. pose proof (acts_world_ok l w Hl Hw) as Hr. destruct (ofold act l w) as [w'|e]; [|done].
  pose proof Hr as [[(_ & Hin & Hd & _) Hlv Hinj] [_ Hs _]]. cbn [fst snd] in *.
  split; [done|]. split; [intros id p x st Hp Hst; by eapply Hs|]. split.
  - intros id1 id2 a1 a2 Ha1 Ha2 Hne.
    destruct (ForallOrdPairs_In Hd (a1, STACK) (a2, STACK)) as [E|[[?|?]|[?|?]]]; cbn [fst snd l_size STACK] in *.
    + apply list_elem_of_In. by eapply Hlv.
    + apply list_elem_of_In. by eapply Hlv.
    + injection E as ->. by destruct Hne; eapply Hinj.
    + by left.
    + by right.
    + by right.
    + by left.
  - intros id a va v Ha Hlo Hhi Hal. apply heap_word_writable; [done|..|done];
      (rewrite Forall_forall in Hin; destruct (Hin _ (Hlv _ _ Ha)) as [? ?]; simpl in *; lia).
Qed.

Lemma push_ready_ok id grow w :
  (forall g, grow = Some g -> 0 < l_size (g_new g)) -> world_ok w ->
  match push_ready id grow w with
  | Ok w' => world_ok w' /\ w_stacks w' = w_stacks w /\
      sch (w_kernel w') = sch (ready id (w_kernel w)) /\ keeps_registers (cpu (w_kernel w)) (cpu (w_kernel w'))
  | Err e => e = oom_error /\ exists g, grow = Some g /\ fst (inner_alloc (g_new g) (h_inner (w_heap w))) = None
  end.
Proof.
  intros Hg Hw.
  assert (Hdone : forall w2, world_ok w2 -> w_stacks w2 = w_stacks w -> sch (w_kernel w2) = sch (w_kernel w) ->
    keeps_registers (cpu (w_kernel w)) (cpu (w_kernel w2)) ->
    let w' := set_kernel (ready id (w_kernel w2)) w2 in
    world_ok w' /\ w_stacks w' = w_stacks w /\
    sch (w_kernel w') = sch (ready id (w_kernel w)) /\ keeps_registers (cpu (w_kernel w)) (cpu (w_kernel w'))).
  { intros w2 Hw2 Hst Hs Hr w'. split; [exact (act_world_ok (MakeReady id) w2 I Hw2)|]. split; [exact Hst|].
    split; [|exact Hr]. unfold w', w_kernel in *. simpl. by rewrite Hs. }
  unfold push_ready. destruct grow as [g|]; [|apply Hdone; [done..|apply keeps_registers_refl]].
  destruct Hw as [Hh Hp]. pose proof (allocate_ok (g_new g) w (Hg g eq_refl) Hh) as Ha.
  destruct (allocate (g_new g) w) as [[p w1]|e]; cbn [obind]; [|destruct Ha; split; [done|by exists g]].
  destruct Ha as (Hh1 & _ & _ & Hst1 & Hk1 & _ & _ & Hg1 & _). pose proof (sched_part_ext w w1 Hp Hk1 Hst1) as Hp1.
  destruct (decide _) as [[Hlive Hno]|]; cbn [obind]; [|by apply Hdone].
  destruct (release_ok (g_old g) (g_old_layout g) w1 Hh1 Hlive) as (w2 & -> & Hh2 & Hst2 & Hk2 & Hg2 & _).
  { intros j a Hid E. apply Hno. by exists j, a. }
  cbn [obind]. apply Hdone; [|congruence|congruence|by eapply keeps_registers_trans].
  split; [done|]. by eapply sched_part_ext.
Qed.

End Inv.

(** ** The system call *)

Section Create.
Context (heap_ok : Z -> Z -> list (Z * Layout) -> heap -> Prop) `{!InnerHeapOk heap_ok} (m0 m1 : Z).
Context (W0 : in_width 8 m0) (W1 : in_width 8 m1).

(** Only the masks and the flags differ inside a critical section. *)
Lemma world_ok_ist n0 n1 k0 k1 i w :
  world_ok heap_ok n0 n1 w -> mask_law (i_log i) k0 k1 -> sch (i_kernel i) = sch (w_kernel w) ->
  world_ok heap_ok k0 k1 (set_ist i w).
Proof.
  intros [[(Hh & Hin & Hd & _) Hlv Hinj] Hp] Hm Hs. split; [by split; [split_and!|..]|].
  by apply (sched_part_ext w).
Qed.

(** What a call that panics met: a request of [spawn] or of the ready list that the
    allocator refuses, or a table without a free id. *)
Definition create_refused (func : Z) (nm : string) (ret : Z) (table : list Layout) (grow : option growth) (w : world) : Prop :=
  heap_takes (spawn_layouts table w) (h_inner (w_heap w)) = None \/
  exists i id w1 g, sch (i_kernel i) = sch (w_kernel w) /\ spawn func nm ret table (set_ist i w) = Ok (ROk id, w1) /\
    grow = Some g /\ fst (inner_alloc (g_new g) (h_inner (w_heap w1))) = None.

(** C27: the system call that creates a process allocates its stack and the rest of
    what it needs from the heap, gives it a new id, puts it at the end of the queue
    without disturbing anything else, and prepares its stack, a block of its own: the
    saved stack pointer is the address of the entry point, above it lie the address of
    [process_return] and the boxed pointer to the scheduler, and there the stack
    ends.  Its saved page table is the active one.  The call keeps all
    registers but the flags, among which interrupts are on.  It panics in two cases:
    one of its requests is refused by the allocator, or the heap gives everything
    and all ids from the next one on are taken. *)
Theorem create_correct func nm ret table grow w :
  Forall (fun l => 0 < l_size l) table -> (forall g, grow = Some g -> 0 < l_size (g_new g)) ->
  world_ok heap_ok m0 m1 w -> rr (sch (w_kernel w)) ->
  match syscall_create func nm ret table grow w with
  | Ok (id, w') =>
      let k := w_kernel w in let k' := w_kernel w' in
      world_ok heap_ok m0 m1 w' /\ rr (sch k') /\ queue (sch k') = queue (sch k) ++ [id] /\
      keeps_registers (cpu k) (cpu k') /\ interrupts_on (h_ist (w_heap w')) = true /\
      procs (task_table (sch k)) !! id = None /\
      (forall j, j <> id -> procs (task_table (sch k')) !! j = procs (task_table (sch k)) !! j) /\
      exists a self p st, w_stacks w' = <[id := a]> (w_stacks w) /\
        procs (task_table (sch k')) !! id = Some p /\ pid p = id /\ stack p = Some st /\
        c_cr3 (ctx p) = c_cr3 (cpu k) /\
        stack_word a st (c_rsp (ctx p)) = Some func /\
        stack_word a st (c_rsp (ctx p) + 8) = Some ret /\
        stack_word a st (c_rsp (ctx p) + 16) = Some self /\
        c_rsp (ctx p) + 24 = a + 8 * Z.of_nat (length st)
  | Err e =>
      (e = oom_error /\ create_refused func nm ret table grow w) \/
      (e = EPanic "Could not create new process!" /\ no_id_left (task_table (sch (w_kernel w))) /\
       is_Some (heap_takes (spawn_layouts table w) (h_inner (w_heap w))))
  end.
Proof.
  intros Ht Hg Hw Hrr. unfold syscall_create. pose proof Hw as [[(_ & _ & _ & Hm) _ _] Hp]. cbn [fst snd] in Hm.
  match goal with |- context [disable_interrupts_and_then ?f _] =>
    destruct (masked_section f _ m0 m1 Hm W0 W1) as (i & Hmi & Hsi & Hri & ->) end.
  assert (F : in_width 8 0xff) by (unfold in_width; lia).
  pose proof (world_ok_ist _ _ 0xff 0xff i w Hw Hmi Hsi) as Hwi. cbv beta zeta.
  pose proof (spawn_ok heap_ok 0xff 0xff F F func nm ret table _ Ht Hwi) as Hs.
  assert (Htk : heap_takes (spawn_layouts table (set_ist i w)) (h_inner (w_heap (set_ist i w))) =
    heap_takes (spawn_layouts table w) (h_inner (w_heap w))).
  { unfold spawn_layouts, entry_layouts. cbn [w_kernel set_ist w_heap h_inner h_ist]. unfold w_kernel. simpl.
    by rewrite Hsi. }
  rewrite Htk in Hs. destruct (spawn _ _ _ _ _) as [[r w1]|e] eqn:Hsp; cbn [obind]; cycle 1.
  { left. destruct Hs as [-> Hno]. split; [done|]. by left. }
  destruct Hs as (Hw1 & (Hr1 & Hc1 & Hl1 & Hnew) & Hsome).
  change (w_kernel (set_ist i w)) with (i_kernel i) in *. rewrite Hsi in Hc1, Hl1, Hnew.
  destruct r as [id|e]; cbn [obind]; [|right; by destruct Hnew as (_ & _ & ?)].
  destruct Hnew as (Hnone & a & self & Hst & Hin & Hself & Hprocs).
  pose proof (push_ready_ok heap_ok 0xff 0xff F F id grow w1 Hg Hw1) as Hpr.
  destruct (push_ready id grow w1) as [w2|e]; cbn [obind]; cycle 1.
  { left. destruct Hpr as (-> & g & Hgr & Hno). split; [done|]. right. by exists i, id, w1, g. }
  destruct Hpr as (Hw2 & Hst2 & Hs2 & Hr2). pose proof Hw2 as [[(_ & _ & _ & Hm2) _ _] _]. cbn [fst snd] in Hm2.
  destruct (restore_section (h_ist (w_heap w2)) _ _ m0 m1 Hm2) as (Hm3 & Hon & Hs3 & Hr3).
  set (i3 := restore_interrupts (m0, m1) (h_ist (w_heap w2))) in *. cbv zeta.
  change (w_kernel (set_ist i3 w2)) with (i_kernel i3). rewrite Hs3. change (i_kernel (h_ist (w_heap w2))) with (w_kernel w2) in *.
  assert (Hcr3 : c_cr3 (cpu (i_kernel i)) = c_cr3 (cpu (w_kernel w))) by (destruct Hri as [f Hf]; unfold w_kernel; by rewrite Hf).
  assert (Hfree : state (new_process id nm (c_cr3 (cpu (i_kernel i))) (a + 8168) (replicate 1021 0 ++ [func; ret; self])) <> Free)
    by done.
  destruct (ready_new (w_kernel w) (w_kernel w1) id _ (sp_inv _ Hp) Hrr Hnone Hprocs Hfree Hc1 Hl1) as [Hrr' Hq].
  destruct (new_stack_words a func ret self) as (S0 & S1 & S2 & S3).
  split; [by apply (world_ok_ist 0xff 0xff)|]. rewrite Hs2.
  split; [exact Hrr'|]. split; [exact Hq|].
  split; [eapply keeps_registers_trans; [exact Hri|]; eapply keeps_registers_trans; [exact Hr1|];
    eapply keeps_registers_trans; [exact Hr2|exact Hr3]|].
  split; [exact Hon|]. split; [exact Hnone|]. split.
  - intros j Hj. simpl. by rewrite Hprocs, lookup_insert_ne.
  - exists a, self. eexists _, _. cbn [set_ist w_stacks]. rewrite Hst2, Hst. split; [done|]. simpl.
    rewrite Hprocs, lookup_insert_eq. split; [reflexivity|]. split; [done|]. split; [reflexivity|]. split; [exact Hcr3|].
    cbn [ctx new_process c_rsp]. by split_and!.
Qed.

End Create.
End Stacks.

(** ** The kernel after initialisation *)

#[local] Existing Instance bump_heap.
#[local] Existing Instance bump_heap_ok.
#[local] Existing Instance demo_hw.

(** An empty heap over the pages of [memory::init], and the new scheduler. *)
Definition fresh_world : world :=
  mkWorld [] (heap_allocator_init HEAP_START HEAP_SIZE (mkHeap heap_new (mkIst (mkKernel sched_new (regs 7)) []))) ∅.

Lemma fresh_world_ok : world_ok bump_ok 0 0 fresh_world.
Proof.
  split; split.
  - split; [by apply (heap_init_ok (heap_ok := bump_ok))|]. split; [constructor|]. split; [constructor|].
    exact demo_mask_law.
  - intros id a. cbn. by rewrite lookup_empty.
  - intros id1 id2 a. cbn. by rewrite lookup_empty.
  - apply sched_new_inv.
  - intros id p x st. cbn. rewrite lookup_insert. case_decide; [by intros [= <-]|]. by rewrite lookup_empty.
  - intros id. cbn. rewrite lookup_empty. by intros [? ?].
Qed.

(** Two processes are created, the second ends, a third is created. *)
Definition demo_ops : list kernel_op :=
  [Spawn 0x4000 "a" 0x5000 [mkLayout 160 8]; MakeReady 1; Spawn 0x4100 "b" 0x5000 []; MakeReady 2; Resched;
   Compute (regs 9); Allocate (mkLayout 64 8); Resched; Kill 2; Spawn 0x4200 "c" 0x5000 []].

Lemma demo_ops_run : ok_bool (ofold act demo_ops fresh_world) = true.
Proof. vm_compute. reflexivity. Qed.

Lemma stacks_correct_witness :
  exists sa s w', setup_heap boot_state = Ok (sa, s) /\ ofold act demo_ops fresh_world = Ok w' /\
    forall id a, w_stacks w' !! id = Some a -> is_ok (store64 (pm s) (active s) (a - a mod 8 + 8) 1).
Proof.
  pose proof demo_heap_ok as Hok. destruct (setup_heap boot_state) as [[sa s]|e] eqn:E; [|discriminate Hok].
  destruct (setup_heap_spec boot_state 0x180 boot_own sa s boot_state_inv E) as (_ & Ha & _ & Hp & _).
  assert (Hpages : Forall (fun p => exists f, walk (pm s) (active s) p = Some (f, full_access)) heap_pages).
  { rewrite Ha, boot_active. eapply Forall_impl; [exact Hp|]. intros p [_ Hf]. exact Hf. }
  assert (Hw : in_width 8 0) by (unfold in_width; lia).
  assert (Hops : Forall act_ok demo_ops) by (repeat constructor).
  pose proof (stacks_correct bump_ok 0 0 Hw Hw s demo_ops fresh_world Hpages Hops fresh_world_ok) as H.
  pose proof demo_ops_run as Hrun. destruct (ofold act demo_ops fresh_world) as [w'|e]; [|discriminate Hrun].
  exists sa, s, w'. split; [reflexivity|]. split; [reflexivity|]. destruct H as (_ & _ & _ & Hst).
  intros id a Hid.
  assert (Hr : a <= a - a mod 8 + 8 /\ a - a mod 8 + 8 + 8 <= a + 8 * INITIAL_STACK /\ (a - a mod 8 + 8) mod 8 = 0)
    by (clear; unfold INITIAL_STACK; Z.div_mod_to_equations; lia).
  destruct Hr as (H1 & H2 & H3). exact (Hst id a (a - a mod 8 + 8) 1 Hid H1 H2 H3).
Defined.

Lemma fresh_rr : rr (sch (w_kernel fresh_world)).
Proof.
  split; simpl; [apply NoDup_singleton| |by intros id Hin%elem_of_nil].
  eexists. split; [reflexivity|reflexivity].
Qed.

(** The first process of a new kernel, with a node of the table and a larger buffer
    for the ready list. *)
Definition demo_create : outcome (Z * world) :=
  syscall_create 0x4000 "init" 0x5000 [mkLayout 160 8] (Some (mkGrowth (mkLayout 128 8) 0 (mkLayout 64 8))) fresh_world.

Lemma create_correct_witness :
  exists w', demo_create = Ok (1, w') /\ queue (sch (w_kernel w')) = [0; 1] /\ interrupts_on (h_ist (w_heap w')) = true.
Proof.
  assert (Hok : match demo_create with Ok (id, _) => id =? 1 | Err _ => false end = true) by (vm_compute; reflexivity).
  assert (Hw : in_width 8 0) by (unfold in_width; lia).
  assert (Ht : Forall (fun l => 0 < l_size l) [mkLayout 160 8]) by (repeat constructor).
  assert (Hg : forall g, Some (mkGrowth (mkLayout 128 8) 0 (mkLayout 64 8)) = Some g -> 0 < l_size (g_new g))
    by (intros g [= <-]; reflexivity).
  pose proof (create_correct bump_ok 0 0 Hw Hw 0x4000 "init" 0x5000 _ _ fresh_world Ht Hg fresh_world_ok fresh_rr) as H.
  fold demo_create in H. destruct demo_create as [[id w']|e]; [|discriminate Hok].
  apply Z.eqb_eq in Hok as ->. exists w'. split; [reflexivity|]. destruct H as (_ & _ & Hq & _ & Hon & _).
  split; [exact Hq|exact Hon].
Defined.
