(* ===== verification/Locks.v ===== *)
(** * Spin locks, interrupts and context switches on one processor

    The kernel protects its statics with [spin::Mutex] and [spin::RwLock].  The
    other files run one operation at a time; here an operation is the sequence
    of its effects on locks and on the interrupt flag, and such sequences
    interleave: an interrupt suspends the code it hits, a context switch parks
    the whole stack of a process.  The sections below have the machine, a
    discipline on sequences that a function can check, and what the discipline
    guarantees for every interleaving.  [LockUse] has the sequences of the
    kernel's functions. *)

From S2P Require Import Prelude.

(** ** Locks and actions *)

(** The statics behind a lock, the allocator inside the heap, the two locks of
    the scheduler and the lock of each process. *)
Inductive lock :=
  | LCom1 | LPics | LPit | LPs2 | LPci | LDevices | LKeyState | LApicManager | LScreen | LTtys | LVga
  | LAllocator | LHeap | LTaskTable | LReadyList | LProcess (id : Z).

(** [lock()] of a mutex and [write()] are exclusive, [read()] is shared. *)
Inductive mode := Shared | Exclusive.

Inductive action :=
  | Acquire (m : mode) (l : lock)   (* spins until the lock is free *)
  | Release (m : mode) (l : lock)   (* the guard is dropped *)
  | Cli | Sti
  | SwitchTo (id : Z)               (* [Context::switch_to] *)
  | Spin.                           (* [loop {}] *)

#[global] Instance lock_eq_dec : EqDecision lock.
Proof. solve_decision. Defined.
#[global] Instance mode_eq_dec : EqDecision mode.
Proof. solve_decision. Defined.
#[global] Instance action_eq_dec : EqDecision action.
Proof. solve_decision. Defined.

Abbreviation guard := (mode * lock)%type.

(** Two guards that cannot exist together. *)
Definition conflict (a b : guard) : bool :=
  bool_decide (snd a = snd b) && negb (bool_decide (fst a = Shared) && bool_decide (fst b = Shared)).

(** A guard that lives as long as [body] runs. *)
Definition locked (m : mode) (l : lock) (body : list action) : list action :=
  Acquire m l :: body ++ [Release m l].

Fixpoint drop_guard (g : guard) (h : list guard) : list guard :=
  match h with
  | [] => []
  | x :: h => if decide (x = g) then h else x :: drop_guard g h
  end.

(** ** The machine *)

(** A function under way: what it has still to do and the guards it holds. *)
Record frame := mkFrame { todo : list action; held : list guard }.

Definition entry (t : list action) : frame := mkFrame t [].

Section Machine.
(** The interrupts, the code of their handlers, and what the interrupt
    controller delivers given the interrupts delivered so far: no action of the
    kernel's code reaches the controller ([Apic]), and [deliver] is any function. *)
Context {I : Type} (handler : I -> list action) (deliver : list I -> I -> bool).

(** The running process has a stack of frames, the newest first: its own code
    at the bottom, above it the handlers that interrupted it.  The others are
    parked with their stack and the interrupt flag of their saved [rflags]. *)
Record config := mkConfig {
  running : Z;
  frames : list frame;
  iflag : bool;
  delivered : list I;
  suspended : gmap Z (list frame * bool) }.

Definition guards_of (fs : list frame) : list guard := concat (held <$> fs).

Lemma guards_cons f fs : guards_of (f :: fs) = held f ++ guards_of fs.
Proof. done. Qed.

Definition all_guards (c : config) : list guard :=
  guards_of (frames c) ++ concat ((fun x => guards_of (fst (snd x))) <$> map_to_list (suspended c)).

Definition free (g : guard) (c : config) : bool := forallb (fun x => negb (conflict g x)) (all_guards c).

Inductive step : config -> config -> Prop :=
  | StAcquire r m l t h fs b s p :
      free (m, l) (mkConfig r (mkFrame (Acquire m l :: t) h :: fs) b s p) = true ->
      step (mkConfig r (mkFrame (Acquire m l :: t) h :: fs) b s p)
           (mkConfig r (mkFrame t ((m, l) :: h) :: fs) b s p)
  | StRelease r m l t h fs b s p :
      (m, l) ∈ h ->
      step (mkConfig r (mkFrame (Release m l :: t) h :: fs) b s p)
           (mkConfig r (mkFrame t (drop_guard (m, l) h) :: fs) b s p)
  | StCli r t h fs b s p :
      step (mkConfig r (mkFrame (Cli :: t) h :: fs) b s p) (mkConfig r (mkFrame t h :: fs) false s p)
  | StSti r t h fs b s p :
      step (mkConfig r (mkFrame (Sti :: t) h :: fs) b s p) (mkConfig r (mkFrame t h :: fs) true s p)
  | StSpin r t h fs b s p :
      step (mkConfig r (mkFrame (Spin :: t) h :: fs) b s p) (mkConfig r (mkFrame (Spin :: t) h :: fs) b s p)
  | StSwitch r id t h fs b s p fs' b' :
      p !! id = Some (fs', b') ->
      step (mkConfig r (mkFrame (SwitchTo id :: t) h :: fs) b s p)
           (mkConfig id fs' b' s (<[r := (mkFrame t h :: fs, b)]> (delete id p)))
  | StIret r h f fs b s p :
      step (mkConfig r (mkFrame [] h :: f :: fs) b s p) (mkConfig r (f :: fs) true s p)
  | StInterrupt r fs s p i :
      fs <> [] -> deliver s i = true ->
      step (mkConfig r fs true s p) (mkConfig r (entry (handler i) :: fs) false (i :: s) p).

Definition steps : config -> config -> Prop := rtc step.

(** The code at the top of the stack makes one step; nothing else happens. *)
Definition run1 (c : config) : option config :=
  let '(mkConfig r st b s p) := c in
  match st with
  | [] => None
  | mkFrame t h :: fs =>
      match t with
      | [] => match fs with [] => None | _ => Some (mkConfig r fs true s p) end
      | Acquire m l :: t => if free (m, l) c then Some (mkConfig r (mkFrame t ((m, l) :: h) :: fs) b s p) else None
      | Release m l :: t =>
          if decide ((m, l) ∈ h) then Some (mkConfig r (mkFrame t (drop_guard (m, l) h) :: fs) b s p) else None
      | Cli :: t => Some (mkConfig r (mkFrame t h :: fs) false s p)
      | Sti :: t => Some (mkConfig r (mkFrame t h :: fs) true s p)
      | Spin :: _ => Some c
      | SwitchTo id :: t =>
          match p !! id with
          | Some (fs', b') => Some (mkConfig id fs' b' s (<[r := (mkFrame t h :: fs, b)]> (delete id p)))
          | None => None
          end
      end
  end.

Definition irq1 (i : I) (c : config) : option config :=
  if iflag c && negb (bool_decide (frames c = [])) && deliver (delivered c) i then
    Some (mkConfig (running c) (entry (handler i) :: frames c) false (i :: delivered c) (suspended c))
  else None.

Lemma run1_step c c' : run1 c = Some c' -> step c c'.
Proof.
  destruct c as [r st b s p]. simpl. destruct st as [|[[|a t] h] fs]; [done|..].
  { destruct fs; [done|]. intros [= <-]. constructor. }
  destruct a; repeat case_match; intros; simplify_eq; by econstructor.
Qed.

Lemma irq1_step i c c' : irq1 i c = Some c' -> step c c'.
Proof.
  unfold irq1. destruct c as [r st [] s p]; simpl; [|done]. case_bool_decide; [done|]. simpl.
  case_match; [|done]. intros [= <-]. by constructor.
Qed.

(** A step is one of the two. *)
Lemma step_cases c c' : step c c' -> run1 c = Some c' \/ exists i, irq1 i c = Some c'.
Proof.
  destruct 1 as [? ? ? ? ? ? ? ? ? Hf| | | | | | |r fs s p i Hne Hd].
  { left. cbn [run1]. by rewrite Hf. }
  1-6: left; cbn [run1]; simplify_option_eq; try reflexivity.
  right. exists i. unfold irq1. simpl. by rewrite bool_decide_false, Hd.
Qed.

(** A schedule: [None] lets the code at the top run, [Some i] delivers [i]. *)
Fixpoint schedule (l : list (option I)) (c : config) : option config :=
  match l with
  | [] => Some c
  | None :: l => c ← run1 c; schedule l c
  | Some i :: l => c ← irq1 i c; schedule l c
  end.

Lemma schedule_steps l c c' : schedule l c = Some c' -> steps c c'.
Proof.
  revert c. induction l as [|[i|] l IH]; intros c; simpl.
  - intros [= ->]. apply rtc_refl.
  - intros (c1 & H1 & H2)%bind_Some. eapply rtc_l; [by eapply irq1_step|by apply IH].
  - intros (c1 & H1 & H2)%bind_Some. eapply rtc_l; [by apply run1_step|by apply IH].
Qed.

(** The top of the stack spins on a lock that is taken. *)
Definition waits (c : config) : option guard :=
  match frames c with
  | mkFrame (Acquire m l :: _) _ :: _ => if free (m, l) c then None else Some (m, l)
  | _ => None
  end.

(** Nobody will ever release the lock: interrupts are off as well. *)
Definition deadlock (c : config) : Prop := is_Some (waits c) /\ iflag c = false.

#[global] Instance deadlock_dec c : Decision (deadlock c).
Proof. unfold deadlock. apply _. Defined.

Lemma deadlock_stuck c : deadlock c -> forall c', ~ step c c'.
Proof.
  intros [[g Hw] Hif] c' [Hr|[i Hi]]%step_cases.
  - destruct c as [r [|[[|[] t] h] fs] b s p]; try done. unfold waits in Hw. cbn [frames] in Hw. cbn [run1] in Hr.
    destruct (free _ _); discriminate.
  - unfold irq1 in Hi. by rewrite Hif in Hi.
Qed.

(** ** Code on its own

    [solo h t]: the guards after [t], started with the guards [h], when no interrupt
    comes; [None] if [t] waits for a lock it holds itself.  Code after a [Spin] is
    not reached. *)
Fixpoint solo (h : list guard) (t : list action) : option (list guard) :=
  match t with
  | [] => Some h
  | Acquire m l :: t => if forallb (fun x => negb (conflict (m, l) x)) h then solo ((m, l) :: h) t else None
  | Release m l :: t => if decide ((m, l) ∈ h) then solo (drop_guard (m, l) h) t else None
  | Spin :: _ => Some h
  | (Cli | Sti | SwitchTo _) :: t => solo h t
  end.

(** The code goes on after [t] as if nothing had happened, or spins in it. *)
Definition alone_ok (h : list guard) (t : list action) : Prop :=
  forall rest, is_Some (solo h rest) -> is_Some (solo h (t ++ rest)).

Lemma alone_solo t : alone_ok [] t -> is_Some (solo [] t).
Proof. intros Ha. specialize (Ha [] ltac:(by eexists)). by rewrite app_nil_r in Ha. Qed.

Lemma alone_nil h : alone_ok h [].
Proof. by intros rest. Qed.

Lemma alone_app h a b : alone_ok h a -> alone_ok h b -> alone_ok h (a ++ b).
Proof. intros Ha Hb rest Hr. rewrite <-app_assoc. by apply Ha, Hb. Qed.

Lemma alone_concat h ls : Forall (alone_ok h) ls -> alone_ok h (concat ls).
Proof. induction 1; [apply alone_nil|by apply alone_app]. Qed.

Lemma alone_locked h m l body :
  forallb (fun x => negb (conflict (m, l) x)) h = true -> alone_ok ((m, l) :: h) body ->
  alone_ok h (locked m l body).
Proof.
  intros Hf Hb rest Hr. unfold locked. cbn [app solo]. rewrite Hf, <-app_assoc. apply Hb.
  cbn [app solo drop_guard]. rewrite !decide_True by (done || by left). done.
Qed.

Lemma alone_acquire_spin h m l t :
  forallb (fun x => negb (conflict (m, l) x)) h = true -> (forall rest, is_Some (solo ((m, l) :: h) (t ++ rest))) ->
  alone_ok h (Acquire m l :: t).
Proof. intros Hf Ht rest _. cbn [app solo]. rewrite Hf. apply Ht. Qed.

Lemma alone_cons h a t :
  match a with Cli | Sti | SwitchTo _ => True | _ => False end -> alone_ok h t -> alone_ok h (a :: t).
Proof. intros Ha Ht rest Hr. destruct a; try done; by apply Ht. Qed.

Lemma alone_spin h t : alone_ok h (Spin :: t).
Proof. intros rest _. by eexists. Qed.

(** Run without interrupts and without other processes such code never waits. *)
Definition self_free (t : list action) : Prop :=
  forall r b s c, rtc (fun c c' => run1 c = Some c') (mkConfig r [entry t] b s ∅) c -> waits c = None.

Lemma free_alone g r t h b s :
  free g (mkConfig r [mkFrame t h] b s ∅) = forallb (fun x => negb (conflict g x)) h.
Proof.
  unfold free, all_guards. cbn [frames suspended]. rewrite guards_cons, map_to_list_empty. cbn [held].
  unfold guards_of. cbn [fmap list_fmap concat]. by rewrite !app_nil_r.
Qed.

Lemma solo_self_free t : is_Some (solo [] t) -> self_free t.
Proof.
  unfold self_free, entry. generalize (@nil guard) as h. intros h Hs r b s c Hst.
  remember (mkConfig r [mkFrame t h] b s ∅) as c0 eqn:E. revert h t b s E Hs.
  induction Hst as [c|c0 c1 c2 H1 _ IH]; intros h t b s -> Hs.
  - destruct t as [|[] t]; try done. unfold waits. cbn [frames]. rewrite free_alone. cbn [solo] in Hs.
    destruct (forallb _ h); [done|by destruct Hs].
  - cbn [run1] in H1. destruct t as [|a t]; [done|]. destruct a; cbn [solo] in Hs; try rewrite free_alone in H1.
    + destruct (forallb _ h); [|done]. injection H1 as <-. by eapply IH.
    + destruct (decide _); [|done]. injection H1 as <-. by eapply IH.
    + injection H1 as <-. by eapply IH.
    + injection H1 as <-. by eapply IH.
    + by rewrite lookup_empty in H1.
    + injection H1 as <-. by eapply IH.
Qed.

(** Code without [sti]: started with interrupts off no interrupt comes. *)
Definition never_enables (t : list action) : bool :=
  forallb (fun a => match a with Sti => false | _ => true end) t.

Lemma quiet_steps t r s c :
  is_Some (solo [] t) -> never_enables t = true -> steps (mkConfig r [entry t] false s ∅) c ->
  iflag c = false /\ waits c = None.
Proof.
  unfold entry. generalize (@nil guard) as h. intros h Hs Hn Hst.
  remember (mkConfig r [mkFrame t h] false s ∅) as c0 eqn:E. revert h t s E Hs Hn.
  induction Hst as [c|c0 c1 c2 H1 _ IH]; intros h t s -> Hs Hn.
  - split; [done|]. destruct t as [|[] t]; try done. unfold waits. cbn [frames]. rewrite free_alone.
    cbn [solo] in Hs. destruct (forallb _ h); [done|by destruct Hs].
  - apply step_cases in H1 as [H1|[i H1]]; [|done]. cbn [run1] in H1. destruct t as [|a t]; [done|].
    cbn [never_enables forallb] in Hn. apply andb_true_iff in Hn as [Ha Hn].
    destruct a; cbn [solo] in Hs; try rewrite free_alone in H1; try done.
    + destruct (forallb _ h); [|done]. injection H1 as <-. by eapply IH.
    + destruct (decide _); [|done]. injection H1 as <-. by eapply IH.
    + injection H1 as <-. by eapply IH.
    + injection H1 as <-. eapply IH; [done..|]. cbn [never_enables forallb]. by rewrite Hn.
Qed.

(** ** Exceptions

    The processor raises an exception in the code at the top, whatever the
    interrupt flag says; the gate turns interrupts off for the handler [t]. *)
Definition raise (t : list action) (c : config) : config :=
  mkConfig (running c) (entry t :: frames c) false (delivered c) (suspended c).

Definition runs : config -> config -> Prop := rtc (fun c c' => run1 c = Some c').

Lemma runs_steps c c' : runs c c' -> steps c c'.
Proof. apply rtc_subrel. intros x y. apply run1_step. Qed.

(** ** Dry runs

    [dry g h b t]: the guards and the interrupt flag after [t], when no interrupt
    comes, nothing else runs, and other code holds the guards [g]; [None] when [t]
    waits, switches or spins on the way. *)
Fixpoint dry (g h : list guard) (b : bool) (t : list action) : option (list guard * bool) :=
  match t with
  | [] => Some (h, b)
  | Acquire m l :: t => if forallb (fun x => negb (conflict (m, l) x)) (h ++ g) then dry g ((m, l) :: h) b t else None
  | Release m l :: t => if decide ((m, l) ∈ h) then dry g (drop_guard (m, l) h) b t else None
  | Cli :: t => dry g h false t
  | Sti :: t => dry g h true t
  | (SwitchTo _ | Spin) :: _ => None
  end.

(** The guards of the other code: the frames below and the processes parked. *)
Definition foreign (fs : list frame) (p : gmap Z (list frame * bool)) : list guard :=
  guards_of fs ++ concat ((fun x => guards_of (fst (snd x))) <$> map_to_list p).

Lemma free_foreign g r t h fs b s p :
  free g (mkConfig r (mkFrame t h :: fs) b s p) = forallb (fun x => negb (conflict g x)) (h ++ foreign fs p).
Proof. unfold free, all_guards, foreign. cbn [frames suspended]. by rewrite guards_cons, app_assoc. Qed.

Lemma foreign_none : foreign [] ∅ = [].
Proof. unfold foreign. by rewrite map_to_list_empty. Qed.

Lemma dry_runs pre rest r h h' fs b b' s p :
  dry (foreign fs p) h b pre = Some (h', b') ->
  runs (mkConfig r (mkFrame (pre ++ rest) h :: fs) b s p) (mkConfig r (mkFrame rest h' :: fs) b' s p).
Proof.
  revert h b. induction pre as [|a pre IH]; intros h b Hd; [injection Hd as <- <-; apply rtc_refl|].
  destruct a; cbn [dry] in Hd; try done; cbn [app].
  - destruct (forallb _ _) eqn:Hf; [|done]. eapply rtc_l; [|by apply IH]. cbn [run1]. by rewrite free_foreign, Hf.
  - destruct (decide _) as [Hin|]; [|done]. eapply rtc_l; [|by apply IH]. cbn [run1]. by rewrite decide_True.
  - eapply rtc_l; [reflexivity|by apply IH].
  - eapply rtc_l; [reflexivity|by apply IH].
Qed.

Lemma dry_app g h b pre rest h' b' : dry g h b pre = Some (h', b') -> dry g h b (pre ++ rest) = dry g h' b' rest.
Proof.
  revert h b. induction pre as [|a pre IH]; intros h b Hd; [by injection Hd as <- <-|].
  destruct a; cbn [dry app] in *; try done; try case_match; by try apply IH.
Qed.

(** No [Spin] and no switch. *)
Definition goes_on (t : list action) : bool :=
  forallb (fun a => match a with SwitchTo _ | Spin => false | _ => true end) t.

(** The interrupt flag after code that turns it off and on. *)
Definition flag_after (b : bool) (t : list action) : bool :=
  foldl (fun b a => match a with Cli => false | Sti => true | _ => b end) b t.

Lemma goes_on_app a b : goes_on (a ++ b) = goes_on a && goes_on b.
Proof. apply forallb_app. Qed.

(** Code that never waits for itself gets to any point before which it does not stop. *)
Lemma solo_dry h pre rest b :
  is_Some (solo h (pre ++ rest)) -> goes_on pre = true ->
  exists h', dry [] h b pre = Some (h', flag_after b pre) /\ is_Some (solo h' rest).
Proof.
  revert h b. induction pre as [|a pre IH]; intros h b Hs Hg; [by exists h|].
  cbn [goes_on forallb] in Hg. apply andb_true_iff in Hg as [Ha Hg]. cbn [app] in Hs.
  destruct a; try done; cbn [solo dry flag_after foldl] in *; try (by apply IH).
  - rewrite app_nil_r. destruct (forallb _ _); [by apply IH|by destruct Hs].
  - destruct (decide _); [by apply IH|by destruct Hs].
Qed.

(** Taking a lock and giving it back, in code above other frames. *)
Lemma runs_locked l t fs r b s p :
  let c := mkConfig r (mkFrame (locked Exclusive l [] ++ t) [] :: fs) b s p in
  free (Exclusive, l) c = true -> runs c (mkConfig r (mkFrame t [] :: fs) b s p).
Proof.
  intros c Hf. unfold c, locked in *. cbn [app] in *. eapply rtc_l; [cbn [run1]; rewrite Hf; reflexivity|].
  eapply rtc_once. cbn [run1]. rewrite decide_True by by left. cbn [drop_guard]. by rewrite decide_True.
Qed.

Lemma runs_cli t fs r b s p :
  runs (mkConfig r (mkFrame (Cli :: t) [] :: fs) b s p) (mkConfig r (mkFrame t [] :: fs) false s p).
Proof. by apply rtc_once. Qed.

Lemma locked_deadlock l t fs r s p :
  let c := mkConfig r (mkFrame (locked Exclusive l [] ++ t) [] :: fs) false s p in
  free (Exclusive, l) c = false -> deadlock c.
Proof. intros c Hf. split; [|done]. unfold waits, c, locked in *. cbn [frames app]. cbn [app] in Hf. rewrite Hf. by eexists. Qed.

(** ** The discipline

    [common] are the locks interrupt handlers use.  They are taken with
    interrupts off, never together with a conflicting guard of the same code,
    and all are free again when interrupts come on and at a context switch. *)
Section Discipline.
Context (common : lock -> bool).

Definition private (h : list guard) : bool := forallb (fun g => negb (common (snd g))) h.

Fixpoint disciplined (on : bool) (h : list guard) (t : list action) : bool :=
  match t with
  | [] => bool_decide (h = [])
  | Acquire m l :: t =>
      (if common l then negb on && forallb (fun x => negb (conflict (m, l) x)) h else true) &&
      disciplined on ((m, l) :: h) t
  | Release m l :: t => bool_decide ((m, l) ∈ h) && disciplined on (drop_guard (m, l) h) t
  | Cli :: t => disciplined false h t
  | Sti :: t => private h && disciplined true h t
  | SwitchTo _ :: t => private h && disciplined on h t
  | Spin :: _ => true
  end.

(** Code that uses no other lock, as handlers must. *)
Definition only_common (t : list action) : bool :=
  forallb (fun a => match a with Acquire _ l => common l | _ => true end) t.

Definition frame_ok (on : bool) (f : frame) : Prop :=
  disciplined on (held f) (todo f) = true /\ (on = true -> private (held f) = true).

(** A suspended frame goes on with interrupts on; only the bottom of a stack
    may use locks that are not [common]. *)
Fixpoint below_ok (fs : list frame) : Prop :=
  match fs with
  | [] => True
  | f :: fs => frame_ok true f /\ (fs <> [] -> only_common (todo f) = true) /\ below_ok fs
  end.

Definition stack_ok (on : bool) (fs : list frame) : Prop :=
  match fs with
  | [] => False
  | f :: fs => frame_ok on f /\ (fs <> [] -> only_common (todo f) = true) /\ below_ok fs
  end.

Record safe (c : config) : Prop := {
  safe_stack : stack_ok (iflag c) (frames c);
  safe_parked : forall id fs b, suspended c !! id = Some (fs, b) ->
    stack_ok b fs /\ private (guards_of fs) = true }.

(** *** The discipline is kept *)

Lemma private_app h1 h2 : private (h1 ++ h2) = private h1 && private h2.
Proof. apply forallb_app. Qed.

Lemma private_cons g h : private (g :: h) = negb (common (snd g)) && private h.
Proof. done. Qed.

Lemma private_drop g h : private h = true -> private (drop_guard g h) = true.
Proof.
  induction h as [|x h IH]; [done|]. rewrite private_cons, andb_true_iff. intros [Hx Hh]. simpl.
  destruct (decide _); [done|]. rewrite private_cons, Hx. by apply IH.
Qed.

Lemma below_private fs : below_ok fs -> private (guards_of fs) = true.
Proof.
  induction fs as [|f fs IH]; [done|]. intros ([_ Hp] & _ & Hfs).
  rewrite guards_cons, private_app, Hp by done. by apply IH.
Qed.

Lemma private_conflict l m h :
  common l = true -> private h = true -> forallb (fun x => negb (conflict (m, l) x)) h = true.
Proof.
  intros Hl. unfold private. rewrite !forallb_forall. intros Hp x Hx. specialize (Hp x Hx).
  unfold conflict. simpl. case_bool_decide as E; [|done]. rewrite <-E, Hl in Hp. done.
Qed.

Lemma private_concat {A} (f : A -> list guard) (l : list A) :
  (forall x, x ∈ l -> private (f x) = true) -> private (concat (f <$> l)) = true.
Proof.
  induction l as [|x l IH]; intros Hl; [done|]. simpl. rewrite private_app, (Hl x) by (by left).
  apply IH. intros y Hy. apply Hl. by right.
Qed.

Lemma parked_private c :
  safe c -> private (concat ((fun x => guards_of (fst (snd x))) <$> map_to_list (suspended c))) = true.
Proof.
  intros [_ Hp]. apply private_concat. intros [id [fs b]] Hx%elem_of_map_to_list. simpl.
  by apply (Hp id fs b).
Qed.

(** A lock of [common] is free whenever disciplined code wants it. *)
Lemma safe_free c m l t h fs :
  safe c -> frames c = mkFrame (Acquire m l :: t) h :: fs -> common l = true -> free (m, l) c = true.
Proof.
  intros Hs Hst Hl. pose proof (parked_private c Hs) as Hp. destruct Hs as [Hs _]. rewrite Hst in Hs.
  destruct Hs as ([Hd _] & _ & Hb). simpl in Hd. rewrite Hl, !andb_true_iff in Hd.
  destruct Hd as [[_ Hh] _]. unfold free, all_guards. rewrite Hst, guards_cons. cbn [held].
  rewrite !forallb_app, Hh. cbn [andb].
  rewrite (private_conflict l m _ Hl (below_private fs Hb)).
  by rewrite (private_conflict l m _ Hl Hp).
Qed.

Lemma stack_set_top on f f' fs :
  stack_ok on (f :: fs) -> (only_common (todo f) = true -> only_common (todo f') = true) ->
  forall on', frame_ok on' f' -> stack_ok on' (f' :: fs).
Proof. intros (_ & Hc & Hb) Himp on' Hf. split; [done|]. split; auto. Qed.

Lemma stack_top_ok on t h fs : stack_ok on (mkFrame t h :: fs) -> disciplined on h t = true /\ (on = true -> private h = true).
Proof. by intros [Hf _]. Qed.

Lemma safe_run1 c c' : safe c -> run1 c = Some c' -> safe c'.
Proof.
  intros [Hs Hp] Hrun. destruct c as [r st b s p]. simpl in Hs, Hp. destruct st as [|[t h] fs]; [done|].
  destruct (stack_top_ok _ _ _ _ Hs) as [Hd Hpr]. cbn [run1] in Hrun.
  destruct t as [|a t].
  { destruct fs as [|f fs]; [done|]. injection Hrun as <-. split; [|done]. by destruct Hs as (_ & _ & Hb). }
  assert (Hcut : only_common (a :: t) = true -> only_common t = true) by (simpl; by intros [_ ?]%andb_true_iff).
  destruct a; cbn [disciplined] in Hd; rewrite ?andb_true_iff in Hd.
  - destruct (free _ _); [|done]. injection Hrun as <-. split; [|done].
    eapply stack_set_top; [exact Hs|exact Hcut|]. destruct Hd as [Hd1 Hd]. split; [done|]. cbn [held iflag]. intros ->.
    rewrite private_cons. cbn [snd]. destruct (common l); [done|]. by apply Hpr.
  - destruct (decide _); [|done]. injection Hrun as <-. split; [|done].
    eapply stack_set_top; [exact Hs|exact Hcut|]. destruct Hd as [_ Hd]. split; [done|]. cbn [held iflag]. intros ->.
    by apply private_drop, Hpr.
  - injection Hrun as <-. split; [|done]. eapply stack_set_top; [exact Hs|exact Hcut|]. by split.
  - injection Hrun as <-. split; [|done]. eapply stack_set_top; [exact Hs|exact Hcut|].
    destruct Hd as [Hd1 Hd]. by split.
  - destruct (p !! id) as [[fs' b']|] eqn:Hid; [|done]. injection Hrun as <-. destruct Hd as [Hd1 Hd].
    split; simpl; [by apply (Hp id fs' b')|]. intros id2 fs2 b2. rewrite lookup_insert. case_decide.
    + intros [= <- <-]. split; [eapply stack_set_top; [exact Hs|exact Hcut|by split]|].
      simpl fst. rewrite guards_cons, private_app. simpl held. rewrite Hd1. apply below_private. by destruct Hs as (_ & _ & ?).
    + rewrite lookup_delete. case_decide; [done|]. apply Hp.
  - injection Hrun as <-. by split.
Qed.

Context (handlers_ok : forall s i, deliver s i = true ->
  disciplined false [] (handler i) = true /\ only_common (handler i) = true).

Lemma safe_irq1 i c c' : safe c -> irq1 i c = Some c' -> safe c'.
Proof.
  intros [Hs Hp] Hi. unfold irq1 in Hi. destruct c as [r st [] s p]; [|done]. simpl in *.
  case_bool_decide; [done|]. destruct (deliver s i) eqn:Hd; [|done]. injection Hi as <-.
  destruct (handlers_ok s i Hd) as [Hh Ho]. split; [|done].
  simpl. destruct st as [|f fs]; [done|]. split; [by split|]. split; [done|]. exact Hs.
Qed.

Lemma safe_steps c c' : safe c -> steps c c' -> safe c'.
Proof.
  intros Hs Hst. induction Hst as [|c1 c2 c3 H1 _ IH]; [done|]. apply IH.
  apply step_cases in H1 as [H1|[i H1]]; [by eapply safe_run1|by eapply safe_irq1].
Qed.

(** Handlers wait for nothing, and nothing else waits for a lock of [common]. *)
Lemma safe_waits c m l :
  safe c -> waits c = Some (m, l) -> common l = false /\ exists f, frames c = [f].
Proof.
  intros Hs Hw. unfold waits in Hw. destruct (frames c) as [|[[|[] t] h] fs] eqn:Hst; try done.
  destruct (free _ _) eqn:Hf; [done|]. injection Hw as -> ->.
  assert (Hl : common l = false).
  { apply not_true_is_false. intros Hl. rewrite (safe_free c m l t h fs) in Hf by done. done. }
  split; [done|]. destruct fs as [|f fs]; [by eexists|]. destruct Hs as [Hs _]. rewrite Hst in Hs.
  destruct Hs as (_ & Ho & _). specialize (Ho ltac:(done)). simpl in Ho. rewrite Hl in Ho. done.
Qed.

(** A handler that does not switch runs to its end and resumes the code it
    interrupted, with interrupts on. *)
Lemma handler_runs t h f fs r b s p :
  safe (mkConfig r (mkFrame t h :: f :: fs) b s p) -> goes_on t = true ->
  runs (mkConfig r (mkFrame t h :: f :: fs) b s p) (mkConfig r (f :: fs) true s p).
Proof.
  revert h b. induction t as [|a t IH]; intros h b Hs Hn.
  { by apply rtc_once. }
  cbn [goes_on forallb] in Hn. apply andb_true_iff in Hn as [Ha Hn].
  assert (Hgo : forall c, run1 (mkConfig r (mkFrame (a :: t) h :: f :: fs) b s p) = Some c ->
    (exists h' b', c = mkConfig r (mkFrame t h' :: f :: fs) b' s p) ->
    runs (mkConfig r (mkFrame (a :: t) h :: f :: fs) b s p) (mkConfig r (f :: fs) true s p)).
  { intros c Hc (h' & b' & ->). eapply rtc_l; [exact Hc|]. exact (IH h' b' (safe_run1 _ _ Hs Hc) Hn). }
  pose proof (safe_stack _ Hs) as ([Hd _] & Ho & _). simpl in Hd. specialize (Ho ltac:(done)). simpl in Ho.
  destruct a; try done; try (eapply Hgo; [reflexivity|by eauto]).
  - apply andb_true_iff in Ho as [Ho _]. eapply Hgo; [|by eauto]. cbn [run1].
    by rewrite (safe_free _ m l t h (f :: fs) Hs eq_refl Ho).
  - rewrite andb_true_iff, bool_decide_eq_true in Hd. destruct Hd as [Hd _]. eapply Hgo; [|by eauto].
    cbn [run1]. by rewrite decide_True.
Qed.

(** The frames above the code that was interrupted: what they have left to do. *)
Definition work (fs : list frame) : nat := sum_list ((fun f => S (length (todo f))) <$> fs).

Definition sum_handlers (l : list (option I)) : nat :=
  sum_list ((fun i => S (length (handler i))) <$> omap (fun o => o) l).
Definition own_steps (l : list (option I)) : nat := length (filter (fun o => o = None) l).

Lemma work_cons f fs : work (f :: fs) = (S (length (todo f)) + work fs)%nat.
Proof. reflexivity. Qed.

Lemma sum_handlers_irq i l : sum_handlers (Some i :: l) = (S (length (handler i)) + sum_handlers l)%nat.
Proof. reflexivity. Qed.

Lemma sum_handlers_own l : sum_handlers (None :: l) = sum_handlers l.
Proof. reflexivity. Qed.

(** The frame on top of others can make its next step. *)
Lemma top_moves r t h f fs b s p :
  safe (mkConfig r (mkFrame t h :: f :: fs) b s p) -> goes_on t = true ->
  exists h' b', run1 (mkConfig r (mkFrame t h :: f :: fs) b s p) =
    Some (mkConfig r (match t with [] => f :: fs | _ :: t => mkFrame t h' :: f :: fs end) b' s p).
Proof.
  intros Hs Hn. destruct t as [|a t]; [by exists h, true|].
  cbn [goes_on forallb] in Hn. apply andb_true_iff in Hn as [Ha Hn].
  pose proof (safe_stack _ Hs) as ([Hd _] & Ho & _). simpl in Hd. specialize (Ho ltac:(done)). simpl in Ho.
  destruct a; try done; cbn [run1]; try (by eexists _, _).
  - apply andb_true_iff in Ho as [Ho _]. rewrite (safe_free _ m l t h (f :: fs) Hs eq_refl Ho). by eexists _, _.
  - rewrite andb_true_iff, bool_decide_eq_true in Hd. destruct Hd as [Hd _]. rewrite decide_True by done. by eexists _, _.
Qed.

(** Under every schedule whose interrupts have handlers that neither switch nor
    spin, the frames [top] finish; until then they can always make a step. *)
Lemma schedule_returns f fs p l top r b s c' :
  top <> [] -> safe (mkConfig r (top ++ f :: fs) b s p) -> Forall (fun x => goes_on (todo x) = true) top ->
  Forall (fun i => goes_on (handler i) = true) (omap (fun o => o) l) ->
  schedule l (mkConfig r (top ++ f :: fs) b s p) = Some c' ->
  (exists l1 s', l1 `prefix_of` l /\ schedule l1 (mkConfig r (top ++ f :: fs) b s p) = Some (mkConfig r (f :: fs) true s' p)) \/
  ((own_steps l < work top + sum_handlers l)%nat /\ is_Some (run1 c')).
Proof.
  revert top b s. induction l as [|o l IH]; intros top b s Hne Hs Htop Hl Hrun.
  - right. destruct top as [|[t h] top]; [done|]. split; [rewrite work_cons; unfold own_steps; cbn [filter list_filter length]; lia|].
    injection Hrun as <-. apply Forall_cons in Htop as [Hn _]. cbn [app todo] in *.
    destruct top as [|x top]; cbn [app] in *; destruct (top_moves _ _ _ _ _ _ _ _ Hs Hn) as (h' & b' & ->); by eexists.
  - assert (Hext : forall top' b' s', top' <> [] -> Forall (fun x => goes_on (todo x) = true) top' ->
      (work top' + sum_handlers l + (if decide (o = None) then 1 else 0) <= work top + sum_handlers (o :: l))%nat ->
      Forall (fun i => goes_on (handler i) = true) (omap (fun o => o) l) ->
      (match o with None => run1 | Some i => irq1 i end) (mkConfig r (top ++ f :: fs) b s p) =
        Some (mkConfig r (top' ++ f :: fs) b' s' p) ->
      (exists l1 s2, l1 `prefix_of` o :: l /\ schedule l1 (mkConfig r (top ++ f :: fs) b s p) = Some (mkConfig r (f :: fs) true s2 p)) \/
      ((own_steps (o :: l) < work top + sum_handlers (o :: l))%nat /\ is_Some (run1 c'))).
    { intros top' b' s' Hne' Htop' Hw Hl' Hstep.
      assert (Hs' : safe (mkConfig r (top' ++ f :: fs) b' s' p)).
      { destruct o as [i|]; [by eapply safe_irq1|by eapply safe_run1]. }
      assert (Hrest : schedule l (mkConfig r (top' ++ f :: fs) b' s' p) = Some c').
      { destruct o as [i|]; cbn [schedule] in Hrun; rewrite Hstep in Hrun; exact Hrun. }
      destruct (IH top' b' s' Hne' Hs' Htop' Hl' Hrest) as [(l1 & s2 & Hp & H1)|[Hlt Hmove]].
      - left. exists (o :: l1), s2. split; [by apply prefix_cons|].
        destruct o as [i|]; cbn [schedule]; rewrite Hstep; exact H1.
      - right. split; [|exact Hmove]. unfold own_steps in *. rewrite filter_cons.
        destruct (decide (o = None)); cbn [length]; lia. }
    destruct o as [i|].
    + cbn [omap list_omap] in Hl. apply Forall_cons in Hl as [Hi Hl]. cbn [schedule] in Hrun.
      apply bind_Some in Hrun as (c1 & H1 & Hrun). pose proof H1 as Hirq. unfold irq1 in H1. cbn [iflag frames running delivered suspended] in H1.
      destruct (b && _ && _); [|done]. injection H1 as <-.
      apply (Hext (entry (handler i) :: top) false (i :: s)); [done|by constructor| |done|exact Hirq].
      rewrite work_cons, sum_handlers_irq. rewrite decide_False by done. cbn [todo entry]. lia.
    + destruct top as [|[t h] top]; [done|]. pose proof Htop as Htop0. apply Forall_cons in Htop as [Hn Htop]. cbn [todo] in Hn.
      cbn [omap list_omap] in Hl. destruct top as [|x top].
      * cbn [app] in *. destruct (top_moves _ _ _ _ _ _ _ _ Hs Hn) as (h' & b' & Hstep). destruct t as [|a t].
        -- left. exists [None], s. split; [apply prefix_cons, prefix_nil|]. cbn [schedule]. exact eq_refl.
        -- apply (Hext [mkFrame t h'] b' s); [done| | |done|exact Hstep].
           ++ constructor; [|constructor]. cbn [todo]. cbn [goes_on forallb] in Hn. by apply andb_true_iff in Hn as [_ ?].
           ++ rewrite ?work_cons, sum_handlers_own, decide_True by done. cbn [todo length]. lia.
      * cbn [app] in *. destruct (top_moves _ _ _ _ _ _ _ _ Hs Hn) as (h' & b' & Hstep). destruct t as [|a t].
        -- apply (Hext (x :: top) b' s); [done|done| |done|exact Hstep]. rewrite ?work_cons, sum_handlers_own, decide_True by done. cbn [todo length]. lia.
        -- apply (Hext (mkFrame t h' :: x :: top) b' s); [done| | |done|exact Hstep].
           ++ constructor; [|done]. cbn [todo]. cbn [goes_on forallb] in Hn. by apply andb_true_iff in Hn as [_ ?].
           ++ rewrite ?work_cons, sum_handlers_own, decide_True by done. cbn [todo length]. lia.
Qed.

(** *** Rules for code

    [uses on on' h t]: run with the guards [h] and the interrupt flag [on], the
    code [t] keeps the discipline and ends with the same guards and the flag
    [on']. *)
Definition uses (on on' : bool) (h : list guard) (t : list action) : Prop :=
  forall rest, disciplined on' h rest = true -> disciplined on h (t ++ rest) = true.

Lemma uses_disciplined on on' t : uses on on' [] t -> disciplined on [] t = true.
Proof. intros Hu. specialize (Hu [] eq_refl). by rewrite app_nil_r in Hu. Qed.

Lemma uses_nil on h : uses on on h [].
Proof. by intros rest. Qed.

Lemma uses_app on on1 on2 h a b : uses on on1 h a -> uses on1 on2 h b -> uses on on2 h (a ++ b).
Proof. intros Ha Hb rest Hr. rewrite <-app_assoc. by apply Ha, Hb. Qed.

(** What taking a lock needs. *)
Definition may_take (on : bool) (h : list guard) (g : guard) : Prop :=
  common (snd g) = true -> on = false /\ forallb (fun x => negb (conflict g x)) h = true.

Lemma uses_acquire on h m l rest :
  may_take on h (m, l) -> disciplined on ((m, l) :: h) rest = true ->
  disciplined on h (Acquire m l :: rest) = true.
Proof.
  intros Ht Hr. cbn [disciplined]. rewrite Hr, andb_true_r. destruct (common l) eqn:Hl; [|done].
  destruct (Ht Hl) as [-> Hc]. by rewrite Hc.
Qed.

Lemma uses_locked on on' h m l body :
  may_take on h (m, l) -> uses on on' ((m, l) :: h) body -> uses on on' h (locked m l body).
Proof.
  intros Ht Hb rest Hr. unfold locked. cbn [app]. apply uses_acquire; [done|].
  rewrite <-app_assoc. apply Hb. cbn [app disciplined drop_guard]. rewrite decide_True by done. rewrite Hr.
  rewrite bool_decide_true by (by left). done.
Qed.

Lemma uses_cli on on' h t : uses false on' h t -> uses on on' h (Cli :: t).
Proof. intros Ht rest Hr. by apply Ht. Qed.

Lemma uses_sti on h : private h = true -> uses on true h [Sti].
Proof. intros Hp rest Hr. cbn [app disciplined]. by rewrite Hp. Qed.

Lemma uses_switch on h id : private h = true -> uses on on h [SwitchTo id].
Proof. intros Hp rest Hr. cbn [app disciplined]. by rewrite Hp. Qed.

Lemma uses_spin on on' h : uses on on' h [Spin].
Proof. by intros rest. Qed.

End Discipline.

(** *** Code that breaks it

    An interrupt that finds a lock taken which its handler wants first. *)
Lemma interrupted_holder i m l t c :
  iflag c = true -> frames c <> [] -> deliver (delivered c) i = true ->
  handler i = Acquire m l :: t -> free (m, l) c = false ->
  exists c', step c c' /\ deadlock c'.
Proof.
  destruct c as [r fs b s p]. simpl. intros -> Hne Hd Hh Hf. eexists. split; [by apply StInterrupt|].
  unfold deadlock, waits. simpl. rewrite Hh. split; [|done].
  assert (Hf' : free (m, l) (mkConfig r (entry (Acquire m l :: t) :: fs) false (i :: s) p) = false) by done.
  rewrite Hf'. by eexists.
Qed.

Definition reaches_deadlock (c : config) : Prop :=
  exists c', steps c c' /\ deadlock c' /\ forall c'', ~ step c' c''.

Lemma schedule_deadlock l c :
  match schedule l c with Some c' => bool_decide (deadlock c') | None => false end = true -> reaches_deadlock c.
Proof.
  destruct (schedule l c) as [c'|] eqn:Hl; [|done]. intros Hd%bool_decide_eq_true. exists c'.
  split; [by eapply schedule_steps|]. split; [done|by apply deadlock_stuck].
Qed.
End Machine.

Arguments mkConfig {I} _ _ _ _ _.
Arguments config : clear implicits.
Arguments private _ !h.

Lemma conflict_ne m m' l l' : l <> l' -> conflict (m, l) (m', l') = false.
Proof. intros Hne. unfold conflict. simpl. by rewrite bool_decide_false. Qed.

Create HintDb locks.

#[export] Hint Resolve uses_nil uses_app uses_locked uses_cli uses_sti uses_switch uses_spin : locks.
