(* ===== verification/Idt.v ===== *)
(** * The interrupt descriptor table and the exception handlers

    [arch/x86_64/interrupts/exceptions.rs] and the table of
    [arch/x86_64/interrupts/mod.rs].  Every handler but that of the breakpoint
    prints and then runs [loop {}], which is run on fuel: that such a handler
    does not return is a theorem for every fuel. *)

From S2P Require Import Prelude Fmt Task Sched Ports Serial Apic Interrupts.

(** ** Exceptions *)

Inductive exception :=
  | DivideByZero | Debug | Nmi | Breakpoint | Overflow | BoundRange | InvalidOpcode | DeviceNotAvailable
  | DoubleFault | InvalidTss | SegNotPresent | StackSegFault | Gpf | PageFault | X87Fp | AlignmentCheck
  | MachineCheck | SimdFp.

#[global] Instance exception_eq_dec : EqDecision exception.
Proof. solve_decision. Defined.

(** The stack frame: its [{:#?}] and the [{:#x}] of its instruction pointer, both
    formatted by the [x86_64] crate, as are CR2 and the error code of a page fault. *)
Record ExceptionStackFrame := mkStackFrame { frame_text : list Z; ip_text : list Z }.
Record exn_args := mkExn { a_frame : ExceptionStackFrame; a_code : Z; a_cr2 : list Z; a_fault : list Z }.

(** [loop {}] *)
Fixpoint spin {T} (fuel : nat) (s : ist) : outcome (T * ist) :=
  match fuel with O => Err EFuel | S fuel => spin fuel s end.

Section Handlers.
Context `{Hardware}.

(** What runs in place of [loop {}]: [spin fuel] in the kernel, or anything else that
    shows with which state the loop is entered. *)
Definition endless := ist -> outcome (unit * ist).

(** [println!] in a handler: [pf] is the fuel of the loops that wait for the UART. *)
Definition print (pf : nat) (text : list Z) (s : ist) : outcome ist :=
  let? l := println pf text (i_log s) in Ok (mkIst (i_kernel s) l).

(** A closure that reports and does not return, in a critical section: the body of all
    handlers but one. *)
Definition report_and_spin (pf : nat) (loop_ : endless) (text : list Z) (s : ist) : outcome (unit * ist) :=
  let? s := print pf text s in loop_ s.

Definition stop (pf : nat) (loop_ : endless) (text : list Z) (s : ist) : outcome ist :=
  let? (_, s) := disable_interrupts_and_then (report_and_spin pf loop_ text) s in Ok s.

Definition divide_by_zero_handler (pf : nat) (loop_ : endless) (stack_frame : ExceptionStackFrame) (s : ist) : outcome ist :=
  stop pf loop_
    (nl ++ bytes_of "EXCEPTION: DIVIDE BY ZERO" ++ nl ++ frame_text stack_frame ++ nl) s.

Definition debug_handler (pf : nat) (loop_ : endless) (stack_frame : ExceptionStackFrame) (s : ist) : outcome ist :=
  stop pf loop_
    (nl ++ bytes_of "EXCEPTION: DEBUG" ++ nl ++ frame_text stack_frame ++ nl) s.

Definition nmi_handler (pf : nat) (loop_ : endless) (stack_frame : ExceptionStackFrame) (s : ist) : outcome ist :=
  stop pf loop_
    (nl ++ bytes_of "EXCEPTION: NON-MASKABLE INTERRUPT" ++ nl ++ frame_text stack_frame ++ nl) s.

Definition breakpoint_handler (pf : nat) (stack_frame : ExceptionStackFrame) (s : ist) : outcome ist :=
  print pf (nl ++ bytes_of "EXCEPTION: BREAKPOINT at " ++ ip_text stack_frame ++ nl ++ frame_text stack_frame ++ nl) s.

Definition overflow_handler (pf : nat) (loop_ : endless) (stack_frame : ExceptionStackFrame) (s : ist) : outcome ist :=
  stop pf loop_
    (nl ++ bytes_of "EXCEPTION: OVERFLOW" ++ nl ++ frame_text stack_frame ++ nl) s.

Definition bound_range_handler (pf : nat) (loop_ : endless) (stack_frame : ExceptionStackFrame) (s : ist) : outcome ist :=
  stop pf loop_
    (nl ++ bytes_of "EXCEPTION: BOUND RANGE EXCEEDED" ++ nl ++ frame_text stack_frame ++ nl) s.

Definition invalid_opcode_handler (pf : nat) (loop_ : endless) (stack_frame : ExceptionStackFrame) (s : ist) : outcome ist :=
  stop pf loop_
    (nl ++ bytes_of "EXCEPTION: INVALID OPCODE at " ++ ip_text stack_frame ++ nl ++ frame_text stack_frame ++ nl) s.

Definition device_not_available_handler (pf : nat) (loop_ : endless) (stack_frame : ExceptionStackFrame) (s : ist) : outcome ist :=
  stop pf loop_
    (nl ++ bytes_of "EXCEPTION: FPU NOT AVAILABLE" ++ nl ++ frame_text stack_frame ++ nl) s.

Definition double_fault_handler (pf : nat) (loop_ : endless) (stack_frame : ExceptionStackFrame) (_error_code : Z) (s : ist) : outcome ist :=
  stop pf loop_
    (nl ++ bytes_of "EXCEPTION: DOUBLE FAULT" ++ nl ++ frame_text stack_frame ++ nl) s.

Definition invalid_tss_handler (pf : nat) (loop_ : endless) (stack_frame : ExceptionStackFrame) (error_code : Z) (s : ist) : outcome ist :=
  stop pf loop_
    (nl ++ bytes_of "EXCEPTION: INVALID TSS with code: " ++ fmt_dec error_code ++ nl ++ frame_text stack_frame ++ nl) s.

Definition seg_not_present_handler (pf : nat) (loop_ : endless) (stack_frame : ExceptionStackFrame) (error_code : Z) (s : ist) : outcome ist :=
  stop pf loop_
    (nl ++ bytes_of "EXCEPTION: SEGMENT NOT PRESENT" ++ nl ++ bytes_of "error code: " ++ fmt_dec error_code ++
     nl ++ frame_text stack_frame ++ nl) s.

Definition stack_seg_fault_handler (pf : nat) (loop_ : endless) (stack_frame : ExceptionStackFrame) (error_code : Z) (s : ist) : outcome ist :=
  stop pf loop_
    (nl ++ bytes_of "EXCEPTION: STACK SEGMENT FAULT" ++ nl ++ bytes_of "error code: " ++ fmt_dec error_code ++
     nl ++ frame_text stack_frame ++ nl) s.

Definition gpf_handler (pf : nat) (loop_ : endless) (stack_frame : ExceptionStackFrame) (_error_code : Z) (s : ist) : outcome ist :=
  stop pf loop_
    (nl ++ bytes_of "EXCEPTION: GPF" ++ nl ++ frame_text stack_frame ++ nl) s.

Definition page_fault_handler (pf : nat) (loop_ : endless) (stack_frame : ExceptionStackFrame) (error_code cr2 : list Z) (s : ist) : outcome ist :=
  stop pf loop_
    (nl ++ bytes_of "EXCEPTION: PAGE FAULT while accessing " ++ cr2 ++ nl ++ bytes_of "error code: " ++ error_code ++
     nl ++ frame_text stack_frame ++ nl) s.

Definition x87_fp_exception_handler (pf : nat) (loop_ : endless) (stack_frame : ExceptionStackFrame) (s : ist) : outcome ist :=
  stop pf loop_
    (nl ++ bytes_of "X87 FLOATING POINT EXCEPTION" ++ nl ++ frame_text stack_frame ++ nl) s.

Definition alignment_check_handler (pf : nat) (loop_ : endless) (stack_frame : ExceptionStackFrame) (_error_code : Z) (s : ist) : outcome ist :=
  stop pf loop_
    (nl ++ bytes_of "EXCEPTION: ALIGNMENT CHECK" ++ nl ++ frame_text stack_frame ++ nl) s.

Definition machine_check_handler (pf : nat) (loop_ : endless) (stack_frame : ExceptionStackFrame) (s : ist) : outcome ist :=
  stop pf loop_
    (nl ++ bytes_of "EXCEPTION: MACHINE CHECK" ++ nl ++ frame_text stack_frame ++ nl) s.

Definition simd_fp_exception_handler (pf : nat) (loop_ : endless) (stack_frame : ExceptionStackFrame) (s : ist) : outcome ist :=
  stop pf loop_
    (nl ++ bytes_of "EXCEPTION: SIMD FLOATING POINT EXCEPTION" ++ nl ++ frame_text stack_frame ++ nl) s.

(** The handlers by their gate, see [IDT] below. *)
Definition exception_handler (pf : nat) (loop_ : endless) (e : exception) (a : exn_args) (s : ist) : outcome ist :=
  let f := a_frame a in
  match e with
  | DivideByZero => divide_by_zero_handler pf loop_ f s
  | Debug => debug_handler pf loop_ f s
  | Nmi => nmi_handler pf loop_ f s
  | Breakpoint => breakpoint_handler pf f s
  | Overflow => overflow_handler pf loop_ f s
  | BoundRange => bound_range_handler pf loop_ f s
  | InvalidOpcode => invalid_opcode_handler pf loop_ f s
  | DeviceNotAvailable => device_not_available_handler pf loop_ f s
  | DoubleFault => double_fault_handler pf loop_ f (a_code a) s
  | InvalidTss => invalid_tss_handler pf loop_ f (a_code a) s
  | SegNotPresent => seg_not_present_handler pf loop_ f (a_code a) s
  | StackSegFault => stack_seg_fault_handler pf loop_ f (a_code a) s
  | Gpf => gpf_handler pf loop_ f (a_code a) s
  | PageFault => page_fault_handler pf loop_ f (a_fault a) (a_cr2 a) s
  | X87Fp => x87_fp_exception_handler pf loop_ f s
  | AlignmentCheck => alignment_check_handler pf loop_ f (a_code a) s
  | MachineCheck => machine_check_handler pf loop_ f s
  | SimdFp => simd_fp_exception_handler pf loop_ f s
  end.

(** What the message of an exception has to say: its name, then what is known about
    its cause, then the stack frame. *)
Definition exception_name (e : exception) : string :=
  match e with
  | DivideByZero => "EXCEPTION: DIVIDE BY ZERO" | Debug => "EXCEPTION: DEBUG"
  | Nmi => "EXCEPTION: NON-MASKABLE INTERRUPT" | Breakpoint => "EXCEPTION: BREAKPOINT"
  | Overflow => "EXCEPTION: OVERFLOW" | BoundRange => "EXCEPTION: BOUND RANGE EXCEEDED"
  | InvalidOpcode => "EXCEPTION: INVALID OPCODE" | DeviceNotAvailable => "EXCEPTION: FPU NOT AVAILABLE"
  | DoubleFault => "EXCEPTION: DOUBLE FAULT" | InvalidTss => "EXCEPTION: INVALID TSS"
  | SegNotPresent => "EXCEPTION: SEGMENT NOT PRESENT" | StackSegFault => "EXCEPTION: STACK SEGMENT FAULT"
  | Gpf => "EXCEPTION: GPF" | PageFault => "EXCEPTION: PAGE FAULT" | X87Fp => "X87 FLOATING POINT EXCEPTION"
  | AlignmentCheck => "EXCEPTION: ALIGNMENT CHECK" | MachineCheck => "EXCEPTION: MACHINE CHECK"
  | SimdFp => "EXCEPTION: SIMD FLOATING POINT EXCEPTION"
  end.

Definition exception_cause (e : exception) (a : exn_args) : list Z :=
  match e with
  | Breakpoint | InvalidOpcode => bytes_of " at " ++ ip_text (a_frame a)
  | InvalidTss => bytes_of " with code: " ++ fmt_dec (a_code a)
  | SegNotPresent | StackSegFault => nl ++ bytes_of "error code: " ++ fmt_dec (a_code a)
  | PageFault => bytes_of " while accessing " ++ a_cr2 a ++ nl ++ bytes_of "error code: " ++ a_fault a
  | _ => []
  end.

Definition exception_text (e : exception) (a : exn_args) : list Z :=
  nl ++ bytes_of (exception_name e) ++ exception_cause e a ++ nl ++ frame_text (a_frame a) ++ nl.

Lemma exception_handler_eq pf loop_ e a s :
  exception_handler pf loop_ e a s =
  if decide (e = Breakpoint) then print pf (exception_text e a) s else stop pf loop_ (exception_text e a) s.
Proof.
  assert (Hstop : forall t t', t = t' -> stop pf loop_ t s = stop pf loop_ t' s) by (by intros t t' ->).
  assert (Hprint : forall t t', t = t' -> print pf t s = print pf t' s) by (by intros t t' ->).
  destruct e; first [rewrite decide_True by done; apply Hprint|rewrite decide_False by done; apply Hstop];
    unfold exception_text, exception_cause; rewrite <-?app_assoc; vm_compute; reflexivity.
Qed.

(** [apic_nmi_handler] and [spurious_interrupt_handler] *)
Definition apic_nmi_handler (pf : nat) (loop_ : endless) (s : ist) : outcome ist :=
  let? s := print pf (bytes_of "NON-MASKABLE APIC INTERRUPT!" ++ nl) s in
  let? (_, s) := loop_ s in Ok s.

Definition spurious_interrupt_handler (pf : nat) (s : ist) : outcome ist :=
  print pf (bytes_of "SPURIOUS INTERRUPT!" ++ nl) s.

(** [panic_fmt], with the message already formatted. *)
Definition panic_fmt (pf : nat) (loop_ : endless) (fmt file : list Z) (line : Z) (s : ist) : outcome ist :=
  let? s := print pf (nl ++ nl ++ bytes_of "PANIC in " ++ file ++ bytes_of " at line " ++ fmt_dec line ++
    bytes_of ":" ++ nl) s in
  let? s := print pf (bytes_of "    " ++ fmt ++ nl) s in
  let? (_, s) := loop_ s in Ok s.

(** [_Unwind_Resume] *)
Definition unwind_resume (loop_ : endless) (s : ist) : outcome ist :=
  let? (_, s) := loop_ s in Ok s.

Lemma spin_forever {T} fuel s : spin (T := T) fuel s = Err EFuel.
Proof. revert s. induction fuel as [|fuel IH]; intros s; [done|apply IH]. Qed.

Lemma print_spec n pf text s :
  settles (port_new 8 (0x3f8 + 5)) is_transmit_empty n -> (n < pf)%nat ->
  exists evs, print pf text s = Ok (mkIst (i_kernel s) (i_log s ++ evs)) /\ outs 0x3f8 evs = text /\
    Forall (fun e => ev_port e = 0x3f8 \/ ev_port e = 0x3f8 + 5) evs.
Proof.
  intros Hs Hf. unfold print.
  destruct (println_spec n pf text (i_log s) Hs Hf) as (evs & -> & [Ht _ _ Hp]). by exists evs.
Qed.

(** A panic writes where it happened and its message, in full, and then spins: with the
    processor, its interrupt flag and the controllers as they were. *)
Theorem panic_reports n pf fmt file line s :
  settles (port_new 8 (0x3f8 + 5)) is_transmit_empty n -> (n < pf)%nat ->
  (forall fuel, panic_fmt pf (spin fuel) fmt file line s = Err EFuel) /\
  exists evs,
    (forall loop_, panic_fmt pf loop_ fmt file line s =
       let? (_, s) := loop_ (mkIst (i_kernel s) (i_log s ++ evs)) in Ok s) /\
    outs 0x3f8 evs = nl ++ nl ++ bytes_of "PANIC in " ++ file ++ bytes_of " at line " ++ fmt_dec line ++
      bytes_of ":" ++ nl ++ bytes_of "    " ++ fmt ++ nl.
Proof.
  intros Hs Hf. unfold panic_fmt.
  match goal with |- context [print pf ?t s] => destruct (print_spec n pf t s Hs Hf) as (e1 & -> & Ho1 & _) end. cbn [obind].
  match goal with |- context [print pf ?t ?s1] => destruct (print_spec n pf t s1 Hs Hf) as (e2 & -> & Ho2 & _) end.
  cbn [obind i_kernel i_log]. split; [intros fuel; by rewrite spin_forever|].
  exists (e1 ++ e2). rewrite app_assoc. split; [done|]. rewrite outs_app, Ho1, Ho2, <-!app_assoc. done.
Qed.

(** The state in which the handler of an exception enters its endless loop: interrupts
    are off, both controllers are masked, the scheduler is as it was, and the ports saw
    first the masking and then nothing but the message on the serial port. *)
Record reported (e : exception) (a : exn_args) (m0 m1 : Z) (s s2 : ist) : Prop := {
  rp_off : interrupts_on s2 = false;
  rp_mask0 : mask0 s2 = 0xff;
  rp_mask1 : mask1 s2 = 0xff;
  rp_sched : sch (i_kernel s2) = sch (i_kernel s);
  rp_text : exists evs,
    i_log s2 = i_log s ++ [PIn 8 0x21 m0; PIn 8 0xA1 m1; POut 8 0x21 0xff; POut 8 0xA1 0xff] ++ evs /\
    outs 0x3f8 evs = exception_text e a /\
    Forall (fun e => ev_port e = 0x3f8 \/ ev_port e = 0x3f8 + 5) evs }.

(** C36: An exception other than a breakpoint stops the machine, when the masks can be
    read back ([mask_law]) and the UART is ready after a bounded number of reads.  The
    loop at the end of its handler is entered, and with interrupts off, both controllers
    masked before anything was printed, and the message printed in full ([reported]):
    this is what any other code would find if it stood in place of the loop.  As the loop has no end, the handler does not return,
    whatever the fuel, and no process runs again.  The breakpoint's handler prints its
    message and returns to the interrupted code; it has no loop. *)
Theorem exceptions_stop n pf e a s m0 m1 :
  settles (port_new 8 (0x3f8 + 5)) is_transmit_empty n -> (n < pf)%nat ->
  mask_law (i_log s) m0 m1 -> in_width 8 m0 -> in_width 8 m1 ->
  if decide (e = Breakpoint) then
    exists evs, (forall loop_, exception_handler pf loop_ e a s = Ok (mkIst (i_kernel s) (i_log s ++ evs))) /\
      outs 0x3f8 evs = exception_text e a
  else
    (exists s2, reported e a m0 m1 s s2 /\
       forall loop_, exception_handler pf loop_ e a s =
         let? (_, s3) := loop_ s2 in Ok (restore_interrupts (m0, m1) s3)) /\
    forall fuel, exception_handler pf (spin fuel) e a s = Err EFuel.
Proof.
  intros Hs Hf Hm H0 H1. case_decide as He.
  - destruct (print_spec n pf (exception_text e a) s Hs Hf) as (evs & Hp & Ho & _).
    exists evs. split; [|exact Ho]. intros loop_. by rewrite exception_handler_eq, decide_True.
  - pose proof (disable_interrupts_eq s m0 m1 Hm H0 H1) as Hd.
    set (s1 := mkIst _ _) in Hd. destruct (print_spec n pf (exception_text e a) s1 Hs Hf) as (evs & Hp & Ho & Hports).
    assert (Hrun : forall loop_, exception_handler pf loop_ e a s =
      let? (_, s3) := loop_ (mkIst (i_kernel s1) (i_log s1 ++ evs)) in Ok (restore_interrupts (m0, m1) s3)).
    { intros loop_. rewrite exception_handler_eq, decide_False by done. unfold stop, disable_interrupts_and_then, report_and_spin.
      rewrite Hd. cbn [obind]. rewrite Hp. cbn [obind]. by destruct (loop_ _) as [[[] s3]|]. }
    split; [|intros fuel; by rewrite Hrun, spin_forever].
    eexists. split; [|exact Hrun]. set (pre := [PIn 8 33 m0; PIn 8 161 m1; POut 8 33 255; POut 8 161 255]).
    destruct (Hm (pre ++ evs)) as [E0 E1].
    { apply Forall_app. split; [by repeat constructor|]. eapply Forall_impl; [exact Hports|]. simpl. lia. }
    assert (Hno : last_out 0x21 evs = None /\ last_out 0xA1 evs = None).
    { split; apply last_out_none; (eapply Forall_impl; [exact Hports|]); simpl; lia. }
    destruct Hno as [N0 N1].
    assert (Hl : i_log (mkIst (i_kernel s1) (i_log s1 ++ evs)) = i_log s ++ pre ++ evs) by (simpl; by rewrite <-app_assoc).
    split.
    + apply set_if_bit.
    + unfold mask0. rewrite Hl, E0, last_out_app, N0. reflexivity.
    + unfold mask1. rewrite Hl, E1, last_out_app, N1. reflexivity.
    + reflexivity.
    + exists evs. split; [exact Hl|done].
Qed.

End Handlers.

(** ** The table *)

Inductive handler :=
  | HException (e : exception)
  | HTimer
  | HApicNmi
  | HSpurious.

#[global] Instance handler_eq_dec : EqDecision handler.
Proof. solve_decision. Defined.

(** The vectors of the named entries of the table, as the architecture numbers
    the exceptions; [idt.interrupts[i]] is vector [32 + i]. *)
Definition vector (e : exception) : Z :=
  match e with
  | DivideByZero => 0 | Debug => 1 | Nmi => 2 | Breakpoint => 3 | Overflow => 4 | BoundRange => 5
  | InvalidOpcode => 6 | DeviceNotAvailable => 7 | DoubleFault => 8 | InvalidTss => 10 | SegNotPresent => 11
  | StackSegFault => 12 | Gpf => 13 | PageFault => 14 | X87Fp => 16 | AlignmentCheck => 17 | MachineCheck => 18
  | SimdFp => 19
  end.

(** An entry: its handler, and the stack index of [set_stack_index]. *)
Record gate := mkGate { g_handler : handler; g_stack : option Z }.

#[global] Instance gate_eq_dec : EqDecision gate.
Proof. solve_decision. Defined.

Definition DOUBLE_FAULT_IST_INDEX : Z := 0.

Definition set_exception (e : exception) (idt : gmap Z gate) : gmap Z gate :=
  <[vector e := mkGate (HException e) None]> idt.
Definition set_interrupt (i : Z) (h : handler) (idt : gmap Z gate) : gmap Z gate := <[32 + i := mkGate h None]> idt.
Definition set_stack_index (v index : Z) (idt : gmap Z gate) : gmap Z gate :=
  alter (fun g => mkGate (g_handler g) (Some index)) v idt.

Definition IDT : gmap Z gate :=
  let idt := foldl (fun idt e => set_exception e idt) ∅
    [DivideByZero; Debug; Nmi; Breakpoint; Overflow; BoundRange; InvalidOpcode; DeviceNotAvailable; DoubleFault] in
  let idt := set_stack_index (vector DoubleFault) DOUBLE_FAULT_IST_INDEX idt in
  let idt := foldl (fun idt e => set_exception e idt) idt
    [InvalidTss; SegNotPresent; StackSegFault; Gpf; PageFault; X87Fp; AlignmentCheck; MachineCheck; SimdFp] in
  let idt := set_interrupt 0 HTimer idt in
  let idt := set_interrupt (0x30 - 0x20) HTimer idt in
  let idt := foldl (fun idt vec => set_interrupt vec HApicNmi idt) idt
    (seqZ (0x90 - 0x20) ((0x97 - 0x20) - (0x90 - 0x20))) in
  set_interrupt (0xff - 0x20) HSpurious idt.

(** The table as a function of the vector. *)
Definition idt_spec (v : Z) : option gate :=
  match list_find (fun e => vector e = v)
    [DivideByZero; Debug; Nmi; Breakpoint; Overflow; BoundRange; InvalidOpcode; DeviceNotAvailable; DoubleFault;
     InvalidTss; SegNotPresent; StackSegFault; Gpf; PageFault; X87Fp; AlignmentCheck; MachineCheck; SimdFp] with
  | Some (_, e) => Some (mkGate (HException e) (if decide (e = DoubleFault) then Some 0 else None))
  | None =>
      if (v =? 0x20) || (v =? 0x30) then Some (mkGate HTimer None)
      else if (0x90 <=? v) && (v <? 0x97) then Some (mkGate HApicNmi None)
      else if v =? 0xff then Some (mkGate HSpurious None) else None
  end.

(** Which interrupts are handled, for all 256 vectors: each exception of the
    architecture by its own handler (but for the reserved vectors 9 and 15), the
    timer at the vectors the PIC and the I/O APIC give it, seven NMI vectors and
    the spurious vector; only a double fault switches to a stack of its own, the
    one of index 0.  Nothing handles the keyboard, at 0x21 or 0x31. *)
Theorem idt_correct v : in_width 8 v -> IDT !! v = idt_spec v.
Proof.
  intros Hv. assert (Hall : forallb (fun v => bool_decide (IDT !! v = idt_spec v)) (seqZ 0 256) = true)
    by (vm_compute; reflexivity).
  rewrite forallb_forall in Hall. apply (bool_decide_eq_true_1 (IDT !! v = idt_spec v)), Hall, list_elem_of_In, elem_of_seqZ.
  unfold in_width in Hv. lia.
Qed.

(** The vectors [install_nmis] programs.  For the [i]-th NMI it passes the vector
    [0x90 + i] to [lapic_set_nmi], which merges it with the truncated [800]: no
    handler is installed for the result.  For the eighth to the tenth NMI there
    is none for the vector that was meant either. *)
Theorem nmi_vectors_unhandled i :
  0 <= i < 10 ->
  IDT !! Z.lor (trunc 8 800) (0x90 + i) = None /\ (IDT !! (0x90 + i) = Some (mkGate HApicNmi None) <-> i < 7).
Proof.
  intros Hi. assert (Hall : forallb (fun i => bool_decide (IDT !! Z.lor (trunc 8 800) (0x90 + i) = None) &&
    bool_decide (bool_decide (IDT !! (0x90 + i) = Some (mkGate HApicNmi None)) = (i <? 7))) (seqZ 0 10) = true) by (vm_compute; reflexivity).
  rewrite forallb_forall in Hall. specialize (Hall i). rewrite andb_true_iff, !bool_decide_eq_true in Hall.
  destruct Hall as [Hnone Heq]; [apply list_elem_of_In, elem_of_seqZ; lia|]. split; [exact Hnone|].
  rewrite <-(bool_decide_eq_true (IDT !! _ = _)), Heq. apply Z.ltb_lt.
Qed.

(** ** Concrete instances *)

(** Controllers that return the mask last written, and a UART that is ready. *)
Definition board_hw : Hardware := fun l _ port =>
  if decide (port = 0x3f8 + 5) then 0x60 else default 0 (last_out port l).

Lemma board_mask_law : @mask_law board_hw [] 0 0.
Proof. intros l _. done. Qed.

Lemma board_settles : @settles board_hw (port_new 8 (0x3f8 + 5)) is_transmit_empty 0.
Proof. intros l. exists 0%nat. split; [lia|]. reflexivity. Qed.

(** A page fault: put in place of the loop, code that returns its state shows it. *)
Lemma exceptions_stop_witness :
  let a := mkExn (mkStackFrame (bytes_of "frame") []) 0 (bytes_of "0x10") (bytes_of "PRESENT") in
  (exists s2, @reported board_hw PageFault a 0 0 demo_ist s2 /\
     @exception_handler board_hw 1 (fun s => Ok (tt, s)) PageFault a demo_ist
       = Ok (@restore_interrupts (0, 0) s2)) /\
  @exception_handler board_hw 1 (spin 1000) PageFault a demo_ist = Err EFuel.
Proof.
  assert (Hw : in_width 8 0) by (unfold in_width; lia).
  destruct (@exceptions_stop board_hw 0 1 PageFault
    (mkExn (mkStackFrame (bytes_of "frame") []) 0 (bytes_of "0x10") (bytes_of "PRESENT")) demo_ist 0 0 board_settles (le_n 1)
    board_mask_law Hw Hw) as [(s2 & Hr & Hrun) Hstop].
  split; [|exact (Hstop 1000%nat)]. exists s2. split; [exact Hr|exact (Hrun (fun s => Ok (tt, s)))].
Defined.

Lemma idt_correct_witness : IDT !! 0x31 = None /\ IDT !! 14 = Some (mkGate (HException PageFault) None).
Proof.
  split; [rewrite (idt_correct 0x31)|rewrite (idt_correct 14)]; first [reflexivity|unfold in_width; lia].
Defined.

Lemma nmi_vectors_unhandled_witness : IDT !! 0xb0 = None /\ (IDT !! 0x99 = Some (mkGate HApicNmi None) <-> 9 < 7).
Proof.
  split; [exact (proj1 (nmi_vectors_unhandled 0 ltac:(lia)))|exact (proj2 (nmi_vectors_unhandled 9 ltac:(lia)))].
Defined.
