(* ===== verification/Gdt.v ===== *)
(** * The descriptor tables: GDT, TSS and [interrupts::init]

    [arch/x86_64/interrupts/gdt.rs] and [init] of
    [arch/x86_64/interrupts/mod.rs].  The packages the code calls are
    parameters: the [bit_field] crate ([BitField]), and the selectors and the task
    state segment of the [x86_64] crate ([X86Tables]).  What the processor
    does with the tables (loading CS and TR, switching to an interrupt stack)
    is written out in the section on the processor. *)

From S2P Require Import Prelude Frames FrameSource AreaAlloc Entry Mmu Table PageTree Mapper Boot.
From S2P Require Import StackAlloc MemoryInit Apic AcpiInit Idt.

(** ** The packages *)

(** [BitField] for [u64]: ranges are [lo..hi]. *)
Class BitField := {
  get_bits : Z -> Z -> Z -> outcome Z;
  set_bits : Z -> Z -> Z -> Z -> outcome Z }.

(** The documented behaviour on a range within the word: [get_bits] extracts the
    range, [set_bits] replaces it by a value that fits in it. *)
Class BitFieldOk `{BitField} : Prop := {
  get_bits_ok v lo hi : in_width 64 v -> 0 <= lo < hi -> hi <= 64 ->
    exists x, get_bits v lo hi = Ok x /\ in_width (hi - lo) x /\
      forall i, 0 <= i < hi - lo -> Z.testbit x i = Z.testbit v (lo + i);
  set_bits_ok v lo hi x : in_width 64 v -> 0 <= lo < hi -> hi <= 64 -> in_width (hi - lo) x ->
    exists v', set_bits v lo hi x = Ok v' /\ in_width 64 v' /\
      forall i, 0 <= i -> Z.testbit v' i = if (lo <=? i) && (i <? hi) then Z.testbit x (i - lo) else Z.testbit v i }.

(** [SegmentSelector::new] and [TaskStateSegment]: its size, its initial value and
    its field [interrupt_stack_table]. *)
Class X86Tables := {
  selector_new : Z -> Z -> Z;
  TaskStateSegment : Type;
  tss_size : Z;
  tss_new : TaskStateSegment;
  interrupt_stack_table : TaskStateSegment -> list Z;
  with_stack_table : list Z -> TaskStateSegment -> TaskStateSegment }.

Class X86TablesOk `{X86Tables} : Prop := {
  selector_new_ok i rpl : 0 <= i < 2 ^ 13 -> 0 <= rpl < 4 -> selector_new i rpl = 8 * i + rpl;
  tss_size_ok : 1 <= tss_size <= 2 ^ 16;
  tss_new_ok : length (interrupt_stack_table tss_new) = 7%nat;
  stack_table_ok l t : interrupt_stack_table (with_stack_table l t) = l }.

(** ** The table *)

Record Gdt := mkGdt { gdt_table : list Z; next_free : Z }.

Definition gdt_new : Gdt := mkGdt (replicate 8 0) 1.

Inductive Descriptor :=
  | UserSegment (value : Z)
  | SystemSegment (value_low value_high : Z).

Definition push (value : Z) (g : Gdt) : outcome (Z * Gdt) :=
  if next_free g <? Z.of_nat (length (gdt_table g)) then
    let index := next_free g in
    let table := <[Z.to_nat index := value]> (gdt_table g) in
    let? n := usize_add (next_free g) 1 in
    Ok (index, mkGdt table n)
  else panic "GDT full".

(** [(self.table.len() * size_of::<u64>() - 1) as u16] *)
Definition gdt_limit (g : Gdt) : outcome Z :=
  let? n := usize_mul (Z.of_nat (length (gdt_table g))) 8 in
  let? n := usize_sub n 1 in Ok (trunc 16 n).

(** [DescriptorFlags] *)
Definition CONFORMING : Z := Z.shiftl 1 42.
Definition EXECUTABLE : Z := Z.shiftl 1 43.
Definition USER_SEGMENT : Z := Z.shiftl 1 44.
Definition DESCRIPTOR_PRESENT : Z := Z.shiftl 1 47.
Definition LONG_MODE : Z := Z.shiftl 1 53.

Definition kernel_code_segment : Descriptor :=
  UserSegment (Z.lor (Z.lor (Z.lor USER_SEGMENT DESCRIPTOR_PRESENT)
    EXECUTABLE) LONG_MODE).

Section Gdt.
Context `{BitField} `{X86Tables}.

Definition add_entry (entry : Descriptor) (g : Gdt) : outcome (Z * Gdt) :=
  let? (index, g) :=
    match entry with
    | UserSegment value => push value g
    | SystemSegment value_low value_high =>
        let? (index, g) := push value_low g in
        let? (_, g) := push value_high g in
        Ok (index, g)
    end in
  Ok (selector_new (trunc 16 index) 0, g).

(** [ptr] is the address of the segment. *)
Definition tss_segment (ptr : Z) : outcome Descriptor :=
  let low := DESCRIPTOR_PRESENT in
  let? x := get_bits ptr 0 24 in
  let? low := set_bits low 16 40 x in
  let? x := get_bits ptr 24 32 in
  let? low := set_bits low 56 64 x in
  let? n := usize_sub tss_size 1 in
  let? low := set_bits low 0 16 n in
  let? low := set_bits low 40 44 9 in
  let? x := get_bits ptr 32 64 in
  let? high := set_bits 0 0 32 x in
  Ok (SystemSegment low high).

End Gdt.

(** ** The processor *)

(** Bits [lo] to [hi - 1] of a word. *)
Definition field (v lo hi : Z) : Z := Z.shiftr v lo mod 2 ^ (hi - lo).

(** The base and the limit of a 16-byte system descriptor. *)
Definition segment_base (low high : Z) : Z :=
  Z.lor (Z.lor (field low 16 40) (Z.shiftl (field low 56 64) 24)) (Z.shiftl (field high 0 32) 32).
Definition segment_limit (low : Z) : Z := Z.lor (field low 0 16) (Z.shiftl (field low 48 52) 16).

(** A present ring 0 code segment of long mode; an available 64-bit TSS, present,
    with a limit in bytes. *)
Definition is_kernel_code (low : Z) : bool :=
  Z.testbit low 43 && Z.testbit low 44 && (field low 45 47 =? 0) && Z.testbit low 47 && Z.testbit low 53 &&
  negb (Z.testbit low 54).
Definition is_available_tss (low : Z) : bool :=
  (field low 40 45 =? 9) && (field low 45 47 =? 0) && Z.testbit low 47 && negb (Z.testbit low 55).

(** The registers the tables are loaded into: GDTR (base, limit), CS, the base and
    the limit of the task register, and whether IDTR points to [IDT]. *)
Record cpu_tables := mkCpuTables {
  r_gdtr : option (Z * Z);
  r_cs : Z;
  r_tr : option (Z * Z);
  r_idtr : bool }.

(** [set_cs] (a far return): the selector must name a code segment of the table. *)
Definition set_cs (sel : Z) (g : Gdt) (c : cpu_tables) : outcome cpu_tables :=
  match gdt_table g !! Z.to_nat (sel / 8) with
  | Some low =>
      if negb (sel / 8 =? 0) && is_kernel_code low
      then Ok (mkCpuTables (r_gdtr c) sel (r_tr c) (r_idtr c)) else Err (EProtection sel)
  | None => Err (EProtection sel)
  end.

(** [load_tss] (the [ltr] instruction) also marks the descriptor busy. *)
Definition load_tss (sel : Z) (g : Gdt) (c : cpu_tables) : outcome (Gdt * cpu_tables) :=
  let i := Z.to_nat (sel / 8) in
  match gdt_table g !! i, gdt_table g !! S i with
  | Some low, Some high =>
      if negb (sel / 8 =? 0) && is_available_tss low
      then Ok (mkGdt (<[i := Z.setbit low 41]> (gdt_table g)) (next_free g),
               mkCpuTables (r_gdtr c) (r_cs c) (Some (segment_base low high, segment_limit low)) (r_idtr c))
      else Err (EProtection sel)
  | _, _ => Err (EProtection sel)
  end.

(** ** Filling the table *)

(** The 8-byte entries a descriptor takes. *)
Definition words (d : Descriptor) : list Z :=
  match d with UserSegment v => [v] | SystemSegment l h => [l; h] end.

(** A table in which the entries [ws] have been pushed. *)
Definition holds_words (g : Gdt) (ws : list Z) : Prop :=
  (length ws <= 7)%nat /\ next_free g = 1 + Z.of_nat (length ws) /\
  gdt_table g = 0 :: ws ++ replicate (7 - length ws) 0.

Lemma gdt_new_holds : holds_words gdt_new [].
Proof. by split_and!; simpl; [lia| |]. Qed.

Lemma holds_length g ws : holds_words g ws -> length (gdt_table g) = 8%nat.
Proof. intros (Hl & _ & ->). simpl. rewrite length_app, length_replicate. lia. Qed.

Lemma push_spec value g ws :
  holds_words g ws ->
  match push value g with
  | Ok (i, g') => i = 1 + Z.of_nat (length ws) /\ holds_words g' (ws ++ [value])
  | Err e => e = EPanic "GDT full" /\ length ws = 7%nat
  end.
Proof.
  intros Hg. pose proof (holds_length g ws Hg) as Hlen. destruct Hg as (Hl & Hn & Ht). unfold push.
  rewrite Hlen, Hn. destruct (Z.ltb_spec (1 + Z.of_nat (length ws)) (Z.of_nat 8)) as [Hlt|]; [|split; [done|lia]].
  rewrite add_w_fits by (unfold in_width; lia). cbn [obind]. split; [done|].
  unfold holds_words. rewrite length_app. cbn [length next_free gdt_table]. split_and!; [lia|lia|].
  rewrite Ht, app_comm_cons. replace (Z.to_nat (1 + Z.of_nat (length ws))) with (length (0%Z :: ws) + 0)%nat by (simpl; lia).
  rewrite insert_app_r. replace (7 - length ws)%nat with (S (7 - (length ws + 1))) by lia.
  cbn [replicate]. by rewrite <-app_assoc.
Qed.

(** Case analysis on where a bit lies in the words of a descriptor. *)
Ltac split_range :=
  repeat match goal with
  | |- context [Z.leb ?a ?b] => destruct (Z.leb_spec a b); try (exfalso; lia)
  | |- context [Z.ltb ?a ?b] => destruct (Z.ltb_spec a b); try (exfalso; lia)
  end; cbn [andb].

Section Facts.
Context `{BitField} `{X86Tables} `{!BitFieldOk} `{!X86TablesOk}.

Lemma add_entry_spec d g ws :
  holds_words g ws ->
  match add_entry d g with
  | Ok (sel, g') => sel = 8 * (1 + Z.of_nat (length ws)) /\ holds_words g' (ws ++ words d)
  | Err e => e = EPanic "GDT full" /\ (7 < length ws + length (words d))%nat
  end.
Proof.
  intros Hg. assert (Hsel : forall i, i = 1 + Z.of_nat (length ws) -> selector_new (trunc 16 i) 0 = 8 * (1 + Z.of_nat (length ws))).
  { intros i ->. destruct Hg as (Hl & _). unfold trunc. rewrite Z.mod_small, selector_new_ok by lia. lia. }
  unfold add_entry. destruct d as [v|l h]; cbn [words].
  - pose proof (push_spec v g ws Hg) as Hp. destruct (push v g) as [[i g']|e]; cbn [obind].
    + destruct Hp as [Hi Hg']. split; [by apply Hsel|exact Hg'].
    + destruct Hp as [-> Hl]. split; [done|]. simpl. lia.
  - pose proof (push_spec l g ws Hg) as Hp. destruct (push l g) as [[i g1]|e]; cbn [obind].
    + destruct Hp as [Hi Hg1]. pose proof (push_spec h g1 _ Hg1) as Hp2.
      destruct (push h g1) as [[i2 g2]|e]; cbn [obind].
      * destruct Hp2 as [_ Hg2]. rewrite <-app_assoc in Hg2. split; [by apply Hsel|exact Hg2].
      * destruct Hp2 as [-> Hl]. rewrite length_app in Hl. split; [done|]. simpl in *. lia.
    + destruct Hp as [-> Hl]. split; [done|]. simpl. lia.
Qed.

(** Adding descriptors one after the other. *)
Fixpoint add_entries (ds : list Descriptor) (g : Gdt) : outcome (list Z * Gdt) :=
  match ds with
  | [] => Ok ([], g)
  | d :: ds =>
      let? (sel, g) := add_entry d g in
      let? (sels, g) := add_entries ds g in
      Ok (sel :: sels, g)
  end.

Lemma add_entries_spec ds g ws :
  holds_words g ws ->
  match add_entries ds g with
  | Ok (sels, g') =>
      holds_words g' (ws ++ concat (words <$> ds)) /\ length sels = length ds /\
      forall i, (i < length ds)%nat ->
        sels !! i = Some (8 * (1 + Z.of_nat (length ws + length (concat (words <$> take i ds)))))
  | Err e => e = EPanic "GDT full" /\ (7 < length ws + length (concat (words <$> ds)))%nat
  end.
Proof.
  revert g ws. induction ds as [|d ds IH]; intros g ws Hg.
  - cbn. rewrite app_nil_r. split; [done|]. split; [done|]. intros i Hi. simpl in Hi. lia.
  - cbn [add_entries]. pose proof (add_entry_spec d g ws Hg) as Hd.
    destruct (add_entry d g) as [[sel g1]|e]; cbn [obind].
    2:{ destruct Hd as [-> Hl]. split; [done|]. simpl. rewrite length_app. lia. }
    destruct Hd as [-> Hg1]. specialize (IH g1 _ Hg1). destruct (add_entries ds g1) as [[sels g2]|e]; cbn [obind].
    2:{ destruct IH as [-> Hl]. split; [done|]. rewrite fmap_cons, concat_cons. rewrite !length_app in *. lia. }
    destruct IH as (Hg2 & Hlen & Hs). simpl. rewrite app_assoc. split; [exact Hg2|]. split; [by rewrite Hlen|].
    intros [|i] Hi; [simpl; do 2 f_equal; lia|]. cbn [lookup list_lookup]. rewrite Hs by (simpl in Hi; lia).
    rewrite firstn_cons, fmap_cons, concat_cons, !length_app. f_equal. lia.
Qed.

(** C34: The bounds of the table: any sequence of descriptors added to a new GDT either
    takes at most the seven 8-byte entries behind the null descriptor, and then
    the table of eight entries holds exactly the descriptors, in order and
    followed by zeros, and each selector names the first entry of its descriptor;
    or it takes more and [add_entry] panics instead of writing beyond the
    table. *)
Theorem add_entries_bounds ds :
  let total := length (concat (words <$> ds)) in
  match add_entries ds gdt_new with
  | Ok (sels, g) =>
      (total <= 7)%nat /\ gdt_table g = 0 :: concat (words <$> ds) ++ replicate (7 - total) 0 /\
      next_free g = 1 + Z.of_nat total /\ length sels = length ds /\
      forall i, (i < length ds)%nat ->
        sels !! i = Some (8 * (1 + Z.of_nat (length (concat (words <$> take i ds)))))
  | Err e => e = EPanic "GDT full" /\ (7 < total)%nat
  end.
Proof.
  intros total. pose proof (add_entries_spec ds gdt_new [] gdt_new_holds) as Hs.
  destruct (add_entries ds gdt_new) as [[sels g]|e]; [|exact Hs].
  destruct Hs as ((Hl & Hn & Ht) & Hlen & Hsel). simpl in *. done.
Qed.

(** ** The descriptor of the TSS *)

Lemma field_bits v lo hi i :
  0 <= lo <= hi -> 0 <= i -> Z.testbit (field v lo hi) i = (i <? hi - lo) && Z.testbit v (lo + i).
Proof.
  intros Hr Hi. unfold field. destruct (Z.ltb_spec i (hi - lo)).
  - rewrite Z.mod_pow2_bits_low, Z.shiftr_spec by lia. simpl. f_equal. lia.
  - by rewrite Z.mod_pow2_bits_high by lia.
Qed.

(** A field is determined by its bits. *)
Lemma field_eq v lo hi x :
  0 <= lo <= hi -> in_width (hi - lo) x ->
  (forall i, 0 <= i < hi - lo -> Z.testbit v (lo + i) = Z.testbit x i) -> field v lo hi = x.
Proof.
  intros Hr Hx Hb. apply Z.bits_inj'. intros i Hi. rewrite field_bits by done.
  destruct (Z.ltb_spec i (hi - lo)); [by apply Hb; lia|]. simpl.
  rewrite <-(Z.mod_small x (2 ^ (hi - lo))) by exact Hx. by rewrite Z.mod_pow2_bits_high by lia.
Qed.

(** The words [tss_segment] builds, by the pieces of the address. *)
Lemma tss_segment_bits ptr :
  in_width 64 ptr ->
  exists low high, tss_segment ptr = Ok (SystemSegment low high) /\ in_width 64 low /\ in_width 64 high /\
    (forall i, 0 <= i -> Z.testbit low i =
       if (40 <=? i) && (i <? 44) then Z.testbit 9 (i - 40)
       else if (0 <=? i) && (i <? 16) then Z.testbit (tss_size - 1) (i - 0)
       else if (56 <=? i) && (i <? 64) then Z.testbit ptr (24 + (i - 56))
       else if (16 <=? i) && (i <? 40) then Z.testbit ptr (0 + (i - 16))
       else Z.testbit DESCRIPTOR_PRESENT i) /\
    (forall i, 0 <= i -> Z.testbit high i = if (0 <=? i) && (i <? 32) then Z.testbit ptr (32 + (i - 0)) else false).
Proof.
  intros Hp. pose proof tss_size_ok as Hsz. unfold tss_segment.
  assert (Hw : in_width 64 DESCRIPTOR_PRESENT) by (split; [discriminate|reflexivity]).
  destruct (get_bits_ok ptr 0 24) as (x1 & -> & Hx1 & Hb1); [done|lia|lia|]. cbn [obind].
  destruct (set_bits_ok DESCRIPTOR_PRESENT 16 40 x1) as (l1 & -> & Hl1 & Hs1); [done|lia|lia|exact Hx1|]. cbn [obind].
  destruct (get_bits_ok ptr 24 32) as (x2 & -> & Hx2 & Hb2); [done|lia|lia|]. cbn [obind].
  destruct (set_bits_ok l1 56 64 x2) as (l2 & -> & Hl2 & Hs2); [done|lia|lia|exact Hx2|]. cbn [obind].
  rewrite sub_w_fits by (unfold in_width; lia). cbn [obind].
  destruct (set_bits_ok l2 0 16 (tss_size - 1)) as (l3 & -> & Hl3 & Hs3); [done|lia|lia|unfold in_width; simpl; lia|].
  cbn [obind].
  destruct (set_bits_ok l3 40 44 9) as (l4 & -> & Hl4 & Hs4); [done|lia|lia|unfold in_width; simpl; lia|]. cbn [obind].
  destruct (get_bits_ok ptr 32 64) as (x3 & -> & Hx3 & Hb3); [done|lia|lia|]. cbn [obind].
  destruct (set_bits_ok 0 0 32 x3) as (h & -> & Hh & Hsh); [unfold in_width; lia|lia|lia|exact Hx3|]. cbn [obind].
  exists l4, h. split; [done|]. split; [done|]. split; [done|]. split; intros i Hi.
  - rewrite Hs4, Hs3, Hs2, Hs1 by done. split_range; solve [done|apply Hb1; lia|apply Hb2; lia].
  - rewrite Hsh by done. split_range; solve [apply Z.bits_0|apply Hb3; lia].
Qed.

Lemma tss_segment_decodes ptr :
  in_width 64 ptr ->
  exists low high, tss_segment ptr = Ok (SystemSegment low high) /\ in_width 64 low /\ in_width 64 high /\
    segment_base low high = ptr /\ segment_limit low = tss_size - 1 /\ is_available_tss low = true.
Proof.
  intros Hp. pose proof tss_size_ok as Hsz.
  destruct (tss_segment_bits ptr Hp) as (low & high & Hrun & Hl & Hh & Hbl & Hbh).
  exists low, high. split; [exact Hrun|]. split; [exact Hl|]. split; [exact Hh|]. split_and!.
  - apply Z.bits_inj'. intros i Hi. unfold segment_base.
    rewrite !Z.lor_spec, !Z.shiftl_spec, field_bits by lia.
    assert (Hhi : forall j, j < 0 -> Z.testbit (field high 0 32) j = false) by (intros; by apply Z.testbit_neg_r).
    assert (Hmi : forall j, j < 0 -> Z.testbit (field low 56 64) j = false) by (intros; by apply Z.testbit_neg_r).
    destruct (Z.ltb_spec i 24).
    { rewrite Hhi, Hmi by lia. rewrite Hbl by lia. split_range. rewrite !orb_false_r. f_equal. lia. }
    destruct (Z.ltb_spec i 32).
    { rewrite Hhi, field_bits by lia. rewrite !Hbl by lia. split_range; rewrite ?orb_false_r; cbn [orb]; f_equal; lia. }
    rewrite !field_bits by lia. rewrite !Hbl, Hbh by lia. split_range; cbn [orb]; try (f_equal; lia).
    rewrite <-(Z.mod_small ptr (2 ^ 64)) by exact Hp. by rewrite Z.mod_pow2_bits_high by lia.
  - unfold segment_limit. rewrite (field_eq low 48 52 0), Z.shiftl_0_l, Z.lor_0_r.
    + apply field_eq; [lia|unfold in_width; simpl; lia|]. intros i Hi. rewrite Hbl by lia. split_range. f_equal. lia.
    + lia.
    + unfold in_width. lia.
    + intros i Hi. rewrite Hbl by lia. split_range. assert (i = 0 \/ i = 1 \/ i = 2 \/ i = 3) as [->|[->|[->| ->]]] by lia; reflexivity.
  - unfold is_available_tss. rewrite (field_eq low 40 45 9), (field_eq low 45 47 0).
    + rewrite !Hbl by lia. reflexivity.
    + lia.
    + unfold in_width. lia.
    + intros i Hi. rewrite Hbl by lia. assert (i = 0 \/ i = 1) as [->| ->] by lia; reflexivity.
    + lia.
    + unfold in_width. simpl. lia.
    + intros i Hi. rewrite Hbl by lia.
      assert (i = 0 \/ i = 1 \/ i = 2 \/ i = 3 \/ i = 4) as [->|[->|[->|[->| ->]]]] by lia; reflexivity.
Qed.

(** The descriptor of the TSS decodes, the way the processor decodes it, to the
    address of the segment and its size less one, and it is of the kind [ltr]
    accepts: an available 64-bit TSS, present, with a limit in bytes.  This holds
    for every 64-bit address. *)
Theorem tss_segment_roundtrip ptr :
  in_width 64 ptr ->
  exists low high, tss_segment ptr = Ok (SystemSegment low high) /\ in_width 64 low /\ in_width 64 high /\
    segment_base low high = ptr /\ segment_limit low = tss_size - 1 /\ is_available_tss low = true.
Proof.
  intros Hp. destruct (tss_segment_decodes ptr Hp) as (low & high & Hrun & Hl & Hh & Hd).
  by exists low, high.
Qed.

End Facts.

(** ** Concrete instances *)

#[local] Instance word_bits : BitField := {
  get_bits v lo hi := if (0 <=? lo) && (lo <? hi) && (hi <=? 64) then Ok (field v lo hi) else panic "out of range";
  set_bits v lo hi x :=
    if (0 <=? lo) && (lo <? hi) && (hi <=? 64) && fits (hi - lo) x
    then Ok (Z.lor (Z.ldiff v (Z.shiftl (Z.ones (hi - lo)) lo)) (Z.shiftl x lo)) else panic "out of range" }.

(** Bits from [w] on are clear in a [w]-bit word. *)
Lemma width_bits w x i : in_width w x -> 0 <= w <= i -> Z.testbit x i = false.
Proof. intros Hx Hi. rewrite <-(Z.mod_small x (2 ^ w)) by exact Hx. by apply Z.mod_pow2_bits_high. Qed.

Lemma bits_width w x : 0 <= w -> 0 <= x -> (forall i, w <= i -> Z.testbit x i = false) -> in_width w x.
Proof.
  intros Hw Hx Hb. assert (Hm : x = x mod 2 ^ w).
  { apply Z.bits_inj'. intros i Hi. destruct (Z.ltb_spec i w); [by rewrite Z.mod_pow2_bits_low|].
    rewrite Z.mod_pow2_bits_high by lia. apply Hb. lia. }
  rewrite Hm. unfold in_width. apply Z.mod_pos_bound. lia.
Qed.

#[local] Instance word_bits_ok : BitFieldOk.
Proof.
  split.
  - intros v lo hi Hv Hr Hh. exists (field v lo hi). cbn [get_bits word_bits]. split; [by split_range|]. split.
    + unfold in_width, field. apply Z.mod_pos_bound. lia.
    + intros i Hi. rewrite field_bits by lia. by split_range.
  - intros v lo hi x Hv Hr Hh Hx. eexists. cbn [set_bits word_bits].
    rewrite (proj2 (fits_spec (hi - lo) x) Hx). split; [split_range; reflexivity|].
    assert (Hb : forall i, 0 <= i ->
      Z.testbit (Z.lor (Z.ldiff v (Z.shiftl (Z.ones (hi - lo)) lo)) (Z.shiftl x lo)) i =
      if (lo <=? i) && (i <? hi) then Z.testbit x (i - lo) else Z.testbit v i).
    { intros i Hi. rewrite Z.lor_spec, Z.ldiff_spec, !Z.shiftl_spec by lia. split_range.
      - rewrite Z.ones_spec_low by lia. simpl. by rewrite andb_false_r.
      - rewrite Z.ones_spec_high, (width_bits _ x) by (done || lia). simpl. by rewrite andb_true_r, orb_false_r.
      - rewrite (Z.testbit_neg_r (Z.ones _)), (Z.testbit_neg_r x) by lia. simpl. by rewrite andb_true_r, orb_false_r. }
    split; [|exact Hb]. apply bits_width; [lia| |].
    + apply Z.lor_nonneg. split; [apply Z.ldiff_nonneg; left; apply Hv|apply Z.shiftl_nonneg, Hx].
    + intros i Hi. rewrite Hb by lia. split_range. by apply (width_bits 64).
Qed.

(** The TSS of the architecture has 104 bytes and seven interrupt stacks. *)
#[local] Instance long_mode_tables : X86Tables := {
  selector_new i rpl := Z.lor (Z.shiftl i 3) rpl;
  TaskStateSegment := list Z;
  tss_size := 104;
  tss_new := replicate 7 0;
  interrupt_stack_table t := t;
  with_stack_table l _ := l }.

#[local] Instance long_mode_tables_ok : X86TablesOk.
Proof.
  split; cbn [selector_new long_mode_tables tss_size tss_new interrupt_stack_table with_stack_table].
  - intros i rpl Hi Hr. rewrite Z.shiftl_mul_pow2, (lor_add _ _ 3) by (rewrite ?Z.mod_mul; lia). lia.
  - lia.
  - reflexivity.
  - done.
Qed.

Lemma tss_segment_roundtrip_witness :
  exists low high, tss_segment 0x123456789abcdef0 = Ok (SystemSegment low high) /\ segment_base low high = 0x123456789abcdef0.
Proof.
  destruct (tss_segment_roundtrip 0x123456789abcdef0) as (low & high & Hr & _ & _ & Hb & _); [unfold in_width; lia|].
  exists low, high. split; [exact Hr|exact Hb].
Defined.

Lemma add_entries_bounds_witness :
  match add_entries (replicate 4 (SystemSegment 1 2)) gdt_new with
  | Ok _ => False
  | Err e => e = EPanic "GDT full" /\ (7 < 8)%nat
  end.
Proof.
  pose proof (add_entries_bounds (replicate 4 (SystemSegment 1 2))) as Hb.
  destruct (add_entries (replicate 4 (SystemSegment 1 2)) gdt_new) as [[sels g]|e]; [|exact Hb].
  destruct Hb as (Ht & _). change (8 <= 7)%nat in Ht. lia.
Defined.
