(* ===== verification/TablesInit.v ===== *)
(** * [interrupts::init]: loading the tables

    [init] of [arch/x86_64/interrupts/mod.rs]: the stack for double faults, the
    statics [TSS] and [GDT] ([spin::Once]: the closure runs on the first call
    only), the selectors and the registers.  The addresses the linker gives the
    statics are parameters. *)

From S2P Require Import Prelude Frames FrameSource AreaAlloc Entry Mmu Table PageTree Mapper Boot.
From S2P Require Import StackAlloc MemoryInit Apic AcpiInit Idt Gdt.

Section Init.
Context `{BitField} `{X86Tables}.
Context (tss_addr gdt_addr : Z).

(** The memory, the statics and the registers. *)
Record tables := mkTables {
  ts_mm : machine;
  ts_tss : option TaskStateSegment;
  ts_gdt : option Gdt;
  ts_cpu : cpu_tables }.

Definition make_tss (double_fault_stack : Stack) : TaskStateSegment :=
  let tss := tss_new in
  with_stack_table (<[Z.to_nat DOUBLE_FAULT_IST_INDEX := stack_top double_fault_stack]> (interrupt_stack_table tss)) tss.

Definition make_gdt : outcome (Gdt * Z * Z) :=
  let? (code_selector, gdt) := add_entry kernel_code_segment gdt_new in
  let? d := tss_segment tss_addr in
  let? (tss_selector, gdt) := add_entry d gdt in
  Ok (gdt, code_selector, tss_selector).

Definition interrupts_init (mc : MemoryController) (st : tables) : outcome (MemoryController * tables) :=
  let? (o, mc, s) := mc_alloc_stack 1 mc (ts_mm st) in
  let? double_fault_stack := expect o "could not allocate double fault stack" in
  let tss := default (make_tss double_fault_stack) (ts_tss st) in
  let? (gdt, code_selector, tss_selector) :=
    match ts_gdt st with Some gdt => Ok (gdt, 0, 0) | None => make_gdt end in
  let? limit := gdt_limit gdt in
  let c := mkCpuTables (Some (gdt_addr, limit)) (r_cs (ts_cpu st)) (r_tr (ts_cpu st)) (r_idtr (ts_cpu st)) in
  let? c := set_cs code_selector gdt c in
  let? (gdt, c) := load_tss tss_selector gdt c in
  let c := mkCpuTables (r_gdtr c) (r_cs c) (r_tr c) true in
  Ok (mc, mkTables s (Some tss) (Some gdt) c).

(** ** Delivering an exception *)

(** The processor pushes the words of the interrupt frame. *)
Fixpoint push_frame (frame : list Z) (sp root : Z) (m : mem) : outcome mem :=
  match frame with
  | [] => Ok m
  | w :: frame => let? m := store64 m root (sp - 8) w in push_frame frame (sp - 8) root m
  end.

(** Delivery of vector [v]: on the stack of the gate's index in the TSS, or on
    the current one, aligned to 16 bytes. *)
Definition deliver (v rsp : Z) (frame : list Z) (st : tables) : outcome mem :=
  match IDT !! v with
  | None => Err (EProtection v)
  | Some g =>
      let sp :=
        match g_stack g, ts_tss st with
        | Some i, Some tss => default 0 (interrupt_stack_table tss !! Z.to_nat i)
        | _, _ => rsp
        end in
      push_frame frame (sp / 16 * 16) (active (ts_mm st)) (pm (ts_mm st))
  end.

Context `{!BitFieldOk} `{!X86TablesOk}.

(** The table [init] fills: the code segment at selector 8, the TSS at 16. *)
Lemma make_gdt_spec :
  in_width 64 tss_addr ->
  exists code low high g, make_gdt = Ok (g, 8, 16) /\ holds_words g [code; low; high] /\
    is_kernel_code code = true /\ is_available_tss low = true /\
    segment_base low high = tss_addr /\ segment_limit low = tss_size - 1.
Proof.
  intros Ha. unfold make_gdt. pose proof (add_entry_spec kernel_code_segment gdt_new [] gdt_new_holds) as Q1.
  destruct (add_entry kernel_code_segment gdt_new) as [[c g1]|e]; cbn [obind]; cycle 1.
  { destruct Q1 as [_ Q1]. simpl in Q1. lia. }
  destruct Q1 as [-> Hg1]. destruct (tss_segment_decodes tss_addr Ha) as (low & high & -> & _ & _ & Hb & Hl & Ht).
  cbn [obind]. pose proof (add_entry_spec (SystemSegment low high) g1 _ Hg1) as Q2.
  destruct (add_entry (SystemSegment low high) g1) as [[t g2]|e]; cbn [obind]; cycle 1.
  { destruct Q2 as [_ Q2]. simpl in Q2. lia. }
  destruct Q2 as [-> Hg2]. eexists _, low, high, g2. split; [reflexivity|]. split; [exact Hg2|].
  split; [reflexivity|]. done.
Qed.

(** Loading the tables [init] makes. *)
Lemma load_tables g code low high c :
  holds_words g [code; low; high] -> is_kernel_code code = true -> is_available_tss low = true ->
  gdt_limit g = Ok 63 /\ set_cs 8 g c = Ok (mkCpuTables (r_gdtr c) 8 (r_tr c) (r_idtr c)) /\
  exists g', load_tss 16 g c = Ok (g', mkCpuTables (r_gdtr c) (r_cs c)
    (Some (segment_base low high, segment_limit low)) (r_idtr c)).
Proof.
  intros Hg Hc Hl. pose proof (holds_length g _ Hg) as Hlen. destruct Hg as (_ & _ & Ht).
  split; [unfold gdt_limit; rewrite Hlen; reflexivity|]. split.
  - unfold set_cs. rewrite Ht. change (Z.to_nat (8 / 8)) with 1%nat. cbn [lookup list_lookup app]. rewrite Hc. reflexivity.
  - unfold load_tss. rewrite Ht. change (Z.to_nat (16 / 8)) with 2%nat. cbn [lookup list_lookup app]. rewrite Hl.
    eexists. reflexivity.
Qed.

(** A page that cannot be written takes no frame. *)
Lemma push_frame_faults frame sp root m :
  frame <> [] -> (forall v, store64 m root (sp - 8) v = Err (EFault (sp - 8))) ->
  push_frame frame sp root m = Err (EFault (sp - 8)).
Proof. intros Hne Hs. destruct frame as [|w frame]; [done|]. cbn [push_frame]. by rewrite Hs. Qed.

(** What the first call of [init] leaves behind when the stacks start at page
    [first]: GDTR, CS and the task register of the tables, IDTR, the double fault
    stack in the TSS, and one more page, read-only. *)
Record tables_loaded (first r : Z) (st st' : tables) : Prop := {
  tl_cpu : ts_cpu st' = mkCpuTables (Some (gdt_addr, 63)) 8 (Some (tss_addr, tss_size - 1)) true;
  tl_tss : exists tss, ts_tss st' = Some tss /\ interrupt_stack_table tss !! 0%nat = Some ((first + 2) * PAGE_SIZE);
  tl_active : active (ts_mm st') = active (ts_mm st);
  tl_inv : exists O', mm_inv (ts_mm st') r O';
  tl_stack : walk (pm (ts_mm st)) r (mkPage (first + 1)) = None /\
    exists f, walk (pm (ts_mm st')) r (mkPage (first + 1)) = Some (f, read_execute);
  tl_walk q : user_page q -> pnumber q <> first + 1 -> walk (pm (ts_mm st')) r q = walk (pm (ts_mm st)) r q }.

Section Correct.
Context (mc : MemoryController) (st : tables) (r : Z) (O : gmap Z (list Z)) (first last_ : Z).
Hypothesis Hinv : mm_inv (ts_mm st) r O.
Hypothesis Hact : active (ts_mm st) = r.
Hypothesis Hsa : sa_pages (mc_stacks mc) first last_.
Hypothesis Hf : 0 <= first.
Hypothesis Hl : last_ < 2 ^ 35.
Hypothesis H4 : forall k, first <= k <= last_ -> p4_index (mkPage k) <> 511.
Hypothesis Htss : ts_tss st = None.
Hypothesis Hgdt : ts_gdt st = None.
Hypothesis Ha : in_width 64 tss_addr.

Lemma interrupts_init_spec :
  match interrupts_init mc st with
  | Ok (mc', st') => first + 1 <= last_ /\ sa_pages (mc_stacks mc') (first + 2) last_ /\ tables_loaded first r st st'
  | Err e =>
      e = EPanic "could not allocate double fault stack" /\ last_ < first + 1 \/
      e = oom_panic \/ e = huge_panic \/ e = frames_panic \/ e = unused_panic
  end.
Proof.
  unfold interrupts_init, mc_alloc_stack.
  destruct (alloc_stack 1 (mc_stacks mc) (ts_mm st)) as [[[res sa'] s']|e] eqn:E; cbn [obind]; cycle 1.
  { right. by eapply alloc_stack_errors; [exact Hinv|exact Hsa| | | | |exact E]. }
  pose proof (alloc_stack_spec 1 first last_ _ _ r O res sa' s' Hinv Hsa ltac:(lia) Hf Hl H4 E) as Hs.
  destruct res as [stk|]; cbn [expect obind]; [|left; split; [done|lia]].
  destruct Hs as (Hle & Hsa' & Hbot & Htop & Hac & HO & Hst & _ & Hoth). rewrite Hgdt, Htss. cbn [from_option id].
  destruct (make_gdt_spec Ha) as (code & low & high & g & -> & Hg & Hc & Hav & Hb & Hlim). cbn [obind].
  destruct (load_tables g code low high
    (mkCpuTables (Some (gdt_addr, 63)) (r_cs (ts_cpu st)) (r_tr (ts_cpu st)) (r_idtr (ts_cpu st))) Hg Hc Hav)
    as (-> & Hcs & _). cbn [obind]. rewrite Hcs. cbn [obind r_gdtr r_cs r_tr r_idtr].
  destruct (load_tables g code low high (mkCpuTables (Some (gdt_addr, 63)) 8 (r_tr (ts_cpu st)) (r_idtr (ts_cpu st))) Hg Hc Hav)
    as (_ & _ & g' & ->). cbn [obind r_gdtr r_cs r_tr r_idtr ts_cpu ts_tss ts_mm mc_stacks].
  split; [lia|]. split; [by replace (first + 2) with (first + 1 + 1) by lia|]. split.
  - cbn [ts_cpu]. by rewrite Hb, Hlim.
  - eexists. split; [reflexivity|]. unfold make_tss. rewrite stack_table_ok.
    change (Z.to_nat DOUBLE_FAULT_IST_INDEX) with 0%nat.
    rewrite list_lookup_insert_eq by (rewrite tss_new_ok; lia). f_equal. unfold PAGE_SIZE in *. lia.
  - exact Hac.
  - exact HO.
  - apply Hst. lia.
  - intros q Hq Hne. apply Hoth; [done|lia].
Qed.

(** A double fault cannot be delivered on the stack made for it. *)
Lemma double_fault_faults st' rsp frame :
  first + 1 <= last_ -> tables_loaded first r st st' -> frame <> [] ->
  deliver (vector DoubleFault) rsp frame st' = Err (EFault ((first + 2) * PAGE_SIZE - 8)).
Proof.
  intros Hle [_ (tss & Htss' & Hist) Hac _ [_ [f Hro]] _] Hne. unfold deliver.
  assert (Hgate : IDT !! vector DoubleFault = Some (mkGate (HException DoubleFault) (Some 0))) by (vm_compute; reflexivity).
  rewrite Hgate. cbn [g_stack]. rewrite Htss'. change (Z.to_nat 0) with 0%nat. rewrite Hist. cbn [from_option id].
  replace ((first + 2) * PAGE_SIZE / 16 * 16) with ((first + 2) * PAGE_SIZE)
    by (unfold PAGE_SIZE; Z.div_mod_to_equations; lia).
  apply push_frame_faults; [done|]. intros v. unfold store64. case_if_as Hal; [done|]. rewrite Hac, Hact.
  replace (((first + 2) * PAGE_SIZE - 8) / PAGE_SIZE) with (first + 1) by (unfold PAGE_SIZE; Z.div_mod_to_equations; lia).
  by rewrite Hro.
Qed.

(** C11: [interrupts::init] on its first call: it loads a GDT of eight entries, CS with
    a long mode code segment, the task register with the base and the limit of
    the static TSS, whose first interrupt stack is the top of a fresh one-page
    stack above a guard page, and IDTR; no other page's translation changes
    ([tables_loaded]).  It fails only when the stack cannot be allocated.  But the
    stack allocator maps the stack read-only: when a double fault is delivered,
    the first word the processor pushes faults again, so its handler is never
    entered. *)
Theorem interrupts_init_correct :
  match interrupts_init mc st with
  | Ok (mc', st') =>
      first + 1 <= last_ /\ sa_pages (mc_stacks mc') (first + 2) last_ /\ tables_loaded first r st st' /\
      (forall rsp frame, frame <> [] ->
         deliver (vector DoubleFault) rsp frame st' = Err (EFault ((first + 2) * PAGE_SIZE - 8)))
  | Err e =>
      e = EPanic "could not allocate double fault stack" /\ last_ < first + 1 \/
      e = oom_panic \/ e = huge_panic \/ e = frames_panic \/ e = unused_panic
  end.
Proof.
  pose proof interrupts_init_spec as Hs. destruct (interrupts_init mc st) as [[mc' st']|e]; [|exact Hs].
  destruct Hs as (Hle & Hsa' & Ht). split; [exact Hle|]. split; [exact Hsa'|]. split; [exact Ht|].
  intros rsp frame Hne. by apply double_fault_faults.
Qed.

End Correct.

(** The statics are initialised once: a second call of [init] finds the GDT in
    place, its selectors stay null, and loading CS faults. *)
Lemma interrupts_init_once mc st g ws :
  ts_gdt st = Some g -> holds_words g ws ->
  forall x, interrupts_init mc st <> Ok x.
Proof.
  intros Hg Hw x. unfold interrupts_init. rewrite Hg. destruct (mc_alloc_stack 1 mc (ts_mm st)) as [[[o mc'] s]|e]; [|done].
  cbn [obind]. destruct o as [stk|]; [|done]. cbn [expect obind]. unfold gdt_limit. rewrite (holds_length g ws Hw).
  cbn [usize_mul]. unfold set_cs. change (Z.to_nat (0 / 8)) with 0%nat.
  change (0 / 8 =? 0) with true. cbn [negb andb]. by destruct (gdt_table g !! 0%nat).
Qed.

End Init.

(** ** A concrete machine *)

#[local] Existing Instances word_bits word_bits_ok long_mode_tables long_mode_tables_ok.

Definition demo_tables : tables := mkTables boot_state None None (mkCpuTables None 8 None false).

(** The run, as booleans to compute. *)
Lemma demo_init_ok :
  ok_bool (interrupts_init 0x150000 0x151000 (mkController demo_stacks) demo_tables) = true.
Proof. vm_compute. reflexivity. Qed.

Lemma interrupts_init_correct_witness :
  exists mc' st', interrupts_init 0x150000 0x151000 (mkController demo_stacks) demo_tables = Ok (mc', st') /\
    ts_cpu st' = mkCpuTables (Some (0x151000, 63)) 8 (Some (0x150000, 103)) true /\
    deliver 8 0 [0; 0; 0; 0; 0; 0] st' = Err (EFault (0x4007f * PAGE_SIZE - 8)).
Proof.
  pose proof demo_init_ok as Hok. assert (Hf : 0 <= 0x4007d) by lia. assert (Hl : 0x400e1 < 2 ^ 35) by lia.
  assert (Hw : in_width 64 0x150000) by (unfold in_width; lia).
  pose proof (interrupts_init_correct 0x150000 0x151000 (mkController demo_stacks) demo_tables 0x180 boot_own
    0x4007d 0x400e1 boot_state_inv eq_refl eq_refl Hf Hl demo_stack_pages eq_refl eq_refl Hw) as Hc.
  destruct (interrupts_init 0x150000 0x151000 (mkController demo_stacks) demo_tables) as [[mc' st']|e]; [|discriminate Hok].
  destruct Hc as (_ & _ & [Hcpu _ _ _ _ _] & Hdf). exists mc', st'. split; [reflexivity|]. split; [exact Hcpu|].
  apply (Hdf 0 [0; 0; 0; 0; 0; 0]). discriminate.
Defined.
