(* ===== verification/Start.v ===== *)
(** * From the boot loader to [kmain]

    [arch/x86_64/asm]: [boot.asm] checks the processor, builds the first page tables
    and switches to long mode; [long_mode_init.asm] calls [kmain].  A multiboot 2
    loader enters [start] in protected mode with a magic number in [eax] and the
    address of its information structure in [ebx].

    The state is what the routines leave behind; [eax], [ecx], [edx] and [ebx] are
    scratch registers, local to a routine (the magic number and the character of
    [error] are arguments).  What CPUID answers is a parameter. *)

From S2P Require Import Prelude Fmt Frames FrameSource Entry Mmu Table PageTree Boot Gdt.

(** ** The processor *)

(** CPUID, as (eax, ebx, ecx, edx) by leaf, and whether bit 21 of the flags can be
    changed, which says that the instruction exists. *)
Class Cpu := { cpuid : Z -> Z * Z * Z * Z; id_flag : bool }.

Definition cpuid_eax `{Cpu} (leaf : Z) : Z := let '(a, _, _, _) := cpuid leaf in a.
Definition cpuid_edx `{Cpu} (leaf : Z) : Z := let '(_, _, _, d) := cpuid leaf in d.

Record boot_cpu := mkBootCpu {
  edi : Z;
  eflags : Z;
  r_cr0 : Z; r_cr3 : Z; r_cr4 : Z; r_efer : Z;
  lma : bool;                        (* long mode is active *)
  gdtr : option (Z * Z); cs : Z;     (* base and limit; selector *)
  data_segments : list Z;            (* ss, ds, es, fs, gs *)
  memory : mem;
  text_ram : gmap Z Z }.             (* the bytes from 0xb8000 *)

Definition with_edi (v : Z) (s : boot_cpu) : boot_cpu :=
  mkBootCpu v (eflags s) (r_cr0 s) (r_cr3 s) (r_cr4 s) (r_efer s) (lma s) (gdtr s) (cs s) (data_segments s) (memory s) (text_ram s).
Definition with_eflags (v : Z) (s : boot_cpu) : boot_cpu :=
  mkBootCpu (edi s) v (r_cr0 s) (r_cr3 s) (r_cr4 s) (r_efer s) (lma s) (gdtr s) (cs s) (data_segments s) (memory s) (text_ram s).
Definition with_cr3 (v : Z) (s : boot_cpu) : boot_cpu :=
  mkBootCpu (edi s) (eflags s) (r_cr0 s) v (r_cr4 s) (r_efer s) (lma s) (gdtr s) (cs s) (data_segments s) (memory s) (text_ram s).
Definition with_cr4 (v : Z) (s : boot_cpu) : boot_cpu :=
  mkBootCpu (edi s) (eflags s) (r_cr0 s) (r_cr3 s) v (r_efer s) (lma s) (gdtr s) (cs s) (data_segments s) (memory s) (text_ram s).
Definition with_efer (v : Z) (s : boot_cpu) : boot_cpu :=
  mkBootCpu (edi s) (eflags s) (r_cr0 s) (r_cr3 s) (r_cr4 s) v (lma s) (gdtr s) (cs s) (data_segments s) (memory s) (text_ram s).
Definition with_gdtr (v : Z * Z) (s : boot_cpu) : boot_cpu :=
  mkBootCpu (edi s) (eflags s) (r_cr0 s) (r_cr3 s) (r_cr4 s) (r_efer s) (lma s) (Some v) (cs s) (data_segments s) (memory s) (text_ram s).
Definition with_data (v : list Z) (s : boot_cpu) : boot_cpu :=
  mkBootCpu (edi s) (eflags s) (r_cr0 s) (r_cr3 s) (r_cr4 s) (r_efer s) (lma s) (gdtr s) (cs s) v (memory s) (text_ram s).
Definition with_memory (m : mem) (s : boot_cpu) : boot_cpu :=
  mkBootCpu (edi s) (eflags s) (r_cr0 s) (r_cr3 s) (r_cr4 s) (r_efer s) (lma s) (gdtr s) (cs s) (data_segments s) m (text_ram s).
Definition with_text (v : gmap Z Z) (s : boot_cpu) : boot_cpu :=
  mkBootCpu (edi s) (eflags s) (r_cr0 s) (r_cr3 s) (r_cr4 s) (r_efer s) (lma s) (gdtr s) (cs s) (data_segments s) (memory s) v.

(** How a piece of the start-up ends: it goes on, stops at [hlt] (interrupts are off),
    or takes a general protection fault, for which there is no handler yet. *)
Inductive asm_run := Runs (s : boot_cpu) | Halted (s : boot_cpu) | Faults.

Definition then_do (r : asm_run) (k : boot_cpu -> asm_run) : asm_run :=
  match r with Runs s => k s | Halted s => Halted s | Faults => Faults end.
Infix ">>>" := then_do (at level 50, left associativity) : kernel_scope.

(** *** Instructions with conditions *)

(** [popfd] of a value that differs from the flags at most in bit 21. *)
Definition popfd `{Cpu} (v : Z) (s : boot_cpu) : boot_cpu :=
  with_eflags (if id_flag then v else if Z.testbit (eflags s) 21 then Z.setbit v 21 else Z.clearbit v 21) s.

(** [mov cr0, eax]: paging needs protected mode, and PAE when long mode is enabled,
    which it then activates. *)
Definition write_cr0 (v : Z) (s : boot_cpu) : asm_run :=
  let pg := Z.testbit v 31 in
  let lme := Z.testbit (r_efer s) 8 in
  if pg && (negb (Z.testbit v 0) || (lme && negb (Z.testbit (r_cr4 s) 5))) then Faults
  else Runs (mkBootCpu (edi s) (eflags s) v (r_cr3 s) (r_cr4 s) (r_efer s) (pg && lme) (gdtr s) (cs s)
    (data_segments s) (memory s) (text_ram s)).

(** A far jump to [sel]: with [table] at the base of the GDT, the selector must name a
    64-bit code segment within the limit. *)
Definition jmp_far (table : list Z) (sel : Z) (s : boot_cpu) : asm_run :=
  match gdtr s, table !! Z.to_nat (sel / 8) with
  | Some (_, limit), Some low =>
      if negb (sel / 8 =? 0) && (sel + 7 <=? limit) && is_kernel_code low && lma s
      then Runs (mkBootCpu (edi s) (eflags s) (r_cr0 s) (r_cr3 s) (r_cr4 s) (r_efer s) (lma s) (gdtr s) sel
        (data_segments s) (memory s) (text_ram s))
      else Faults
  | _, _ => Faults
  end.

(** [rdmsr] and [wrmsr] split a register into [edx] and [eax]. *)
Definition rdmsr_efer (s : boot_cpu) : Z * Z := (Z.shiftr (r_efer s) 32, trunc 32 (r_efer s)).
Definition wrmsr_efer (edx eax : Z) (s : boot_cpu) : boot_cpu := with_efer (Z.lor (Z.shiftl edx 32) eax) s.

(** A store of [n] bytes, the low byte first. *)
Definition store_bytes (n addr v : Z) (ram : gmap Z Z) : gmap Z Z :=
  foldl (fun ram k => <[addr + k := Z.land (Z.shiftr v (8 * k)) 0xff]> ram) ram (seqZ 0 n).

(** ** [boot.asm] *)

Section Boot.
Context `{Cpu}.
(** The frames of the tables in the [bss], and the address of the GDT. *)
Context (p4_table p3_table p2_table gdt64 : Z).

(** [error]: "ERR: " and the code, then [hlt]. *)
Definition asm_error (al : Z) (s : boot_cpu) : asm_run :=
  let ram := store_bytes 4 0xb8000 0x4f524f45 (text_ram s) in
  let ram := store_bytes 4 0xb8004 0x4f3a4f52 ram in
  let ram := store_bytes 4 0xb8008 0x4f204f20 ram in
  let ram := store_bytes 1 0xb800a al ram in
  Halted (with_text ram s).

Definition check_multiboot (eax : Z) (s : boot_cpu) : asm_run :=
  if eax =? 0x36d76289 then Runs s else asm_error 48 s.

Definition check_cpuid (s : boot_cpu) : asm_run :=
  let eax := eflags s in
  let ecx := eax in
  let eax := Z.lxor eax (Z.shiftl 1 21) in
  let s := popfd eax s in
  let eax := eflags s in
  let s := popfd ecx s in
  if eax =? ecx then asm_error 49 s else Runs s.

Definition check_long_mode (s : boot_cpu) : asm_run :=
  if cpuid_eax 0x80000000 <? 0x80000001 then asm_error 50 s
  else if Z.land (cpuid_edx 0x80000001) (Z.shiftl 1 29) =? 0 then asm_error 50 s
  else Runs s.

Definition enable_paging (s : boot_cpu) : asm_run :=
  let s := with_cr3 (p4_table * PAGE_SIZE) s in
  let s := with_cr4 (Z.lor (r_cr4 s) (Z.shiftl 1 5)) s in
  let (edx, eax) := rdmsr_efer s in
  let s := wrmsr_efer edx (Z.lor eax (Z.shiftl 1 8)) s in
  write_cr0 (Z.lor (r_cr0 s) (Z.shiftl 1 31)) s.

(** [and ax, v] and [or ax, v] change the low half of [eax]. *)
Definition and_ax (eax v : Z) : Z := Z.lor (Z.ldiff eax 0xFFFF) (Z.land (Z.land eax 0xFFFF) v).
Definition or_ax (eax v : Z) : Z := Z.lor (Z.ldiff eax 0xFFFF) (Z.lor (Z.land eax 0xFFFF) v).

Definition set_up_SSE (s : boot_cpu) : asm_run :=
  if Z.land (cpuid_edx 0x1) (Z.shiftl 1 25) =? 0 then asm_error 97 s
  else
    write_cr0 (or_ax (and_ax (r_cr0 s) 0xFFFB) 0x2) s >>> fun s =>
    Runs (with_cr4 (or_ax (r_cr4 s) (Z.shiftl 3 9)) s).

(** [gdt64]: an empty entry and the code segment. *)
Definition gdt64_code : Z :=
  Z.lor (Z.lor (Z.lor (Z.shiftl 1 44) (Z.shiftl 1 47)) (Z.shiftl 1 43)) (Z.shiftl 1 53).
Definition gdt64_table : list Z := [0; gdt64_code].

(** [long_mode_start], up to the call of [kmain]. *)
Definition long_mode_start (s : boot_cpu) : asm_run := Runs (with_data (replicate 5 0) s).

(** [start]; the machine after it is the one [kmain] is called on, with [edi] as its
    argument. *)
Definition start (eax ebx : Z) (s : boot_cpu) : asm_run :=
  let s := with_edi ebx s in
  check_multiboot eax s >>>
  check_cpuid >>>
  check_long_mode >>> fun s =>
  let s := with_memory (set_up_page_tables (memory s) p4_table p3_table p2_table) s in
  enable_paging s >>>
  set_up_SSE >>> fun s =>
  let s := with_gdtr (gdt64, 8 * Z.of_nat (length gdt64_table) - 1) s in
  jmp_far gdt64_table 8 s >>>
  long_mode_start.

(** [os_returned]: what happens if [kmain] returns. *)
Definition os_returned (s : boot_cpu) : asm_run :=
  let ram := store_bytes 8 0xb8000 0x4f724f204f534f4f (text_ram s) in
  let ram := store_bytes 8 0xb8008 0x4f724f754f744f65 ram in
  let ram := store_bytes 8 0xb8010 0x4f214f644f654f6e ram in
  Halted (with_text ram s).

(** The multiboot header: its 32-bit words, the last two as the fields of the end tag. *)
Definition HEADER_LENGTH : Z := 24.
Definition multiboot_header : list Z :=
  [0xe85250d6; 0; HEADER_LENGTH; 0x100000000 - (0xe85250d6 + 0 + HEADER_LENGTH); 0; 8].

(** ** Properties *)

(** The first [n] characters on the screen. *)
Definition shown (n : Z) (s : boot_cpu) : list Z :=
  (fun k => default 0 (text_ram s !! (0xb8000 + 2 * k))) <$> seqZ 0 n.

(** What is missing, as the code of the message; [None] if nothing is. *)
Definition missing (eax : Z) : option Z :=
  if negb (eax =? 0x36d76289) then Some 48
  else if negb id_flag then Some 49
  else if (cpuid_eax 0x80000000 <? 0x80000001) || negb (Z.testbit (cpuid_edx 0x80000001) 29) then Some 50
  else if negb (Z.testbit (cpuid_edx 0x1) 25) then Some 97
  else None.

Lemma land_bit x n : 0 <= n -> (Z.land x (Z.shiftl 1 n) =? 0) = negb (Z.testbit x n).
Proof.
  intros Hn. rewrite Z.shiftl_1_l. destruct (Z.testbit x n) eqn:Eb; simpl.
  - apply Z.eqb_neq. intros E. apply (f_equal (fun y => Z.testbit y n)) in E.
    rewrite Z.land_spec, Z.pow2_bits_true, Eb, Z.bits_0 in E by done. done.
  - apply Z.eqb_eq, Z.bits_inj'. intros k Hk. rewrite Z.land_spec, Z.bits_0.
    destruct (decide (k = n)) as [->|]; [by rewrite Eb|]. rewrite Z.pow2_bits_false, andb_false_r by done. done.
Qed.

Lemma store_bytes_lookup n addr v ram a :
  0 <= n -> store_bytes n addr v ram !! a =
  if decide (addr <= a < addr + n) then Some (Z.land (Z.shiftr v (8 * (a - addr))) 0xff) else ram !! a.
Proof.
  intros Hn. unfold store_bytes. pattern n. apply natlike_ind; [|clear n Hn; intros n Hn IH|done].
  { rewrite decide_False by lia. done. }
  rewrite <-(Z2Nat.id n), <-Nat2Z.inj_succ, seqZ_S, foldl_snoc, Z2Nat.id by lia. rewrite Z.add_0_l, lookup_insert.
  rewrite Nat2Z.inj_succ, Z2Nat.id by lia. rewrite IH. clear IH.
  destruct (decide (addr + n = a)) as [<-|]; [rewrite decide_True by lia; do 3 f_equal; lia|].
  destruct (decide (addr <= a < addr + n)); [by rewrite decide_True by lia|by rewrite decide_False by lia].
Qed.

(** Computes what stores leave at given addresses. *)
Ltac read_stores :=
  repeat (rewrite store_bytes_lookup by lia;
    first [rewrite decide_True by lia|rewrite decide_False by lia]).

Lemma asm_error_shown al s : 0 <= al < 256 -> exists s', asm_error al s = Halted s' /\ shown 6 s' = bytes_of "ERR: " ++ [al].
Proof.
  intros Hal. eexists. split; [reflexivity|]. unfold shown. cbn [text_ram with_text].
  change (seqZ 0 6) with [0; 1; 2; 3; 4; 5]. cbn [fmap list_fmap]. read_stores. cbn [default].
  change (8 * (0xb8000 + 2 * 5 - 0xb800a)) with 0. rewrite (Z.shiftr_0_r al).
  change 0xff with (Z.ones 8). rewrite (Z.land_ones al 8), Z.mod_small by lia. done.
Qed.

Lemma flip_id v : Z.lxor v (Z.shiftl 1 21) <> v.
Proof.
  intros E. apply (f_equal (fun y => Z.testbit y 21)) in E. rewrite Z.lxor_spec, Z.shiftl_spec in E by lia.
  change (Z.testbit 1 (21 - 21)) with true in E. by destruct (Z.testbit v 21).
Qed.

Lemma setbit_id v n : 0 <= n -> Z.testbit v n = true -> Z.setbit v n = v.
Proof.
  intros Hn Hb. apply Z.bits_inj'. intros k Hk. rewrite Z.setbit_eqb by done.
  destruct (Z.eqb_spec n k) as [<-|]; [by rewrite Hb|done].
Qed.

Lemma clearbit_id v n : 0 <= n -> Z.testbit v n = false -> Z.clearbit v n = v.
Proof.
  intros Hn Hb. apply Z.bits_inj'. intros k Hk. rewrite Z.clearbit_eqb by done.
  destruct (Z.eqb_spec n k) as [<-|]; [by rewrite Hb|by rewrite andb_true_r].
Qed.

(** Without the instruction, writing the flags leaves bit 21. *)
Lemma unflip v :
  (if Z.testbit v 21 then Z.setbit (Z.lxor v (Z.shiftl 1 21)) 21 else Z.clearbit (Z.lxor v (Z.shiftl 1 21)) 21) = v.
Proof.
  apply Z.bits_inj'. intros k Hk. change (Z.shiftl 1 21) with (2 ^ 21).
  destruct (Z.testbit v 21) eqn:Eb; rewrite ?Z.setbit_eqb, ?Z.clearbit_eqb, Z.lxor_spec by lia.
  - destruct (Z.eqb_spec 21 k) as [<-|]; [by rewrite Eb|]. rewrite Z.pow2_bits_false, xorb_false_r by done. done.
  - destruct (Z.eqb_spec 21 k) as [<-|]; [by rewrite andb_false_r|].
    rewrite Z.pow2_bits_false, xorb_false_r, andb_true_r by done. done.
Qed.

Lemma popfd_same s : popfd (eflags s) s = s.
Proof.
  assert (Hs : with_eflags (eflags s) s = s) by (by destruct s).
  unfold popfd. destruct id_flag; [done|].
  destruct (Z.testbit (eflags s) 21) eqn:Eb; [rewrite setbit_id by done|rewrite clearbit_id by done]; done.
Qed.

Lemma popfd_flip s :
  popfd (Z.lxor (eflags s) (Z.shiftl 1 21)) s =
  if id_flag then with_eflags (Z.lxor (eflags s) (Z.shiftl 1 21)) s else s.
Proof.
  unfold popfd. destruct id_flag; [done|]. rewrite unflip. by destruct s.
Qed.

Lemma check_cpuid_spec s : check_cpuid s = if id_flag then Runs s else asm_error 49 s.
Proof.
  unfold check_cpuid. rewrite popfd_flip. destruct id_flag eqn:Eid.
  - cbn [eflags with_eflags]. destruct (Z.eqb_spec (Z.lxor (eflags s) (Z.shiftl 1 21)) (eflags s)) as [E|];
      [by apply flip_id in E|]. unfold popfd. rewrite Eid. by destruct s.
  - by rewrite Z.eqb_refl, popfd_same.
Qed.

Lemma testbit_high v i : 0 <= v < 2 ^ 16 -> 16 <= i -> Z.testbit v i = false.
Proof.
  intros Hv Hi. destruct (Z.eq_dec v 0) as [->|]; [apply Z.bits_0|]. apply Z.bits_above_log2; [lia|].
  apply Z.log2_lt_pow2; [lia|]. pose proof (Z.pow_le_mono_r 2 16 i). lia.
Qed.

(** The bits of a register of which one half is changed. *)
Lemma and_ax_bit x v i : 0 <= i -> Z.testbit (and_ax x v) i = Z.testbit x i && (if i <? 16 then Z.testbit v i else true).
Proof.
  intros Hi. unfold and_ax. change 0xFFFF with (Z.ones 16).
  rewrite Z.lor_spec, Z.ldiff_spec, !Z.land_spec, Z.testbit_ones_nonneg by lia. destruct (i <? 16); simpl.
  - by rewrite andb_false_r, andb_true_r.
  - by rewrite !andb_true_r, andb_false_r, orb_false_r.
Qed.

Lemma or_ax_bit x v i : 0 <= i -> 0 <= v < 2 ^ 16 -> Z.testbit (or_ax x v) i = Z.testbit x i || Z.testbit v i.
Proof.
  intros Hi Hv. unfold or_ax. change 0xFFFF with (Z.ones 16).
  rewrite !Z.lor_spec, Z.ldiff_spec, !Z.land_spec, Z.testbit_ones_nonneg by lia. destruct (Z.ltb_spec i 16); simpl.
  - by rewrite andb_false_r, andb_true_r.
  - rewrite !andb_true_r, andb_false_r. rewrite (testbit_high v) by lia. by rewrite !orb_false_r.
Qed.

(** The flags, control registers and descriptor table [kmain] starts with. *)
Record entered (eax ebx : Z) (s s' : boot_cpu) : Prop := {
  en_argument : edi s' = ebx;
  en_flags : eflags s' = eflags s;
  en_cr0 : forall i, 0 <= i -> Z.testbit (r_cr0 s') i =
    if decide (i = 2) then false else if decide (i = 1 \/ i = 31) then true else Z.testbit (r_cr0 s) i;
  en_cr3 : r_cr3 s' = p4_table * PAGE_SIZE;
  en_cr4 : forall i, 0 <= i -> Z.testbit (r_cr4 s') i =
    if decide (i = 5 \/ i = 9 \/ i = 10) then true else Z.testbit (r_cr4 s) i;
  en_efer : forall i, 0 <= i -> Z.testbit (r_efer s') i = if decide (i = 8) then true else Z.testbit (r_efer s) i;
  en_long : lma s' = true;
  en_gdt : gdtr s' = Some (gdt64, 15) /\ cs s' = 8 /\ data_segments s' = replicate 5 0;
  en_memory : memory s' = set_up_page_tables (memory s) p4_table p3_table p2_table;
  en_text : text_ram s' = text_ram s }.

Lemma or_bit x k i : 0 <= i -> 0 <= k -> Z.testbit (Z.lor x (Z.shiftl 1 k)) i = Z.testbit x i || (i =? k).
Proof. intros Hi Hk. rewrite Z.lor_spec, Z.shiftl_1_l, Z.pow2_bits_eqb, Z.eqb_sym by done. done. Qed.

(** Reading the register and writing it back with a bit of its low half set. *)
Lemma efer_bit s i :
  0 <= i -> (let (edx, eax) := rdmsr_efer s in
    Z.testbit (r_efer (wrmsr_efer edx (Z.lor eax (Z.shiftl 1 8)) s)) i) =
  if decide (i = 8) then true else Z.testbit (r_efer s) i.
Proof.
  intros Hi. unfold rdmsr_efer, wrmsr_efer, trunc. cbn [r_efer with_efer].
  rewrite Z.lor_spec, or_bit by lia. rewrite <-Z.land_ones, Z.land_spec, Z.testbit_ones_nonneg by lia.
  case_decide as E; [subst; by rewrite Z.eqb_refl, !orb_true_r|]. destruct (Z.eqb_spec i 8); [done|]. rewrite orb_false_r.
  destruct (Z.ltb_spec i 32).
  - rewrite Z.shiftl_spec_low by lia. by rewrite andb_true_r.
  - rewrite Z.shiftl_spec, Z.shiftr_spec, andb_false_r, orb_false_r by lia. f_equal. lia.
Qed.

(** Paging comes on in long mode. *)
Lemma enable_paging_spec s :
  Z.testbit (r_cr0 s) 0 = true ->
  exists s', enable_paging s = Runs s' /\ lma s' = true /\ r_cr3 s' = p4_table * PAGE_SIZE /\
    r_cr0 s' = Z.lor (r_cr0 s) (Z.shiftl 1 31) /\ r_cr4 s' = Z.lor (r_cr4 s) (Z.shiftl 1 5) /\
    (forall i, 0 <= i -> Z.testbit (r_efer s') i = if decide (i = 8) then true else Z.testbit (r_efer s) i) /\
    edi s' = edi s /\ eflags s' = eflags s /\ memory s' = memory s /\ text_ram s' = text_ram s.
Proof.
  intros Hpe. unfold enable_paging.
  set (s1 := with_cr4 _ _). pose proof (efer_bit s1) as Hef. destruct (rdmsr_efer s1) as [edx eax]. cbv beta iota in Hef.
  set (s2 := wrmsr_efer edx _ s1) in *. unfold write_cr0. change (r_cr0 s2) with (r_cr0 s).
  assert (Hpg : Z.testbit (Z.lor (r_cr0 s) (Z.shiftl 1 31)) 31 = true) by (rewrite or_bit by lia; apply orb_true_r).
  assert (Hpe' : Z.testbit (Z.lor (r_cr0 s) (Z.shiftl 1 31)) 0 = true) by (rewrite or_bit by lia; by rewrite Hpe).
  assert (Hlme : Z.testbit (r_efer s2) 8 = true) by (by rewrite Hef).
  assert (Hpae : Z.testbit (r_cr4 s2) 5 = true).
  { change (r_cr4 s2) with (Z.lor (r_cr4 s) (Z.shiftl 1 5)). rewrite or_bit by lia. apply orb_true_r. }
  rewrite Hpg, Hpe', Hlme, Hpae. cbn [negb andb orb]. eexists. split; [reflexivity|]. cbn. split_and!; try done.
Qed.

(** The constants of [set_up_SSE], bit by bit. *)
Lemma bits_of_half v l i :
  0 <= i -> 0 <= v < 2 ^ 16 -> filter (fun i => Z.testbit v i = true) (seqZ 0 16) = l ->
  Z.testbit v i = bool_decide (i ∈ l).
Proof.
  intros Hi Hv <-. destruct (Z.testbit v i) eqn:Eb.
  - symmetry. apply bool_decide_eq_true, list_elem_of_filter. split; [done|]. apply elem_of_seqZ. split; [done|].
    destruct (Z.lt_ge_cases i (0 + 16)) as [|Hge]; [done|]. by rewrite testbit_high in Eb by lia.
  - symmetry. apply bool_decide_eq_false. intros [Hb _]%list_elem_of_filter. congruence.
Qed.

Lemma cr0_SSE x i :
  0 <= i -> Z.testbit (or_ax (and_ax x 0xFFFB) 0x2) i =
  if decide (i = 2) then false else if decide (i = 1) then true else Z.testbit x i.
Proof.
  intros Hi. rewrite or_ax_bit, and_ax_bit by lia. 
  rewrite (bits_of_half 0xFFFB [0; 1; 3; 4; 5; 6; 7; 8; 9; 10; 11; 12; 13; 14; 15]), (bits_of_half 0x2 [1])
    by (lia || reflexivity).
  destruct (decide (i = 2)) as [->|]; [by destruct (Z.testbit x 2)|].
  destruct (decide (i = 1)) as [->|]; [by destruct (Z.testbit x 1)|].
  rewrite (bool_decide_false (i ∈ [1])), orb_false_r by (rewrite list_elem_of_singleton; done).
  destruct (Z.ltb_spec i 16); [|by rewrite andb_true_r].
  rewrite bool_decide_true, andb_true_r; [done|]. rewrite !elem_of_cons. lia.
Qed.

Lemma cr4_SSE x i :
  0 <= i -> Z.testbit (or_ax x (Z.shiftl 3 9)) i = if decide (i = 9 \/ i = 10) then true else Z.testbit x i.
Proof.
  intros Hi. change (Z.shiftl 3 9) with 0x600. rewrite or_ax_bit, (bits_of_half 0x600 [9; 10]) by (lia || reflexivity).
  destruct (decide (i = 9 \/ i = 10)) as [E|E].
  - rewrite bool_decide_true; [apply orb_true_r|]. rewrite !elem_of_cons. tauto.
  - rewrite bool_decide_false; [apply orb_false_r|]. rewrite !elem_of_cons, elem_of_nil. tauto.
Qed.

Lemma SSE_missing s : Z.testbit (cpuid_edx 0x1) 25 = false -> set_up_SSE s = asm_error 97 s.
Proof. intros Hb. unfold set_up_SSE. by rewrite land_bit, Hb by lia. Qed.

Lemma set_up_SSE_spec s :
  Z.testbit (cpuid_edx 0x1) 25 = true -> Z.testbit (r_cr0 s) 0 = true -> Z.testbit (r_cr0 s) 31 = true ->
  Z.testbit (r_efer s) 8 = true -> Z.testbit (r_cr4 s) 5 = true ->
  exists s', set_up_SSE s = Runs s' /\ lma s' = true /\ r_cr3 s' = r_cr3 s /\ r_efer s' = r_efer s /\
    (forall i, 0 <= i -> Z.testbit (r_cr0 s') i =
       if decide (i = 2) then false else if decide (i = 1) then true else Z.testbit (r_cr0 s) i) /\
    (forall i, 0 <= i -> Z.testbit (r_cr4 s') i = if decide (i = 9 \/ i = 10) then true else Z.testbit (r_cr4 s) i) /\
    edi s' = edi s /\ eflags s' = eflags s /\ memory s' = memory s /\ text_ram s' = text_ram s.
Proof.
  intros Hsse Hpe Hpg Hlme Hpae. unfold set_up_SSE. rewrite land_bit, Hsse by lia. cbn [negb].
  pose proof (cr0_SSE (r_cr0 s)) as Hcr0. pose proof (cr4_SSE (r_cr4 s)) as Hcr4. unfold write_cr0.
  set (v0 := or_ax (and_ax (r_cr0 s) 0xFFFB) 0x2) in *.
  assert (H31 : Z.testbit v0 31 = true) by (by rewrite Hcr0).
  assert (H0 : Z.testbit v0 0 = true) by (by rewrite Hcr0).
  rewrite H31, H0, Hlme, Hpae. cbn [negb andb orb then_do]. eexists. split; [reflexivity|].
  split_and!; try reflexivity; [exact Hcr0|exact Hcr4].
Qed.

Lemma gdt64_is_code : is_kernel_code gdt64_code = true.
Proof. reflexivity. Qed.

Lemma check_long_mode_spec s :
  check_long_mode s =
  if (cpuid_eax 0x80000000 <? 0x80000001) || negb (Z.testbit (cpuid_edx 0x80000001) 29) then asm_error 50 s else Runs s.
Proof. unfold check_long_mode. rewrite land_bit by lia. by destruct (_ <? _), (Z.testbit _ 29). Qed.

Lemma missing_cases eax :
  match missing eax with
  | Some c => c = 48 \/ c = 49 \/ c = 50 \/ c = 97 /\ Z.testbit (cpuid_edx 0x1) 25 = false
  | None => Z.testbit (cpuid_edx 0x1) 25 = true
  end.
Proof.
  unfold missing. destruct (negb (eax =? _)); [tauto|]. destruct (negb id_flag); [tauto|].
  destruct (_ || _); [tauto|]. destruct (Z.testbit (cpuid_edx 1) 25); simpl; tauto.
Qed.

(** The checks, up to the page tables. *)
Lemma checks_spec eax ebx s :
  check_multiboot eax (with_edi ebx s) >>> check_cpuid >>> check_long_mode =
  match missing eax with
  | Some 97 | None => Runs (with_edi ebx s)
  | Some c => asm_error c (with_edi ebx s)
  end.
Proof.
  unfold check_multiboot, missing. destruct (eax =? _); cbn [negb then_do]; [|done].
  rewrite check_cpuid_spec. destruct id_flag; cbn [negb then_do]; [|done].
  rewrite check_long_mode_spec. destruct (_ || _); [done|]. by destruct (Z.testbit (cpuid_edx 1) 25).
Qed.

Lemma start_spec eax ebx s :
  Z.testbit (r_cr0 s) 0 = true ->
  match missing eax with
  | Some c => exists s', start eax ebx s = Halted s' /\ shown 6 s' = bytes_of "ERR: " ++ [c]
  | None => exists s', start eax ebx s = Runs s' /\ entered eax ebx s s'
  end.
Proof.
  intros Hpe. unfold start. rewrite checks_spec. pose proof (missing_cases eax) as Hc.
  set (s1 := with_edi ebx s). set (s2 := with_memory (set_up_page_tables (memory s1) p4_table p3_table p2_table) s1).
  destruct (enable_paging_spec s2 Hpe) as (s3 & Hp & Hl3 & Hcr3 & Hcr0 & Hcr4 & Hef & Hedi & Hfl & Hm & Htx).
  change (r_cr0 s2) with (r_cr0 s) in Hcr0. change (r_cr4 s2) with (r_cr4 s) in Hcr4. change (r_efer s2) with (r_efer s) in Hef.
  destruct (missing eax) as [c|].
  - destruct (decide (c = 97)) as [->|Hne].
    + cbn [then_do]. fold s2. rewrite Hp. cbn [then_do]. rewrite SSE_missing by (destruct Hc as [E|[E|[E|[_ E]]]]; done). cbn [then_do].
      destruct (asm_error_shown 97 s3 ltac:(lia)) as (s' & -> & Hs). by exists s'.
    + destruct (asm_error_shown c s1 ltac:(lia)) as (s' & He & Hs). exists s'. split; [|exact Hs].
      destruct Hc as [->|[->|[->|[-> _]]]]; try done; by rewrite He.
  - cbn [then_do]. fold s2. rewrite Hp. cbn [then_do].
    destruct (set_up_SSE_spec s3) as (s4 & -> & Hl4 & Hcr3' & Hef' & Hcr0' & Hcr4' & Hedi' & Hfl' & Hm' & Htx');
      [done|by rewrite Hcr0, or_bit, Hpe by lia|rewrite Hcr0, or_bit by lia; apply orb_true_r|by rewrite Hef
      |rewrite Hcr4, or_bit by lia; apply orb_true_r|].
    cbn [then_do]. unfold jmp_far. cbn [gdtr with_gdtr]. change (gdt64_table !! Z.to_nat (8 / 8)) with (Some gdt64_code).
    cbv beta iota. change (negb (8 / 8 =? 0) && (8 + 7 <=? 8 * Z.of_nat (length gdt64_table) - 1) && is_kernel_code gdt64_code)
      with true. change (lma (with_gdtr _ s4)) with (lma s4). rewrite Hl4. cbn [andb then_do].
    eexists. split; [reflexivity|]. split; cbn; try (etransitivity; eassumption).
    + intros i Hi. rewrite Hcr0', Hcr0, or_bit by lia.
      destruct (decide (i = 2)); [done|]. destruct (decide (i = 1)); [by rewrite decide_True by tauto|].
      destruct (Z.eqb_spec i 31); [rewrite decide_True by tauto; apply orb_true_r|]. rewrite decide_False by tauto. apply orb_false_r.
    + intros i Hi. rewrite Hcr4', Hcr4, or_bit by lia.
      destruct (decide (i = 9 \/ i = 10)); [by rewrite decide_True by tauto|].
      destruct (Z.eqb_spec i 5); [rewrite decide_True by tauto; apply orb_true_r|]. rewrite decide_False by tauto. apply orb_false_r.
    + intros i Hi. by rewrite Hef', Hef.
    + done.
    + done.
Qed.

(** C20: Entered by a multiboot loader in protected mode, [start] either stops with
    "ERR: " and the code of the first thing that is missing on the screen, or, when
    nothing is, gets to [kmain] with the address of the multiboot structure as its
    argument, in 64-bit mode: paging on the new tables, SSE enabled, the other
    control bits and the flags as they were.  It never faults. *)
Theorem start_correct eax ebx s :
  Z.testbit (r_cr0 s) 0 = true ->
  match missing eax with
  | Some c => exists s', start eax ebx s = Halted s' /\ shown 6 s' = bytes_of "ERR: " ++ [c]
  | None => exists s', start eax ebx s = Runs s' /\ entered eax ebx s s'
  end.
Proof. apply start_spec. Qed.

(** The header a multiboot 2 loader looks for: its four words add up to zero, and its
    length is that of its fields. *)
Theorem multiboot_header_valid :
  foldl Z.add 0 (take 4 multiboot_header) mod 2 ^ 32 = 0 /\ HEADER_LENGTH = 4 * Z.of_nat (length multiboot_header).
Proof. split; reflexivity. Qed.

(** [kmain] does not return; if it did, the machine would say so and stop. *)
Theorem os_returned_shown s :
  exists s', os_returned s = Halted s' /\ shown 12 s' = bytes_of "OS returned!".
Proof.
  eexists. split; [reflexivity|]. unfold shown. cbn [text_ram with_text].
  change (seqZ 0 12) with [0; 1; 2; 3; 4; 5; 6; 7; 8; 9; 10; 11]. cbn [fmap list_fmap]. read_stores. reflexivity.
Qed.

End Boot.

(** ** A processor with everything, and one without SSE *)

Definition modern_cpu (sse : bool) : Cpu := {|
  cpuid := fun leaf =>
    if leaf =? 0x80000000 then (0x80000008, 0, 0, 0)
    else if leaf =? 0x80000001 then (0, 0, 0, Z.shiftl 1 29)
    else (0, 0, 0, if sse then Z.shiftl 1 25 else 0);
  id_flag := true |}.

Definition modern_cpu_full : Cpu := modern_cpu true.

(** Protected mode without paging, on zeroed memory. *)
Definition loaded : boot_cpu := mkBootCpu 0 2 0x11 0 0 0 false None 0x10 [] ∅ ∅.

Lemma start_correct_witness :
  (exists s', @start (modern_cpu true) 0x180 0x181 0x182 0x102000 0x36d76289 0x9500 loaded = Runs s' /\
     edi s' = 0x9500 /\ lma s' = true /\ r_cr3 s' = 0x180000) /\
  (exists s', @start (modern_cpu false) 0x180 0x181 0x182 0x102000 0x36d76289 0x9500 loaded = Halted s' /\
     shown 6 s' = bytes_of "ERR: a").
Proof.
  split.
  - destruct (@start_correct (modern_cpu true) 0x180 0x181 0x182 0x102000 0x36d76289 0x9500 loaded eq_refl)
      as (s' & Hrun & [Ha _ _ Hc _ _ Hl _ _ _]).
    exists s'. split; [exact Hrun|]. split; [exact Ha|]. split; [exact Hl|exact Hc].
  - destruct (@start_correct (modern_cpu false) 0x180 0x181 0x182 0x102000 0x36d76289 0x9500 loaded eq_refl)
      as (s' & Hrun & Hs). exists s'. split; [exact Hrun|exact Hs].
Defined.
