(* ===== verification/Vga.v ===== *)
(** * The VGA text console

    [device/vga/buffer.rs] and [device/vga/vga.rs]: virtual text buffers, the
    screen they are copied to, the hardware cursor and the switch between
    terminals.  The specification is a terminal as its user sees it: the lines
    above, and the line being typed. *)

From S2P Require Import Prelude Ports.

Definition BUFFER_WIDTH : Z := 80.
Definition BUFFER_HEIGHT : Z := 25.

(** Colours by their numbers ([repr(u8)]). *)
Inductive Color :=
  | Black | Blue | Green | Cyan | Red | Magenta | Brown | LightGray
  | DarkGray | LightBlue | LightGreen | LightCyan | LightRed | Pink | Yellow | White.

Definition color_u8 (c : Color) : Z :=
  match c with
  | Black => 0 | Blue => 1 | Green => 2 | Cyan => 3 | Red => 4 | Magenta => 5 | Brown => 6
  | LightGray => 7 | DarkGray => 8 | LightBlue => 9 | LightGreen => 10 | LightCyan => 11
  | LightRed => 12 | Pink => 13 | Yellow => 14 | White => 15
  end.

Definition color_code_new (foreground background : Color) : Z :=
  Z.lor (shl_w 8 (color_u8 background) 4) (color_u8 foreground).

Record TextBuffer := mkBuffer {
  chars : list (list Z);
  column_position : Z;
  color_code : Z;
  active_tty : bool }.

(** The memory at 0xb8000, by row and column, and the ports of the cursor. *)
Record vga := mkVga { frame : gmap (Z * Z) (Z * Z); vlog : io_log }.

(** [chars[row][col]], read and written: out of bounds panics. *)
Definition char_at (m : list (list Z)) (row col : Z) : outcome Z :=
  match m !! Z.to_nat row with
  | Some r => expect (r !! Z.to_nat col) "index out of bounds"
  | None => panic "index out of bounds"
  end.

Definition set_char (m : list (list Z)) (row col b : Z) : outcome (list (list Z)) :=
  match m !! Z.to_nat row with
  | Some r =>
      let? _ := expect (r !! Z.to_nat col) "index out of bounds" in
      Ok (<[Z.to_nat row := <[Z.to_nat col := b]> r]> m)
  | None => panic "index out of bounds"
  end.

Definition set_chars (t : TextBuffer) (m : list (list Z)) : TextBuffer :=
  mkBuffer m (column_position t) (color_code t) (active_tty t).
Definition set_column (t : TextBuffer) (c : Z) : TextBuffer :=
  mkBuffer (chars t) c (color_code t) (active_tty t).

(** ** [vga.rs] *)

Definition sync_buffer (buffer : TextBuffer) (v : vga) : outcome vga :=
  ofold (fun row v =>
    ofold (fun col v =>
      let? c := char_at (chars buffer) row col in
      Ok (mkVga (<[(row, col) := (c, color_code buffer)]> (frame v)) (vlog v)))
    (seqZ 0 BUFFER_WIDTH) v) (seqZ 0 BUFFER_HEIGHT) v.

Definition update_cursor (row col : Z) (v : vga) : outcome vga :=
  let? a := mul_w 16 BUFFER_WIDTH (trunc 16 row) in
  let? pos := add_w 16 a (trunc 16 col) in
  let l := port_out 8 0x3D4 0x0F (vlog v) in
  let l := port_out 8 0x3D5 (trunc 8 (Z.land pos 0xFF)) l in
  let l := port_out 8 0x3D4 0x0E l in
  let l := port_out 8 0x3D5 (trunc 8 (Z.land (Z.shiftr pos 8) 0xFF)) l in
  Ok (mkVga (frame v) l).

(** ** [buffer.rs] *)

Definition sync (t : TextBuffer) (v : vga) : outcome vga :=
  let? v := sync_buffer t v in
  let? row := usize_sub BUFFER_HEIGHT 1 in
  update_cursor row (column_position t) v.

(** [if self.active { self.sync() }] *)
Definition sync_if_active (t : TextBuffer) (v : vga) : outcome (TextBuffer * vga) :=
  if active_tty t then let? v := sync t v in Ok (t, v) else Ok (t, v).

Definition clear_row (row : Z) (t : TextBuffer) : outcome TextBuffer :=
  let? m := ofold (fun col m => set_char m row col 32) (seqZ 0 BUFFER_WIDTH) (chars t) in
  Ok (set_chars t m).

Definition new_line (t : TextBuffer) (v : vga) : outcome (TextBuffer * vga) :=
  let? m :=
    ofold (fun row m =>
      ofold (fun col m =>
        let? c := char_at m row col in
        let? r := usize_sub row 1 in
        set_char m r col c)
      (seqZ 0 BUFFER_WIDTH) m) (seqZ 1 (BUFFER_HEIGHT - 1)) (chars t) in
  let? t := clear_row (BUFFER_HEIGHT - 1) (set_chars t m) in
  sync_if_active (set_column t 0) v.

Definition delete_byte (t : TextBuffer) (v : vga) : outcome (TextBuffer * vga) :=
  if column_position t =? 0 then Ok (t, v) else
  let? col := usize_sub (column_position t) 1 in
  let? m := set_char (chars t) (BUFFER_HEIGHT - 1) col 32 in
  let? c := usize_sub (column_position t) 1 in
  sync_if_active (set_column (set_chars t m) c) v.

(** [write_byte] on a byte that is not a newline, backspace or tab. *)
Definition write_plain (byte : Z) (t : TextBuffer) (v : vga) : outcome (TextBuffer * vga) :=
  let? (t, v) := if BUFFER_WIDTH <=? column_position t then new_line t v else Ok (t, v) in
  let row := BUFFER_HEIGHT - 1 in
  let col := column_position t in
  let? m := set_char (chars t) row col byte in
  let? c := usize_add (column_position t) 1 in
  sync_if_active (set_column (set_chars t m) c) v.

Definition write_byte (byte : Z) (t : TextBuffer) (v : vga) : outcome (TextBuffer * vga) :=
  if byte =? 10 then let? (t, v) := new_line t v in sync_if_active t v
  else if byte =? 8 then let? (t, v) := delete_byte t v in sync_if_active t v
  else if byte =? 9 then
    let? (t, v) := ofold (fun _ '(t, v) => write_plain 32 t v) (seq 0 4) (t, v) in sync_if_active t v
  else write_plain byte t v.

Definition write_str (s : list Z) (t : TextBuffer) (v : vga) : outcome (TextBuffer * vga) :=
  ofold (fun byte '(t, v) => write_byte byte t v) s (t, v).

(** [SCREEN] and [TTYS]. *)
Definition blank : list (list Z) := replicate 25 (replicate 80 32).

Definition SCREEN : TextBuffer := mkBuffer blank 0 (color_code_new LightGray Black) true.

Definition tty_init : option (list TextBuffer) :=
  Some (replicate 6 (mkBuffer blank 0 (color_code_new LightGray Black) false)).

(** [switch]: the list of terminals is copied, so [TTYS] itself does not change. *)
Definition switch (index : Z) (ttys : option (list TextBuffer)) (screen : TextBuffer) : outcome TextBuffer :=
  match ttys with
  | None => panic "TTY list called before init."
  | Some list =>
      let? t := expect (list !! Z.to_nat index) "index out of bounds" in
      Ok (mkBuffer (chars t) (column_position t) (color_code t) true)
  end.

Definition clear_screen (t : TextBuffer) (v : vga) : outcome (TextBuffer * vga) :=
  ofold (fun _ '(t, v) => new_line t v) (seqZ 0 BUFFER_HEIGHT) (t, v).

(** ** The terminal its user sees *)

(** 24 lines above, and the line being typed. *)
Record term := mkTerm { above : list (list Z); line : list Z }.

Definition pad (l : list Z) : list Z := l ++ replicate (80 - length l) 32.

Definition spec_newline (s : term) : term := mkTerm (tail (above s) ++ [pad (line s)]) [].

Definition spec_plain (b : Z) (s : term) : term :=
  let s := if decide (length (line s) = 80%nat) then spec_newline s else s in
  mkTerm (above s) (line s ++ [b]).

Definition spec_write (b : Z) (s : term) : term :=
  if b =? 10 then spec_newline s
  else if b =? 8 then mkTerm (above s) (removelast (line s))
  else if b =? 9 then Nat.iter 4 (spec_plain 32) s
  else spec_plain b s.

(** A buffer that shows the terminal [s]. *)
Record shows (t : TextBuffer) (s : term) : Prop := {
  sh_chars : chars t = above s ++ [pad (line s)];
  sh_above : length (above s) = 24%nat /\ Forall (fun r => length r = 80%nat) (above s);
  sh_column : column_position t = Z.of_nat (length (line s));
  sh_line : (length (line s) <= 80)%nat }.

(** The screen shows the buffer and the cursor is behind its last character. *)
Definition on_screen (t : TextBuffer) (v : vga) : Prop :=
  (forall row col, 0 <= row < 25 -> 0 <= col < 80 ->
     exists c, char_at (chars t) row col = Ok c /\ frame v !! (row, col) = Some (c, color_code t)) /\
  exists l, vlog v = l ++ [POut 8 0x3D4 0x0F; POut 8 0x3D5 ((24 * 80 + column_position t) mod 256);
                          POut 8 0x3D4 0x0E; POut 8 0x3D5 ((24 * 80 + column_position t) / 256)].

(** *** Rows and columns *)

Definition rect (m : list (list Z)) : Prop := length m = 25%nat /\ Forall (fun r => length r = 80%nat) m.

Lemma rect_row m row : rect m -> 0 <= row < 25 -> exists r, m !! Z.to_nat row = Some r /\ length r = 80%nat.
Proof.
  intros [Hl Hr] Hrow. destruct (lookup_lt_is_Some_2 m (Z.to_nat row)) as [r Hm]; [lia|].
  exists r. split; [done|]. by eapply Forall_lookup_1 in Hr.
Qed.

Lemma char_at_rect m row col r :
  m !! Z.to_nat row = Some r -> char_at m row col = expect (r !! Z.to_nat col) "index out of bounds".
Proof. intros H. unfold char_at. by rewrite H. Qed.

Lemma set_char_eq m row col b r :
  m !! Z.to_nat row = Some r -> 0 <= col < Z.of_nat (length r) ->
  set_char m row col b = Ok (<[Z.to_nat row := <[Z.to_nat col := b]> r]> m).
Proof.
  intros Hr Hc. unfold set_char. rewrite Hr.
  destruct (lookup_lt_is_Some_2 r (Z.to_nat col)) as [x ->]; [lia|]. done.
Qed.

(** Copying a row: [for col in 0..80 { m[r][col] = src[col] }]. *)
Lemma copy_row (step : Z -> list (list Z) -> outcome (list (list Z))) m r dst src :
  m !! Z.to_nat r = Some dst -> length dst = 80%nat -> length src = 80%nat ->
  (forall m' col b row, m' !! Z.to_nat r = Some row -> length row = 80%nat ->
     (forall j, j <> Z.to_nat r -> m' !! j = m !! j) ->
     src !! Z.to_nat col = Some b -> 0 <= col < 80 ->
     step col m' = Ok (<[Z.to_nat r := <[Z.to_nat col := b]> row]> m')) ->
  ofold step (seqZ 0 80) m = Ok (<[Z.to_nat r := src]> m).
Proof.
  intros Hm Hd Hs Hstep.
  assert (Hgo : forall n, (n <= 80)%nat ->
    ofold step (seqZ 0 (Z.of_nat n)) m = Ok (<[Z.to_nat r := take n src ++ drop n dst]> m)).
  { induction n as [|n IH]; intros Hn.
    - simpl. by rewrite list_insert_id.
    - rewrite seqZ_S, ofold_app, IH by lia. cbn [obind ofold].
      destruct (lookup_lt_is_Some_2 src n) as [b Hb]; [lia|]. rewrite Z.add_0_l.
      pose proof (lookup_lt_Some _ _ _ Hm) as Hlt.
      rewrite (Hstep _ (Z.of_nat n) b (take n src ++ drop n dst)).
      + cbn [obind]. rewrite list_insert_insert_eq. do 2 f_equal. rewrite Nat2Z.id.
        rewrite (take_S_r _ _ _ Hb). destruct (lookup_lt_is_Some_2 dst n) as [d Hdn]; [lia|].
        rewrite (drop_S _ _ _ Hdn), <-app_assoc.
        rewrite insert_app_r_alt by (rewrite length_take; lia).
        rewrite length_take, Nat.min_l, Nat.sub_diag by lia. done.
      + by rewrite list_lookup_insert_eq.
      + rewrite length_app, length_take, length_drop. lia.
      + intros j Hj. by rewrite list_lookup_insert_ne by congruence.
      + by rewrite Nat2Z.id.
      + lia. }
  change 80 with (Z.of_nat 80). rewrite Hgo by lia. do 2 f_equal.
  rewrite take_ge, drop_ge by lia. by rewrite app_nil_r.
Qed.

(** One pass of the inner loop of [new_line]: row [row] is copied up. *)
Lemma scroll_row m row dst src :
  1 <= row < 25 -> m !! Z.to_nat (row - 1) = Some dst -> m !! Z.to_nat row = Some src ->
  length dst = 80%nat -> length src = 80%nat ->
  ofold (fun col m => let? c := char_at m row col in let? r := usize_sub row 1 in set_char m r col c)
    (seqZ 0 BUFFER_WIDTH) m = Ok (<[Z.to_nat (row - 1) := src]> m).
Proof.
  intros Hrow Hd Hs Hld Hls. apply (copy_row _ m (row - 1) dst src Hd Hld Hls).
  intros m' col b r Hr Hlr Hother Hb Hc.
  rewrite (char_at_rect m' row col src) by (rewrite Hother by lia; done). rewrite Hb. cbn [expect obind].
  rewrite sub_w_fits by (unfold in_width; lia). cbn [obind]. apply set_char_eq; [done|lia].
Qed.

(** Scrolling cell by cell drops the first row. *)
Lemma scroll_rows m :
  rect m ->
  ofold (fun row m =>
    ofold (fun col m => let? c := char_at m row col in let? r := usize_sub row 1 in set_char m r col c)
      (seqZ 0 BUFFER_WIDTH) m) (seqZ 1 (BUFFER_HEIGHT - 1)) m = Ok (tail m ++ drop 24 m).
Proof.
  intros Hm. pose proof Hm as [Hlen Hrows].
  assert (Ht : forall i, tail m !! i = m !! S i) by (intros i; by destruct m).
  assert (Hlt : length (tail m) = 24%nat) by (destruct m; simpl in *; lia).
  enough (Hgo : forall n, (n <= 24)%nat ->
    ofold (fun row m =>
      ofold (fun col m => let? c := char_at m row col in let? r := usize_sub row 1 in set_char m r col c)
        (seqZ 0 BUFFER_WIDTH) m) (seqZ 1 (Z.of_nat n)) m = Ok (take n (tail m) ++ drop n m)).
  { change (BUFFER_HEIGHT - 1) with (Z.of_nat 24). rewrite Hgo by lia. by rewrite take_ge by lia. }
  induction n as [|n IH]; intros Hn; [done|].
  rewrite seqZ_S, ofold_app, IH by lia. cbn [obind ofold].
  destruct (lookup_lt_is_Some_2 m n) as [dst Hd]; [lia|].
  destruct (lookup_lt_is_Some_2 m (S n)) as [src Hs]; [lia|].
  assert (Hk : length (take n (tail m)) = n) by (rewrite length_take; lia).
  rewrite (scroll_row _ (1 + Z.of_nat n) dst src).
  - cbn [obind]. do 2 f_equal. replace (Z.to_nat (1 + Z.of_nat n - 1)) with n by lia.
    rewrite insert_app_r_alt, Hk, Nat.sub_diag by lia.
    rewrite (drop_S _ _ _ Hd), (drop_S _ _ _ Hs).
    rewrite (take_S_r _ _ src) by (by rewrite Ht). by rewrite <-app_assoc.
  - lia.
  - rewrite lookup_app_r by lia. rewrite Hk, lookup_drop. rewrite <-Hd. f_equal. lia.
  - rewrite lookup_app_r by lia. rewrite Hk, lookup_drop. rewrite <-Hs. f_equal. lia.
  - by eapply Forall_lookup_1 in Hrows.
  - by eapply Forall_lookup_1 in Hrows.
Qed.

Lemma clear_row_eq t row old :
  0 <= row -> chars t !! Z.to_nat row = Some old -> length old = 80%nat ->
  clear_row row t = Ok (set_chars t (<[Z.to_nat row := replicate 80 32]> (chars t))).
Proof.
  intros Hrow Ho Hl. unfold clear_row, BUFFER_WIDTH.
  rewrite (copy_row _ (chars t) row old (replicate 80 32) Ho Hl); [done|done|].
  intros m' col b r Hr Hlr _ Hb Hc. apply lookup_replicate in Hb as [-> _]. apply set_char_eq; [done|lia].
Qed.

(** *** Copying the buffer to the screen *)

Lemma sync_buffer_spec t v :
  rect (chars t) ->
  exists v', sync_buffer t v = Ok v' /\ vlog v' = vlog v /\
    forall row col, 0 <= row < 25 -> 0 <= col < 80 ->
      exists c, char_at (chars t) row col = Ok c /\ frame v' !! (row, col) = Some (c, color_code t).
Proof.
  intros Hm. unfold sync_buffer.
  assert (Hchar : forall row col, 0 <= row < 25 -> 0 <= col < 80 ->
    exists c, char_at (chars t) row col = Ok c).
  { intros row col Hr Hc. destruct (rect_row _ row Hm Hr) as (r & Hrow & Hl).
    rewrite (char_at_rect _ _ _ _ Hrow). destruct (lookup_lt_is_Some_2 r (Z.to_nat col)) as [c ->]; [lia|].
    by exists c. }
  assert (Hrow : forall row n v, 0 <= row < 25 -> (n <= 80)%nat ->
    exists v', ofold (fun col v => let? c := char_at (chars t) row col in
        Ok (mkVga (<[(row, col) := (c, color_code t)]> (frame v)) (vlog v))) (seqZ 0 (Z.of_nat n)) v = Ok v' /\
      vlog v' = vlog v /\
      (forall r col, r <> row -> frame v' !! (r, col) = frame v !! (r, col)) /\
      forall col, 0 <= col < Z.of_nat n -> exists c, char_at (chars t) row col = Ok c /\
        frame v' !! (row, col) = Some (c, color_code t)).
  { intros row n v0 Hr. induction n as [|n IH]; intros Hn.
    { exists v0. split_and!; [done..|]. intros; lia. }
    destruct IH as (v1 & Hrun & Hlog & Hout & Hin); [lia|].
    rewrite seqZ_S, ofold_app, Hrun. cbn [obind ofold].
    destruct (Hchar row (0 + Z.of_nat n)) as [c Hc]; [lia|lia|]. rewrite Hc. cbn [obind].
    eexists. split; [done|]. simpl. split; [done|]. split.
    - intros r col Hne. rewrite lookup_insert_ne by congruence. by apply Hout.
    - intros col Hcol. destruct (decide (col = 0 + Z.of_nat n)) as [->|Hne].
      + exists c. by rewrite lookup_insert_eq.
      + rewrite lookup_insert_ne by congruence. apply Hin. lia. }
  enough (Hgo : forall n, (n <= 25)%nat ->
    exists v', ofold (fun row v => ofold (fun col v => let? c := char_at (chars t) row col in
        Ok (mkVga (<[(row, col) := (c, color_code t)]> (frame v)) (vlog v))) (seqZ 0 BUFFER_WIDTH) v)
        (seqZ 0 (Z.of_nat n)) v = Ok v' /\ vlog v' = vlog v /\
      forall row col, 0 <= row < Z.of_nat n -> 0 <= col < 80 ->
        exists c, char_at (chars t) row col = Ok c /\ frame v' !! (row, col) = Some (c, color_code t)).
  { apply (Hgo 25%nat). lia. }
  induction n as [|n IH]; intros Hn.
  { exists v. split_and!; [done..|]. intros; lia. }
  destruct IH as (v1 & Hrun & Hlog & Hin); [lia|]. rewrite seqZ_S, ofold_app, Hrun. cbn [obind ofold].
  destruct (Hrow (0 + Z.of_nat n) 80%nat v1) as (v2 & Hrun2 & Hlog2 & Hout2 & Hin2); [lia|lia|].
  change (Z.of_nat 80) with BUFFER_WIDTH in Hrun2. rewrite Hrun2. cbn [obind].
  exists v2. split; [done|]. split; [congruence|]. intros row col Hr Hc.
  destruct (decide (row = 0 + Z.of_nat n)) as [->|Hne]; [apply Hin2; simpl; lia|].
  rewrite Hout2 by done. apply Hin; lia.
Qed.

Lemma sync_spec t v :
  rect (chars t) -> 0 <= column_position t <= 80 -> exists v', sync t v = Ok v' /\ on_screen t v'.
Proof.
  intros Hm Hc. unfold sync. destruct (sync_buffer_spec t v Hm) as (v1 & -> & Hlog & Hfr). cbn [obind].
  unfold BUFFER_HEIGHT. rewrite sub_w_fits by (unfold in_width; lia). cbn [obind].
  unfold update_cursor, BUFFER_WIDTH, trunc. rewrite !Z.mod_small by lia.
  rewrite mul_w_fits by (unfold in_width; lia). cbn [obind].
  rewrite add_w_fits by (unfold in_width; lia). cbn [obind]. eexists. split; [done|].
  split; [done|]. exists (vlog v1). simpl. unfold port_out. rewrite <-!app_assoc. simpl.
  change 255 with (Z.ones 8). rewrite !Z.land_ones, Z.shiftr_div_pow2 by lia.
  change (2 ^ 8) with 256. rewrite !Zmod_mod. change (80 * 24) with (24 * 80).
  rewrite (Z.mod_small ((24 * 80 + column_position t) / 256)) by (Z.div_mod_to_equations; lia). done.
Qed.

Lemma sync_if_active_spec t v :
  rect (chars t) -> 0 <= column_position t <= 80 ->
  exists v', sync_if_active t v = Ok (t, v') /\ (active_tty t = true -> on_screen t v').
Proof.
  intros Hm Hc. unfold sync_if_active. destruct (active_tty t).
  - destruct (sync_spec t v Hm Hc) as (v' & -> & Hs). by exists v'.
  - by exists v.
Qed.

(** *** The operations implement the terminal *)

Lemma pad_length l : (length l <= 80)%nat -> length (pad l) = 80%nat.
Proof. intros H. unfold pad. rewrite length_app, length_replicate. lia. Qed.

Lemma pad_snoc l b : (length l < 80)%nat -> <[length l := b]> (pad l) = pad (l ++ [b]).
Proof.
  intros H. unfold pad. rewrite length_app. simpl.
  rewrite insert_app_r_alt, Nat.sub_diag by lia.
  replace (80 - length l)%nat with (S (80 - (length l + 1))) by lia. simpl. by rewrite <-app_assoc.
Qed.

Lemma pad_removelast l :
  (0 < length l <= 80)%nat -> <[(length l - 1)%nat := 32]> (pad l) = pad (removelast l).
Proof.
  intros H. destruct (exists_last (l := l)) as (l0 & x & ->); [by intros ->; simpl in H; lia|].
  rewrite removelast_last. rewrite length_app in *. simpl in *. unfold pad. rewrite length_app. simpl.
  rewrite <-app_assoc. rewrite insert_app_r_alt by lia.
  replace (length l0 + 1 - 1 - length l0)%nat with 0%nat by lia. simpl.
  by replace (80 - length l0)%nat with (S (80 - (length l0 + 1))) by lia.
Qed.

Lemma shows_rect t s : shows t s -> rect (chars t) /\ 0 <= column_position t <= 80.
Proof.
  intros [Hc [Ha Hf] Hcol Hl]. rewrite Hc, Hcol. split; [|lia]. split.
  - rewrite length_app. simpl. lia.
  - apply Forall_app. split; [done|]. repeat constructor. by apply pad_length.
Qed.

Lemma last_row t s : shows t s -> chars t !! 24%nat = Some (pad (line s)).
Proof.
  intros [Hc [Ha _] _ _]. rewrite Hc, lookup_app_r by lia. by rewrite Ha.
Qed.

Lemma set_last t s col b :
  shows t s -> 0 <= col < 80 ->
  set_char (chars t) (BUFFER_HEIGHT - 1) col b = Ok (above s ++ [<[Z.to_nat col := b]> (pad (line s))]).
Proof.
  intros Hs Hc. pose proof (last_row t s Hs) as Hl. destruct Hs as [Hch [Ha _] _ Hlen].
  rewrite (set_char_eq _ _ _ _ (pad (line s))) by (done || rewrite pad_length by done; lia).
  change (Z.to_nat (BUFFER_HEIGHT - 1)) with 24%nat.
  rewrite Hch, insert_app_r_alt by (rewrite Ha; lia). rewrite Ha. done.
Qed.

(** What an operation does to a buffer that shows [s]: it shows [s'], with its
    colour, and the screen follows if the buffer is active. *)
Definition becomes (t : TextBuffer) (s' : term) (c : outcome (TextBuffer * vga)) : Prop :=
  exists t' v', c = Ok (t', v') /\ shows t' s' /\ color_code t' = color_code t /\
    active_tty t' = active_tty t /\ (active_tty t = true -> on_screen t' v').

Lemma sync_becomes t0 t s v :
  shows t s -> color_code t = color_code t0 -> active_tty t = active_tty t0 ->
  becomes t0 s (sync_if_active t v).
Proof.
  intros Hs Hc Ha. destruct (shows_rect t s Hs) as [Hr Hcol].
  destruct (sync_if_active_spec t v Hr Hcol) as (v' & -> & Hon). exists t, v'.
  split_and!; [done..|]. by rewrite <-Ha.
Qed.

Lemma new_line_becomes t s v : shows t s -> becomes t (spec_newline s) (new_line t v).
Proof.
  intros Hs. destruct (shows_rect t s Hs) as [Hr _]. pose proof (last_row t s Hs) as Hlast.
  destruct Hs as [Hc [Ha Hf] _ Hl]. unfold new_line. rewrite scroll_rows by done. cbn [obind].
  assert (Hm : tail (chars t) ++ drop 24 (chars t) = (tail (above s) ++ [pad (line s)]) ++ [pad (line s)]).
  { rewrite Hc. destruct (above s) as [|x a] eqn:E; [done|]. rewrite drop_app_length' by done.
    simpl. by rewrite <-app_assoc. }
  rewrite Hm. assert (Hlen : length (tail (above s)) = 23%nat) by (destruct (above s); simpl in *; lia).
  assert (Hl24 : length (tail (above s) ++ [pad (line s)]) = 24%nat) by (rewrite length_app; simpl; lia).
  rewrite (clear_row_eq _ _ (pad (line s))); [|done| |by apply pad_length].
  2:{ change (Z.to_nat (BUFFER_HEIGHT - 1)) with 24%nat. simpl. rewrite lookup_app_r by lia. by rewrite Hl24. }
  cbn [obind]. change (Z.to_nat (BUFFER_HEIGHT - 1)) with 24%nat. simpl.
  rewrite insert_app_r_alt, Hl24 by lia. simpl. apply sync_becomes; [|done|done].
  split; simpl; [done| |done|lia]. split; [done|]. apply Forall_app. split.
  - destruct (above s); [done|]. by inversion Hf.
  - repeat constructor. by apply pad_length.
Qed.

Lemma write_plain_becomes b t s v : shows t s -> becomes t (spec_plain b s) (write_plain b t v).
Proof.
  intros Hs. unfold write_plain.
  assert (Hgo : forall t1 s1 v1, shows t1 s1 -> (length (line s1) < 80)%nat ->
    color_code t1 = color_code t -> active_tty t1 = active_tty t ->
    becomes t (mkTerm (above s1) (line s1 ++ [b]))
      (let? m := set_char (chars t1) (BUFFER_HEIGHT - 1) (column_position t1) b in
       let? c := usize_add (column_position t1) 1 in
       sync_if_active (set_column (set_chars t1 m) c) v1)).
  { intros t1 s1 v1 Hs1 Hlt Hc1 Ha1. pose proof Hs1 as [Hch Hab Hcol Hl].
    rewrite (set_last t1 s1) by (done || lia). cbn [obind].
    rewrite add_w_fits by (unfold in_width; lia). cbn [obind].
    rewrite Hcol, Nat2Z.id, pad_snoc by done. apply sync_becomes; [|done|done].
    split; simpl; [done|done| |rewrite length_app; simpl; lia]. rewrite length_app. simpl. lia. }
  unfold spec_plain. pose proof Hs as [_ _ Hcol Hl]. unfold BUFFER_WIDTH.
  destruct (Z.leb_spec 80 (column_position t)) as [Hge|Hlt].
  - rewrite decide_True by lia. destruct (new_line_becomes t s v Hs) as (t1 & v1 & -> & Hs1 & Hc1 & Ha1 & _).
    cbn [obind]. apply Hgo; [done|simpl; lia|done|done].
  - rewrite decide_False by lia. cbn [obind]. apply Hgo; [done|lia|done|done].
Qed.

Lemma delete_byte_run t s v :
  shows t s -> column_position t <> 0 -> becomes t (mkTerm (above s) (removelast (line s))) (delete_byte t v).
Proof.
  intros Hs Hne. pose proof Hs as [Hch Hab Hcol Hl]. unfold delete_byte.
  destruct (Z.eqb_spec (column_position t) 0); [done|].
  rewrite sub_w_fits by (unfold in_width; lia). cbn [obind]. rewrite (set_last t s) by (done || lia).
  cbn [obind]. replace (Z.to_nat (column_position t - 1)) with (length (line s) - 1)%nat by lia.
  rewrite pad_removelast by lia. apply sync_becomes; [|done|done].
  assert (Hlen : length (removelast (line s)) = (length (line s) - 1)%nat).
  { destruct (exists_last (l := line s)) as (l0 & x & E); [by intros E; rewrite E in *; simpl in *; lia|].
    rewrite E, removelast_last, length_app. simpl. lia. }
  split; simpl; [done|done|lia|lia].
Qed.

(** The same without the screen, which the final synchronisation of
    [write_byte] brings up to date. *)
Definition yields (t : TextBuffer) (s' : term) (c : outcome (TextBuffer * vga)) : Prop :=
  exists t' v', c = Ok (t', v') /\ shows t' s' /\ color_code t' = color_code t /\
    active_tty t' = active_tty t.

Lemma becomes_yields t s c : becomes t s c -> yields t s c.
Proof. intros (t' & v' & ? & ? & ? & ? & _). by exists t', v'. Qed.

Lemma yields_sync t s c : yields t s c -> becomes t s (let? (t, v) := c in sync_if_active t v).
Proof.
  intros (t1 & v1 & -> & Hs & Hc & Ha). cbn [obind]. by apply sync_becomes.
Qed.

Lemma delete_byte_yields t s v :
  shows t s -> yields t (mkTerm (above s) (removelast (line s))) (delete_byte t v).
Proof.
  intros Hs. destruct (decide (column_position t = 0)) as [H0|Hne].
  - unfold delete_byte. rewrite H0. exists t, v. split; [done|]. split; [|done].
    pose proof Hs as [Hch Hab Hcol Hl]. assert (line s = []) as E.
    { destruct (line s); [done|]. simpl in Hcol. lia. }
    rewrite E. split; simpl; [by rewrite Hch, E|done|done|lia].
  - by apply becomes_yields, delete_byte_run.
Qed.

Lemma write_spaces_yields n t s v :
  shows t s ->
  yields t (Nat.iter n (spec_plain 32) s) (ofold (fun _ '(t, v) => write_plain 32 t v) (seq 0 n) (t, v)).
Proof.
  intros Hs. induction n as [|n IH]; [by exists t, v|].
  rewrite seq_S, ofold_app. destruct IH as (t1 & v1 & -> & Hs1 & Hc1 & Ha1). cbn [obind ofold].
  destruct (write_plain_becomes 32 t1 _ v1 Hs1) as (t2 & v2 & -> & Hs2 & Hc2 & Ha2 & _). cbn [obind].
  exists t2, v2. split_and!; [done|done|congruence|congruence].
Qed.

Lemma write_byte_becomes b t s v : shows t s -> becomes t (spec_write b s) (write_byte b t v).
Proof.
  intros Hs. unfold write_byte, spec_write. destruct (b =? 10).
  { by apply yields_sync, becomes_yields, new_line_becomes. }
  destruct (b =? 8); [by apply yields_sync, delete_byte_yields|].
  destruct (b =? 9); [by apply yields_sync, write_spaces_yields|]. by apply write_plain_becomes.
Qed.

(** ** Properties *)

(** C22: the text buffer implements a terminal.  Writing any bytes (newlines,
    backspaces and tabs included) to a buffer that shows a terminal never
    panics, and leaves it showing what the terminal shows after the same bytes;
    if the buffer is the active one, the screen memory shows all of it and the
    hardware cursor is behind the last character. *)
Theorem write_str_correct bytes t s v :
  shows t s -> bytes <> [] ->
  exists t' v', write_str bytes t v = Ok (t', v') /\
    shows t' (foldl (fun s b => spec_write b s) s bytes) /\
    color_code t' = color_code t /\ active_tty t' = active_tty t /\
    (active_tty t = true -> on_screen t' v').
Proof.
  intros Hs Hne. destruct (exists_last Hne) as (l & b & ->). unfold write_str. rewrite ofold_app, foldl_app.
  assert (Hl : yields t (foldl (fun s b => spec_write b s) s l)
    (ofold (fun byte '(t, v) => write_byte byte t v) l (t, v))).
  { clear Hne b. revert t s v Hs. induction l as [|b l IH]; intros t s v Hs; [by exists t, v|].
    cbn [ofold foldl]. destruct (write_byte_becomes b t s v Hs) as (t1 & v1 & -> & Hs1 & Hc1 & Ha1 & _).
    cbn [obind]. destruct (IH t1 (spec_write b s) v1 Hs1) as (t2 & v2 & Hrun & Hs2 & Hc2 & Ha2).
    exists t2, v2. split_and!; [done|done|congruence|congruence]. }
  destruct Hl as (t1 & v1 & -> & Hs1 & Hc1 & Ha1). cbn [obind ofold].
  destruct (write_byte_becomes b t1 _ v1 Hs1) as (t2 & v2 & -> & Hs2 & Hc2 & Ha2 & Hon). cbn [obind].
  exists t2, v2. split_and!; [done|done|congruence|congruence|]. rewrite <-Ha1. done.
Qed.

(** [new_line], which moves the rows cell by cell, drops the first row,
    appends a blank one and returns the cursor to the first column. *)
Theorem new_line_scrolls t v :
  rect (chars t) ->
  exists v', new_line t v =
    Ok (mkBuffer (tail (chars t) ++ [replicate 80 32]) 0 (color_code t) (active_tty t), v').
Proof.
  intros Hr. unfold new_line. rewrite scroll_rows by done. cbn [obind]. pose proof Hr as [Hl Hrows].
  assert (Hlt : length (tail (chars t)) = 24%nat) by (destruct (chars t); simpl in *; lia).
  destruct (rect_row _ 24 Hr) as (r & Hr24 & Hlr); [lia|].
  rewrite (drop_S (chars t) r 24 Hr24), (drop_ge (chars t) 25) by lia.
  rewrite (clear_row_eq _ _ r); [|done|change (Z.to_nat (BUFFER_HEIGHT - 1)) with 24%nat; simpl; by rewrite lookup_app_r, Hlt by lia|done].
  cbn [obind]. change (Z.to_nat (BUFFER_HEIGHT - 1)) with 24%nat. simpl.
  rewrite insert_app_r_alt, Hlt by lia. simpl.
  match goal with |- context [sync_if_active ?t' v] => set (t1 := t') end.
  destruct (sync_if_active_spec t1 v) as (v' & -> & _); [|simpl; lia|by exists v'].
  split; simpl; [rewrite length_app; simpl; lia|]. apply Forall_app. split; [|by repeat constructor].
  destruct (chars t); [done|]. by inversion Hrows.
Qed.

(** Writing to the screen and switching it, with [TTYS] and [SCREEN] as state. *)
Inductive tty_op := TWrite (bytes : list Z) | TSwitch (i : Z).

Record tty_state := mkTty { ttys : option (list TextBuffer); screen : TextBuffer; video : vga }.

Definition tty_exec (op : tty_op) (s : tty_state) : outcome tty_state :=
  match op with
  | TWrite bytes => let? (t, v) := write_str bytes (screen s) (video s) in Ok (mkTty (ttys s) t v)
  | TSwitch i => let? t := switch i (ttys s) (screen s) in Ok (mkTty (ttys s) t (video s))
  end.

Lemma tty_exec_ttys ops s s' : ofold tty_exec ops s = Ok s' -> ttys s' = ttys s.
Proof.
  apply (ofold_inv (fun x => ttys x = ttys s)); [done|]. intros op x x' _ Hx Hrun. destruct op; simpl in Hrun;
    [apply obind_Ok in Hrun as ([t v] & _ & Hrun)|apply obind_Ok in Hrun as (t & _ & Hrun)];
    by injection Hrun as <-.
Qed.

(** a screen switched away from is lost.  [switch] shows its own copy of the
    terminal's buffer and never stores the screen back: after any sequence of
    writes and switches, switching to terminal [i] shows the buffer terminal
    [i] had at the start, marked active. *)
Theorem switch_forgets ops i s s' l t :
  ttys s = Some l -> l !! Z.to_nat i = Some t -> ofold tty_exec (ops ++ [TSwitch i]) s = Ok s' ->
  screen s' = mkBuffer (chars t) (column_position t) (color_code t) true.
Proof.
  intros Hl Ht Hrun. rewrite ofold_app in Hrun. apply obind_Ok in Hrun as (s1 & H1 & Hrun).
  cbn [ofold tty_exec] in Hrun. rewrite (tty_exec_ttys _ _ _ H1), Hl in Hrun. unfold switch in Hrun.
  rewrite Ht in Hrun. cbn [expect obind] in Hrun. by injection Hrun as <-.
Qed.

Definition blank_term : term := mkTerm (replicate 24 (replicate 80 32)) [].

(** [n] new lines, at least one. *)
Lemma new_lines_becomes (l : list Z) t s v :
  l <> [] -> shows t s ->
  becomes t (Nat.iter (length l) spec_newline s) (ofold (fun _ '(t, v) => new_line t v) l (t, v)).
Proof.
  intros Hne. revert t s v. induction l as [|x l IH]; intros t s v Hs; [done|]. cbn [ofold].
  destruct (new_line_becomes t s v Hs) as (t1 & v1 & -> & Hs1 & Hc1 & Ha1 & Hon1). cbn [obind].
  change (length (x :: l)) with (S (length l)). rewrite Nat.iter_succ_r. destruct l as [|y l].
  - exists t1, v1. done.
  - destruct (IH ltac:(done) t1 (spec_newline s) v1 Hs1) as (t2 & v2 & -> & Hs2 & Hc2 & Ha2 & Hon2).
    exists t2, v2. split; [done|]. split; [exact Hs2|]. split; [congruence|]. split; [congruence|].
    intros Ht. apply Hon2. congruence.
Qed.

(** 25 new lines leave nothing of a terminal. *)
Lemma newlines_blank s : length (above s) = 24%nat -> Nat.iter 25 spec_newline s = blank_term.
Proof.
  destruct s as [a l]. cbn [above]. intros Ha. do 24 (destruct a as [|? a]; [discriminate Ha|]).
  destruct a; [reflexivity|discriminate Ha].
Qed.

(** [clear_screen] clears the buffer and the screen, whatever they showed. *)
Lemma clear_screen_becomes t s v : shows t s -> becomes t blank_term (clear_screen t v).
Proof.
  intros Hs. rewrite <-(newlines_blank s) by apply Hs. by apply (new_lines_becomes (seqZ 0 25)).
Qed.

Lemma screen_shows : shows SCREEN blank_term.
Proof. split; simpl; [done| |done|lia]. split; [done|]. repeat constructor. Qed.

Lemma write_str_correct_witness :
  exists t' v', write_str [72; 105; 10; 9; 8; 33] SCREEN (mkVga ∅ []) = Ok (t', v') /\
    shows t' (foldl (fun s b => spec_write b s) blank_term [72; 105; 10; 9; 8; 33]) /\ on_screen t' v'.
Proof.
  destruct (write_str_correct [72; 105; 10; 9; 8; 33] SCREEN blank_term (mkVga ∅ []) screen_shows)
    as (t' & v' & Hrun & Hs & _ & _ & Hon); [discriminate|].
  exists t', v'. split; [exact Hrun|]. split; [exact Hs|exact (Hon eq_refl)].
Defined.

Lemma new_line_scrolls_witness :
  exists v', new_line SCREEN (mkVga ∅ []) =
    Ok (mkBuffer (tail blank ++ [replicate 80 32]) 0 (color_code SCREEN) true, v').
Proof. apply (new_line_scrolls SCREEN (mkVga ∅ [])). split; [reflexivity|repeat constructor]. Defined.

Lemma demo_switches :
  ok_bool (ofold tty_exec ([TSwitch 2; TWrite [72; 105]; TSwitch 3] ++ [TSwitch 2])
    (mkTty tty_init SCREEN (mkVga ∅ []))) = true.
Proof. vm_compute. reflexivity. Qed.

Lemma switch_forgets_witness :
  exists s', ofold tty_exec ([TSwitch 2; TWrite [72; 105]; TSwitch 3] ++ [TSwitch 2])
    (mkTty tty_init SCREEN (mkVga ∅ [])) = Ok s' /\ chars (screen s') = blank.
Proof.
  pose proof demo_switches as Hok. apply ok_bool_run in Hok as [s' Hrun]. exists s'. split; [exact Hrun|].
  rewrite (switch_forgets _ 2 (mkTty tty_init SCREEN (mkVga ∅ [])) s' _
    (mkBuffer blank 0 (color_code_new LightGray Black) false) eq_refl eq_refl Hrun). reflexivity.
Defined.
