(* ===== verification/Keyboard.v ===== *)
(** * The keyboard

    [device/keyboard/keyboard.rs], [device/keyboard/ps2_keyboard.rs] and the two
    layouts [layout/uk_std.rs] and [layout/us_std.rs], of which a build has one:
    the model is parametrised by a [Layout], and the theorems that need a
    complete one use [LayoutOk], which both layouts satisfy.  What [print!] sends
    to the serial port is collected as a list of characters (code points). *)

From Stdlib Require Import Ascii.
From S2P Require Import Prelude Fmt Ports Ps2 Apic Vga.

(** The bytes of a byte string literal. *)
Definition ascii_codes (s : string) : list Z := (fun c => Z.of_N (N_of_ascii c)) <$> String.list_ascii_of_string s.

(** ** Keys *)

Record KeyPair := mkPair { kp_left : bool; kp_right : bool }.

Definition keypair_new : KeyPair := mkPair false false.
Definition is_pressed (k : KeyPair) : bool := kp_left k || kp_right k.

Inductive Modifiers :=
  | AltLeft (b : bool)
  | AltRight (b : bool)
  | CapsLock
  | ControlLeft (b : bool)
  | ControlRight (b : bool)
  | NumLock
  | ScrollLock
  | ShiftLeft (b : bool)
  | ShiftRight (b : bool)
  | FunctionKeys (i : Z).

Inductive Key :=
  | KAscii (b : Z)
  | KMeta (m : Modifiers)
  | KLowerAscii (b : Z).

Inductive KeyEvent := Pressed (k : Key) | Released (k : Key).

Record ModifierState := mkMods {
  shift : KeyPair;
  control : KeyPair;
  alt : KeyPair;
  caps_lock : bool;
  num_lock : bool;
  scroll_lock : bool;
  function_keys : list bool }.

Definition mods_new : ModifierState :=
  mkMods keypair_new keypair_new keypair_new false false false (replicate 12 false).

Definition use_uppercase_letters (m : ModifierState) : bool := xorb (is_pressed (shift m)) (caps_lock m).

(** [for i in 0..12 { if self.function_keys[i] && is_ctrl { return (true, i) } }] *)
Fixpoint first_pressed (l : list Z) (keys : list bool) (is_ctrl : bool) : outcome (bool * Z) :=
  match l with
  | [] => Ok (false, 0)
  | i :: l =>
      let? f := expect (keys !! Z.to_nat i) "index out of bounds" in
      if f && is_ctrl then Ok (true, i) else first_pressed l keys is_ctrl
  end.

Definition should_switch_tty (m : ModifierState) : outcome (bool * Z) :=
  let is_ctrl := kp_left (control m) || kp_right (control m) in
  first_pressed (seqZ 0 12) (function_keys m) is_ctrl.

Definition update (m : ModifierState) (x : Modifiers) : outcome ModifierState :=
  let '(mkMods sh ct al ca nu sc fk) := m in
  match x with
  | AltLeft b => Ok (mkMods sh ct (mkPair b (kp_right al)) ca nu sc fk)
  | AltRight b => Ok (mkMods sh ct (mkPair (kp_left al) b) ca nu sc fk)
  | CapsLock => Ok (mkMods sh ct al (negb ca) nu sc fk)
  | ControlLeft b => Ok (mkMods sh (mkPair b (kp_right ct)) al ca nu sc fk)
  | ControlRight b => Ok (mkMods sh (mkPair (kp_left ct) b) al ca nu sc fk)
  | NumLock => Ok (mkMods sh ct al ca (negb nu) sc fk)
  | ScrollLock => Ok (mkMods sh ct al ca (negb sc) sc fk)
  | ShiftLeft b => Ok (mkMods (mkPair b (kp_right sh)) ct al ca nu sc fk)
  | ShiftRight b => Ok (mkMods (mkPair (kp_left sh) b) ct al ca nu sc fk)
  | FunctionKeys i =>
      let? _ := expect (fk !! Z.to_nat i) "index out of bounds" in
      Ok (mkMods sh ct al ca nu sc (<[Z.to_nat i := true]> fk))
  end.

(** ** Scancodes *)

Definition is_special_key (byte : Z) : option Z :=
  if bool_decide (byte ∈
    [0x5B; 0xDB; 0x1D; 0x9D; 0x5C; 0xDC; 0x38; 0xB8; 0x5D; 0xDD; 0x52; 0xD2; 0x47; 0x97; 0x49; 0xC9;
     0x53; 0xD3; 0x4F; 0xCF; 0x51; 0xD1; 0x48; 0xC8; 0x4B; 0xCB; 0x50; 0xD0; 0x4D; 0xCD; 0x35; 0xB5;
     0x1C; 0x9C])
  then Some byte else None.

Fixpoint assoc {A} (k : Z) (l : list (Z * A)) : option A :=
  match l with [] => None | (k', a) :: l => if k =? k' then Some a else assoc k l end.

(** The arms of [match_scancode] for a single scancode. *)
Definition single_scancodes : list (Z * KeyEvent) :=
  [(0x29, Pressed (KLowerAscii 96)); (0x2B, Pressed (KLowerAscii 92));
   (0x01, Pressed (KAscii 0x1B)); (0x0E, Pressed (KAscii 0x8)); (0x0F, Pressed (KAscii 9));
   (0x1C, Pressed (KAscii 10)); (0x39, Pressed (KAscii 32));
   (0x1D, Pressed (KMeta (ControlLeft true))); (0xE01D, Pressed (KMeta (ControlRight true)));
   (0x2A, Pressed (KMeta (ShiftLeft true))); (0x36, Pressed (KMeta (ShiftRight true)));
   (0x38, Pressed (KMeta (AltLeft true))); (0xE038, Pressed (KMeta (AltRight false)));
   (0x3A, Pressed (KMeta CapsLock)); (0x45, Pressed (KMeta NumLock)); (0x46, Pressed (KMeta ScrollLock));
   (0x3B, Pressed (KMeta (FunctionKeys 0))); (0x3C, Pressed (KMeta (FunctionKeys 1)));
   (0x3D, Pressed (KMeta (FunctionKeys 2))); (0x3E, Pressed (KMeta (FunctionKeys 3)));
   (0x3F, Pressed (KMeta (FunctionKeys 4))); (0x40, Pressed (KMeta (FunctionKeys 5)));
   (0x41, Pressed (KMeta (FunctionKeys 6))); (0x42, Pressed (KMeta (FunctionKeys 7)));
   (0x43, Pressed (KMeta (FunctionKeys 8))); (0x44, Pressed (KMeta (FunctionKeys 9)));
   (0x57, Pressed (KMeta (FunctionKeys 10))); (0x58, Pressed (KMeta (FunctionKeys 11)));
   (0xAA, Released (KMeta (ShiftLeft false))); (0xB6, Released (KMeta (ShiftRight false)));
   (0x9D, Released (KMeta (ControlLeft false))); (0xE09D, Released (KMeta (ControlRight false)));
   (0xB8, Released (KMeta (AltLeft false))); (0xE0B8, Released (KMeta (AltRight false)));
   (0xBB, Released (KMeta (FunctionKeys 0))); (0xBC, Released (KMeta (FunctionKeys 1)));
   (0xBD, Released (KMeta (FunctionKeys 2))); (0xBE, Released (KMeta (FunctionKeys 3)));
   (0xBF, Released (KMeta (FunctionKeys 4))); (0xC0, Released (KMeta (FunctionKeys 5)));
   (0xC1, Released (KMeta (FunctionKeys 6))); (0xC2, Released (KMeta (FunctionKeys 7)));
   (0xC3, Released (KMeta (FunctionKeys 8))); (0xC4, Released (KMeta (FunctionKeys 9)));
   (0xD7, Released (KMeta (FunctionKeys 10))); (0xD8, Released (KMeta (FunctionKeys 11)))].

(** An arm for a range of scancodes, indexing into a byte string. *)
Definition in_row (row : string) (first idx : Z) : outcome (option KeyEvent) :=
  let? i := usize_sub idx first in
  let? b := expect (ascii_codes row !! Z.to_nat i) "index out of bounds" in
  Ok (Some (Pressed (KLowerAscii b))).

Definition match_scancode (scancode : Z) : outcome (option KeyEvent) :=
  if (0x02 <=? scancode) && (scancode <=? 0x0D) then in_row "1234567890-=" 0x02 scancode
  else if (0x10 <=? scancode) && (scancode <=? 0x1B) then in_row "qwertyuiop[]" 0x10 scancode
  else if (0x1E <=? scancode) && (scancode <=? 0x28) then in_row "asdfghjkl;'" 0x1E scancode
  else if (0x2C <=? scancode) && (scancode <=? 0x35) then in_row "zxcvbnm,./" 0x2C scancode
  else Ok (assoc scancode single_scancodes).

Definition get_key_event (scancode : Z) : outcome (option KeyEvent) := match_scancode scancode.

Definition get_key (scancode : Z) : outcome (option Key) :=
  let? e := get_key_event scancode in
  match e with
  | Some (Pressed key) => Ok (Some key)
  | Some (Released key) => Ok (Some key)
  | None => Ok None
  end.

(** ** The layouts *)

(** [char::is_alphabetic] and [char::to_uppercase] on ASCII, the only characters
    [match_scancode] produces. *)
Definition is_alphabetic (c : Z) : bool := (97 <=? c) && (c <=? 122) || (65 <=? c) && (c <=? 90).
Definition to_uppercase (c : Z) : list Z := if (97 <=? c) && (c <=? 122) then [c - 32] else [c].

Definition uk_symbols : list (Z * Z) :=
  [(96, 0xAC); (49, 33); (50, 34); (51, 0xA3); (52, 36); (53, 37); (54, 94); (55, 38); (56, 42); (57, 40);
   (48, 41); (45, 95); (61, 43); (91, 123); (93, 125); (92, 124); (59, 58); (39, 64); (35, 126); (44, 60);
   (46, 62); (47, 63)].

Definition us_symbols : list (Z * Z) :=
  [(96, 126); (49, 33); (50, 64); (51, 35); (52, 36); (53, 37); (54, 94); (55, 38); (56, 42); (57, 40);
   (48, 41); (45, 95); (61, 43); (91, 123); (93, 125); (92, 124); (59, 58); (39, 34); (44, 60); (46, 62);
   (47, 63)].

(** The [map_to_upper] of the layout the kernel is built with. *)
Class Layout := map_to_upper : Z -> list Z.

Definition uk_layout : Layout := fun lower =>
  if is_alphabetic lower then to_uppercase lower
  else [default 0 (assoc lower uk_symbols)].

Definition us_layout : Layout := fun lower =>
  if is_alphabetic lower then to_uppercase lower
  else [default 0 (assoc lower us_symbols)].

(** The character a scancode stands for, if its key has an upper variant. *)
Definition lower_key (c : Z) : option Z :=
  match match_scancode c with Ok (Some (Pressed (KLowerAscii b))) => Some b | _ => None end.

(** A complete layout has exactly one shifted character on every such key. *)
Class LayoutOk (lay : Layout) := layout_complete :
  forall c b, in_width 8 c -> lower_key c = Some b -> exists u, map_to_upper b = [u] /\ u <> 0.

(** A check of every byte. *)
Lemma all_bytes (P : Z -> bool) c : forallb P (seqZ 0 256) = true -> in_width 8 c -> P c = true.
Proof.
  intros HP Hc. rewrite forallb_forall in HP. apply HP, list_elem_of_In, elem_of_seqZ.
  unfold in_width in Hc. lia.
Qed.

Lemma layout_check (lay : Layout) :
  forallb (fun c => match lower_key c with
    | Some b => match map_to_upper b with [u] => negb (u =? 0) | _ => false end
    | None => true end) (seqZ 0 256) = true -> LayoutOk lay.
Proof.
  intros Hall c b Hc Hb. apply (all_bytes _ c Hall) in Hc. simpl in Hc. rewrite Hb in Hc.
  destruct (map_to_upper b) as [|u [|]]; [done| |done]. exists u. split; [done|]. by apply negb_true_iff, Z.eqb_neq in Hc.
Qed.

#[export] Instance uk_layout_ok : LayoutOk uk_layout.
Proof. apply layout_check. vm_compute. reflexivity. Qed.

#[export] Instance us_layout_ok : LayoutOk us_layout.
Proof. apply layout_check. vm_compute. reflexivity. Qed.

(** ** Handling a key *)

Record kbd := mkKbd {
  k_mods : ModifierState;
  k_ttys : option (list TextBuffer);
  k_screen : TextBuffer;
  k_out : list Z;
  k_log : io_log }.

Definition set_mods (k : kbd) (m : ModifierState) : kbd := mkKbd m (k_ttys k) (k_screen k) (k_out k) (k_log k).
Definition set_screen (k : kbd) (t : TextBuffer) : kbd := mkKbd (k_mods k) (k_ttys k) t (k_out k) (k_log k).
Definition set_klog (k : kbd) (l : io_log) : kbd := mkKbd (k_mods k) (k_ttys k) (k_screen k) (k_out k) l.
Definition print_str (s : list Z) (k : kbd) : kbd :=
  mkKbd (k_mods k) (k_ttys k) (k_screen k) (k_out k ++ s) (k_log k).

Definition print_char (c : Z) (k : kbd) : kbd :=
  if bool_decide (c ∈ [10; 32; 9; 8]) then print_str [c] k else k.

Section Keyboard.
Context `{Hardware} {lay : Layout}.

Definition apply_to (ascii : Z) (k : kbd) : outcome (list Z * kbd) :=
  if use_uppercase_letters (k_mods k) then Ok (map_to_upper ascii, k)
  else
    let? (sw, _) := should_switch_tty (k_mods k) in
    if sw then
      let? (_, index) := should_switch_tty (k_mods k) in
      let? t := switch index (k_ttys k) (k_screen k) in
      Ok ([ascii], set_screen k t)
    else Ok ([ascii], k).

Definition retrieve_bytes (scancode : Z) (l : io_log) : outcome (Z * io_log) :=
  let (byte_sequence, l) :=
    if (scancode =? 0xE0) || (scancode =? 0xE1) then
      let (check, l) := read_char l in
      match is_special_key check with
      | Some byte => ([scancode; byte], l)
      | None => ([scancode], l)
      end
    else ([scancode], l) in
  let? v := ofold (fun b acc => add_w 64 (shl_w 64 acc 1) b) (rev byte_sequence) 0 in
  Ok (v, l).

Definition parse_key (scancode : Z) (k : kbd) : outcome kbd :=
  let? (sequence, l) := retrieve_bytes scancode (k_log k) in
  let k := set_klog k l in
  let? key := get_key sequence in
  match key with
  | Some (KAscii c) => Ok (print_char c k)
  | Some (KMeta modifier) => let? m := update (k_mods k) modifier in Ok (set_mods k m)
  | Some (KLowerAscii byte) => let? (s, k) := apply_to byte k in Ok (print_str s k)
  | None => Ok k
  end.

(** [irq::keyboard_handler] *)
Definition keyboard_handler (apic_manager : option ApicManager) (k : kbd) : outcome kbd :=
  let k := print_str (bytes_of "keyboard interrupt." ++ nl) k in
  let (code, l) := read_char (k_log k) in
  let? k := parse_key code (set_klog k l) in
  let? _ := apic_eoi apic_manager in
  Ok k.

(** ** Properties *)

Lemma retrieve_plain c l : c <> 0xE0 -> c <> 0xE1 -> in_width 8 c -> retrieve_bytes c l = Ok (c, l).
Proof.
  intros H0 H1 Hc. unfold retrieve_bytes, in_width in *. destruct (Z.eqb_spec c 0xE0), (Z.eqb_spec c 0xE1); try done.
  cbn [orb rev app ofold]. change (shl_w 64 0 1) with 0.
  rewrite add_w_fits by (unfold in_width; lia). done.
Qed.

Lemma parse_plain c k :
  c <> 0xE0 -> c <> 0xE1 -> in_width 8 c ->
  parse_key c k =
  let? key := get_key c in
  match key with
  | Some (KAscii c) => Ok (print_char c k)
  | Some (KMeta modifier) => let? m := update (k_mods k) modifier in Ok (set_mods k m)
  | Some (KLowerAscii byte) => let? (s, k) := apply_to byte k in Ok (print_str s k)
  | None => Ok k
  end.
Proof.
  intros H0 H1 Hc. unfold parse_key. rewrite retrieve_plain by done. cbn [obind]. by destruct k.
Qed.

Lemma lower_key_get c b :
  in_width 8 c -> lower_key c = Some b -> c <> 0xE0 /\ c <> 0xE1 /\ get_key c = Ok (Some (KLowerAscii b)).
Proof.
  intros Hc Hb. split_and!; [intros ->; done..|].
  unfold get_key, get_key_event, lower_key in *. destruct (match_scancode c) as [[[[]|]|]|]; by simplify_eq.
Qed.

(** typing.  Every scancode of a character key prints exactly one character:
    the plain one, or, when shift and caps lock differ, the one the layout puts
    on the shifted key, and the layout has one for every such key; nothing else
    changes. *)
Theorem typed_character `{!LayoutOk lay} c b k x :
  in_width 8 c -> lower_key c = Some b -> should_switch_tty (k_mods k) = Ok (false, x) ->
  exists u, map_to_upper b = [u] /\ u <> 0 /\
    parse_key c k = Ok (print_str [if use_uppercase_letters (k_mods k) then u else b] k).
Proof.
  intros Hc Hb Hsw. destruct (lower_key_get c b Hc Hb) as (H0 & H1 & Hk).
  destruct (layout_complete c b Hc Hb) as (u & Hu & Hne).
  exists u. split; [done|]. split; [done|]. rewrite parse_plain, Hk by done. cbn [obind].
  unfold apply_to. destruct (use_uppercase_letters _); [by rewrite Hu|]. rewrite Hsw. done.
Qed.

(** extended scancodes are never recognised.  The bytes of a sequence that
    starts with 0xE0 or 0xE1 are combined with a shift by one instead of eight,
    so that none of them is a code of the table: right Ctrl and right Alt (and
    every other extended key) read one more byte and do nothing. *)
Theorem extended_ignored c k :
  c = 0xE0 \/ c = 0xE1 ->
  exists v, in_width 8 v /\ parse_key c k = Ok (set_klog k (k_log k ++ [PIn 8 0x60 v])).
Proof.
  intros Hc. unfold parse_key, retrieve_bytes, read_char, ps2_read_char, port_read, port_in. simpl port_width. simpl port_addr.
  set (v := trunc 8 _). assert (Hv : in_width 8 v) by (apply Z.mod_pos_bound; lia). exists v. split; [done|].
  assert (Hpre : (c =? 0xE0) || (c =? 0xE1) = true) by (destruct Hc as [-> | ->]; done).
  rewrite Hpre. clear Hpre.
  pose proof (all_bytes (fun v => forallb (fun c => match get_key (2 * v + c), get_key c with
    | Ok None, Ok None => true | _, _ => match is_special_key v with Some _ => false | None => true end end)
    [0xE0; 0xE1]) v ltac:(vm_compute; reflexivity) Hv) as Hall. unfold in_width in Hv.
  assert (Hnone : get_key c = Ok None) by (destruct Hc as [-> | ->]; reflexivity).
  assert (Hs : forall b, is_special_key v = Some b -> b = v /\ get_key (2 * v + c) = Ok None).
  { intros b Hb. split; [unfold is_special_key in Hb; by destruct (bool_decide _); simplify_eq|].
    cbn [forallb] in Hall. rewrite Hb in Hall. rewrite !andb_true_iff in Hall. destruct Hall as (Ha & Hb' & _).
    destruct Hc as [-> | ->]; [destruct (get_key (2 * v + 224)) as [[]|]|destruct (get_key (2 * v + 225)) as [[]|]]; done. }
  destruct (is_special_key v) as [b|] eqn:Esp.
  - destruct (Hs b eq_refl) as [-> Hk]. cbn [rev app ofold]. change (shl_w 64 0 1) with 0.
    rewrite add_w_fits by (unfold in_width; lia). cbn [obind].
    unfold shl_w, trunc. rewrite Z.shiftl_mul_pow2, Z.mod_small by lia.
    rewrite add_w_fits by (unfold in_width; destruct Hc; lia). cbn [obind].
    replace ((0 + v) * 2 ^ 1 + c) with (2 * v + c) by lia. by rewrite Hk.
  - cbn [rev app ofold]. change (shl_w 64 0 1) with 0.
    rewrite add_w_fits by (unfold in_width; destruct Hc; lia). cbn [obind]. rewrite Z.add_0_l, Hnone. done.
Qed.

(** The modifier a scancode stands for, and whether it is held. *)
Definition held (c : Z) (m : ModifierState) : bool :=
  if c =? 0x2A then kp_left (shift m) else if c =? 0x36 then kp_right (shift m)
  else if c =? 0x1D then kp_left (control m) else kp_left (alt m).

#[local] Ltac solve_held :=
  eexists; split; [reflexivity|]; split; [done|];
  eexists; split; [reflexivity|]; split; [done|];
  let Hh := fresh in intros Hh; unfold held in Hh; simpl in Hh; by rewrite Hh.

(** pressing and releasing either shift, left Ctrl or left Alt: the modifier
    is held in between and not afterwards, and if it was not held before the
    state is what it was. *)
Theorem modifier_roundtrip c k :
  c ∈ [0x2A; 0x36; 0x1D; 0x38] ->
  exists k1 k2, parse_key c k = Ok k1 /\ parse_key (c + 0x80) k1 = Ok k2 /\
    held c (k_mods k1) = true /\ held c (k_mods k2) = false /\ (held c (k_mods k) = false -> k2 = k).
Proof.
  intros Hc. rewrite !elem_of_cons, elem_of_nil in Hc.
  assert (Hgo : forall press release m1 m2, c = press -> c + 0x80 = release ->
    in_width 8 press -> in_width 8 release -> press <> 0xE0 -> press <> 0xE1 -> release <> 0xE0 -> release <> 0xE1 ->
    get_key press = Ok (Some (KMeta m1)) -> get_key release = Ok (Some (KMeta m2)) ->
    (exists a, update (k_mods k) m1 = Ok a /\ held c a = true /\
       exists b, update a m2 = Ok b /\ held c b = false /\ (held c (k_mods k) = false -> b = k_mods k)) ->
    exists k1 k2, parse_key c k = Ok k1 /\ parse_key (c + 0x80) k1 = Ok k2 /\
      held c (k_mods k1) = true /\ held c (k_mods k2) = false /\ (held c (k_mods k) = false -> k2 = k)).
  { intros press release m1 m2 -> -> W1 W2 N1 N2 N3 N4 G1 G2 (a & Ha & Hh & b & Hb & Hn & Heq).
    exists (set_mods k a), (set_mods k b). rewrite parse_plain, G1 by done. cbn [obind]. rewrite Ha.
    rewrite parse_plain, G2 by done. cbn [obind]. simpl k_mods. rewrite Hb. split_and!; try done.
    intros H1. rewrite (Heq H1). by destruct k. }
  destruct (k_mods k) as [[sl sr] [cl cr] [al ar] ca nu sc fk] eqn:Ek.
  destruct Hc as [-> |[-> |[-> |[-> |[]]]]].
  - apply (Hgo 0x2A 0xAA (ShiftLeft true) (ShiftLeft false)); first [done | solve_held].
  - apply (Hgo 0x36 0xB6 (ShiftRight true) (ShiftRight false)); first [done | solve_held].
  - apply (Hgo 0x1D 0x9D (ControlLeft true) (ControlLeft false)); first [done | solve_held].
  - apply (Hgo 0x38 0xB8 (AltLeft true) (AltLeft false)); first [done | solve_held].
Qed.

(** The scancode of F1 to F12. *)
Definition f_scancode (i : Z) : Z := if i <? 10 then 0x3B + i else 0x57 + (i - 10).

Lemma twelve i :
  0 <= i < 12 -> i = 0 \/ i = 1 \/ i = 2 \/ i = 3 \/ i = 4 \/ i = 5 \/ i = 6 \/ i = 7 \/ i = 8 \/ i = 9 \/
    i = 10 \/ i = 11.
Proof. lia. Qed.

Lemma f_keys i :
  0 <= i < 12 ->
  in_width 8 (f_scancode i) /\ in_width 8 (f_scancode i + 0x80) /\
  f_scancode i <> 0xE0 /\ f_scancode i <> 0xE1 /\ f_scancode i + 0x80 <> 0xE0 /\ f_scancode i + 0x80 <> 0xE1 /\
  get_key (f_scancode i) = Ok (Some (KMeta (FunctionKeys i))) /\
  get_key (f_scancode i + 0x80) = Ok (Some (KMeta (FunctionKeys i))).
Proof.
  intros Hc%twelve.
  repeat destruct Hc as [-> |Hc]; [..|subst i];
    (split; [by vm_compute|]; split; [by vm_compute|]; do 4 (split; [discriminate|]); split; reflexivity).
Qed.

(** Pressing a function key, and releasing it, both mark it as pressed. *)
Lemma function_key_sets i k :
  0 <= i < 12 -> length (function_keys (k_mods k)) = 12%nat ->
  let k' := set_mods k (mkMods (shift (k_mods k)) (control (k_mods k)) (alt (k_mods k)) (caps_lock (k_mods k))
    (num_lock (k_mods k)) (scroll_lock (k_mods k)) (<[Z.to_nat i := true]> (function_keys (k_mods k)))) in
  parse_key (f_scancode i) k = Ok k' /\ parse_key (f_scancode i + 0x80) k = Ok k'.
Proof.
  intros Hi Hl k'. destruct (f_keys i Hi) as (W1 & W2 & N1 & N2 & N3 & N4 & G1 & G2).
  destruct (lookup_lt_is_Some_2 (function_keys (k_mods k)) (Z.to_nat i)) as [b Hb]; [lia|].
  rewrite !parse_plain, G1, G2 by done. cbn [obind]. unfold update.
  destruct (k_mods k) as [sh ct al ca nu sc fk]. simpl in Hb. rewrite Hb. done.
Qed.

Lemma first_pressed_one i :
  0 <= i < 12 ->
  first_pressed (seqZ 0 12) (<[Z.to_nat i := true]> (function_keys mods_new)) true = Ok (true, i).
Proof. intros Hc%twelve. repeat destruct Hc as [-> |Hc]; [..|subst i]; reflexivity. Qed.

(** a function key stays pressed for ever, and Ctrl with one of F7 to F12
    stops the kernel.  From a fresh keyboard state, press and release F[i+1],
    then hold left Ctrl and type a character: with one of F1 to F6 the screen
    is switched to terminal [i] although no function key is down, with one of
    F7 to F12 the kernel panics, since there are only six terminals. *)
Theorem ctrl_function_key i c b k l :
  0 <= i < 12 -> in_width 8 c -> lower_key c = Some b -> k_mods k = mods_new ->
  k_ttys k = Some l -> length l = 6%nat ->
  match ofold parse_key [f_scancode i; f_scancode i + 0x80; 0x1D; c] k with
  | Ok k' => i < 6 /\ exists t, l !! Z.to_nat i = Some t /\
      k_screen k' = mkBuffer (chars t) (column_position t) (color_code t) true /\ k_out k' = k_out k ++ [b]
  | Err e => 6 <= i /\ e = EPanic "index out of bounds"
  end.
Proof.
  intros Hi Hc Hb Hm Hl Hlen. cbn [ofold].
  destruct (function_key_sets i k Hi) as [-> _]; [by rewrite Hm|]. cbn [obind].
  set (k1 := set_mods k _).
  destruct (function_key_sets i k1 Hi) as [_ ->]; [simpl; rewrite Hm; simpl; by rewrite length_insert|].
  cbn [obind]. set (k2 := set_mods k1 _).
  rewrite (parse_plain 0x1D) by (done || unfold in_width; lia).
  change (get_key 0x1D) with (@Ok (option Key) (Some (KMeta (ControlLeft true)))). cbn [obind].
  unfold update. simpl. destruct (lower_key_get c b Hc Hb) as (H0 & H1 & Hk).
  rewrite (parse_plain c) by done. rewrite Hk. cbn [obind]. unfold apply_to. simpl.
  unfold use_uppercase_letters, should_switch_tty. simpl. rewrite Hm. simpl.
  rewrite list_insert_insert_eq.
  pose proof (first_pressed_one i Hi) as Hfp. simpl in Hfp. rewrite Hfp. cbn [obind]. rewrite Hl. unfold switch.
  destruct (l !! Z.to_nat i) as [t|] eqn:Et; cbn [expect obind].
  - pose proof (lookup_lt_Some _ _ _ Et). split; [lia|]. by exists t.
  - apply lookup_ge_None in Et. split; [lia|done].
Qed.

End Keyboard.

(** ** Concrete runs *)

Definition quiet_hw : Hardware := fun _ _ _ => 0x1D.

Definition demo_kbd : kbd := mkKbd mods_new tty_init SCREEN [] [].

Lemma typed_character_witness :
  exists u, @map_to_upper us_layout 97 = [u] /\ u <> 0 /\
    @parse_key quiet_hw us_layout 0x1E demo_kbd = Ok (print_str [97] demo_kbd).
Proof.
  assert (Hw : in_width 8 0x1E) by (unfold in_width; lia).
  exact (@typed_character quiet_hw us_layout _ 0x1E 97 demo_kbd 0 Hw eq_refl eq_refl).
Defined.

(** Right Ctrl: 0xE0 0x1D. *)
Lemma extended_ignored_witness :
  exists v, in_width 8 v /\ @parse_key quiet_hw uk_layout 0xE0 demo_kbd = Ok (set_klog demo_kbd ([] ++ [PIn 8 0x60 v])).
Proof. apply (@extended_ignored quiet_hw uk_layout 0xE0 demo_kbd). left. reflexivity. Defined.

Lemma modifier_roundtrip_witness :
  exists k1, @parse_key quiet_hw uk_layout 0x2A demo_kbd = Ok k1 /\ @parse_key quiet_hw uk_layout 0xAA k1 = Ok demo_kbd.
Proof.
  destruct (@modifier_roundtrip quiet_hw uk_layout 0x2A demo_kbd) as (k1 & k2 & H1 & H2 & _ & _ & Heq);
    [left|exists k1; split; [exact H1|rewrite <-(Heq eq_refl) at 1; exact H2]].
Defined.

Lemma ctrl_function_key_witness :
  ofold (@parse_key quiet_hw uk_layout) [f_scancode 6; f_scancode 6 + 0x80; 0x1D; 0x1E] demo_kbd
  = Err (EPanic "index out of bounds").
Proof.
  assert (Hi : 0 <= 6 < 12) by lia. assert (Hw : in_width 8 0x1E) by (unfold in_width; lia).
  pose proof (@ctrl_function_key quiet_hw uk_layout 6 0x1E 97 demo_kbd _ Hi Hw eq_refl eq_refl eq_refl eq_refl) as Hc.
  destruct (ofold _ _ demo_kbd) as [k'|e]; [destruct Hc as [Hc _]; discriminate Hc|].
  destruct Hc as [_ He]. rewrite He. reflexivity.
Defined.
