(* ===== verification/Pci.v ===== *)
(** * The PCI bus

    [device/pci.rs]: configuration accesses through the ports 0xCF8 and 0xCFC,
    probing functions, sizing base address registers and the scan at boot. *)

From S2P Require Import Prelude Fmt Ports Serial.

Definition MAX_BUS : Z := 255.
Definition MAX_DEVICE : Z := 31.
Definition MAX_FUNCTION : Z := 7.

Inductive DeviceClass :=
  | Legacy | MassStorage | Network | Display | Multimedia | MemoryClass | BridgeDevice
  | SimpleCommunication | BaseSystemPeripheral | InputDevice | DockingStation | ProcessorClass | SerialBus
  | Wireless | IntelligentIO | SatelliteCommunication | EncryptionDecryption | DataAndSignalProcessing
  | Unknown.

#[global] Instance DeviceClass_eq_dec : EqDecision DeviceClass.
Proof. solve_decision. Defined.

(** The classes in the order of their codes. *)
Definition classes : list DeviceClass :=
  [Legacy; MassStorage; Network; Display; Multimedia; MemoryClass; BridgeDevice; SimpleCommunication;
   BaseSystemPeripheral; InputDevice; DockingStation; ProcessorClass; SerialBus; Wireless; IntelligentIO;
   SatelliteCommunication; EncryptionDecryption; DataAndSignalProcessing].

(** [transmute] of a code up to [DataAndSignalProcessing]. *)
Definition class_from_u8 (c : Z) : DeviceClass :=
  if c <=? 0x11 then default Unknown (classes !! Z.to_nat c) else Unknown.

Record Device := mkDevice {
  d_bus : Z; d_function : Z; d_device : Z; device_id : Z; vendor_id : Z; rev_id : Z; subclass : Z;
  class : DeviceClass; multifunction : bool; bars : list Z }.

(** [{:?}] of a class and [{}] of a device. *)
Definition class_debug (c : DeviceClass) : string :=
  match c with
  | Legacy => "Legacy" | MassStorage => "MassStorage" | Network => "Network" | Display => "Display"
  | Multimedia => "Multimedia" | MemoryClass => "Memory" | BridgeDevice => "BridgeDevice"
  | SimpleCommunication => "SimpleCommunication" | BaseSystemPeripheral => "BaseSystemPeripheral"
  | InputDevice => "InputDevice" | DockingStation => "DockingStation" | ProcessorClass => "Processor"
  | SerialBus => "SerialBus" | Wireless => "Wireless" | IntelligentIO => "IntelligentIO"
  | SatelliteCommunication => "SatelliteCommunication" | EncryptionDecryption => "EncryptionDecryption"
  | DataAndSignalProcessing => "DataAndSignalProcessing" | Unknown => "Unknown"
  end.

Definition device_fmt (d : Device) : list Z :=
  fmt_dec (d_bus d) ++ bytes_of "." ++ fmt_dec (d_device d) ++ bytes_of "." ++ fmt_dec (d_function d) ++
  bytes_of ": 0x" ++ fmt_pad 4 (vendor_id d) ++ bytes_of " 0x" ++ fmt_pad 4 (device_id d) ++ bytes_of " " ++
  bytes_of (class_debug (class d)) ++ bytes_of " " ++ fmt_pad 2 (subclass d).

Definition set_bars (d : Device) (b : list Z) : Device :=
  mkDevice (d_bus d) (d_function d) (d_device d) (device_id d) (vendor_id d) (rev_id d) (subclass d)
    (class d) (multifunction d) b.

Definition config_address (bus slot func offset : Z) : Z :=
  Z.lor (Z.lor (Z.lor (Z.lor 0x80000000 (shl_w 32 bus 16)) (shl_w 32 slot 11)) (shl_w 32 func 8))
    (Z.land offset 0xFC).

(** [Device::address] *)
Definition dev_address (d : Device) (offset : Z) : Z :=
  Z.lor (Z.lor (Z.lor (Z.lor (shl_w 32 1 31) (shl_w 32 (d_bus d) 16)) (shl_w 32 (d_device d) 11))
    (shl_w 32 (d_function d) 8)) (Z.land offset 0xFC).

Section Pci.
Context `{Hardware}.

Definition read_config (bus slot func offset : Z) (l : io_log) : Z * io_log :=
  let address := config_address bus slot func offset in
  let l := port_out 32 0xCF8 address l in
  port_in 32 0xCFC l.

Definition probe (bus slot function : Z) (l : io_log) : option Device * io_log :=
  let (config_0, l) := read_config bus slot function 0 l in
  if config_0 =? 0xFFFFFFFF then (None, l) else
  let (config_4, l) := read_config bus slot function 0x8 l in
  let (config_c, l) := read_config bus slot function 0xC l in
  (Some (mkDevice bus function slot (trunc 16 (Z.shiftr config_0 16)) (trunc 16 config_0)
     (trunc 8 config_4) (trunc 8 (Z.shiftr config_4 16)) (class_from_u8 (trunc 8 (Z.shiftr config_4 24)))
     (negb (Z.land config_c 0x800000 =? 0)) (replicate 6 0)), l).

Definition dev_read (d : Device) (offset : Z) (l : io_log) : Z * io_log :=
  port_in 32 0xCFC (port_out 32 0xCF8 (dev_address d offset) l).

Definition dev_write (d : Device) (offset value : Z) (l : io_log) : io_log :=
  port_out 32 0xCFC value (port_out 32 0xCF8 (dev_address d offset) l).

Definition set_flag (d : Device) (offset flag : Z) (toggle : bool) (l : io_log) : outcome io_log :=
  let (value, l) := dev_read d offset l in
  if toggle then Ok (dev_write d offset (Z.lor value flag) l)
  else let? m := sub_w 32 0xFFFFFFFF flag in Ok (dev_write d offset (Z.land value m) l).

(** One iteration of the loop of [load_bars]. *)
Definition load_bar (i : Z) (dl : Device * io_log) : outcome (Device * io_log) :=
  let '(d, l) := dl in
  let? o := mul_w 32 i 4 in
  let? o := add_w 32 o 0x10 in
  let (bar, l) := dev_read d o l in
  if 0 <? bar then
    let? _ := expect (bars d !! Z.to_nat i) "index out of bounds" in
    let d := set_bars d (<[Z.to_nat i := bar]> (bars d)) in
    let l := dev_write d o 0xFFFFFFFF l in
    let (r, l) := dev_read d o l in
    let? s := sub_w 32 0xFFFFFFFF (Z.land r 0xFFFFFFF0) in
    let? size := add_w 32 s 1 in
    let l := dev_write d o bar l in
    if 0 <? size then Ok (set_bars d (<[Z.to_nat i := size]> (bars d)), l) else Ok (d, l)
  else Ok (d, l).

Definition load_bars (d : Device) (l : io_log) : outcome (Device * io_log) :=
  ofold load_bar (seqZ 0 6) (d, l).

Definition dev_bar (d : Device) (index : Z) : outcome Z :=
  expect (bars d !! Z.to_nat index) "index out of bounds".

(** [DEVICES] and [AHCI_BASE]. *)
Record pci_state := mkPci { devices : list Device; ahci_base : Z; pci_log : io_log }.

Definition init_func (bus dev func : Z) (s : pci_state) : outcome pci_state :=
  let (device, l) := probe bus dev func (pci_log s) in
  match device with
  | Some d =>
      let? (d, l) := load_bars d l in
      Ok (mkPci (devices s ++ [d]) (ahci_base s) l)
  | None => Ok (mkPci (devices s) (ahci_base s) l)
  end.

Definition init_dev (bus dev : Z) (s : pci_state) : outcome pci_state :=
  ofold (init_func bus dev) (seqZ 0 MAX_FUNCTION) s.

Definition init_bus (bus : Z) (s : pci_state) : outcome pci_state :=
  ofold (init_dev bus) (seqZ 0 MAX_DEVICE) s.

(** The messages of [init]. *)
Definition discovered (n : nat) : list Z :=
  bytes_of "[ dev ] Discovered " ++ fmt_dec (Z.of_nat n) ++ bytes_of " PCI devices." ++ nl.
Definition ahci_found (address : Z) : list Z :=
  bytes_of "[ dev ] Found AHCI controller. Controller mapped at " ++ fmt_alt address ++ nl.

(** The loop over [DEVICES] that looks for the AHCI controller; [pf] is the fuel of the
    messages. *)
Definition find_ahci (pf : nat) (dev : Device) (s : pci_state) : outcome pci_state :=
  if decide (class dev = MassStorage) then
    if subclass dev =? 0x06 then
      let (bar, l) := dev_read dev 0x24 (pci_log s) in
      let address := Z.land bar 0xFFFFFFF0 in
      let? l := println pf (ahci_found address) l in
      Ok (mkPci (devices s) address l)
    else Ok s
  else Ok s.

Definition pci_init (pf : nat) (s : pci_state) : outcome pci_state :=
  let? s := ofold init_bus (seqZ 0 MAX_BUS) s in
  let? l := println pf (discovered (length (devices s))) (pci_log s) in
  ofold (find_ahci pf) (devices s) (mkPci (devices s) (ahci_base s) l).

(** ** The text of a device *)

Lemma class_debug_inj c c' : class_debug c = class_debug c' -> c = c'.
Proof. destruct c, c'; done. Qed.

Lemma bytes_of_inj s s' : bytes_of s = bytes_of s' -> s = s'.
Proof.
  intros E. rewrite <-(String.string_of_list_ascii_of_string s), <-(String.string_of_list_ascii_of_string s'). f_equal.
  unfold bytes_of in E. revert E. generalize (String.list_ascii_of_string s'). induction (String.list_ascii_of_string s) as [|c l IH];
    intros [|c' l'] E; try done. cbn [fmap list_fmap] in E. injection E as Ec El. apply N2Z.inj in Ec. f_equal; [|by apply IH].
  by rewrite <-(Ascii.ascii_N_embedding c), <-(Ascii.ascii_N_embedding c'), Ec.
Qed.

(** Texts that consist of digits up to a separator. *)
Lemma split_digits sep u v r s :
  Forall digit_like u -> Forall digit_like v -> ~ digit_like sep -> u ++ sep :: r = v ++ sep :: s -> u = v /\ r = s.
Proof. intros Hu Hv Hn. apply split_at_sep; by apply digits_no_sep. Qed.

Definition device_range (d : Device) : Prop :=
  0 <= d_bus d /\ 0 <= d_device d /\ 0 <= d_function d /\ in_width 16 (vendor_id d) /\ in_width 16 (device_id d) /\
  0 <= subclass d.

(** The text of a device determines where it is and what it is: its bus, slot and
    function, its identification, class and subclass. *)
Theorem device_fmt_injective d d' :
  device_range d -> device_range d' -> device_fmt d = device_fmt d' ->
  d_bus d = d_bus d' /\ d_device d = d_device d' /\ d_function d = d_function d' /\
  vendor_id d = vendor_id d' /\ device_id d = device_id d' /\ class d = class d' /\ subclass d = subclass d'.
Proof.
  intros (Hb & Hd & Hf & [Hv _] & [Hi _] & Hs) (Hb' & Hd' & Hf' & [Hv' _] & [Hi' _] & Hs') E. unfold device_fmt in E.
  change (bytes_of ".") with [46] in E. change (bytes_of ": 0x") with [58; 32; 48; 120] in E.
  change (bytes_of " 0x") with [32; 48; 120] in E. change (bytes_of " ") with [32] in E. cbn [app] in E.
  assert (H10 : 2 <= 10 <= 16) by lia.
  pose proof (fmt_radix_chars 10 H10) as Hdec. pose proof fmt_pad_chars as Hpad.
  apply split_digits in E as [E1 E]; [|by apply Hdec..|unfold digit_like; lia].
  apply split_digits in E as [E2 E]; [|by apply Hdec..|unfold digit_like; lia].
  apply split_digits in E as [E3 E]; [|by apply Hdec..|unfold digit_like; lia].
  injection E as E. apply split_digits in E as [E4 E]; [|by apply Hpad..|unfold digit_like; lia].
  injection E as E. apply split_digits in E as [E5 E]; [|by apply Hpad..|unfold digit_like; lia].
  assert (Hns : forall c, Forall (fun x => x <> 32) (bytes_of (class_debug c))).
  { intros c. destruct c; vm_compute; repeat constructor; discriminate. }
  apply split_at_sep in E as [E6 E7]; [|apply Hns..].
  apply fmt_dec_inj in E1, E2, E3; [|done..]. apply fmt_pad_inj in E4, E5, E7; [|done..].
  apply bytes_of_inj, class_debug_inj in E6. done.
Qed.

(** ** Addresses *)

Lemma config_address_sum bus slot func offset :
  0 <= bus < 256 -> 0 <= slot < 32 -> 0 <= func < 8 -> 0 <= offset < 256 ->
  config_address bus slot func offset =
  2 ^ 31 + bus * 2 ^ 16 + slot * 2 ^ 11 + func * 2 ^ 8 + offset / 4 * 4.
Proof.
  intros Hb Hs Hf Ho. unfold config_address, shl_w, trunc. rewrite !Z.shiftl_mul_pow2 by lia.
  rewrite !Z.mod_small by lia.
  assert (Hoff : Z.land offset 0xFC = offset / 4 * 4).
  { change 0xFC with (Z.shiftl (Z.ones 6) 2).
    replace (Z.land offset (Z.shiftl (Z.ones 6) 2)) with (Z.shiftl (Z.land (Z.shiftr offset 2) (Z.ones 6)) 2).
    - rewrite Z.land_ones, Z.shiftl_mul_pow2, Z.shiftr_div_pow2 by lia. change (2 ^ 2) with 4.
      rewrite Z.mod_small by (Z.div_mod_to_equations; lia). done.
    - apply Z.bits_inj'. intros n Hn. rewrite Z.shiftl_spec, !Z.land_spec, Z.shiftl_spec by done.
      destruct (Z.ltb_spec n 2).
      + rewrite !(Z.testbit_neg_r _ (n - 2)) by lia. rewrite !andb_false_r. done.
      + rewrite Z.shiftr_spec by lia. by replace (n - 2 + 2) with n by lia. }
  rewrite Hoff.
  rewrite (lor_add 0x80000000 (bus * 2 ^ 16) 24) by (Z.div_mod_to_equations; lia).
  rewrite (lor_add _ (slot * 2 ^ 11) 16) by (Z.div_mod_to_equations; lia).
  rewrite (lor_add _ (func * 2 ^ 8) 11) by (Z.div_mod_to_equations; lia).
  rewrite (lor_add _ (offset / 4 * 4) 8) by (Z.div_mod_to_equations; lia). done.
Qed.

Lemma dev_address_eq d offset : dev_address d offset = config_address (d_bus d) (d_device d) (d_function d) offset.
Proof. reflexivity. Qed.

(** the address written to the configuration port is 32 bits wide, has its
    enable bit set and names one register: two accesses use the same address
    only for the same bus, slot, function and dword.  [Device::address] and
    [read_config] use the same addresses. *)
Theorem config_address_injective bus slot func offset bus' slot' func' offset' :
  0 <= bus < 256 -> 0 <= slot < 32 -> 0 <= func < 8 -> 0 <= offset < 256 ->
  0 <= bus' < 256 -> 0 <= slot' < 32 -> 0 <= func' < 8 -> 0 <= offset' < 256 ->
  in_width 32 (config_address bus slot func offset) /\
  Z.testbit (config_address bus slot func offset) 31 = true /\
  (config_address bus slot func offset = config_address bus' slot' func' offset' ->
     bus = bus' /\ slot = slot' /\ func = func' /\ offset / 4 = offset' / 4).
Proof.
  intros Hb Hs Hf Ho Hb' Hs' Hf' Ho'. rewrite !config_address_sum by done.
  split; [unfold in_width; Z.div_mod_to_equations; lia|]. split.
  - rewrite Z.testbit_true by lia. Z.div_mod_to_equations. lia.
  - intros Heq. Z.div_mod_to_equations. lia.
Qed.

(** ** The scan *)

Definition loc (d : Device) : Z * Z * Z := (d_bus d, d_device d, d_function d).

(** The documented answer of the bridge for the identification registers: a
    read of the data port gives the register whose address was written last;
    [cfg] gives their contents, which writes do not change. *)
Definition header_law (cfg : Z -> Z) : Prop :=
  forall l a, last_out 0xCF8 l = Some a -> a mod 256 = 0 \/ a mod 256 = 8 \/ a mod 256 = 0xC ->
  hw l 32 0xCFC = cfg a /\ in_width 32 (cfg a).

Definition present (cfg : Z -> Z) (bus slot func : Z) : Prop := cfg (config_address bus slot func 0) <> 0xFFFFFFFF.

Lemma read_config_header cfg bus slot func offset l :
  header_law cfg -> 0 <= bus < 256 -> 0 <= slot < 32 -> 0 <= func < 8 -> offset ∈ [0; 8; 0xC] ->
  fst (read_config bus slot func offset l) = cfg (config_address bus slot func offset).
Proof.
  intros Hl Hb Hs Hf Ho. unfold read_config, port_in, port_out. simpl.
  rewrite !elem_of_cons, elem_of_nil in Ho.
  destruct (Hl (l ++ [POut 32 0xCF8 (config_address bus slot func offset)])
    (config_address bus slot func offset)) as [-> Hw].
  - by rewrite last_out_app.
  - rewrite config_address_sum by (done || lia).
    destruct Ho as [-> |[-> |[-> |[]]]]; [left|right; left|right; right]; Z.div_mod_to_equations; lia.
  - unfold trunc, in_width in *. by rewrite Z.mod_small.
Qed.

(** What the list of devices says about a function: where it is and what it is. *)
Definition ident (d : Device) : Z * Z * Z * Z * Z * DeviceClass * Z :=
  (loc d, vendor_id d, device_id d, class d, subclass d).

(** What the scan of one function adds to the list: nothing if it does not answer, and
    otherwise the fields of its registers 0 and 8. *)
Definition found (cfg : Z -> Z) (bus dev func : Z) : list (Z * Z * Z * Z * Z * DeviceClass * Z) :=
  let id := cfg (config_address bus dev func 0) in
  let kind := cfg (config_address bus dev func 8) in
  if decide (present cfg bus dev func)
  then [((bus, dev, func), id mod 2 ^ 16, id / 2 ^ 16, class_from_u8 (kind / 2 ^ 24), kind / 2 ^ 16 mod 2 ^ 8)] else [].

(** All that answer on the buses 0 to 254, slots 0 to 30 and functions 0 to 6, in order. *)
Definition functions (cfg : Z -> Z) : list (Z * Z * Z * Z * Z * DeviceClass * Z) :=
  concat ((fun bus => concat ((fun dev => concat (found cfg bus dev <$> seqZ 0 7)) <$> seqZ 0 31)) <$> seqZ 0 255).

Lemma functions_slots cfg slot :
  slot ∈ ((fun x => (x.1.1.1.1)) <$> functions cfg) <->
  (0 <= slot.1.1 < 255 /\ 0 <= slot.1.2 < 31 /\ 0 <= slot.2 < 7) /\ present cfg slot.1.1 slot.1.2 slot.2.
Proof.
  destruct slot as [[bus dev] func]. cbn [fst snd]. unfold functions. rewrite list_elem_of_fmap. split.
  - intros (x & Hx & (l1 & Hin & (b & -> & Hb%elem_of_seqZ)%list_elem_of_fmap)%elem_of_concat).
    apply elem_of_concat in Hin as (l2 & Hin & (d & -> & Hd%elem_of_seqZ)%list_elem_of_fmap).
    apply elem_of_concat in Hin as (l3 & Hin & (f & -> & Hf%elem_of_seqZ)%list_elem_of_fmap).
    unfold found in Hin. case_decide as Hp; [|by apply elem_of_nil in Hin]. apply list_elem_of_singleton in Hin as ->.
    cbn in Hx. injection Hx as -> -> ->. split; [lia|done].
  - intros [(Hb & Hd & Hf) Hp]. eexists. split; [|apply elem_of_concat; eexists; split;
      [|apply list_elem_of_fmap; exists bus; split; [done|apply elem_of_seqZ; lia]];
      apply elem_of_concat; eexists; split; [|apply list_elem_of_fmap; exists dev; split; [done|apply elem_of_seqZ; lia]];
      apply elem_of_concat; eexists; split; [|apply list_elem_of_fmap; exists func; split; [done|apply elem_of_seqZ; lia]];
      unfold found; rewrite decide_True by done; by apply list_elem_of_singleton]. done.
Qed.

Lemma header_width cfg bus slot func offset :
  header_law cfg -> 0 <= bus < 256 -> 0 <= slot < 32 -> 0 <= func < 8 -> offset ∈ [0; 8; 0xC] ->
  in_width 32 (cfg (config_address bus slot func offset)).
Proof.
  intros Hl Hb Hs Hf Ho. rewrite <-(read_config_header cfg bus slot func offset []) by done.
  unfold read_config, port_in, port_out, trunc, in_width. simpl. by apply Z.mod_pos_bound.
Qed.

Lemma probe_present cfg bus slot func l :
  header_law cfg -> 0 <= bus < 256 -> 0 <= slot < 32 -> 0 <= func < 8 ->
  option_list (ident <$> fst (probe bus slot func l)) = found cfg bus slot func.
Proof.
  intros Hl Hb Hs Hf. unfold probe, found.
  pose proof (read_config_header cfg bus slot func 0 l Hl Hb Hs Hf ltac:(set_solver)) as H0.
  pose proof (header_width cfg bus slot func 0 Hl Hb Hs Hf ltac:(set_solver)) as W0.
  pose proof (header_width cfg bus slot func 8 Hl Hb Hs Hf ltac:(set_solver)) as W8.
  destruct (read_config bus slot func 0 l) as [c0 l0]. simpl in H0. subst c0.
  destruct (Z.eqb_spec (cfg (config_address bus slot func 0)) 0xFFFFFFFF) as [Heq|Hne].
  { rewrite decide_False; [done|]. intros Hn. by apply Hn. }
  rewrite decide_True by done.
  pose proof (read_config_header cfg bus slot func 8 l0 Hl Hb Hs Hf ltac:(set_solver)) as H8.
  destruct (read_config bus slot func 8 l0) as [c8 l8]. simpl in H8. subst c8.
  destruct (read_config bus slot func 0xC l8) as [cc lc]. cbn [fst fmap option_fmap option_map option_list ident].
  unfold ident. cbn [vendor_id device_id class subclass loc d_bus d_device d_function].
  unfold trunc, in_width in *. rewrite !Z.shiftr_div_pow2 by lia.
  rewrite (Z.mod_small (cfg (config_address bus slot func 0) / 2 ^ 16)) by (Z.div_mod_to_equations; lia).
  rewrite (Z.mod_small (cfg (config_address bus slot func 8) / 2 ^ 24)) by (Z.div_mod_to_equations; lia). done.
Qed.

(** The base address registers are no part of this. *)
Lemma load_bar_same i d l d' l' : load_bar i (d, l) = Ok (d', l') -> ident d' = ident d.
Proof.
  unfold load_bar. intros Hrun. apply obind_Ok in Hrun as (o & _ & Hrun). apply obind_Ok in Hrun as (o' & _ & Hrun).
  destruct (dev_read d o' l) as [bar l1]. destruct (0 <? bar); [|by injection Hrun as <- <-].
  apply obind_Ok in Hrun as (x & _ & Hrun). destruct (dev_read _ o' _) as [r l2].
  apply obind_Ok in Hrun as (sz & _ & Hrun). apply obind_Ok in Hrun as (sz' & _ & Hrun).
  destruct (0 <? sz'); by injection Hrun as <- <-.
Qed.

Lemma load_bars_same d l d' l' : load_bars d l = Ok (d', l') -> ident d' = ident d.
Proof.
  intros Hrun. change (ident (fst (d', l')) = ident d). revert Hrun.
  apply (ofold_inv (fun x => ident (fst x) = ident d)); [done|].
  intros i [d1 l1] [d2 l2] _ Hd Hrun. apply load_bar_same in Hrun. simpl in *. congruence.
Qed.

Lemma init_func_found cfg bus dev func s s' :
  header_law cfg -> 0 <= bus < 256 -> 0 <= dev < 32 -> 0 <= func < 8 ->
  init_func bus dev func s = Ok s' -> ident <$> devices s' = (ident <$> devices s) ++ found cfg bus dev func.
Proof.
  intros Hl Hb Hd Hf Hrun. rewrite <-(probe_present cfg bus dev func (pci_log s) Hl Hb Hd Hf). unfold init_func in Hrun.
  destruct (probe bus dev func (pci_log s)) as [[d|] l].
  - apply obind_Ok in Hrun as ([d' l'] & Hbars%load_bars_same & Hrun).
    injection Hrun as <-. cbn [devices fst fmap option_fmap option_map option_list]. rewrite fmap_app. cbn. by rewrite Hbars.
  - injection Hrun as <-. cbn. by rewrite app_nil_r.
Qed.

Lemma scan_found cfg s s' :
  header_law cfg -> ofold init_bus (seqZ 0 MAX_BUS) s = Ok s' -> ident <$> devices s' = (ident <$> devices s) ++ functions cfg.
Proof.
  intros Hl. refine (ofold_collect (fun s => ident <$> devices s) _ _ _ _ _ _). intros bus x x' Hb%elem_of_seqZ.
  refine (ofold_collect (fun s => ident <$> devices s) _ _ _ _ _ _). intros dev y y' Hd%elem_of_seqZ.
  refine (ofold_collect (fun s => ident <$> devices s) _ _ _ _ _ _). intros func z z' Hf%elem_of_seqZ Hz.
  unfold MAX_BUS, MAX_DEVICE, MAX_FUNCTION in *. apply (init_func_found cfg bus dev func z z' Hl); [lia..|done].
Qed.

(** *** What it prints *)

(** The AHCI controllers among the devices. *)
Definition is_ahci (d : Device) : bool := bool_decide (class d = MassStorage) && (subclass d =? 0x06).

(** [l'] follows [l], and nothing was sent to the serial port in between. *)
Definition quiet (l l' : io_log) : Prop := exists evs, l' = l ++ evs /\ outs 0x3f8 evs = [].

#[local] Instance quiet_preorder : PreOrder quiet.
Proof.
  split.
  - intros l. exists []. by rewrite app_nil_r.
  - intros l l1 l2 (e1 & -> & H1) (e2 & -> & H2). exists (e1 ++ e2). by rewrite outs_app, H1, H2, app_assoc.
Qed.

Lemma dev_read_quiet d o l v l' : dev_read d o l = (v, l') -> quiet l l'.
Proof. unfold dev_read, port_in, port_out. intros [= <- <-]. rewrite <-app_assoc. by eexists. Qed.

Lemma dev_write_quiet d o v l : quiet l (dev_write d o v l).
Proof. unfold dev_write, port_out. rewrite <-app_assoc. by eexists. Qed.

Lemma read_config_quiet bus slot func o l v l' : read_config bus slot func o l = (v, l') -> quiet l l'.
Proof. unfold read_config, port_in, port_out. intros [= <- <-]. rewrite <-app_assoc. by eexists. Qed.

Lemma load_bar_quiet i d l d' l' : load_bar i (d, l) = Ok (d', l') -> quiet l l'.
Proof.
  unfold load_bar. intros Hrun. apply obind_Ok in Hrun as (o & _ & Hrun). apply obind_Ok in Hrun as (o' & _ & Hrun).
  destruct (dev_read d o' l) as [bar l1] eqn:E1. apply dev_read_quiet in E1.
  destruct (0 <? bar); [|by injection Hrun as <- <-].
  apply obind_Ok in Hrun as (x & _ & Hrun). destruct (dev_read _ o' _) as [r l2] eqn:E2.
  apply dev_read_quiet in E2. rewrite <-dev_write_quiet in E2.
  apply obind_Ok in Hrun as (sz & _ & Hrun). apply obind_Ok in Hrun as (sz' & _ & Hrun).
  destruct (0 <? sz'); injection Hrun as <- <-; rewrite E1, E2; apply dev_write_quiet.
Qed.

Lemma init_func_quiet bus dev func s s' :
  init_func bus dev func s = Ok s' -> quiet (pci_log s) (pci_log s') /\ ahci_base s' = ahci_base s.
Proof.
  unfold init_func, probe. destruct (read_config bus dev func 0 _) as [c0 l0] eqn:E0. apply read_config_quiet in E0.
  destruct (c0 =? _); [by intros [= <-]|].
  destruct (read_config bus dev func 8 l0) as [c8 l8] eqn:E8, (read_config bus dev func 0xC l8) as [cc lc] eqn:Ec.
  apply read_config_quiet in E8, Ec. intros Hrun. apply obind_Ok in Hrun as ([d l] & Hbars & Hrun).
  injection Hrun as <-. split; [|done]. rewrite E0, E8, Ec. change (quiet lc (snd (d, l))). revert Hbars.
  apply (ofold_inv (fun x => quiet lc (snd x))); [done|].
  intros i [d1 l1] [d2 l2] _ Hx Hr%load_bar_quiet. simpl in *. by rewrite Hx.
Qed.

Lemma scan_quiet s s' :
  ofold init_bus (seqZ 0 MAX_BUS) s = Ok s' -> quiet (pci_log s) (pci_log s') /\ ahci_base s' = ahci_base s.
Proof.
  pose (P := fun x => quiet (pci_log s) (pci_log x) /\ ahci_base x = ahci_base s).
  apply (ofold_inv P); [done|]. intros bus x x' _ Hx. apply (ofold_inv P); [done|]. intros dev y y' _ Hy.
  apply (ofold_inv P); [done|]. intros func z z' _ [Hz1 Hz2] Hr. apply init_func_quiet in Hr as [H1 H2].
  split; [by rewrite Hz1|congruence].
Qed.

(** The base address in the register at 0x24, the ABAR: its low four bits are flags. *)
Definition base_address (bar : Z) : Z := Z.land bar 0xFFFFFFF0.

(** What the last loop does on the ports: for each AHCI controller among the devices, in
    order, the register at 0x24 of this device is read, and its base address printed. *)
Inductive reports : list Device -> list Z -> io_log -> Prop :=
  | rp_done : reports [] [] []
  | rp_other d ds bars evs : is_ahci d = false -> reports ds bars evs -> reports (d :: ds) bars evs
  | rp_ahci d ds bar bars m evs :
      is_ahci d = true -> message (ahci_found (base_address bar)) m -> reports ds bars evs ->
      reports (d :: ds) (bar :: bars)
        ([POut 32 0xCF8 (config_address (d_bus d) (d_device d) (d_function d) 0x24); PIn 32 0xCFC bar] ++ m ++ evs).

Section Messages.
Context (n pf : nat) (Hready : settles (port_new 8 (0x3f8 + 5)) is_transmit_empty n) (Hpf : (n < pf)%nat).

Lemma find_ahci_run dev s :
  exists s', find_ahci pf dev s = Ok s' /\ devices s' = devices s /\
    if is_ahci dev then exists bar m,
      pci_log s' = pci_log s ++ [POut 32 0xCF8 (dev_address dev 0x24); PIn 32 0xCFC bar] ++ m /\
      message (ahci_found (base_address bar)) m /\ ahci_base s' = base_address bar
    else s' = s.
Proof.
  unfold find_ahci, is_ahci. case_decide; case_bool_decide; try done; cbn [andb]; [|by eexists].
  destruct (subclass dev =? 6); [|by eexists]. unfold dev_read, port_in, port_out. set (bar := trunc 32 _).
  match goal with |- context [println pf ?t ?l] => destruct (println_spec n pf t l Hready Hpf) as (m & -> & Hm) end.
  cbn [obind]. eexists. split; [done|]. split; [done|]. exists bar, m. split; [|done]. cbn [pci_log]. by rewrite <-!app_assoc.
Qed.

(** The last loop. *)
Lemma find_ahci_loop ds s :
  exists s' bars evs, ofold (find_ahci pf) ds s = Ok s' /\ devices s' = devices s /\
    pci_log s' = pci_log s ++ evs /\ reports ds bars evs /\
    ahci_base s' = default (ahci_base s) (last (base_address <$> bars)).
Proof.
  revert s. induction ds as [|d ds IH]; intros s; cbn [ofold].
  { exists s, [], []. rewrite app_nil_r. split_and!; try done. constructor. }
  destruct (find_ahci_run d s) as (s1 & -> & Hd & Hm). cbn [obind].
  destruct (IH s1) as (s2 & bars & evs & -> & Hd2 & Hlog & Hr & Hb). exists s2.
  destruct (is_ahci d) eqn:Ha.
  - destruct Hm as (bar & m & Hl & Hmsg & Hbase). exists (bar :: bars).
    eexists. split; [done|]. split; [congruence|]. split; [by rewrite Hlog, Hl, <-!app_assoc|]. split; [by constructor|].
    rewrite Hb, Hbase. cbn [fmap list_fmap]. rewrite last_cons. by destruct (last _).
  - subst s1. exists bars, evs. split_and!; try done. by constructor.
Qed.
End Messages.

(** The only way the scan fails: the size of a register overflows.  A register that is in
    use has been filled with ones, and reads back without any address bit. *)
Definition bar_overflow : error := EPanic "attempt to add with overflow".

Definition sizes_nothing (e : error) : Prop :=
  e = bar_overflow /\
  exists l a, let l' := l ++ [POut 32 0xCF8 a; POut 32 0xCFC 0xFFFFFFFF; POut 32 0xCF8 a] in
    base_address (trunc 32 (hw l' 32 0xCFC)) = 0.

Lemma load_bar_length i d l d' l' : load_bar i (d, l) = Ok (d', l') -> length (bars d') = length (bars d).
Proof.
  unfold load_bar. intros Hrun. apply obind_Ok in Hrun as (o & _ & Hrun). apply obind_Ok in Hrun as (o' & _ & Hrun).
  destruct (dev_read d o' l) as [bar l1]. destruct (0 <? bar); [|by injection Hrun as <- <-].
  apply obind_Ok in Hrun as (x & _ & Hrun). destruct (dev_read _ o' _) as [r l2].
  apply obind_Ok in Hrun as (sz & _ & Hrun). apply obind_Ok in Hrun as (sz' & _ & Hrun).
  destruct (0 <? sz'); injection Hrun as <- <-; simpl; by rewrite !length_insert.
Qed.

Lemma load_bar_err i d l e :
  0 <= i < 6 -> length (bars d) = 6%nat -> load_bar i (d, l) = Err e -> sizes_nothing e.
Proof.
  intros Hi Hlen. unfold load_bar. rewrite mul_w_fits by (unfold in_width; lia). cbn [obind].
  rewrite add_w_fits by (unfold in_width; lia). cbn [obind]. destruct (dev_read d _ l) as [bar l1].
  destruct (0 <? bar); [|done]. destruct (lookup_lt_is_Some_2 (bars d) (Z.to_nat i)) as [x ->]; [lia|]. cbn [expect obind].
  unfold dev_read, dev_write, port_in, port_out. set (r := trunc 32 _).
  assert (Hm : 0 <= Z.land r 0xFFFFFFF0 < 2 ^ 32).
  { rewrite (Z.land_comm r). change 0xFFFFFFF0 with (Z.land 0xFFFFFFF0 (Z.ones 32)).
    rewrite <-Z.land_assoc, (Z.land_comm (Z.ones 32)), Z.land_assoc, Z.land_ones by lia. apply Z.mod_pos_bound. lia. }
  rewrite sub_w_fits by (unfold in_width; lia). cbn [obind]. unfold add_w.
  destruct (fits 32 _) eqn:Hfits; cbn [obind panic]; [destruct (0 <? _); done|]. intros [= <-]. split; [done|].
  assert (Happ : forall (x : io_log) a b c, x ++ [a; b; c] = ((x ++ [a]) ++ [b]) ++ [c]) by (intros; by rewrite <-!app_assoc).
  eexists _, _. cbv zeta. rewrite Happ. transitivity (base_address r); [reflexivity|].
  unfold fits in Hfits. unfold base_address. lia.
Qed.

Lemma load_bars_err d l e : length (bars d) = 6%nat -> load_bars d l = Err e -> sizes_nothing e.
Proof.
  intros Hlen. apply (ofold_errors (fun x => length (bars (fst x)) = 6%nat) sizes_nothing); [done| |].
  - intros i [d1 l1] [d2 l2] _ Hl Hr. simpl in *. by rewrite (load_bar_length _ _ _ _ _ Hr).
  - intros i [d1 l1] e1 Hi%elem_of_seqZ Hl. apply load_bar_err; [lia|exact Hl].
Qed.

Lemma scan_err s e : ofold init_bus (seqZ 0 MAX_BUS) s = Err e -> sizes_nothing e.
Proof.
  apply (ofold_errors (fun _ => True) sizes_nothing); [done|done|]. intros bus x e2 _ _.
  apply (ofold_errors (fun _ => True) sizes_nothing); [done|done|]. intros dev y e3 _ _.
  apply (ofold_errors (fun _ => True) sizes_nothing); [done|done|]. intros func z e4 _ _. unfold init_func, probe.
  destruct (read_config bus dev func 0 _) as [c0 l0]. destruct (c0 =? _); [done|].
  destruct (read_config bus dev func 8 l0) as [c8 l8], (read_config bus dev func 0xC l8) as [cc lc].
  destruct (load_bars _ lc) as [[d l]|e5] eqn:Eb; [done|]. intros [= <-]. eapply load_bars_err; [|exact Eb]. done.
Qed.

Lemma pci_init_err n pf s e :
  settles (port_new 8 (0x3f8 + 5)) is_transmit_empty n -> (n < pf)%nat -> pci_init pf s = Err e -> sizes_nothing e.
Proof.
  intros Hready Hpf. unfold pci_init. destruct (ofold init_bus _ s) as [s1|e1] eqn:E; cbn [obind].
  - destruct (println_spec n pf (discovered (length (devices s1))) (pci_log s1) Hready Hpf) as (evs & -> & _).
    cbn [obind]. match goal with |- context [ofold _ ?ds ?x] =>
      destruct (find_ahci_loop n pf Hready Hpf ds x) as (s' & bs & ev & -> & _) end. done.
  - intros [= <-]. by eapply scan_err.
Qed.

(** C39: The PCI scan, on a bridge that gives the identification registers as documented
    ([header_law]) and a UART that is ready after a bounded number of reads.  Either
    [pci::init] completes.  Then the list holds one entry for each function that answers
    on the buses 0 to 254, slots 0 to 30 and functions 0 to 6, in this order, with its
    vendor, device, class and subclass ([functions]; bus 255, slot 31 and function 7 are
    never looked at).  Nothing is printed during the scan; then comes one line with the
    number of devices, and after it, for each AHCI controller in the order of the list,
    its register at 0x24 is read and one line with the base address printed, that is
    without the low four bits; the last base address is stored, and nothing else happens
    on the ports ([reports]).  Or it panics, when a register that is in use reads back
    without an address bit after ones were written to it: its size overflows. *)
Theorem pci_scan cfg n pf l :
  header_law cfg -> settles (port_new 8 (0x3f8 + 5)) is_transmit_empty n -> (n < pf)%nat ->
  match pci_init pf (mkPci [] 0 l) with
  | Ok s' =>
      ident <$> devices s' = functions cfg /\
      (forall bus dev func, (bus, dev, func) ∈ (loc <$> devices s') <->
        (0 <= bus < 255 /\ 0 <= dev < 31 /\ 0 <= func < 7) /\ present cfg bus dev func) /\
      exists scan m bars evs, pci_log s' = l ++ scan ++ m ++ evs /\ outs 0x3f8 scan = [] /\
        message (discovered (length (functions cfg))) m /\ reports (devices s') bars evs /\
        ahci_base s' = default 0 (last (base_address <$> bars))
  | Err e => sizes_nothing e
  end.
Proof.
  intros Hl Hready Hpf. destruct (pci_init pf _) as [s'|e] eqn:Hrun; [|by eapply pci_init_err].
  unfold pci_init in Hrun. apply obind_Ok in Hrun as (s1 & Hscan & Hrun).
  destruct (println_spec n pf (discovered (length (devices s1))) (pci_log s1) Hready Hpf) as (m & Hm & Hmsg).
  rewrite Hm in Hrun. cbn [obind] in Hrun.
  destruct (find_ahci_loop n pf Hready Hpf (devices s1) (mkPci (devices s1) (ahci_base s1) (pci_log s1 ++ m)))
    as (s2 & bars & evs & Hloop & Hdev & Hlog & Hr & Hb). rewrite Hrun in Hloop. injection Hloop as <-.
  cbn [devices pci_log ahci_base] in *. destruct (scan_quiet _ _ Hscan) as [(scan & Hs & Hq) Hbase].
  cbn [pci_log ahci_base] in *. pose proof (scan_found cfg _ _ Hl Hscan) as Hlist. cbn [devices fmap list_fmap app] in Hlist.
  rewrite Hdev. split; [done|]. split.
  - intros bus dev func. rewrite <-(functions_slots cfg (bus, dev, func)), <-Hlist, <-list_fmap_compose. done.
  - exists scan, m, bars, evs. rewrite <-Hlist, length_fmap, Hb, Hbase, Hlog, Hs, <-!app_assoc. done.
Qed.

(** what [load_bars] records.  For a register that is in use, the slot of
    [bars] ends up with the size the register decodes, not with its base
    address, and the register gets its old value back; a register whose address
    bits all read back as zero overflows the computation of the size, a
    panic. *)
Theorem load_bar_size i d l bar r :
  0 <= i < 6 -> length (bars d) = 6%nat ->
  let a := dev_address d (i * 4 + 0x10) in
  let l1 := l ++ [POut 32 0xCF8 a] in
  let l2 := l1 ++ [PIn 32 0xCFC bar; POut 32 0xCF8 a; POut 32 0xCFC 0xFFFFFFFF; POut 32 0xCF8 a] in
  hw l1 32 0xCFC = bar -> 0 < bar < 2 ^ 32 -> hw l2 32 0xCFC = r -> in_width 32 r ->
  load_bar i (d, l) =
  if Z.land r 0xFFFFFFF0 =? 0 then panic "attempt to add with overflow"
  else Ok (set_bars d (<[Z.to_nat i := 2 ^ 32 - Z.land r 0xFFFFFFF0]> (bars d)),
           l2 ++ [PIn 32 0xCFC r; POut 32 0xCF8 a; POut 32 0xCFC bar]).
Proof.
  intros Hi Hlen a l1 l2 Hbar Hb Hr Hw. unfold load_bar, in_width in *.
  rewrite mul_w_fits by (unfold in_width; lia). cbn [obind].
  rewrite add_w_fits by (unfold in_width; lia). cbn [obind]. unfold dev_read, dev_write, port_in, port_out.
  fold a. fold l1. rewrite Hbar. unfold trunc. rewrite (Z.mod_small bar) by lia.
  destruct (Z.ltb_spec 0 bar); [|lia].
  destruct (lookup_lt_is_Some_2 (bars d) (Z.to_nat i)) as [b Hbi]; [lia|]. rewrite Hbi. cbn [expect obind].
  assert (Hl2 : (((l1 ++ [PIn 32 0xCFC bar]) ++ [POut 32 0xCF8 a]) ++ [POut 32 0xCFC 0xFFFFFFFF]) ++
    [POut 32 0xCF8 a] = l2) by (unfold l2; by rewrite <-!app_assoc).
  change (dev_address (set_bars _ _) _) with a. rewrite Hl2, Hr, (Z.mod_small r) by lia.
  assert (Hm : 0 <= Z.land r 0xFFFFFFF0 <= 0xFFFFFFF0).
  { split; [by apply Z.land_nonneg; right|].
    rewrite <-(Z2N.id r), <-(Z2N.id 0xFFFFFFF0), <-N2Z.inj_land by lia. pose proof (N.land_le_r (Z.to_N r) (Z.to_N 0xFFFFFFF0)). lia. }
  rewrite sub_w_fits by (unfold in_width; lia). cbn [obind].
  destruct (Z.eqb_spec (Z.land r 0xFFFFFFF0) 0) as [->|Hne]; [reflexivity|].
  rewrite add_w_fits by (unfold in_width; lia). cbn [obind].
  destruct (Z.ltb_spec 0 (0xFFFFFFFF - Z.land r 0xFFFFFFF0 + 1)); [|lia]. unfold set_bars. simpl.
  rewrite list_insert_insert_eq, <-!app_assoc. do 3 f_equal. simpl. do 2 f_equal. lia.
Qed.

End Pci.

(** ** A concrete bus: one function, an AHCI controller, at 0.3.0 *)

Definition demo_cfg (a : Z) : Z :=
  if a =? config_address 0 3 0 0 then 0x70001022
  else if a mod 256 =? 0 then 0xFFFFFFFF else if a mod 256 =? 8 then 0x01060100 else 0x800000.

(** Its registers are those of [demo_cfg], and one that holds a base address of 4 KiB. *)
Definition pci_hw : Hardware := fun l _ port =>
  if decide (port = 0x3f8 + 5) then 0x60 else
  match last_out 0xCF8 l with
  | None => 0
  | Some a =>
      if (a mod 256 =? 0) || (a mod 256 =? 8) || (a mod 256 =? 0xC) then demo_cfg a
      else if bool_decide (last_out 0xCFC l = Some 0xFFFFFFFF) then 0xFFFFF000
      else if a mod 256 =? 0x24 then 0xFEBF0000 else 0
  end.

Lemma pci_ready : @settles pci_hw (port_new 8 (0x3f8 + 5)) is_transmit_empty 0.
Proof. intros l. exists 0%nat. split; [lia|]. reflexivity. Qed.

Lemma demo_header_law : @header_law pci_hw demo_cfg.
Proof.
  intros l a Ha Hr. unfold hw, pci_hw. rewrite decide_False, Ha by done. split.
  - destruct Hr as [-> |[-> | ->]]; reflexivity.
  - unfold demo_cfg, in_width. repeat case_match; lia.
Qed.

(** No register of it reads back without an address bit. *)
Lemma demo_sizes e : ~ @sizes_nothing pci_hw e.
Proof.
  intros (_ & l & a & Hz). cbv zeta in Hz. set (l' := l ++ _) in Hz.
  assert (H1 : last_out 0xCF8 l' = Some a) by (unfold l'; by rewrite last_out_app).
  assert (H2 : last_out 0xCFC l' = Some 0xFFFFFFFF) by (unfold l'; by rewrite last_out_app).
  unfold hw, pci_hw in Hz. rewrite decide_False, H1, H2, bool_decide_true in Hz by done.
  destruct (_ || _); [|discriminate Hz]. unfold demo_cfg in Hz. repeat case_match; discriminate Hz.
Qed.

Lemma config_address_injective_witness :
  in_width 32 (config_address 0 3 0 8) /\ Z.testbit (config_address 0 3 0 8) 31 = true /\
  (config_address 0 3 0 8 = config_address 0 3 0 9 -> 0 = 0 /\ 3 = 3 /\ 0 = 0 /\ 8 / 4 = 9 / 4).
Proof. apply (config_address_injective 0 3 0 8 0 3 0 9); lia. Defined.

Lemma pci_scan_witness :
  exists s' bars evs, @pci_init pci_hw 1 (mkPci [] 0 []) = Ok s' /\
    ident <$> devices s' = [((0, 3, 0), 0x1022, 0x7000, MassStorage, 6)] /\
    reports (devices s') bars evs /\ ahci_base s' = default 0 (last (base_address <$> bars)).
Proof.
  pose proof (@pci_scan pci_hw demo_cfg 0 1 [] demo_header_law pci_ready (le_n 1)) as Hs.
  destruct (@pci_init pci_hw 1 (mkPci [] 0 [])) as [s'|e]; [|destruct (demo_sizes e Hs)].
  assert (Hf : functions demo_cfg = [((0, 3, 0), 0x1022, 0x7000, MassStorage, 6)]) by (vm_compute; reflexivity).
  rewrite Hf in Hs. destruct Hs as (Hid & _ & scan & m & bars & evs & _ & _ & _ & Hr & Hb).
  exists s', bars, evs. split; [reflexivity|]. split; [exact Hid|]. split; [exact Hr|exact Hb].
Defined.

(** A 4 KiB memory register at 0xFEBF0000. *)
Definition bar_hw : Hardware :=
  fun l _ _ => if decide (last_out 0xCFC l = Some 0xFFFFFFFF) then 0xFFFFF000 else 0xFEBF0000.

Definition demo_device : Device := mkDevice 0 0 3 0x7000 0x1022 0 6 MassStorage false (replicate 6 0).

Lemma load_bar_size_witness :
  exists l', @load_bar bar_hw 5 (demo_device, []) = Ok (set_bars demo_device [0; 0; 0; 0; 0; 0x1000], l').
Proof.
  rewrite (@load_bar_size bar_hw 5 demo_device [] 0xFEBF0000 0xFFFFF000);
    [eexists; reflexivity|lia|reflexivity|reflexivity|lia|reflexivity|unfold in_width; lia].
Defined.
