(* ===== verification/LockUse.v ===== *)
(** * How the kernel uses its locks

    The sequence of effects on locks and on the interrupt flag of the functions
    that interrupts can meet: [print!] ([macros.rs]), the critical sections
    ([interrupts/utils.rs]), the heap ([heap_allocator.rs]), the scheduler
    ([task/coop_sched.rs]), the interrupt handlers ([irq.rs],
    [interrupts/mod.rs], [exceptions.rs]) and the end of [arch::init].  A
    sequence depends on the same data as the function, the state of the model of
    its component; [Locks] is the machine they run on.

    A function that panics prints the message with the locks it holds at that
    point and spins. *)

From S2P Require Import Prelude Task Sched Ports Vga Keyboard Idt Locks.

(** ** Printing, critical sections, the heap *)

(** [write!(serial::COM1.lock(), ...)]: the guard lives through the formatting
    of the arguments, which takes no lock. *)
Definition print_acts : list action := locked Exclusive LCom1 [].

(** [panic_fmt]: two lines, then [loop {}]. *)
Definition panic_acts : list action := print_acts ++ print_acts ++ [Spin].

(** Each [PICS.lock()] is a guard for one statement. *)
Definition pics_acts : list action := locked Exclusive LPics [].

Definition disable_acts : list action := Cli :: pics_acts ++ pics_acts ++ pics_acts ++ pics_acts.
Definition restore_acts : list action := Cli :: pics_acts ++ pics_acts ++ [Sti].
Definition section_acts (f : list action) : list action := disable_acts ++ f ++ restore_acts.

(** One call of the allocator, [alloc] or [dealloc]. *)
Definition heap_acts : list action := section_acts (locked Exclusive LHeap []).
Definition heap_calls (n : nat) : list action := concat (replicate n heap_acts).

(** [apic::eoi]: the guard lives as long as the [if let].  The write meant for the
    controller goes to a temporary ([Apic.lapic_write]): it ends no interrupt. *)
Definition eoi_acts (initialised : bool) : list action :=
  locked Exclusive LApicManager (if initialised then [] else panic_acts).

(** ** The scheduler *)

Section Scheduler.
(** How many elements the buffer of the ready list holds before [push_back]
    allocates a larger one and frees the old one. *)
Context (capacity : nat).

Definition push_acts (queue : list Z) : list action :=
  if (capacity <=? length queue)%nat then heap_calls 2 else [].

Definition ready_acts (s : CoopScheduler) : list action :=
  locked Exclusive LReadyList (push_acts (ready_list s)).

(** The branches of [pick_next]; the guard of the new process is dropped before
    those of the old one, of the list and of the table. *)
Definition pick_acts (s : CoopScheduler) : list action :=
  locked Shared LTaskTable (locked Exclusive LReadyList
    match proclist_get (get_id s) (task_table s) with
    | None => panic_acts
    | Some prev =>
        locked Exclusive (LProcess (get_id s))
          ((if decide (state prev = Current) then push_acts (ready_list s) else []) ++
           match ready_list s ++ (if decide (state prev = Current) then [get_id s] else []) with
           | [] => []
           | next_id :: _ =>
               if negb (next_id =? get_id s) then
                 match proclist_get next_id (task_table s) with
                 | None => panic_acts
                 | Some _ => locked Exclusive (LProcess next_id) []
                 end
               else []
           end)
    end).

(** The process [resched] switches to. *)
Definition next_process (s : CoopScheduler) : list Z :=
  match proclist_get (get_id s) (task_table s) with
  | None => []
  | Some prev =>
      match ready_list s ++ (if decide (state prev = Current) then [get_id s] else []) with
      | [] => []
      | next_id :: _ => if negb (next_id =? get_id s) then [next_id] else []
      end
  end.

Definition resched_acts (s : CoopScheduler) : list action :=
  locked Shared LReadyList [] ++
  match ready_list s with
  | [] => []
  | _ => pick_acts s ++ (SwitchTo <$> next_process s)
  end.

(** [kill]: dropping the stack calls the allocator under both guards. *)
Definition kill_acts (id : Z) (s : CoopScheduler) : list action :=
  match proclist_get id (task_table s) with
  | None => Acquire Shared LTaskTable :: panic_acts
  | Some p =>
      locked Shared LTaskTable (locked Exclusive (LProcess id)
        (match stack p with Some (_ :: _) => heap_calls 1 | _ => [] end)) ++
      resched_acts (set_table s (<[id := set_pstack None (set_state Free p)]> (procs (task_table s))))
  end.

(** [Box::from_raw] frees its box at the end of [process_return], after
    [kill]. *)
Definition process_return_acts (s : CoopScheduler) : list action :=
  kill_acts (get_id s) s ++ heap_calls 1.

(** [create]: the stack, the box and the three values are allocated first, the
    process (its name, its [Arc] and [nodes] nodes of the tree) under the guard of
    the task table; the old name is freed under both guards, the values at the
    end. *)
Definition create_acts (nodes : nat) (s : CoopScheduler) : list action :=
  heap_calls 3 ++
  match proclist_add (task_table s) with
  | Ok (ROk id, _) =>
      locked Exclusive LTaskTable (heap_calls (2 + nodes) ++ locked Exclusive (LProcess id) (heap_calls 1)) ++
      heap_calls 1
  | Ok (RErr _, _) => locked Exclusive LTaskTable [] ++ heap_calls 2
  | Err _ => Acquire Exclusive LTaskTable :: panic_acts
  end.

(** [syscall::create] panics when there is no new process. *)
Definition syscall_create_acts (nodes : nat) (s : CoopScheduler) : list action :=
  section_acts (create_acts nodes s ++
    match proclist_add (task_table s) with Ok (ROk _, _) => ready_acts s | _ => panic_acts end).

(** ** Interrupt handlers *)

(** What an interrupt finds: the state of the scheduler if the time slice is
    over, and whether the APIC manager is there. *)
Record irq := mkIrq { i_vector : Z; i_slice : option CoopScheduler; i_apic : bool }.

Definition timer_acts (i : irq) : list action :=
  print_acts ++ eoi_acts (i_apic i) ++
  match i_slice i with
  | Some s => section_acts (resched_acts s)
  | None => []
  end.

Definition exception_acts (e : exception) : list action :=
  match e with
  | Breakpoint => print_acts
  | _ => section_acts (print_acts ++ [Spin])
  end.

Definition handler_acts (h : handler) (i : irq) : list action :=
  match h with
  | HException e => exception_acts e
  | HTimer => timer_acts i
  | HApicNmi => print_acts ++ [Spin]
  | HSpurious => print_acts
  end.

(** The gate of the vector; without one the processor raises an exception. *)
Definition gate_acts (i : irq) : list action :=
  match IDT !! i_vector i with
  | Some g => handler_acts (g_handler g) i
  | None => exception_acts SegNotPresent
  end.

End Scheduler.

(** ** The keyboard handler, which no gate installs *)

Section Keyboard.
Context `{Hardware}.
(** How often building a [String] from a character calls the allocator. *)
Context (strings : nat).

Definition apply_acts (k : kbd) : list action :=
  if use_uppercase_letters (k_mods k) then heap_calls 1 ++ heap_calls strings ++ heap_calls 1
  else match should_switch_tty (k_mods k) with
       | Ok (true, index) =>
           locked Exclusive LTtys [] ++
           (match switch index (k_ttys k) (k_screen k) with
            | Ok _ => locked Exclusive LScreen []
            | Err _ => panic_acts
            end) ++ heap_calls strings
       | Ok (false, _) => heap_calls strings
       | Err _ => panic_acts
       end.

(** The vector of bytes is allocated, may grow, and is freed. *)
Definition retrieve_acts (scancode : Z) (l : io_log) : list action :=
  heap_calls 1 ++
  (if (scancode =? 0xE0) || (scancode =? 0xE1) then
     locked Exclusive LPs2 [] ++
     match is_special_key (fst (Ps2.read_char l)) with Some _ => heap_calls 2 | None => [] end
   else []) ++
  heap_calls 1.

Definition parse_key_acts (scancode : Z) (k : kbd) : list action :=
  retrieve_acts scancode (k_log k) ++
  match obind (retrieve_bytes scancode (k_log k)) (fun x => get_key (fst x)) with
  | Err _ => panic_acts
  | Ok None => []
  | Ok (Some (KAscii c)) => if bool_decide (c ∈ [10; 32; 9; 8]) then print_acts else []
  | Ok (Some (KMeta modifier)) =>
      locked Exclusive LKeyState (match update (k_mods k) modifier with Ok _ => [] | Err _ => panic_acts end)
  | Ok (Some (KLowerAscii _)) =>
      (* the guard of the state lives until the string is printed and freed *)
      locked Exclusive LKeyState (apply_acts k ++ print_acts ++ heap_calls 1)
  end.

Definition keyboard_acts (k : kbd) : list action :=
  print_acts ++ locked Exclusive LPs2 [] ++
  (let (code, l) := Ps2.read_char (k_log k) in parse_key_acts code (set_klog k l)) ++
  eoi_acts true.

End Keyboard.

(** The end of [arch::init] and [kmain]'s loop. *)
Definition init_end_acts : list action := Sti :: print_acts ++ [Spin].

(** ** The handlers keep the discipline *)

(** The locks of the installed handlers. *)
Definition handler_lock (l : lock) : bool :=
  match l with
  | LCom1 | LPics | LApicManager | LHeap | LTaskTable | LReadyList | LProcess _ => true
  | LPit | LPs2 | LPci | LDevices | LKeyState | LScreen | LTtys | LVga | LAllocator => false
  end.

Section Rules.
Context (common : lock -> bool).
Local Abbreviation uses := (uses common).

(** No guard of one of these locks is held. *)
Definition without (ls : list lock) (h : list guard) : Prop :=
  Forall (fun l => forallb (fun x => negb (conflict (Exclusive, l) x)) h = true) ls.

Lemma without_in ls l h m on :
  without ls h -> l ∈ ls -> on = false -> m = Exclusive -> may_take common on h (m, l).
Proof. intros Hw Hl -> -> _. split; [done|]. by eapply (proj1 (Forall_forall _ _) Hw). Qed.

Lemma uses_print h : without [LCom1] h -> uses false false h print_acts.
Proof.
  intros Hw. apply uses_locked; [|apply uses_nil]. by eapply without_in; [|by left|..].
Qed.

Lemma uses_panic on' h : without [LCom1] h -> uses false on' h panic_acts.
Proof.
  intros Hw. eapply uses_app; [by apply uses_print|]. eapply uses_app; [by apply uses_print|]. apply uses_spin.
Qed.

Lemma uses_pics h : without [LPics] h -> uses false false h pics_acts.
Proof.
  intros Hw. apply uses_locked; [|apply uses_nil]. by eapply without_in; [|by left|..].
Qed.

(** A critical section, entered with interrupts on or off: it ends with them on,
    so its caller must hold no common lock. *)
Lemma uses_section on on' h body :
  without [LPics] h -> private common h = true -> uses false on' h body -> uses on true h (section_acts body).
Proof.
  intros Hw Hp Hb. pose proof (uses_pics h Hw) as Hpics. unfold section_acts, disable_acts, restore_acts.
  eapply uses_app; [apply uses_cli; repeat (eapply uses_app; [exact Hpics|]); exact Hpics|].
  eapply uses_app; [exact Hb|]. apply uses_cli.
  repeat (eapply uses_app; [exact Hpics|]). by apply uses_sti.
Qed.

Lemma uses_heap on h : without [LPics; LHeap] h -> private common h = true -> uses on true h heap_acts.
Proof.
  intros Hw Hp. eapply uses_section; [by apply Forall_cons in Hw as [? _]; constructor|done|].
  apply uses_locked; [|apply uses_nil]. by eapply without_in; [|by right; left|..].
Qed.

Lemma uses_eoi_acts b h : without [LApicManager; LCom1] h -> uses false false h (eoi_acts b).
Proof.
  intros Hw. pose proof Hw as Hw'. apply Forall_cons in Hw' as [Ha Hc].
  apply uses_locked; [by eapply without_in; [|by left|..]|]. destruct b; [apply uses_nil|].
  apply uses_panic. constructor; [|done]. apply Forall_cons in Hc as [Hc _]. by simpl.
Qed.

End Rules.

(** *** The scheduler *)

Section SchedulerRules.
Context (common : lock -> bool) (capacity : nat).
Local Abbreviation uses := (uses common).

Lemma push_fits l : (length l < capacity)%nat -> push_acts capacity l = [].
Proof. intros Hl. unfold push_acts. by destruct (Nat.leb_spec capacity (length l)); [lia|]. Qed.

Lemma uses_pick s :
  (length (ready_list s) < capacity)%nat -> uses false false [] (pick_acts capacity s).
Proof.
  intros Hfit. unfold pick_acts. rewrite push_fits by done.
  apply uses_locked; [done|]. apply uses_locked; [done|].
  destruct (proclist_get _ _) as [prev|]; [|by apply uses_panic; repeat constructor].
  apply uses_locked; [done|]. replace (if decide (state prev = Current) then [] else []) with (@nil action) by (by destruct (decide _)). cbn [app].
  destruct (ready_list s ++ _) as [|id rest]; [apply uses_nil|].
  destruct (Z.eqb_spec id (get_id s)) as [|Hne]; [apply uses_nil|]. cbn [negb].
  destruct (proclist_get _ _); [|by apply uses_panic; repeat constructor].
  apply uses_locked; [|apply uses_nil]. intros _. split; [done|]. cbn [forallb].
  rewrite conflict_ne by congruence. reflexivity.
Qed.

Lemma next_uses s : uses false false [] (SwitchTo <$> next_process s).
Proof.
  unfold next_process. destruct (proclist_get _ _); [|apply uses_nil].
  destruct (ready_list s ++ _); [apply uses_nil|]. destruct (negb _); [by apply uses_switch|apply uses_nil].
Qed.

Lemma uses_resched s :
  (length (ready_list s) < capacity)%nat -> uses false false [] (resched_acts capacity s).
Proof.
  intros Hfit. eapply uses_app; [by apply uses_locked; [|apply uses_nil]|].
  destruct (ready_list s) as [|x l] eqn:Hl; [apply uses_nil|].
  eapply uses_app; [apply uses_pick; by rewrite Hl|apply next_uses].
Qed.

(** The interrupt finds room in the ready list. *)
Definition fits_queue (i : irq) : Prop :=
  forall s, i_slice i = Some s -> (length (ready_list s) < capacity)%nat.

Lemma uses_timer i : fits_queue i -> exists on', uses false on' [] (timer_acts capacity i).
Proof.
  intros Hfit. unfold timer_acts.
  assert (Hpre : uses false false [] (print_acts ++ eoi_acts (i_apic i))).
  { eapply uses_app; [by apply uses_print; repeat constructor|by apply uses_eoi_acts; repeat constructor]. }
  destruct (i_slice i) as [s|] eqn:Hs; eexists; rewrite app_assoc; (eapply uses_app; [exact Hpre|]).
  - apply (uses_section _ _ false); [by repeat constructor|done|]. by apply uses_resched, Hfit.
  - apply uses_nil.
Qed.

Lemma uses_exception e : exists on', uses false on' [] (exception_acts e).
Proof.
  assert (Hp : uses false false [] print_acts) by (by apply uses_print; repeat constructor).
  destruct e; eexists; cbn [exception_acts]; first [exact Hp|
    apply (uses_section _ _ false); [by repeat constructor|done|]; eapply uses_app; [exact Hp|apply uses_spin]].
Qed.

Lemma uses_gate i : fits_queue i -> exists on', uses false on' [] (gate_acts capacity i).
Proof.
  intros Hfit. unfold gate_acts. destruct (IDT !! i_vector i) as [[h st]|]; [|apply uses_exception].
  assert (Hp : uses false false [] print_acts) by (by apply uses_print; repeat constructor).
  destruct h; cbn [g_handler handler_acts].
  - apply uses_exception.
  - by apply uses_timer.
  - exists false. eapply uses_app; [exact Hp|apply uses_spin].
  - by exists false.
Qed.
End SchedulerRules.

Lemma only_app common a b : only_common common (a ++ b) = only_common common a && only_common common b.
Proof. apply forallb_app. Qed.

Lemma only_resched capacity s :
  (length (ready_list s) < capacity)%nat -> only_common handler_lock (resched_acts capacity s) = true.
Proof.
  intros Hfit. unfold resched_acts. rewrite only_app. apply andb_true_iff. split; [done|].
  destruct (ready_list s) as [|x l] eqn:Hl; [done|]. rewrite only_app. apply andb_true_iff. split.
  - unfold pick_acts. rewrite push_fits by (by rewrite Hl). repeat case_match; reflexivity.
  - unfold next_process. repeat case_match; reflexivity.
Qed.

Lemma only_gate capacity i : fits_queue capacity i -> only_common handler_lock (gate_acts capacity i) = true.
Proof.
  intros Hfit. assert (He : forall e, only_common handler_lock (exception_acts e) = true) by (by intros []).
  unfold gate_acts. destruct (IDT !! i_vector i) as [[h st]|]; [|apply He].
  destruct h; cbn [g_handler handler_acts]; [apply He| |done..].
  unfold timer_acts. rewrite !only_app. destruct (i_slice i) as [s|] eqn:Hs.
  - unfold section_acts. rewrite !only_app, only_resched by (by apply Hfit). by destruct (i_apic i).
  - by destruct (i_apic i).
Qed.

(** ** Properties *)

Section Kernel.
Context (capacity : nat) (deliver : list irq -> irq -> bool).
Context (deliver_fits : forall s i, deliver s i = true -> fits_queue capacity i).

Lemma gates_ok s i : deliver s i = true ->
  disciplined handler_lock false [] (gate_acts capacity i) = true /\
  only_common handler_lock (gate_acts capacity i) = true.
Proof.
  intros Hd. apply deliver_fits in Hd. split; [|by apply only_gate].
  destruct (uses_gate handler_lock capacity i Hd) as [on' Hu]. by eapply uses_disciplined.
Qed.

(** C7: if all processes keep the discipline ([safe]) and the timer's interrupts find
    room in the ready list ([deliver_fits]: with a full list [resched] would turn
    interrupts on under its locks), then whatever interrupts arrive, in any order
    and nesting, through any vector, and however processes are switched, no
    interrupt handler ever waits for a lock, and no process waits for a lock the
    handlers use: what waits is the code of a process, for one of the other locks. *)
Theorem handlers_never_wait c0 c m l :
  safe handler_lock c0 -> steps (gate_acts capacity) deliver c0 c -> waits c = Some (m, l) ->
  handler_lock l = false /\ exists f, frames c = [f].
Proof.
  intros Hs Hst. apply safe_waits. eapply safe_steps; [apply gates_ok|exact Hs|exact Hst].
Qed.

(** C32: when all processes keep the discipline and the timer's interrupts find room in
    the ready list, a handler that has neither a switch nor a [loop {}] ahead (the
    timer's within a time slice, the spurious interrupt's, the breakpoint's) returns.
    If no other interrupt comes, its own steps lead to the code it interrupted, with
    interrupts enabled.  If others come, whose handlers neither switch nor spin, then
    under every schedule it can always make a step until it returns, and it has
    returned as soon as the code has made as many steps as the handlers have
    actions, plus one for each return. *)
Theorem handler_returns c0 r t h f fs b s p :
  safe handler_lock c0 -> steps (gate_acts capacity) deliver c0 (mkConfig r (mkFrame t h :: f :: fs) b s p) ->
  goes_on t = true ->
  let c := mkConfig r (mkFrame t h :: f :: fs) b s p in
  runs c (mkConfig r (f :: fs) true s p) /\
  forall l c', Forall (fun i => goes_on (gate_acts capacity i) = true) (omap (fun o => o) l) ->
    schedule (gate_acts capacity) deliver l c = Some c' ->
    (exists l1 s', l1 `prefix_of` l /\
       schedule (gate_acts capacity) deliver l1 c = Some (mkConfig r (f :: fs) true s' p)) \/
    ((own_steps l < S (length t) + sum_handlers (gate_acts capacity) l)%nat /\ is_Some (run1 c')).
Proof.
  intros Hs Hst Hn c. assert (Hc : safe handler_lock c) by (eapply safe_steps; [apply gates_ok|exact Hs|exact Hst]).
  split; [by eapply handler_runs|]. intros l c' Hl Hrun.
  destruct (schedule_returns _ _ _ gates_ok f fs p l [mkFrame t h] r b s c') as [?|[Hlt Hmove]];
    [done|exact Hc|by constructor|exact Hl|exact Hrun|by left|right].
  split; [|exact Hmove]. rewrite work_cons in Hlt. cbn [todo] in Hlt. unfold work in Hlt. cbn in Hlt. lia.
Qed.
End Kernel.

(** The processes a sequence switches to. *)
Definition switch_targets (t : list action) : list Z :=
  omap (fun a => match a with SwitchTo id => Some id | _ => None end) t.

Lemma targets_app a b : switch_targets (a ++ b) = switch_targets a ++ switch_targets b.
Proof. apply omap_app. Qed.

Lemma targets_locked m l body : switch_targets (locked m l body) = switch_targets body.
Proof. unfold locked. change (Acquire m l :: ?t) with ([Acquire m l] ++ t). rewrite !targets_app. simpl. by rewrite app_nil_r. Qed.

Lemma targets_push capacity q : switch_targets (push_acts capacity q) = [].
Proof. unfold push_acts. by destruct (_ <=? _)%nat. Qed.

Lemma targets_pick capacity s : switch_targets (pick_acts capacity s) = [].
Proof.
  unfold pick_acts. rewrite !targets_locked. destruct (proclist_get _ _); [|done].
  rewrite targets_locked, targets_app.
  replace (switch_targets (if decide _ then _ else _)) with (@nil Z)
    by (destruct (decide _); [by rewrite targets_push|done]).
  by repeat case_match.
Qed.

Lemma targets_resched capacity s :
  switch_targets (resched_acts capacity s) = match ready_list s with [] => [] | _ => next_process s end.
Proof.
  unfold resched_acts. rewrite targets_app, targets_locked. cbn [app].
  destruct (ready_list s); [done|]. rewrite targets_app, targets_pick. cbn [app].
  induction (next_process s) as [|x xs IH]; [done|]. simpl. by f_equal.
Qed.

(** C33: as long as the ready list has room in its buffer, so that nothing is
    allocated, [resched] takes no lock it already holds and has released every lock
    when it switches; it switches exactly when another process becomes current, and
    to that one. *)
Theorem resched_locks capacity k k' :
  sched_inv (sch k) -> (length (ready_list (sch k)) < capacity)%nat -> resched k = Ok k' ->
  disciplined (fun _ => true) false [] (resched_acts capacity (sch k)) = true /\
  switch_targets (resched_acts capacity (sch k)) =
    if decide (get_id (sch k') = get_id (sch k)) then [] else [get_id (sch k')].
Proof.
  intros Hi Hfit Hrun. split; [by eapply uses_disciplined, uses_resched|].
  rewrite targets_resched. unfold next_process, proclist_get, get_id.
  apply resched_spec in Hrun. destruct Hrun as [Hl|prev nxt id rest Hp Hl Hne Hid Hn|prev rest Hp Hl Hne].
  - rewrite Hl. by rewrite decide_True.
  - rewrite Hp, Hl. destruct (tw_pid _ (si_table _ Hi) id nxt Hn) as [Hpid _]. simpl. rewrite Hpid.
    rewrite decide_False by done. destruct (Z.eqb_spec id (current_pid (sch k))); [done|].
    by destruct (ready_list (sch k)).
  - rewrite Hp, Hl. simpl. rewrite decide_True by done. rewrite Z.eqb_refl. by destruct (ready_list (sch k)).
Qed.

(** ** A concrete run

    No more than one interrupt is in service at a time. *)
Definition one_at_a_time (s : list irq) (_ : irq) : bool := match s with [] => true | _ => false end.

(** A timer interrupt, at the end of a time slice or not. *)
Definition tick (slice : option CoopScheduler) : irq := mkIrq 0x20 slice true.

(** Process 0 waits for the screen, whose guard process 1 holds; a tick has come
    and gone. *)
Definition screen_taken : config irq :=
  mkConfig 0 [entry (locked Exclusive LScreen [])] true []
    {[ 1 := ([mkFrame [Release Exclusive LScreen] [(Exclusive, LScreen)]], true) ]}.

Lemma screen_taken_safe : safe handler_lock screen_taken.
Proof.
  split; [by repeat split|]. intros id fs b. cbn [suspended screen_taken]. rewrite lookup_singleton_Some.
  intros [_ [= <- <-]]. by repeat split.
Qed.

(** Interrupts that find room in the ready list. *)
Definition with_room (s : list irq) (i : irq) : bool :=
  one_at_a_time s i && match i_slice i with Some sc => (length (ready_list sc) <? 7)%nat | None => true end.

Lemma with_room_fits s i : with_room s i = true -> fits_queue 7 i.
Proof.
  intros [_ Hi]%andb_true_iff sc Hs. rewrite Hs in Hi. by apply Nat.ltb_lt in Hi.
Qed.

Lemma handlers_never_wait_witness :
  exists c, steps (gate_acts 7) with_room screen_taken c /\ waits c = Some (Exclusive, LScreen) /\
    handler_lock LScreen = false.
Proof.
  assert (Hrun : exists c, schedule (gate_acts 7) with_room ([Some (tick None)] ++ replicate 5 None) screen_taken = Some c /\
    waits c = Some (Exclusive, LScreen)) by (eexists; split; [vm_compute; reflexivity|vm_compute; reflexivity]).
  destruct Hrun as (c & Hrun & Hw). pose proof (schedule_steps _ _ _ _ _ Hrun) as Hst.
  exists c. split; [exact Hst|]. split; [exact Hw|].
  exact (proj1 (handlers_never_wait 7 with_room with_room_fits screen_taken c Exclusive LScreen
    screen_taken_safe Hst Hw)).
Defined.

(** In the middle of the timer handler: it returns on its own, and in any schedule
    with two more own steps. *)
Lemma handler_returns_witness :
  exists c s, schedule (gate_acts 7) with_room [Some (tick None); None; None; None] screen_taken = Some c /\
    runs c (mkConfig 0 (frames screen_taken) true s (suspended screen_taken)) /\
    exists l1 s', l1 `prefix_of` [None; None] /\
      schedule (gate_acts 7) with_room l1 c = Some (mkConfig 0 (frames screen_taken) true s' (suspended screen_taken)).
Proof.
  assert (Hrun : exists s h, schedule (gate_acts 7) with_room [Some (tick None); None; None; None] screen_taken =
    Some (mkConfig 0 (mkFrame [Release Exclusive LApicManager] h :: frames screen_taken) false s
      (suspended screen_taken)) /\ h = [(Exclusive, LApicManager)]) by (eexists _, _; split; vm_compute; reflexivity).
  destruct Hrun as (s & h & Hrun & Hh). eexists _, s. split; [exact Hrun|].
  destruct (handler_returns 7 with_room with_room_fits screen_taken 0 [Release Exclusive LApicManager] h
    (entry (locked Exclusive LScreen [])) [] false s (suspended screen_taken) screen_taken_safe
    (schedule_steps _ _ _ _ _ Hrun) eq_refl) as [H1 H2].
  split; [exact H1|].
  assert (Hgo : exists c', schedule (gate_acts 7) with_room [None; None]
    (mkConfig 0 (mkFrame [Release Exclusive LApicManager] h :: frames screen_taken) false s (suspended screen_taken)) = Some c')
    by (rewrite Hh; eexists; vm_compute; reflexivity).
  destruct Hgo as [c' Hgo]. destruct (H2 [None; None] c' (List.Forall_nil _) Hgo) as [Hret|[Hlt _]]; [exact Hret|].
  exfalso. revert Hlt. unfold own_steps, sum_handlers. vm_compute. lia.
Defined.

Lemma resched_locks_witness :
  switch_targets (resched_acts 7 (sch (demo_kernel [1; 2]))) = [1] /\
  disciplined (fun _ => true) false [] (resched_acts 7 (sch (demo_kernel [1; 2]))) = true.
Proof.
  assert (Hrun : exists k', resched (demo_kernel [1; 2]) = Ok k' /\ get_id (sch k') = 1)
    by (eexists; split; [vm_compute; reflexivity|vm_compute; reflexivity]).
  destruct Hrun as (k' & Hrun & Hid).
  destruct (resched_locks 7 (demo_kernel [1; 2]) k' (demo_inv _)) as [H1 H2];
    [simpl; lia|exact Hrun|]. split; [|exact H1]. rewrite H2, Hid. vm_compute. reflexivity.
Defined.
