(* ===== verification/BootLocks.v ===== *)
(** * The locks of the initialisation

    The sequences of effects on locks of [arch::init] ([init.rs]) and of what it
    calls: [memory::init] ([memory/mod.rs]) with [paging::init]
    ([paging/mod.rs]), [acpi::init] ([acpi/]) and [apic::init] ([apic.rs]),
    [interrupts::init] ([interrupts/mod.rs]) and [device::init] ([device/mod.rs],
    [vga/], [pit.rs], [ps2_8042.rs], [pci.rs]).  What an operation on the page tables
    does to the allocator depends on the tables; it is a parameter ([vm_op]). *)

From S2P Require Import Prelude Frames Entry MemoryInit Acpi Apic Task Ports Ps2 Pci Locks LockUse.

(** ** Messages and frames *)

Definition prints (n : nat) : list action := concat (replicate n print_acts).

(** A computation that panics with these locks held, or does not. *)
Definition or_panic {A} (r : outcome A) : list action := match r with Ok _ => [] | Err _ => panic_acts end.

(** How a call ends. *)
Inductive ending := Returns | Panics.

Definition end_acts (e : ending) : list action := match e with Returns => [] | Panics => panic_acts end.

(** [allocate_frames]: the guard lives through [allocate_frame], which announces
    each of the [areas] it goes to; its address arithmetic can overflow. *)
Record frame_call := mkCall { areas : nat; call_end : ending }.

Definition frame_acts (c : frame_call) : list action :=
  locked Exclusive LAllocator (prints (areas c) ++ end_acts (call_end c)).

(** An operation on the page tables: the frames it allocates, one after the
    other, and its end. *)
Record vm_op := mkVm { vm_frames : list frame_call; vm_end : ending }.

Definition vm_acts (o : vm_op) : list action := concat (frame_acts <$> vm_frames o) ++ end_acts (vm_end o).

Definition vm_all {A} (o : A -> vm_op) (l : list A) : list action := concat ((fun x => vm_acts (o x)) <$> l).

(** ** [memory::init] *)

(** What the operations of [memory::init] do, by the frame or page they map. *)
Record vm_work := mkWork {
  w_new_table : vm_op;         (* the frame of the P4 and [InactivePageTable::new] *)
  w_enter : vm_op;             (* [with], up to the closure *)
  w_identity : Z -> vm_op;     (* [identity_map] in the closure *)
  w_leave : vm_op;             (* [with], after the closure *)
  w_guard : vm_op;             (* unmapping the old P4 *)
  w_heap : Z -> vm_op;
  w_bios : Z -> vm_op;
  w_table : list vm_op;        (* [get_sdt] *)
  w_device : Z -> vm_op }.

Section Memory.
Context (work : vm_work).

Definition map_section_acts (section : ElfSection) : list action :=
  if negb (sec_allocated section) then [] else
  if sec_start section mod PAGE_SIZE =? 0 then
    print_acts ++
    match usize_sub (sec_end section) 1 with
    | Ok _ => vm_all (w_identity work) (section_frames section).*1
    | Err _ => panic_acts
    end
  else panic_acts.

(** [paging::init] *)
Definition paging_init_acts (boot_info : BootInformation) : list action :=
  vm_acts (w_new_table work) ++
  vm_acts (w_enter work) ++
  print_acts ++
  match bi_sections boot_info with
  | None => panic_acts
  | Some sections =>
      concat (map_section_acts <$> sections) ++
      print_acts ++ vm_acts (w_identity work 0xb8) ++
      print_acts ++
      match usize_sub (bi_end boot_info) 1 with
      | Ok _ => vm_all (w_identity work) (multiboot_frames boot_info).*1
      | Err _ => panic_acts
      end
  end ++
  vm_acts (w_leave work) ++
  print_acts ++ vm_acts (w_guard work) ++ print_acts.

(** *** [acpi::init] *)

(** One processor entry: a message, and a second one for the boot processor; the
    other entries have one. *)
Definition entry_prints (apic_base : Z) (e : MadtEntry) : list action :=
  print_acts ++
  match e with
  | ELapic x =>
      if (Z.land (la_flags x) 1 =? 1) && (Z.land apic_base (2 ^ 8) =? la_id x) then print_acts else []
  | _ => []
  end.

(** [install_nmis]; the third message is [lapic_set_nmi]'s. *)
Definition install_nmi_acts (self : ApicManager) (i : nat) (nmi : ApicNMI) : list action :=
  prints 2 ++
  match add_w 8 0x90 (trunc 8 (Z.of_nat i)) with
  | Ok vec => print_acts ++ or_panic (lapic_set_nmi vec (nmi_flags nmi) (nmi_lint_no nmi) self)
  | Err _ => panic_acts
  end.

(** [set_redirect] for one source: an error message, or one before the writes and
    after the arithmetic that leads to them. *)
Definition redirect_acts (self : ApicManager) (iso : InterruptSourceOverride) : list action :=
  match (let? l := index (am_local_apics self) 0 in
         let? n := io_apic_from_gsi (iso_gsi iso) self in
         match n with
         | None => Ok None
         | Some n =>
             let? a := index (am_io_apics self) n in
             let? d := sub_w 32 (iso_gsi iso) (io_gsib a) in
             let? d := mul_w 32 d 2 in
             let? r := add_w 32 d 16 in Ok (Some (la_id l))
         end) with
  | Err _ => panic_acts
  | Ok None => print_acts
  | Ok (Some id) => print_acts ++ or_panic (set_redirect (iso_irq iso) (iso_gsi iso) (iso_flags iso) id self)
  end.

(** [apic::init]: the guard of the manager lives to the end.  [get_max_redirect] is
    evaluated for the message, under its guard. *)
Definition apic_init_acts (self : ApicManager) : list action :=
  locked Exclusive LApicManager
    (prints 2 ++
     concat ((fun i => locked Exclusive LCom1 (or_panic (get_max_redirect i self))) <$>
       seqZ 0 (Z.of_nat (length (am_io_apics self)))) ++
     vm_acts (w_device work (lapic_base self / PAGE_SIZE)) ++
     vm_all (fun a => w_device work (io_address a / PAGE_SIZE)) (am_io_apics self) ++
     print_acts ++ concat (imap (install_nmi_acts self) (am_nmis self)) ++
     print_acts ++ concat (redirect_acts self <$> am_isos self) ++
     print_acts ++ or_panic (lapic_enable self)).

(** The three messages of [ChainedPics::init] are printed under its guard. *)
Definition pics_init_acts : list action := locked Exclusive LPics (prints 3).

(** [Madt::init] from the entry it has reached; the iterator prints a message for
    each entry first. *)
Fixpoint madt_init_acts (apic_base : Z) (has_apic : bool) (t : Madt) (l : list MadtEntry) (f : found_apics)
  : list action :=
  match l with
  | [] =>
      locked Exclusive LApicManager [] ++
      pics_init_acts ++
      (if has_apic then apic_init_acts (mkApic (m_address t) (local_apics f) (io_apics f) (nmis f) (isos f)) else []) ++
      print_acts
  | e :: l =>
      print_acts ++ entry_prints apic_base e ++
      match madt_entry apic_base e f with
      | Err _ => panic_acts
      | Ok None => []
      | Ok (Some f) => madt_init_acts apic_base has_apic t l f
      end
  end.

(** What [acpi::init] finds: the root pointer, whether it leads to an RSDT, the
    length in its header, and the MADT with its entries. *)
Record acpi_found := mkAcpiFound {
  af_rsdp : bool;
  af_rsdt : bool;
  af_length : Z;
  af_madt : option (Madt * list MadtEntry) }.

(** The length of the data is computed for the message, with the guard of the
    port taken: [println!] locks before it evaluates its arguments. *)
Definition rsdt_length_acts (length : Z) : list action :=
  locked Exclusive LCom1 (or_panic (usize_sub length HEADER_SIZE)).

Definition acpi_init_acts (apic_base : Z) (has_apic : bool) (a : acpi_found) : list action :=
  vm_all (w_bios work) (seqZ 0xe0 32) ++
  if af_rsdp a then
    print_acts ++
    concat (vm_acts <$> w_table work) ++
    if af_rsdt a then
      print_acts ++ rsdt_length_acts (af_length a) ++ print_acts ++
      match af_madt a with
      | Some (t, entries) => print_acts ++ madt_init_acts apic_base has_apic t entries (mkFound [] [] [] [] 0)
      | None => print_acts
      end
    else panic_acts
  else panic_acts.

(** [memory::init]; [new] is what [AreaFrameAllocator::new] announces and how it
    ends. *)
Definition memory_init_acts (called : bool) (boot_info : BootInformation) (new : frame_call)
    (apic_base : Z) (has_apic : bool) (a : acpi_found) : list action :=
  if called then panic_acts else
  match bi_areas boot_info, bi_sections boot_info with
  | Some _, Some sections =>
      let allocated := filter (fun x => sec_allocated x) sections in
      or_panic (let? s := unwrap (iter_min (sec_start <$> allocated)) in
                let? ends := section_ends allocated in unwrap (iter_max ends)) ++
      prints 2 ++
      prints (areas new) ++ end_acts (call_end new) ++
      locked Exclusive LAllocator [] ++
      paging_init_acts boot_info ++
      print_acts ++ vm_all (fun p => w_heap work (pnumber p)) heap_pages ++
      locked Exclusive LHeap [] ++
      acpi_init_acts apic_base has_apic a
  | _, _ => panic_acts
  end.

End Memory.

(** ** [device::init] *)

Definition tty_init_acts : list action := locked Exclusive LTtys [].

(** A guard of the PIT for each of the three writes, between messages. *)
Definition pit_init_acts : list action :=
  print_acts ++ locked Exclusive LPit [] ++ print_acts ++
  locked Exclusive LPit [] ++ locked Exclusive LPit [] ++ print_acts.

(** [PS2.lock().init()]: both messages under the guard; a failed self test panics,
    a controller that never answers is polled for ever. *)
Definition ps2_init_acts (r : outcome io_log) : list action :=
  locked Exclusive LPs2
    (print_acts ++ match r with
                   | Ok _ => print_acts
                   | Err EFuel => [Spin]
                   | Err _ => panic_acts
                   end).

Definition pci_acts : list action := locked Exclusive LPci [].

(** [Device::read] and [Device::write]: one guard for the address, another for the
    data. *)
Definition dev_access_acts : list action := pci_acts ++ pci_acts.

(** [load_bars], for the base address each of the six registers holds and what it
    reads after all ones have been written to it; the size overflows when no
    address bit can be set. *)
Definition load_bars_acts (bars : list (Z * Z)) : list action :=
  concat ((fun '(bar, probe) => dev_access_acts ++
    (if 0 <? bar then
       dev_access_acts ++ dev_access_acts ++
       or_panic (let? d := sub_w 32 0xFFFFFFFF (Z.land probe 0xFFFFFFF0) in add_w 32 d 1) ++
       dev_access_acts
     else [])) <$> bars).

Section PciInit.
(** How often [Vec::push] calls the allocator on a list of [n] devices. *)
Context (push_calls : nat -> nat).

(** One function of the bus, as [probe] finds it: nothing, or a device whose
    registers hold [bars]. *)
Definition init_func_acts (n : nat) (found : option (list (Z * Z))) : list action :=
  pci_acts ++
  match found with
  | Some bars => load_bars_acts bars ++ locked Exclusive LDevices (heap_calls (push_calls n))
  | None => []
  end.

(** The scan, with [n] devices found so far. *)
Fixpoint scan_acts (n : nat) (funcs : list (option (list (Z * Z)))) : list action :=
  match funcs with
  | [] => []
  | f :: funcs => init_func_acts n f ++ scan_acts (match f with Some _ => S n | None => n end) funcs
  end.

(** The last loop holds the guard of the list; the message before it takes the
    list's lock while it holds the port's. *)
Definition find_ahci_acts (d : Device) : list action :=
  if decide (class d = MassStorage) then
    if subclass d =? 0x06 then dev_access_acts ++ print_acts else []
  else [].

Definition pci_init_acts (funcs : list (option (list (Z * Z)))) (ds : list Device) : list action :=
  scan_acts 0 funcs ++
  locked Exclusive LCom1 (locked Exclusive LDevices []) ++
  locked Exclusive LDevices (concat (find_ahci_acts <$> ds)).

Definition device_init_acts (ps2 : outcome io_log) (funcs : list (option (list (Z * Z)))) (ds : list Device)
  : list action :=
  tty_init_acts ++ pit_init_acts ++ ps2_init_acts ps2 ++ pci_init_acts funcs ds.

End PciInit.

(** ** [interrupts::init] and [arch::init] *)

(** [interrupts::init]: [stack] is the mapping of the double fault stack, if its
    range has room.  The messages are one in the [call_once] of the GDT, one after
    its [load], two around the registers, two in the first use of the IDT, one at
    the end. *)
Definition interrupts_init_acts (stack : option vm_op) : list action :=
  match stack with
  | None => panic_acts
  | Some o =>
      vm_acts o ++
      print_acts ++ print_acts ++ prints 2 ++ prints 2 ++ print_acts
  end.

(** [clear_screen]: [new_line] of the active screen shows it, [sync] takes the
    VGA's lock twice. *)
Definition sync_acts : list action := locked Exclusive LVga [] ++ locked Exclusive LVga [].
Definition clear_screen_acts : list action :=
  concat (replicate 25 (locked Exclusive LScreen sync_acts)).

(** What the initialisation finds and does. *)
Record boot_run := mkRun {
  br_work : vm_work;
  br_called : bool;
  br_info : BootInformation;
  br_areas : frame_call;
  br_apic_base : Z;
  br_has_apic : bool;
  br_acpi : acpi_found;
  br_stack : option vm_op }.

(** [arch::init] up to [device::init]. *)
Definition setup_acts (x : boot_run) : list action :=
  pics_acts ++ locked Exclusive LCom1 [] ++
  Cli :: clear_screen_acts ++ print_acts ++
  memory_init_acts (br_work x) (br_called x) (br_info x) (br_areas x) (br_apic_base x) (br_has_apic x) (br_acpi x) ++
  interrupts_init_acts (br_stack x).

(** [arch::init] and the loop of [kmain]. *)
Definition arch_init_acts (x : boot_run) (push_calls : nat -> nat) (ps2 : outcome io_log)
    (funcs : list (option (list (Z * Z)))) (ds : list Device) : list action :=
  setup_acts x ++ device_init_acts push_calls ps2 funcs ds ++ init_end_acts.
