(* ===== verification/Deadlock.v ===== *)
(** * Deadlocks

    No function of the kernel waits for a lock it holds itself, [arch::init]
    included, and nothing waits before [device::init]; but where the discipline of
    [Locks] is broken an interrupt can stop the machine, and so can an exception
    that hits code with the serial port locked. *)

From S2P Require Import Prelude Task Sched Ports Ps2 Vga Keyboard Idt Pci Entry MemoryInit Acpi Apic Locks LockUse BootLocks.

(** ** Functions on their own *)

#[export] Hint Resolve alone_nil alone_app alone_spin : locks.

(** [h] has no guard of these locks. *)
Lemma alone_take m l h body :
  without [l] h -> m = Exclusive -> alone_ok ((m, l) :: h) body -> alone_ok h (locked m l body).
Proof. intros Hw ->. apply Forall_cons in Hw as [Hf _]. by apply alone_locked. Qed.

Lemma alone_print h : without [LCom1] h -> alone_ok h print_acts.
Proof. intros Hw. apply alone_take; auto with locks. Qed.

Lemma alone_panic h t : without [LCom1] h -> alone_ok h (panic_acts ++ t).
Proof.
  intros Hw. unfold panic_acts. rewrite <-!app_assoc. repeat (apply alone_app; [by apply alone_print|]).
  apply alone_spin.
Qed.

Lemma alone_panic_end h : without [LCom1] h -> alone_ok h panic_acts.
Proof. intros Hw. rewrite <-(app_nil_r panic_acts). by apply alone_panic. Qed.

Lemma solo_panic h rest : without [LCom1] h -> is_Some (solo h (panic_acts ++ rest)).
Proof.
  intros Hw. pose proof (alone_panic h rest Hw [Spin]) as Ha. unfold panic_acts in *.
  rewrite <-!app_assoc in *. by apply Ha.
Qed.

Lemma alone_section h body : without [LPics] h -> alone_ok h body -> alone_ok h (section_acts body).
Proof.
  intros Hw Hb. assert (Hp : alone_ok h pics_acts) by (apply alone_take; auto with locks).
  unfold section_acts, disable_acts, restore_acts.
  repeat first [apply alone_cons; [done|] | apply alone_app | exact Hp | exact Hb | apply alone_nil].
Qed.

Lemma alone_heap h n : without [LPics; LHeap] h -> alone_ok h (heap_calls n).
Proof.
  intros Hw. apply alone_concat. apply Forall_replicate. apply Forall_cons in Hw as [Hp Hh].
  apply alone_section; [by constructor|]. apply alone_take; auto with locks.
Qed.

Lemma alone_eoi b h : without [LApicManager; LCom1] h -> alone_ok h (eoi_acts b).
Proof.
  intros Hw. apply Forall_cons in Hw as [Ha Hc]. apply alone_take; [by constructor|done|].
  destruct b; [apply alone_nil|]. apply alone_panic_end.
  apply Forall_cons in Hc as [Hc _]. by constructor.
Qed.

(** Guards that are known decide [without] by computation. *)
Ltac no_guard := solve [repeat constructor].

(** Go through a sequence; what is left are its case distinctions. *)
Ltac alone :=
  repeat first
    [ apply alone_nil | apply alone_spin | apply alone_print; no_guard | apply alone_panic_end; no_guard
    | apply alone_heap; no_guard | apply alone_eoi; no_guard | apply alone_section; [no_guard|]
    | apply alone_locked; [reflexivity|] | apply alone_app
    | apply alone_cons; [exact Logic.I|] ].

Section Functions.
Context (capacity : nat).

Lemma alone_push h q : without [LPics; LHeap] h -> alone_ok h (push_acts capacity q).
Proof. intros Hw. unfold push_acts. destruct (_ <=? _)%nat; [by apply alone_heap|apply alone_nil]. Qed.

Lemma alone_resched s : alone_ok [] (resched_acts capacity s).
Proof.
  unfold resched_acts, pick_acts, next_process. alone.
  destruct (ready_list s) as [|x l] eqn:Hl; alone.
  - destruct (proclist_get _ _) as [prev|]; alone.
    + destruct (decide _); [apply alone_push; no_guard|alone].
    + destruct ((x :: l) ++ _) as [|id rest]; [alone|].
      destruct (Z.eqb_spec id (get_id s)) as [|Hne]; cbn [negb]; [alone|].
      destruct (proclist_get _ _); [|alone]. apply alone_locked; [|alone]. cbn [forallb].
      rewrite conflict_ne by congruence. reflexivity.
  - destruct (proclist_get _ _) as [prev|]; alone. destruct ((x :: l) ++ _); [alone|].
    destruct (negb _); simpl; alone.
Qed.

Lemma alone_kill id s : alone_ok [] (kill_acts capacity id s).
Proof.
  unfold kill_acts. destruct (proclist_get _ _) as [p|].
  - alone; [|apply alone_resched]. destruct (stack p) as [[|]|]; alone.
  - apply alone_acquire_spin; [done|]. intros rest. apply solo_panic. no_guard.
Qed.

Lemma alone_create nodes s : alone_ok [] (create_acts nodes s).
Proof.
  unfold create_acts. alone. destruct (proclist_add _) as [[[id|e] l]|e]; alone.
  apply alone_acquire_spin; [done|]. intros rest. apply solo_panic. no_guard.
Qed.

Lemma alone_syscall_create nodes s : alone_ok [] (syscall_create_acts capacity nodes s).
Proof.
  unfold syscall_create_acts. apply alone_section; [no_guard|]. apply alone_app; [apply alone_create|].
  destruct (proclist_add _) as [[[id|e] l]|e]; [|alone..].
  unfold ready_acts. alone. apply alone_push. no_guard.
Qed.

Lemma alone_exception e : alone_ok [] (exception_acts e).
Proof. destruct e; cbn [exception_acts]; alone. Qed.

Lemma alone_gate i : alone_ok [] (gate_acts capacity i).
Proof.
  unfold gate_acts. destruct (IDT !! i_vector i) as [[h st]|]; [|apply alone_exception].
  destruct h; cbn [g_handler handler_acts]; [apply alone_exception| |alone..].
  unfold timer_acts. alone. destruct (i_slice i); [|alone]. apply alone_section; [no_guard|]. apply alone_resched.
Qed.
End Functions.

Lemma alone_retrieve `{Hardware} code l : alone_ok [] (retrieve_acts code l).
Proof.
  unfold retrieve_acts. apply alone_app; [alone|]. apply alone_app; [|alone].
  destruct (_ || _); [|alone]. apply alone_app; [alone|]. destruct (is_special_key _); alone.
Qed.

Lemma alone_parse_key `{Hardware} strings code k : alone_ok [] (parse_key_acts strings code k).
Proof.
  unfold parse_key_acts. apply alone_app; [apply alone_retrieve|].
  destruct (obind _ _) as [[[c|m|c]|]|e]; alone.
  - destruct (bool_decide _); alone.
  - destruct (update _ _); alone.
  - unfold apply_acts. destruct (use_uppercase_letters _); alone.
    destruct (should_switch_tty _) as [[[] idx]|e]; alone. destruct (switch _ _ _); alone.
Qed.

Lemma alone_keyboard `{Hardware} strings k : alone_ok [] (keyboard_acts strings k).
Proof.
  unfold keyboard_acts. destruct (Ps2.read_char (k_log k)) as [code l].
  apply alone_app; [alone|]. apply alone_app; [alone|]. apply alone_app; [apply alone_parse_key|alone].
Qed.

Lemma alone_device_init push_calls ps2 funcs ds : alone_ok [] (device_init_acts push_calls ps2 funcs ds).
Proof.
  unfold device_init_acts, tty_init_acts, pit_init_acts, ps2_init_acts, pci_init_acts. alone.
  - destruct ps2 as [l|[]]; alone.
  - assert (Hscan : forall n, alone_ok [] (scan_acts push_calls n funcs)); [|apply Hscan].
    induction funcs as [|f funcs IH]; intros n; [alone|]. cbn [scan_acts]. apply alone_app; [|apply IH].
    unfold init_func_acts, pci_acts. alone. destruct f as [bars|]; alone.
    unfold load_bars_acts, dev_access_acts, pci_acts. apply alone_concat, Forall_fmap, Forall_true.
    intros [bar probe]. cbn [compose]. alone. destruct (0 <? bar); alone. destruct (obind _ _); cbn [or_panic]; alone.
  - apply alone_concat, Forall_fmap, Forall_true. intros d. cbn [compose]. unfold find_ahci_acts, dev_access_acts, pci_acts.
    destruct (decide _); [|alone]. destruct (_ =? _); alone.
Qed.

(** ** [arch::init] up to [device::init]

    None of this code turns interrupts on. *)
Definition silent (h : list guard) (t : list action) : Prop := alone_ok h t /\ never_enables t = true.

Lemma silent_nil h : silent h [].
Proof. split; [apply alone_nil|done]. Qed.

Lemma silent_app h a b : silent h a -> silent h b -> silent h (a ++ b).
Proof.
  intros [Ha Ea] [Hb Eb]. split; [by apply alone_app|]. unfold never_enables in *. by rewrite forallb_app, Ea, Eb.
Qed.

Lemma silent_concat h ls : Forall (silent h) ls -> silent h (concat ls).
Proof. induction 1; [apply silent_nil|by apply silent_app]. Qed.

Lemma silent_replicate h n t : silent h t -> silent h (concat (replicate n t)).
Proof. intros Ht. by apply silent_concat, Forall_replicate. Qed.

Lemma silent_map {A} h (f : A -> list action) (l : list A) :
  (forall x, x ∈ l -> silent h (f x)) -> silent h (concat (f <$> l)).
Proof. intros Hf. apply silent_concat, Forall_fmap, Forall_forall, Hf. Qed.

Lemma silent_locked h m l body :
  forallb (fun x => negb (conflict (m, l) x)) h = true -> silent ((m, l) :: h) body -> silent h (locked m l body).
Proof.
  intros Hf [Hb Eb]. split; [by apply alone_locked|]. unfold never_enables, locked in *. cbn [forallb].
  by rewrite forallb_app, Eb.
Qed.

Lemma silent_cli h t : silent h t -> silent h (Cli :: t).
Proof. intros [Ht Et]. split; [by apply alone_cons|done]. Qed.

Lemma silent_print h : without [LCom1] h -> silent h print_acts.
Proof. intros Hw. split; [by apply alone_print|done]. Qed.

Lemma silent_panic h : without [LCom1] h -> silent h panic_acts.
Proof. intros Hw. split; [by apply alone_panic_end|done]. Qed.

(** As [alone]. *)
Ltac silent :=
  repeat match goal with
  | |- silent _ [] => apply silent_nil
  | |- silent _ print_acts => apply silent_print; no_guard
  | |- silent _ panic_acts => apply silent_panic; no_guard
  | |- silent _ (locked _ _ _) => apply silent_locked; [reflexivity|]
  | |- silent _ (_ ++ _) => apply silent_app
  | |- silent _ (Cli :: _) => apply silent_cli
  | |- silent _ (concat (replicate _ _)) => apply silent_replicate
  | |- silent _ (concat (_ <$> _)) => apply silent_map; intros
  end.

Section Setup.
Context (work : vm_work).

Lemma silent_or_panic {A} (r : outcome A) h : without [LCom1] h -> silent h (or_panic r).
Proof. intros Hw. destruct r; [apply silent_nil|by apply silent_panic]. Qed.

Lemma silent_end e h : without [LCom1] h -> silent h (end_acts e).
Proof. intros Hw. destruct e; [apply silent_nil|by apply silent_panic]. Qed.

(** Operations on the page tables need the allocator and the port. *)
Lemma silent_vm o h : without [LCom1; LAllocator] h -> silent h (vm_acts o).
Proof.
  intros [Hc Ha]%Forall_cons. apply Forall_cons in Ha as [Ha _]. apply silent_app.
  - apply silent_map. intros c _. apply silent_locked; [exact Ha|].
    assert (Hw : without [LCom1] ((Exclusive, LAllocator) :: h)) by (constructor; [exact Hc|constructor]).
    apply silent_app; [by apply silent_replicate, silent_print|by apply silent_end].
  - apply silent_end. by constructor.
Qed.

Lemma silent_vm_all {A} (o : A -> vm_op) l h : without [LCom1; LAllocator] h -> silent h (vm_all o l).
Proof. intros Hw. apply silent_map. intros x _. by apply silent_vm. Qed.

Ltac setup :=
  repeat match goal with
  | |- silent _ (or_panic _) => apply silent_or_panic; no_guard
  | |- silent _ (end_acts _) => apply silent_end; no_guard
  | |- silent _ (vm_acts _) => apply silent_vm; no_guard
  | |- silent _ (vm_all _ _) => apply silent_vm_all; no_guard
  | _ => progress silent
  end.

Lemma silent_paging boot_info : silent [] (paging_init_acts work boot_info).
Proof.
  unfold paging_init_acts, map_section_acts. setup. destruct (bi_sections boot_info) as [sections|]; setup.
  - repeat case_match; setup.
  - case_match; setup.
Qed.

(** The register that is read for the message of an I/O APIC: no panic. *)
Lemma max_redirect_ok self i :
  0 <= i < Z.of_nat (length (am_io_apics self)) -> or_panic (get_max_redirect i self) = [].
Proof.
  intros Hi. unfold get_max_redirect, io_apic_read, index.
  destruct (lookup_lt_is_Some_2 (am_io_apics self) (Z.to_nat i)) as [a ->]; [lia|]. reflexivity.
Qed.

Lemma silent_apic self : silent [] (apic_init_acts work self).
Proof.
  unfold apic_init_acts, prints. setup.
  - match goal with Hi : _ ∈ seqZ _ _ |- _ => apply elem_of_seqZ in Hi; rewrite max_redirect_ok by lia end. setup.
  - apply silent_concat. apply Forall_lookup. intros i t Ht. rewrite list_lookup_imap in Ht.
    destruct (am_nmis self !! i) as [nmi|]; [|done]. injection Ht as <-. unfold install_nmi_acts, prints. setup.
    destruct (add_w _ _ _); setup.
  - unfold redirect_acts. destruct (obind _ _) as [[id|]|e]; setup.
Qed.

Lemma silent_madt apic_base has_apic t l f : silent [] (madt_init_acts work apic_base has_apic t l f).
Proof.
  revert f. induction l as [|e l IH]; intros f; cbn [madt_init_acts]; unfold pics_init_acts, prints, entry_prints.
  - setup. destruct has_apic; [apply silent_apic|setup].
  - setup; [destruct e; try (by apply silent_nil); destruct (_ && _); setup|].
    destruct (madt_entry apic_base e f) as [[f'|]|]; [apply IH|setup..].
Qed.

Lemma silent_acpi apic_base has_apic a :
  HEADER_SIZE <= af_length a < 2 ^ 64 -> silent [] (acpi_init_acts work apic_base has_apic a).
Proof.
  intros Hlen. unfold acpi_init_acts, rsdt_length_acts. setup. destruct (af_rsdp a); setup.
  destruct (af_rsdt a); setup.
  - rewrite sub_w_fits by (unfold in_width, HEADER_SIZE in *; lia). cbn [or_panic]. setup.
  - destruct (af_madt a) as [[t l]|]; setup. apply silent_madt.
Qed.

Lemma silent_memory called boot_info new apic_base has_apic a :
  HEADER_SIZE <= af_length a < 2 ^ 64 ->
  silent [] (memory_init_acts work called boot_info new apic_base has_apic a).
Proof.
  intros Hlen. unfold memory_init_acts. destruct called; [setup|].
  destruct (bi_areas boot_info), (bi_sections boot_info); [|setup..].
  unfold prints. setup; [apply silent_paging|by apply silent_acpi].
Qed.
End Setup.

Lemma silent_setup x : HEADER_SIZE <= af_length (br_acpi x) < 2 ^ 64 -> silent [] (setup_acts x).
Proof.
  intros Hlen. unfold setup_acts, pics_acts, clear_screen_acts, sync_acts. silent; [by apply silent_memory|].
  unfold interrupts_init_acts, prints. destruct (br_stack x) as [o|]; silent. apply silent_vm. no_guard.
Qed.

(** C30: no function of the kernel waits for a lock it holds itself, whatever state it
    finds: the scheduler's with any queue and any number of allocations, the
    handlers of every vector, the keyboard's, and the whole of [arch::init] for any
    boot information, tables and devices, if the RSDT has a whole header.  Up to
    [device::init] interrupts stay off under every schedule, so that nothing waits
    at all; after that a deadlock needs an interrupt. *)
Theorem no_self_deadlock `{Hardware} {I} capacity nodes strings push_calls s id i k x ps2 funcs ds :
  HEADER_SIZE <= af_length (br_acpi x) < 2 ^ 64 ->
  Forall (self_free (I := I))
    [resched_acts capacity s; ready_acts capacity s; kill_acts capacity id s; process_return_acts capacity s;
     create_acts nodes s; syscall_create_acts capacity nodes s; gate_acts capacity i; keyboard_acts strings k;
     arch_init_acts x push_calls ps2 funcs ds] /\
  forall (handler : I -> list action) deliver r srv c,
    steps handler deliver (mkConfig r [entry (setup_acts x)] false srv ∅) c -> iflag c = false /\ waits c = None.
Proof.
  intros Hlen. destruct (silent_setup x Hlen) as [Hsetup Hoff]. split.
  - eapply (Forall_impl (alone_ok [])); [|intros t Ht; by apply solo_self_free, alone_solo].
    repeat (apply Forall_cons; split); [..|apply Forall_nil; exact Logic.I].
    + apply alone_resched.
    + unfold ready_acts. alone. apply alone_push. no_guard.
    + apply alone_kill.
    + unfold process_return_acts. apply alone_app; [apply alone_kill|alone].
    + apply alone_create.
    + apply alone_syscall_create.
    + apply alone_gate.
    + apply alone_keyboard.
    + unfold arch_init_acts, init_end_acts. apply alone_app; [done|]. apply alone_app; [apply alone_device_init|alone].
  - intros handler deliver r srv c. apply quiet_steps; [by apply alone_solo|done].
Qed.

(** ** Exceptions under a lock

    An exception, a non-maskable interrupt among them, can hit any code, also in a
    section with interrupts off. *)

(** The locks a handler takes. *)
Definition exception_locks (e : exception) : list lock :=
  match e with Breakpoint => [LCom1] | _ => [LPics; LCom1] end.

(** What the handler has left when its message is out. *)
Definition after_message (e : exception) : list action :=
  match e with Breakpoint => [] | _ => Spin :: restore_acts end.

Section Exceptions.
Context {I : Type} (handler : I -> list action) (deliver : list I -> I -> bool).

Lemma free_above l t (c : config I) :
  free (Exclusive, l) (mkConfig (running c) (mkFrame t [] :: frames c) false (delivered c) (suspended c)) =
  free (Exclusive, l) c.
Proof. by destruct c. Qed.

(** C31: an exception whose handler is entered (a double fault's is not, its stack being
    read-only) prints its message, and stops or returns, exactly when no code on
    the processor, running, interrupted or suspended, holds the serial port or, but
    for a breakpoint, the interrupt controllers; otherwise it waits for ever with
    interrupts off. *)
Theorem exception_reported (c : config I) e :
  if forallb (fun l => free (Exclusive, l) c) (exception_locks e) then
    runs (raise (exception_acts e) c)
      (mkConfig (running c) (mkFrame (after_message e) [] :: frames c) false (delivered c) (suspended c))
  else exists c', runs (raise (exception_acts e) c) c' /\ deadlock c' /\ forall c'', ~ step handler deliver c' c''.
Proof.
  assert (Hdead : forall c', deadlock c' -> deadlock c' /\ forall c'', ~ step handler deliver c' c'')
    by (intros c' Hd; split; [done|by apply deadlock_stuck]).
  assert (Htake : forall l t, free (Exclusive, l) c = true ->
    runs (raise (locked Exclusive l [] ++ t) c)
      (mkConfig (running c) (mkFrame t [] :: frames c) false (delivered c) (suspended c))).
  { intros l t Hf. apply runs_locked. by rewrite free_above. }
  assert (Hstop : forall l t, free (Exclusive, l) c = false -> deadlock (raise (locked Exclusive l [] ++ t) c)).
  { intros l t Hf. apply locked_deadlock. by rewrite free_above. }
  destruct (decide (e = Breakpoint)) as [->|Hne].
  { cbn [exception_locks forallb exception_acts after_message]. rewrite andb_true_r.
    rewrite <-(app_nil_r print_acts). unfold print_acts. destruct (free _ c) eqn:Hc; [by apply Htake|].
    eexists. split; [apply rtc_refl|by apply Hdead, Hstop]. }
  assert (He : exception_acts e = Cli :: pics_acts ++ pics_acts ++ pics_acts ++ pics_acts ++ print_acts ++ after_message e)
    by (by destruct e).
  assert (Hl : exception_locks e = [LPics; LCom1]) by (by destruct e). rewrite He, Hl. cbn [forallb].
  assert (Hcli : forall t, runs (raise (Cli :: t) c) (raise t c)) by (intros t; apply runs_cli).
  destruct (free (Exclusive, LPics) c) eqn:Hp; cbn [andb].
  - assert (Hpics : forall t, runs (raise (pics_acts ++ t) c) (raise t c)) by (intros t; by apply Htake).
    assert (Hgo : forall t, runs (raise (Cli :: pics_acts ++ pics_acts ++ pics_acts ++ pics_acts ++ t) c) (raise t c)).
    { intros t. do 4 (etrans; [|apply Hpics]). apply Hcli. }
    rewrite andb_true_r. destruct (free (Exclusive, LCom1) c) eqn:Hc.
    + etrans; [apply Hgo|by apply Htake].
    + eexists. split; [apply Hgo|by apply Hdead, Hstop].
  - eexists. split; [apply Hcli|by apply Hdead, Hstop].
Qed.
End Exceptions.

(** A non-maskable interrupt while a message is being printed, and after it. *)
Lemma exception_reported_witness :
  (exists c', runs (raise (exception_acts Nmi) (mkConfig 1 [mkFrame (drop 1 print_acts) [(Exclusive, LCom1)]] false [] ∅)) c' /\
    deadlock c' /\ forall c'', ~ step (gate_acts 7) (fun _ _ => true) c' c'') /\
  runs (raise (exception_acts Nmi) (mkConfig (I := irq) 1 [mkFrame [] []] false [] ∅))
    (mkConfig 1 [mkFrame (Spin :: restore_acts) []; mkFrame [] []] false [] ∅).
Proof.
  split.
  - exact (exception_reported (gate_acts 7) (fun _ _ => true)
             (mkConfig 1 [mkFrame (drop 1 print_acts) [(Exclusive, LCom1)]] false [] ∅) Nmi).
  - exact (exception_reported (gate_acts 7) (fun _ _ => true) (mkConfig 1 [mkFrame [] []] false [] ∅) Nmi).
Defined.

(** ** Where an interrupt stops the machine *)

(** Code of process [r], entered with the interrupt flag [on]. *)
Definition alone (r : Z) (on : bool) (t : list action) : config irq := mkConfig r [entry t] on [] ∅.




Section Places.
Context (capacity : nat) (deliver : list irq -> irq -> bool).
Local Abbreviation stops := (reaches_deadlock (gate_acts capacity) deliver).








(** *** The initialisation *)


















End Places.

(** *** On concrete machines

    Process 1 runs, process 2 waits. *)
Definition busy (id : Z) (st : State) (stk : option (list Z)) : Process :=
  mkProcess id "p" st 0 context_new stk.

Definition running_one : CoopScheduler :=
  mkSched 1 (mkProcs (<[0 := busy 0 Free None]> (<[1 := busy 1 Current (Some [0])]> (<[2 := busy 2 Ready (Some [0])]> ∅))) 3) [2].

(** [arch::init] with a root pointer to a table of the given length, on frames
    without a message. *)
Definition no_work : vm_op := mkVm [] Returns.
Definition free_work : vm_work :=
  mkWork no_work no_work (fun _ => no_work) no_work no_work (fun _ => no_work) (fun _ => no_work) [] (fun _ => no_work).
Definition boot_with (length : Z) : boot_run :=
  mkRun free_work false demo_boot (mkCall 1 Returns) 0x900 true
    (mkAcpiFound true true length (Some (demo_madt, demo_entries))) (Some no_work).


(** The first steps of [arch::init]. *)
Definition under_way : config irq :=
  default (alone 1 false []) (schedule (gate_acts 7) (fun _ _ => true) (replicate 100 None)
    (alone 1 false (setup_acts (boot_with 40)))).

Lemma under_way_steps :
  steps (gate_acts 7) (fun _ _ => true) (alone 1 false (setup_acts (boot_with 40))) under_way.
Proof. apply (schedule_steps _ _ (replicate 100 None)). vm_compute. reflexivity. Qed.

Lemma no_self_deadlock_witness :
  self_free (I := irq) (arch_init_acts (boot_with 40) (fun _ => 1%nat) (Ok []) [Some (replicate 6 (0, 0))] []) /\
  iflag under_way = false /\ waits under_way = None.
Proof.
  destruct (no_self_deadlock (H := quiet_hw) (I := irq) 7 0 1 (fun _ => 1%nat) running_one 1 (tick None) demo_kbd
    (boot_with 40) (Ok []) [Some (replicate 6 (0, 0))] []) as [Hf Hq]; [unfold HEADER_SIZE; simpl; lia|].
  split; [|exact (Hq _ _ _ _ _ under_way_steps)].
  do 8 apply Forall_cons in Hf as [_ Hf]. by apply Forall_cons in Hf as [Hf _].
Defined.
