(* ===== verification/Fis.v ===== *)
(** * AHCI: the frame information structures

    [device/ahci/fis.rs] and [device/ahci/hba.rs].  The structures are
    [#[repr(packed)]]: their fields lie in the order of the declaration without
    padding, and an [Mmio<T>] is as large as its [T].  A structure is a record of
    the values of its cells; [to_bytes] is the memory it occupies, on the
    little-endian machine, and [of_bytes] reads it back. *)

From S2P Require Import Prelude.

Definition AHCI_BASE : Z := 0.   (* [ATOMIC_USIZE_INIT] *)

(** ** Packed structures *)

Fixpoint le (n : nat) (v : Z) : list Z :=
  match n with
  | O => []
  | S n => v mod 256 :: le n (v / 256)
  end.

Definition of_le (bs : list Z) : Z := foldr (fun b acc => b + 256 * acc) 0 bs.

Fixpoint encode_cells (ws : list nat) (vs : list Z) : list Z :=
  match ws, vs with
  | w :: ws, v :: vs => le w v ++ encode_cells ws vs
  | _, _ => []
  end.

Fixpoint decode_cells (ws : list nat) (bs : list Z) : list Z :=
  match ws with
  | [] => []
  | w :: ws => of_le (take w bs) :: decode_cells ws (drop w bs)
  end.

(** Values that fit their cells. *)
Definition cells_ok (ws : list nat) (vs : list Z) : Prop :=
  Forall2 (fun w v => in_width (8 * Z.of_nat w) v) ws vs.

(** A packed structure: the sizes of its cells in bytes, an array counting as
    its elements, and the values of a record in that order. *)
Class Packed (A : Type) := {
  layout : list nat;
  cells : A -> list Z;
  of_cells : list Z -> option A;
  arrays_ok : A -> Prop }.   (* the arrays have the lengths of their types *)

Class PackedLaws (A : Type) `{Packed A} := {
  of_cells_cells a : arrays_ok a -> of_cells (cells a) = Some a;
  cells_of_cells vs : length vs = length (layout (A := A)) ->
    exists a : A, of_cells vs = Some a /\ cells a = vs /\ arrays_ok a }.

Section Packed.
Context {A : Type} `{Packed A}.

Definition size_of : nat := sum_list (layout (A := A)).
Definition offset_of (i : nat) : nat := sum_list (take i (layout (A := A))).
Definition to_bytes (a : A) : list Z := encode_cells layout (cells a).
Definition of_bytes (bs : list Z) : option A :=
  if decide (length bs = size_of) then of_cells (decode_cells (layout (A := A)) bs) else None.
Definition fields_ok (a : A) : Prop := arrays_ok a /\ cells_ok layout (cells a).

(** Records and blocks of [n] bytes stand for each other. *)
Definition packs (n : nat) : Prop :=
  (forall a, fields_ok a -> length (to_bytes a) = n /\ Forall (in_width 8) (to_bytes a) /\
     of_bytes (to_bytes a) = Some a) /\
  (forall bs, length bs = n -> Forall (in_width 8) bs ->
     exists a, of_bytes bs = Some a /\ fields_ok a /\ to_bytes a = bs).
End Packed.
Arguments size_of A {_}.
Arguments offset_of A {_} i.
Arguments packs A {_} n.

(** ** The structures *)

Inductive FisType := RegH2D | RegD2H | DmaAct | DmaSetup | Data | Bist | PioSetup | DevBits.

Definition fis_type_code (t : FisType) : Z :=
  match t with
  | RegH2D => 0x27 | RegD2H => 0x34 | DmaAct => 0x39 | DmaSetup => 0x41
  | Data => 0x46 | Bist => 0x58 | PioSetup => 0x5F | DevBits => 0xA1
  end.

Record FisRegH2D := mkRegH2D {
  rh_fis_type : Z; rh_pm : Z; rh_command : Z; rh_featurel : Z;
  rh_lba0 : Z; rh_lba1 : Z; rh_lba2 : Z; rh_device : Z;
  rh_lba3 : Z; rh_lba4 : Z; rh_lba5 : Z; rh_featureh : Z;
  rh_countl : Z; rh_counth : Z; rh_icc : Z; rh_control : Z;
  rh_rsv1 : list Z }.

Record FisRegD2H := mkRegD2H {
  rd_fis_type : Z; rd_pm : Z; rd_status : Z; rd_error : Z;
  rd_lba0 : Z; rd_lba1 : Z; rd_lba2 : Z; rd_device : Z;
  rd_lba3 : Z; rd_lba4 : Z; rd_lba5 : Z; rd_rsv2 : Z;
  rd_countl : Z; rd_counth : Z; rd_rsv3 : list Z;
  rd_rsv4 : list Z }.

Record FisData := mkFisData {
  fd_fis_type : Z; fd_pm : Z; fd_rsv1 : list Z;
  fd_data : list Z }.

Record FisPioSetup := mkPioSetup {
  ps_fis_type : Z; ps_pm : Z; ps_status : Z; ps_error : Z;
  ps_lba0 : Z; ps_lba1 : Z; ps_lba2 : Z; ps_device : Z;
  ps_lba3 : Z; ps_lba4 : Z; ps_lba5 : Z; ps_rsv2 : Z;
  ps_countl : Z; ps_counth : Z; ps_rsv3 : Z; ps_e_status : Z;
  ps_tc : Z; ps_rsv4 : list Z }.

Record FisDmaSetup := mkDmaSetup {
  ds_fis_type : Z; ds_pm : Z; ds_rsv1 : list Z;
  ds_dma_buffer_id : Z;
  ds_rsv3 : Z;
  ds_dma_buffer_offset : Z;
  ds_transfer_count : Z;
  ds_rsv6 : Z }.

#[export] Instance regh2d_packed : Packed FisRegH2D := {
  layout := replicate 16 1%nat ++ replicate 4 1%nat;
  cells r :=
    [rh_fis_type r; rh_pm r; rh_command r; rh_featurel r; rh_lba0 r; rh_lba1 r; rh_lba2 r; rh_device r;
     rh_lba3 r; rh_lba4 r; rh_lba5 r; rh_featureh r; rh_countl r; rh_counth r; rh_icc r; rh_control r] ++
    rh_rsv1 r;
  of_cells vs :=
    match vs with
    | a :: b :: c :: d :: e :: f :: g :: h :: i :: j :: k :: l :: m :: n :: o :: p :: rsv1 =>
        Some (mkRegH2D a b c d e f g h i j k l m n o p rsv1)
    | _ => None
    end;
  arrays_ok r := length (rh_rsv1 r) = 4%nat }.

#[export] Instance regd2h_packed : Packed FisRegD2H := {
  layout := replicate 14 1%nat ++ replicate 2 1%nat ++ replicate 4 1%nat;
  cells r :=
    [rd_fis_type r; rd_pm r; rd_status r; rd_error r; rd_lba0 r; rd_lba1 r; rd_lba2 r; rd_device r;
     rd_lba3 r; rd_lba4 r; rd_lba5 r; rd_rsv2 r; rd_countl r; rd_counth r] ++ rd_rsv3 r ++ rd_rsv4 r;
  of_cells vs :=
    match vs with
    | a :: b :: c :: d :: e :: f :: g :: h :: i :: j :: k :: l :: m :: n :: x :: y :: rsv4 =>
        Some (mkRegD2H a b c d e f g h i j k l m n [x; y] rsv4)
    | _ => None
    end;
  arrays_ok r := length (rd_rsv3 r) = 2%nat /\ length (rd_rsv4 r) = 4%nat }.

#[export] Instance fisdata_packed : Packed FisData := {
  layout := replicate 2 1%nat ++ replicate 2 1%nat ++ replicate 252 1%nat;
  cells r := [fd_fis_type r; fd_pm r] ++ fd_rsv1 r ++ fd_data r;
  of_cells vs :=
    match vs with
    | a :: b :: x :: y :: data => Some (mkFisData a b [x; y] data)
    | _ => None
    end;
  arrays_ok r := length (fd_rsv1 r) = 2%nat /\ length (fd_data r) = 252%nat }.

#[export] Instance piosetup_packed : Packed FisPioSetup := {
  layout := replicate 16 1%nat ++ [2%nat] ++ replicate 2 1%nat;
  cells r :=
    [ps_fis_type r; ps_pm r; ps_status r; ps_error r; ps_lba0 r; ps_lba1 r; ps_lba2 r; ps_device r;
     ps_lba3 r; ps_lba4 r; ps_lba5 r; ps_rsv2 r; ps_countl r; ps_counth r; ps_rsv3 r; ps_e_status r;
     ps_tc r] ++ ps_rsv4 r;
  of_cells vs :=
    match vs with
    | a :: b :: c :: d :: e :: f :: g :: h :: i :: j :: k :: l :: m :: n :: o :: p :: tc :: rsv4 =>
        Some (mkPioSetup a b c d e f g h i j k l m n o p tc rsv4)
    | _ => None
    end;
  arrays_ok r := length (ps_rsv4 r) = 2%nat }.

#[export] Instance dmasetup_packed : Packed FisDmaSetup := {
  layout := replicate 2 1%nat ++ replicate 2 1%nat ++ [8; 4; 4; 4; 4]%nat;
  cells r :=
    [ds_fis_type r; ds_pm r] ++ ds_rsv1 r ++
    [ds_dma_buffer_id r; ds_rsv3 r; ds_dma_buffer_offset r; ds_transfer_count r; ds_rsv6 r];
  of_cells vs :=
    match vs with
    | [a; b; x; y; c; d; e; f; g] => Some (mkDmaSetup a b [x; y] c d e f g)
    | _ => None
    end;
  arrays_ok r := length (ds_rsv1 r) = 2%nat }.

(** ** Records and bytes *)

Lemma le_length n v : length (le n v) = n.
Proof. revert v. induction n as [|n IH]; intros v; [done|]. simpl. by rewrite IH. Qed.

Lemma le_bytes n v : Forall (in_width 8) (le n v).
Proof.
  revert v. induction n as [|n IH]; intros v; [constructor|]. constructor; [|apply IH].
  unfold in_width. apply Z.mod_pos_bound. lia.
Qed.

Lemma pow_succ n : 2 ^ (8 * Z.of_nat (S n)) = 256 * 2 ^ (8 * Z.of_nat n).
Proof. rewrite Nat2Z.inj_succ, <-Z.add_1_l, Z.mul_add_distr_l, Z.pow_add_r by lia. done. Qed.

Lemma of_le_le n v : in_width (8 * Z.of_nat n) v -> of_le (le n v) = v.
Proof.
  unfold in_width. revert v. induction n as [|n IH]; intros v Hv; [simpl in *; lia|].
  rewrite pow_succ in Hv. simpl. fold (of_le (le n (v / 256))). rewrite IH.
  - rewrite (Z.div_mod v 256) at 3 by lia. lia.
  - split; [apply Z.div_pos; lia|]. apply Z.div_lt_upper_bound; lia.
Qed.

Lemma of_le_range bs : Forall (in_width 8) bs -> in_width (8 * Z.of_nat (length bs)) (of_le bs).
Proof.
  unfold in_width. induction 1 as [|b bs Hb _ IH]; [simpl; lia|]. simpl length. rewrite pow_succ.
  simpl of_le. fold (of_le bs). lia.
Qed.

Lemma le_of_le bs : Forall (in_width 8) bs -> le (length bs) (of_le bs) = bs.
Proof.
  induction 1 as [|b bs Hb Hbs IH]; [done|]. simpl. fold (of_le bs). unfold in_width in Hb.
  rewrite (Z.mul_comm 256), Z.mod_add, Z.mod_small, Z.div_add, Z.div_small, Z.add_0_l by lia. by rewrite IH.
Qed.

Lemma encode_cells_length ws vs : cells_ok ws vs -> length (encode_cells ws vs) = sum_list ws.
Proof. induction 1; [done|]. simpl. by rewrite length_app, le_length, IHForall2. Qed.

Lemma encode_bytes ws vs : Forall (in_width 8) (encode_cells ws vs).
Proof.
  revert vs. induction ws as [|w ws IH]; intros [|v vs]; try constructor. simpl. apply Forall_app.
  split; [apply le_bytes|apply IH].
Qed.

Lemma decode_encode ws vs : cells_ok ws vs -> decode_cells ws (encode_cells ws vs) = vs.
Proof.
  induction 1 as [|w v ws vs Hv _ IH]; [done|]. simpl.
  rewrite take_app_length', drop_app_length' by (by rewrite le_length). by rewrite of_le_le, IH.
Qed.

Lemma decode_ok ws bs : length bs = sum_list ws -> Forall (in_width 8) bs -> cells_ok ws (decode_cells ws bs).
Proof.
  revert bs. induction ws as [|w ws IH]; intros bs Hl Hb; [constructor|]. simpl in *. constructor.
  - pose proof (of_le_range (take w bs) (Forall_take _ _ _ Hb)) as Hr. by rewrite length_take_le in Hr by lia.
  - apply IH; [rewrite length_drop; lia|by apply Forall_drop].
Qed.

Lemma encode_decode ws bs :
  length bs = sum_list ws -> Forall (in_width 8) bs -> encode_cells ws (decode_cells ws bs) = bs.
Proof.
  revert bs. induction ws as [|w ws IH]; intros bs Hl Hb; simpl in *; [by apply nil_length_inv in Hl|].
  rewrite IH; [|rewrite length_drop; lia|by apply Forall_drop].
  pose proof (le_of_le (take w bs) (Forall_take _ _ _ Hb)) as Hr. rewrite length_take_le in Hr by lia.
  by rewrite Hr, take_drop.
Qed.

Lemma packed_packs {A} `{PackedLaws A} : packs A (size_of A).
Proof.
  split.
  - intros a [Ha Hc]. unfold to_bytes, of_bytes. rewrite (encode_cells_length _ _ Hc).
    split; [done|]. split; [apply encode_bytes|]. rewrite decide_True by done.
    by rewrite decode_encode, of_cells_cells.
  - intros bs Hl Hb. pose proof (decode_ok _ bs Hl Hb) as Hc.
    destruct (cells_of_cells (decode_cells layout bs)) as (a & Ha & Hcs & Hok).
    { symmetry. by eapply Forall2_length. }
    exists a. unfold of_bytes, to_bytes, fields_ok. rewrite decide_True, Hcs by done.
    split; [done|]. split; [done|]. by apply encode_decode.
Qed.

(** Break lists of known lengths into their elements. *)
Ltac split_lists :=
  repeat match goal with
  | H : length ?l = S _ |- _ => is_var l; destruct l; [discriminate H|cbn [length] in H; apply Nat.succ_inj in H]
  | H : length ?l = O |- _ => is_var l; apply nil_length_inv in H; subst l
  end.

#[export] Instance regh2d_laws : PackedLaws FisRegH2D.
Proof. split; [by intros []|]. intros vs Hl. simpl in Hl. split_lists. by eexists. Qed.
#[export] Instance regd2h_laws : PackedLaws FisRegD2H.
Proof.
  split; [|intros vs Hl; simpl in Hl; split_lists; by eexists].
  intros [? ? ? ? ? ? ? ? ? ? ? ? ? ? r3 r4] [H3 H4]. simpl in H3. by split_lists.
Qed.
#[export] Instance fisdata_laws : PackedLaws FisData.
Proof.
  split; [intros [? ? r1 d] [H1 _]; simpl in H1; by split_lists|].
  intros vs Hl. cbn [layout fisdata_packed] in Hl. rewrite !length_app, !length_replicate in Hl.
  destruct vs as [|a [|b [|x [|y data]]]]; try discriminate Hl. eexists. split; [done|]. split; [done|].
  split; [done|]. simpl in *. lia.
Qed.
#[export] Instance piosetup_laws : PackedLaws FisPioSetup.
Proof. split; [by intros []|]. intros vs Hl. simpl in Hl. split_lists. by eexists. Qed.
#[export] Instance dmasetup_laws : PackedLaws FisDmaSetup.
Proof.
  split; [intros [? ? r1 ? ? ? ? ?] H1; simpl in H1; by split_lists|].
  intros vs Hl. simpl in Hl. split_lists. by eexists.
Qed.

(** Each structure occupies the number of bytes its declaration adds up to, every block of
    that many bytes is the image of exactly one record with fields of their
    widths, and reading back what was written gives the record. *)
Theorem fis_roundtrip :
  packs FisRegH2D 20 /\ packs FisRegD2H 20 /\ packs FisData 256 /\ packs FisPioSetup 20 /\ packs FisDmaSetup 28.
Proof.
  split_and!; [exact (packed_packs (A := FisRegH2D))|exact (packed_packs (A := FisRegD2H))|
    exact (packed_packs (A := FisData))|exact (packed_packs (A := FisPioSetup))|
    exact (packed_packs (A := FisDmaSetup))].
Qed.

(** The fields the comments put at the start of a double word are there. *)
Lemma fis_dwords :
  offset_of FisRegH2D <$> [0; 4; 8; 12; 16]%nat = [0; 4; 8; 12; 16]%nat /\
  offset_of FisRegD2H <$> [0; 4; 8; 12; 16]%nat = [0; 4; 8; 12; 16]%nat /\
  offset_of FisData <$> [0; 4]%nat = [0; 4]%nat /\
  offset_of FisPioSetup <$> [0; 4; 8; 12; 16]%nat = [0; 4; 8; 12; 16]%nat /\
  offset_of FisDmaSetup <$> [0; 4; 5; 6; 7; 8]%nat = [0; 4; 12; 16; 20; 24]%nat.
Proof. by vm_compute. Qed.

(** The codes are bytes, and different for different types. *)
Lemma fis_type_codes t t' : in_width 8 (fis_type_code t) /\ (fis_type_code t = fis_type_code t' -> t = t').
Proof. split; [by destruct t|]. by destruct t, t'. Qed.
