(* ===== verification/Int80.v ===== *)
(** * The system call instruction

    [interrupts/syscall/x86_64.rs]: seven wrappers around [int 0x80].  Each is one
    [asm!] statement: input registers, the output register [rax] and the registers
    it declares as clobbered.  [interrupts/mod.rs] does not declare the module, so
    that the kernel is built without it; the table of [Idt] is what the instruction
    would meet. *)

From S2P Require Import Prelude Idt.

Inductive reg := RAX | RBX | RCX | RDX | RSI | RDI | R8 | R9 | R10 | R11 | R12 | R13 | R14 | R15.

#[global] Instance reg_eq_dec : EqDecision reg.
Proof. solve_decision. Defined.

Definition regs := reg -> Z.

(** [asm!("int 0x80" : "={rax}"(a) : inputs : clobbers)] *)
Record asm := mkAsm { a_inputs : list (reg * Z); a_clobbers : list reg }.

Definition syscall0 (a : Z) : asm := mkAsm [(RAX, a)] [].
Definition syscall1 (a b : Z) : asm := mkAsm [(RAX, a); (RBX, b)] [].
Definition syscall1_clobber (a b : Z) : asm :=
  mkAsm [(RAX, a); (RBX, b)] [RBX; RCX; RDX; RSI; RDI; R8; R9; R10; R11; R12; R13; R14; R15].
Definition syscall2 (a b c : Z) : asm := mkAsm [(RAX, a); (RBX, b); (RCX, c)] [].
Definition syscall3 (a b c d : Z) : asm := mkAsm [(RAX, a); (RBX, b); (RCX, c); (RDX, d)] [].
Definition syscall4 (a b c d e : Z) : asm := mkAsm [(RAX, a); (RBX, b); (RCX, c); (RDX, d); (RSI, e)] [].
Definition syscall5 (a b c d e f : Z) : asm :=
  mkAsm [(RAX, a); (RBX, b); (RCX, c); (RDX, d); (RSI, e); (RDI, f)] [].

Definition load (inputs : list (reg * Z)) (r : regs) : regs :=
  foldl (fun r '(x, v) y => if decide (y = x) then v else r y) r inputs.

(** The instruction runs the handler of the gate; a gate that is not present
    raises an exception, whose error code names the vector. *)
Definition int80 (gate : option (regs -> regs)) (r : regs) : regs + exception * Z :=
  match gate with
  | Some h => inl (h r)
  | None => inr (SegNotPresent, 0x80 * 8 + 2)
  end.

(** What the caller gets: the result, and the registers as it goes on. *)
Definition syscall (x : asm) (gate : option (regs -> regs)) (r : regs) : Z * regs + exception * Z :=
  match int80 gate (load (a_inputs x) r) with
  | inl r' => inl (r' RAX, r')
  | inr e => inr e
  end.

(** The gate of the kernel's table, for any meaning of its handlers. *)
Definition kernel_gate (run : handler -> regs -> regs) : option (regs -> regs) :=
  (fun g => run (g_handler g)) <$> IDT !! 0x80.

(** ** Properties *)

(** The wrappers for given arguments. *)
Inductive wrapper : asm -> list Z -> Prop :=
  | W0 a : wrapper (syscall0 a) [a]
  | W1 a b : wrapper (syscall1 a b) [a; b]
  | W1c a b : wrapper (syscall1_clobber a b) [a; b]
  | W2 a b c : wrapper (syscall2 a b c) [a; b; c]
  | W3 a b c d : wrapper (syscall3 a b c d) [a; b; c; d]
  | W4 a b c d e : wrapper (syscall4 a b c d e) [a; b; c; d; e]
  | W5 a b c d e f : wrapper (syscall5 a b c d e f) [a; b; c; d; e; f].

(** The argument registers, in order. *)
Definition arg_regs : list reg := [RAX; RBX; RCX; RDX; RSI; RDI].

(** A handler behind the gate would find every argument in its register and
    all other registers as they were, and the caller gets what it leaves in
    [rax]; as the kernel sets up its table the gate is not present, so that every
    wrapper raises an exception instead. *)
Theorem syscall_registers x args r :
  wrapper x args ->
  (forall h, exists r', syscall x (Some h) r = inl (h r' RAX, h r') /\
     (forall i v, args !! i = Some v -> exists y, arg_regs !! i = Some y /\ r' y = v) /\
     (forall y, y ∉ take (length args) arg_regs -> r' y = r y)) /\
  (forall run, syscall x (kernel_gate run) r = inr (SegNotPresent, 0x402)).
Proof.
  intros Hw. split; [|intros run; by destruct Hw].
  intros h. exists (load (a_inputs x) r). split; [done|]. split.
  - intros i v Hi. destruct Hw; repeat (destruct i as [|i]; [simpl in Hi; injection Hi as <-; by eexists|]); done.
  - intros y Hy. destruct Hw; simpl in Hy; rewrite !not_elem_of_cons in Hy; simpl; by rewrite !decide_False by tauto.
Qed.

Lemma syscall_registers_witness :
  syscall (syscall2 1 2 3) (Some (fun r y => r y + 1)) (fun _ => 0) =
    inl (2, fun y => (load [(RAX, 1); (RBX, 2); (RCX, 3)] (fun _ => 0)) y + 1) /\
  syscall (syscall2 1 2 3) (kernel_gate (fun _ r => r)) (fun _ => 0) = inr (SegNotPresent, 0x402).
Proof.
  split; [reflexivity|].
  exact (proj2 (syscall_registers _ _ (fun _ => 0) (W2 1 2 3)) (fun _ r => r)).
Defined.
