(* ===== verification/Init.v ===== *)
(** * The initialisation of the kernel

    [kmain] of [lib.rs], [init] of [arch/x86_64/init.rs] and of [device/mod.rs]:
    the components in the order in which the kernel starts them, each on the state
    its predecessors left.  The multiboot structure is the result of the
    [multiboot2] package; messages between the first and those of [device::init] are
    left out. *)

From S2P Require Import Prelude Fmt Frames FrameSource AreaAlloc Entry Mmu Table PageTree Mapper Boot.
From S2P Require Import StackAlloc MemoryInit Task Sched Acpi Apic Ports Ps2 Serial Interrupts AcpiInit Idt Gdt TablesInit.
From S2P Require Import Vga Pci Start.

(** The control registers [init] sets bits in. *)
Record control := mkControl { efer : Z; cr0 : Z }.

Definition enable_nxe_bit (c : control) : control := mkControl (Z.lor (efer c) (Z.shiftl 1 11)) (cr0 c).

(** [Cr0::WRITE_PROTECT] is bit 16. *)
Definition enable_write_protect_bit (c : control) : control := mkControl (efer c) (Z.lor (cr0 c) (Z.shiftl 1 16)).

Section Init.
Context `{BitField} `{X86Tables} `{Hardware}.
Context (tss_addr gdt_addr : Z).

(** The statics and the hardware the initialisation changes. *)
Record system := mkSystem {
  y_acpi : acpi_state (option AreaFrameAllocator);
  y_tss : option TaskStateSegment;
  y_gdt : option Gdt;
  y_cpu : cpu_tables;
  y_kernel : kernel;
  y_control : control;
  y_com1 : SerialPort;
  y_screen : TextBuffer;
  y_video : gmap (Z * Z) (Z * Z);
  y_ttys : option (list TextBuffer);
  y_devices : list Device;
  y_ahci : Z }.

(** [device::init]: the terminals, the timer, the PS/2 controller and the PCI bus. *)
Definition device_init (fuel : nat) (ds : list Device) (ahci : Z) (l : io_log)
  : outcome (option (list TextBuffer) * pci_state) :=
  let ttys := tty_init in
  let? l := pit_init fuel l in
  let? l := ps2_init fuel fuel PS2 l in
  let? p := pci_init fuel (mkPci ds ahci l) in
  Ok (ttys, p).

Definition begin_text : list Z := bytes_of "[ INFO ] lambdaOS: Begin init." ++ nl.
Definition end_text : list Z := bytes_of "[ OK ] Init successful, you may now type." ++ nl.

(** [arch::init] up to the devices; the result has the state of the critical
    section, the screen and the registers beside the tables. *)
Definition arch_init_tables (fuel : nat) (apic_base : Z) (has_apic : bool) (boot_info : BootInformation) (y : system)
  : outcome (SerialPort * TextBuffer * vga * ist * control * MemoryController *
             acpi_state (option AreaFrameAllocator) * tables) :=
  let l := disable_8259_pic PICS (ac_log (y_acpi y)) in
  let? (com1, l) := do_init (y_com1 y) l in
  let i := disable (mkIst (y_kernel y) l) in
  let? (screen, v) := clear_screen (y_screen y) (mkVga (y_video y) (i_log i)) in
  let? l := println fuel begin_text (vlog v) in
  let c := enable_nxe_bit (y_control y) in
  let c := enable_write_protect_bit c in
  let? (_, memory_controller, a) :=
    memory_init false apic_base has_apic boot_info (mkAcpi (ac_mm (y_acpi y)) (ac_manager (y_acpi y)) l) in
  let? (memory_controller, t) :=
    interrupts_init tss_addr gdt_addr memory_controller (mkTables (ac_mm a) (y_tss y) (y_gdt y) (y_cpu y)) in
  Ok (com1, screen, v, i, c, memory_controller, a, t).

(** [arch::init]; [fuel] bounds the waits for the PS/2 controller and for the serial
    port. *)
Definition arch_init (fuel : nat) (apic_base : Z) (has_apic : bool) (boot_info : BootInformation) (y : system)
  : outcome (MemoryController * system) :=
  let? (com1, screen, v, i, c, memory_controller, a, t) := arch_init_tables fuel apic_base has_apic boot_info y in
  let? (ttys, p) := device_init fuel (y_devices y) (y_ahci y) (ac_log a) in
  let i := enable (mkIst (i_kernel i) (pci_log p)) in
  let? l := println fuel end_text (i_log i) in
  Ok (memory_controller,
      mkSystem (mkAcpi (ts_mm t) (ac_manager a) l) (ts_tss t) (ts_gdt t) (ts_cpu t) (i_kernel i) c com1
        screen (frame v) ttys (devices p) (ahci_base p)).

(** [kmain]: it never returns. *)
Definition kmain (fuel : nat) (apic_base : Z) (has_apic : bool) (boot_info : BootInformation) (y : system) : outcome unit :=
  let? (_, y) := arch_init fuel apic_base has_apic boot_info y in
  let? (_, _) := spin (T := unit) fuel (mkIst (y_kernel y) (ac_log (y_acpi y))) in
  Ok tt.

Context `{!BitFieldOk} `{!X86TablesOk}.

(** The page of the double fault stack. *)
Definition fault_stack : Z := 0x4007e.

(** Loading the tables adds one page to the address space. *)
Lemma address_space_loaded p4 boot_info sections tables devices s n st st' :
  low_boot boot_info sections -> ts_mm st = s ->
  address_space p4 boot_info sections tables devices (fun _ => False) s n ->
  tables_loaded tss_addr gdt_addr 0x4007d n st st' ->
  address_space p4 boot_info sections tables devices (fun k => k = fault_stack) (ts_mm st') n /\
  exists f, walk (pm (ts_mm st')) n (mkPage fault_stack) = Some (f, read_execute).
Proof.
  intros Hlow <- [Hact Hn _ Hk Hh Hb Ht Hd Ho] [_ _ Hac Hi [Hnone Hf] Hw].
  change (0x4007d + 1) with fault_stack in *. split; [|exact Hf].
  assert (Hkeep : forall p t, user_page p -> walk (pm (ts_mm st)) n p = Some t -> walk (pm (ts_mm st')) n p = Some t).
  { intros p t Hp E. rewrite Hw; [exact E|exact Hp|]. intros Hq. destruct p as [k]. simpl in Hq. congruence. }
  split; [by rewrite Hac|exact Hn|exact Hi| | | | | |].
  - intros f fl Hin Hne. pose proof (kernel_frames_ok _ _ Hlow) as Hok. rewrite Forall_forall in Hok.
    apply Hkeep; [|by apply Hk]. apply low_page, (Hok _ Hin).
  - rewrite Forall_forall in Hh |- *. intros p Hp. destruct (Hh p Hp) as [f Hf2]. exists f. apply Hkeep; [|exact Hf2].
    exact (proj1 (Forall_forall _ _) (proj1 heap_pages_ok) p Hp).
  - rewrite Forall_forall in Hb |- *. intros k Hin. apply Hkeep; [|by apply Hb]. apply low_page.
    apply elem_of_seqZ in Hin. lia.
  - intros k Htk Hnot Hnh. destruct (Ht k Htk Hnot Hnh) as [Hp E]. split; [exact Hp|]. by apply Hkeep.
  - intros k Hdk. destruct (Hd k Hdk) as [Hp E]. split; [exact Hp|]. by apply Hkeep.
  - intros q Hq Hnot Hnh Hnb Hnt Hnd Hex. rewrite Hw; [|exact Hq|exact Hex]. apply Ho; [done..|intros []].
Qed.

(** [kmain] ends in [loop {}]. *)
Lemma kmain_never_returns fuel apic_base has_apic boot_info y x : kmain fuel apic_base has_apic boot_info y <> Ok x.
Proof.
  unfold kmain. destruct (arch_init fuel apic_base has_apic boot_info y) as [[mc y']|e]; [|done]. cbn [obind].
  by rewrite spin_forever.
Qed.

Section Correct.
Context (m0 : mem) (p4 p3 p2 : Z) (boot_info : BootInformation) (sections : list ElfSection) (ars : list MemoryArea).
Context (log : list flush) (g : option AreaFrameAllocator).
Hypothesis Hdistinct : p4 <> p3 /\ p4 <> p2 /\ p3 <> p2.
Hypothesis Hrange : 0 <= p4 < 2 ^ 18 /\ 0 <= p3 < 2 ^ 18 /\ 0 <= p2 < 2 ^ 18.
Hypothesis Hbss : forall f i, f ∈ [p4; p3; p2] -> rd m0 f i = 0.
Hypothesis Himage : Forall (in_image sections) [p4; p3; p2].
Hypothesis Hboot : low_boot boot_info sections.
Hypothesis Hareas : bi_areas boot_info = Some ars.
Hypothesis Hwf : Forall area_wf ars.
Let s0 : machine := mkMM (set_up_page_tables m0 p4 p3 p2) (p4 * PAGE_SIZE) log g.
Hypothesis Hlow : forall h sa s1, memory_setup false boot_info s0 = Ok (h, sa, s1) -> low_sdt s1.
Hypothesis Haddr : in_width 64 tss_addr.

(** A register in which one bit was set. *)
Definition bit_set (n : Z) (old new : Z) : Prop :=
  forall i, 0 <= i -> Z.testbit new i = if decide (i = n) then true else Z.testbit old i.

Lemma lor_bit_set x n : 0 <= n -> bit_set n x (Z.lor x (Z.shiftl 1 n)).
Proof.
  intros Hn i Hi. rewrite or_bit by done. case_decide as E; [subst; by rewrite Z.eqb_refl, orb_true_r|].
  destruct (Z.eqb_spec i n); [done|]. apply orb_false_r.
Qed.

(** The machine after [arch::init], started with the control registers [ctl]. *)
Record initialised (ctl : control) (has_apic : bool) (mc : MemoryController) (y : system) : Prop := {
  in_stacks : sa_pages (mc_stacks mc) 0x4007f 0x400e1;
  in_space : final_space m0 p4 p3 p2 boot_info sections log g has_apic (fun k => k = fault_stack) (y_acpi y);
  in_fault : exists f, walk (pm (ac_mm (y_acpi y))) (active (ac_mm (y_acpi y))) (mkPage fault_stack) = Some (f, read_execute);
  in_cpu : y_cpu y = mkCpuTables (Some (gdt_addr, 63)) 8 (Some (tss_addr, tss_size - 1)) true;
  in_tss : exists tss, y_tss y = Some tss /\
    interrupt_stack_table tss !! 0%nat = Some ((fault_stack + 1) * PAGE_SIZE);
  in_screen : exists l, on_screen (y_screen y) (mkVga (y_video y) l);
  in_blank : shows (y_screen y) blank_term;
  in_com1 : y_com1 y = mkSerial 0x3f8 true;
  in_ttys : y_ttys y = tty_init;
  in_nxe : bit_set 11 (efer ctl) (efer (y_control y));
  in_log : exists text, outs 0x3f8 (ac_log (y_acpi y)) = text ++ end_text;
  in_protect : bit_set 16 (cr0 ctl) (cr0 (y_control y));
  in_enabled : Z.testbit (c_rflags (Sched.cpu (y_kernel y))) 9 = true }.

(** [arch::init] as a whole.  It is started on the tables of [boot.asm] with its
    statics in their initial state.  When [arch::init] returns, the machine runs on
    fresh tables: the kernel's sections, the VGA buffer, the multiboot structure,
    the heap, the BIOS area, the root ACPI table, the APICs and the double fault
    stack are mapped, each with its rights, and no other page is.  GDT, TSS and IDT are loaded, the screen is blank, COM1 is
    initialised and there are six terminals; no-execute and write protection are
    on, interrupts are enabled, and the last thing said is that one may type.  On a
    serial port and a PS/2 controller that become ready it fails where [memory::init]
    does, where the double fault stack cannot be mapped, a self test of the PS/2
    controller fails or the size of a PCI register overflows, and nowhere else. *)
Lemma arch_init_spec fuel n m apic_base has_apic iolog c0 k ctl term0 screen video :
  settles (port_new 8 (0x3f8 + 5)) is_transmit_empty n -> (n < fuel)%nat ->
  settles (controller PS2) output_empty m -> (m < fuel)%nat ->
  shows screen term0 -> active_tty screen = true ->
  match arch_init fuel apic_base has_apic boot_info
    (mkSystem (mkAcpi s0 None iolog) None None c0 k ctl COM1 screen video None [] 0) with
  | Ok (mc, y) => initialised ctl has_apic mc y
  | Err e =>
      (exists l, memory_init false apic_base has_apic boot_info (mkAcpi s0 None l) = Err e) \/
      (e = oom_panic \/ e = huge_panic \/ e = frames_panic \/ e = unused_panic) \/
      (e = EPanic "PS/2 self test failed" \/ e = EPanic "Interface tests failed") \/ e = bar_overflow
  end.
Proof.
  intros Hready Hf Hps Hm Hsh Hac. unfold arch_init, arch_init_tables. cbn [y_acpi y_com1 y_kernel y_screen y_video y_control y_tss y_gdt
    y_cpu y_devices y_ahci ac_log ac_mm ac_manager].
  rewrite (do_init_eq COM1 _ com1_base). cbn [obind].
  match goal with |- context [clear_screen screen ?v] =>
    destruct (clear_screen_becomes screen term0 v Hsh) as (t1 & v1 & -> & Hsh1 & _ & _ & Hon) end.
  cbn [obind]. destruct (println_spec n fuel begin_text (vlog v1) Hready Hf) as (evs & -> & _). cbn [obind].
  destruct (memory_init _ _ _ _ _) as [[[h mc1] a]|e] eqn:Hmem; cbn [obind]; [|left; by eexists].
  destruct (memory_init_spec m0 p4 p3 p2 boot_info sections ars log g Hdistinct Hrange Hbss Himage Hboot Hareas Hwf Hlow
    _ _ _ _ _ _ Hmem) as (_ & Hsa & h1 & sa1 & s1 & n4 & Hs1 & Has).
  pose proof Has as [Hact _ [O Hinv] _ _ _ _ _ _].
  pose proof (interrupts_init_spec tss_addr gdt_addr mc1 (mkTables (ac_mm a) None None c0) n4 O 0x4007d 0x400e1
    Hinv Hsa ltac:(lia) ltac:(lia) demo_stack_pages eq_refl eq_refl Haddr) as Hspec.
  destruct (interrupts_init _ _ mc1 _) as [[mc2 t]|e]; cbn [obind];
    [|right; left; destruct Hspec as [[_ Hx]|Hx]; [lia|exact Hx]].
  destruct Hspec as (_ & Hsa2 & Hld). unfold device_init.
  destruct (pit_init_period n fuel (ac_log a) Hready Hf) as (e2 & lo & hi & -> & _). cbn [obind].
  destruct (ps2_init fuel fuel PS2 _) as [l2|e] eqn:Hp2; cbn [obind];
    [|right; right; left; by apply (ps2_init_err m n fuel fuel _ e Hps Hm Hready Hf Hp2)].
  destruct (pci_init _ _) as [p|e] eqn:Hpci; cbn [obind];
    [|right; right; right; by apply (pci_init_err n fuel _ e Hready Hf Hpci)].
  destruct (println_spec n fuel end_text (i_log (enable (mkIst (i_kernel (disable (mkIst k iolog))) (pci_log p)))) Hready Hf)
    as (e3 & Hend & [Ht _ _ _]). cbn [i_log enable] in Hend. cbn [i_log enable i_kernel]. rewrite Hend. cbn [obind].
  pose proof (address_space_loaded _ _ _ _ _ (ac_mm a) n4 (mkTables (ac_mm a) None None c0) t Hboot eq_refl Has Hld) as Hspace.
  split; cbn [y_acpi y_cpu y_tss y_screen y_video y_com1 y_ttys y_control y_kernel ac_mm ac_manager].
  - exact Hsa2.
  - exists h1, sa1, s1, n4. split; [exact Hs1|]. exact (proj1 Hspace).
  - rewrite (as_active _ _ _ _ _ _ _ _ (proj1 Hspace)). exact (proj2 Hspace).
  - apply Hld.
  - apply Hld.
  - exists (vlog v1). specialize (Hon Hac). by destruct v1.
  - exact Hsh1.
  - reflexivity.
  - reflexivity.
  - by apply lor_bit_set.
  - exists (outs 0x3f8 (pci_log p)). cbn [ac_log]. by rewrite outs_app, Ht.
  - by apply lor_bit_set.
  - apply set_if_bit.
Qed.

(** *** From the boot loader on *)

(** What [kmain] finds: the machine [start] left, with the statics in their initial
    state and nothing in the table of the interrupts. *)
Definition handover (s' : boot_cpu) (iolog : io_log) (k : kernel) (video : gmap (Z * Z) (Z * Z)) : system :=
  mkSystem (mkAcpi (mkMM (memory s') (r_cr3 s') log g) None iolog) None None
    (mkCpuTables (gdtr s') (cs s') None false) k (mkControl (r_efer s') (r_cr0 s')) COM1 SCREEN video None [] 0.

(** The whole start of the kernel; [load] is what [multiboot2::load] makes of the
    address in [ebx]. *)
Definition power_on `{Cpu} (load : Z -> BootInformation) (gdt64 : Z) (fuel : nat) (apic_base : Z) (has_apic : bool)
    (eax ebx : Z) (s : boot_cpu) (iolog : io_log) (k : kernel) (video : gmap (Z * Z) (Z * Z))
  : option (outcome (MemoryController * system)) :=
  match start p4 p3 p2 gdt64 eax ebx s with
  | Runs s' => Some (arch_init fuel apic_base has_apic (load (edi s')) (handover s' iolog k video))
  | _ => None
  end.

(** C8: The kernel from the boot loader on.  Entered in protected mode on a processor
    that has what [boot.asm] asks for, it gets to [kmain], and when [arch::init] returns
    the machine runs on fresh tables that map exactly the kernel's sections, the VGA
    buffer and the multiboot structure (with the rights of their flags), the heap (for
    all access), the BIOS area and the root ACPI table (for reading only), the APICs
    (for reading and writing) and the double fault stack, which cannot be written: every
    other page is unmapped.  GDT, TSS and IDT are loaded, the screen is blank, COM1 is
    initialised and there are six terminals; long mode, paging, no-execute and write
    protection are on, interrupts are enabled, and the last thing said is that one may
    type.  On a serial port and a PS/2 controller that become ready it fails where
    [memory::init] does, where the double fault stack cannot be mapped, a self test of
    the PS/2 controller fails or the size of a PCI register overflows, and nowhere
    else. *)
Theorem power_on_correct `{Cpu} load gdt64 fuel n m apic_base has_apic eax ebx s iolog k video :
  missing eax = None -> Z.testbit (r_cr0 s) 0 = true -> memory s = m0 -> load ebx = boot_info ->
  settles (port_new 8 (0x3f8 + 5)) is_transmit_empty n -> (n < fuel)%nat ->
  settles (controller PS2) output_empty m -> (m < fuel)%nat ->
  match power_on load gdt64 fuel apic_base has_apic eax ebx s iolog k video with
  | Some (Ok (mc, y)) =>
      (exists ctl, initialised ctl has_apic mc y) /\
      Z.testbit (efer (y_control y)) 8 = true /\ Z.testbit (efer (y_control y)) 11 = true /\
      Z.testbit (cr0 (y_control y)) 31 = true /\ Z.testbit (cr0 (y_control y)) 16 = true
  | Some (Err e) =>
      (exists l, memory_init false apic_base has_apic boot_info (mkAcpi s0 None l) = Err e) \/
      (e = oom_panic \/ e = huge_panic \/ e = frames_panic \/ e = unused_panic) \/
      (e = EPanic "PS/2 self test failed" \/ e = EPanic "Interface tests failed") \/ e = bar_overflow
  | None => False
  end.
Proof.
  intros Hmiss Hpe Hm Hload Hready Hf Hps Hfm. unfold power_on.
  pose proof (start_spec p4 p3 p2 gdt64 eax ebx s Hpe) as Hst. rewrite Hmiss in Hst.
  destruct Hst as (s' & -> & [Harg _ Hcr0 Hcr3 _ Hef _ _ Hmem _]). rewrite Harg, Hload. unfold handover.
  rewrite Hmem, Hcr3, Hm.
  pose proof (arch_init_spec fuel n m apic_base has_apic iolog (mkCpuTables (gdtr s') (cs s') None false) k
    (mkControl (r_efer s') (r_cr0 s')) blank_term SCREEN video Hready Hf Hps Hfm screen_shows eq_refl) as Ha.
  fold s0. destruct (arch_init _ _ _ _ _) as [[mc y]|e]; [|exact Ha].
  split; [by eexists|]. pose proof (in_nxe _ _ _ _ Ha) as Hnx. pose proof (in_protect _ _ _ _ Ha) as Hpr.
  rewrite !Hnx, !Hpr by lia. cbn [efer cr0]. rewrite Hef, Hcr0 by lia. repeat split; reflexivity.
Qed.

End Correct.
End Init.

(** ** A concrete machine *)

#[local] Existing Instances word_bits word_bits_ok long_mode_tables long_mode_tables_ok.

(** An empty PCI bus, and a PS/2 controller whose tests succeed. *)
Definition boot_hw : Hardware := fun l _ port =>
  if decide (port = 0xCFC) then 0xFFFFFFFF
  else if decide (port = 0x64) then 1
  else if decide (port = 0x3f8 + 5) then 0x20
  else if decide (port = 0x60) then (if decide (last_out 0x64 l = Some 0xAA) then 0x55 else 0)
  else default 0 (last_out port l).

Lemma boot_ready : @settles boot_hw (port_new 8 (0x3f8 + 5)) is_transmit_empty 0.
Proof. intros l. exists 0%nat. split; [lia|]. reflexivity. Qed.

Lemma boot_ps2_ready : @settles boot_hw (controller PS2) output_empty 0.
Proof. intros l. exists 0%nat. split; [lia|]. reflexivity. Qed.

Lemma empty_bus_ok s : is_ok (@pci_init boot_hw 1 s).
Proof.
  assert (Hscan : is_ok (ofold (@init_bus boot_hw) (seqZ 0 MAX_BUS) s)).
  { apply ofold_total. intros bus x _. apply ofold_total. intros dev x1 _. apply ofold_total. intros func x2 _.
    unfold init_func, probe, read_config, port_in, hw, boot_hw. rewrite decide_True by done.
    change (trunc 32 0xFFFFFFFF =? 0xFFFFFFFF) with true. eexists. reflexivity. }
  destruct Hscan as [s1 Hs1]. unfold pci_init. rewrite Hs1. cbn [obind].
  destruct (@println_spec boot_hw 0 1 (discovered (length (devices s1))) (pci_log s1) boot_ready (le_n 1)) as (evs & -> & _).
  cbn [obind]. apply ofold_total. intros d x _.
  destruct (@find_ahci_run boot_hw 0 1 boot_ready (le_n 1) d x) as (x' & Hx & _). exists x'. exact Hx.
Qed.

Definition demo_system : system :=
  mkSystem (mkAcpi acpi_boot None []) None None (mkCpuTables (Some (0x102000, 15)) 8 None false) (demo_kernel [1; 2])
    (mkControl 0x100 0x80000013) COM1 SCREEN ∅ None [] 0.

(** The run up to the PCI bus, as a boolean to compute. *)
Definition reaches_pci (o : outcome (SerialPort * TextBuffer * vga * ist * control * MemoryController *
  acpi_state (option AreaFrameAllocator) * tables)) : bool :=
  match o with
  | Ok (_, _, _, _, _, _, a, _) => ok_bool (obind (@pit_init boot_hw 1 (ac_log a)) (@ps2_init boot_hw 1 1 PS2))
  | Err _ => false
  end.

Lemma demo_reaches_pci : reaches_pci (@arch_init_tables _ _ boot_hw 0x150000 0x151000 1 0x900 true demo_boot demo_system) = true.
Proof. vm_compute. reflexivity. Qed.

(** On this machine [arch::init] then gets to its end. *)
Lemma arch_init_from_tables boot_info y :
  reaches_pci (@arch_init_tables _ _ boot_hw 0x150000 0x151000 1 0x900 true boot_info y) = true ->
  is_ok (@arch_init _ _ boot_hw 0x150000 0x151000 1 0x900 true boot_info y).
Proof.
  unfold arch_init, reaches_pci. destruct (arch_init_tables _ _ _ _ _ _ _) as [x|e]; [|discriminate].
  destruct x as [[[[[[[com1 screen] v] i] c] mc] a] t]. intros Hr.
  apply ok_bool_run in Hr as [l' Hp]. apply obind_Ok in Hp as (l & Hpit & Hp).
  destruct (empty_bus_ok (mkPci (y_devices y) (y_ahci y) l')) as [p Hb].
  apply (is_ok_bind (a := (tty_init, p))).
  { unfold device_init. by rewrite Hpit, obind_ok, Hp, obind_ok, Hb, obind_ok. }
  match goal with |- context [println 1 end_text ?l] =>
    destruct (@println_spec boot_hw 0 1 end_text l boot_ready (le_n 1)) as (evs & Hend & _) end.
  apply (is_ok_bind Hend). by eexists.
Qed.

Lemma demo_arch_init_ok : is_ok (@arch_init _ _ boot_hw 0x150000 0x151000 1 0x900 true demo_boot demo_system).
Proof. exact (arch_init_from_tables demo_boot demo_system demo_reaches_pci). Qed.

(** The boot loader's handover: the ACPI memory is what it leaves. *)
Definition demo_loaded : boot_cpu := with_memory acpi_mem loaded.

Lemma demo_start :
  @start modern_cpu_full 0x180 0x181 0x182 0x102000 0x36d76289 0x9500 demo_loaded =
  Runs (mkBootCpu 0x9500 2 0x80000013 0x180000 0x620 0x100 true (Some (0x102000, 15)) 8 (replicate 5 0)
    (set_up_page_tables acpi_mem 0x180 0x181 0x182) ∅).
Proof. match goal with |- ?a = ?b => exact (@eq_refl _ b <: a = b) end. Qed.

Lemma demo_handover :
  handover [] None (mkBootCpu 0x9500 2 0x80000013 0x180000 0x620 0x100 true (Some (0x102000, 15)) 8 (replicate 5 0)
    (set_up_page_tables acpi_mem 0x180 0x181 0x182) ∅) [] (demo_kernel [1; 2]) ∅ = demo_system.
Proof. unfold handover, demo_system, acpi_boot. cbn [memory r_cr3 gdtr cs r_efer r_cr0]. reflexivity. Qed.

Lemma power_on_correct_witness :
  exists mc y, @power_on _ _ boot_hw 0x150000 0x151000 0x180 0x181 0x182 [] None modern_cpu_full (fun _ => demo_boot)
      0x102000 1 0x900 true 0x36d76289 0x9500 demo_loaded [] (demo_kernel [1; 2]) ∅ = Some (Ok (mc, y)) /\
    sa_pages (mc_stacks mc) 0x4007f 0x400e1 /\
    y_cpu y = mkCpuTables (Some (0x151000, 63)) 8 (Some (0x150000, 103)) true /\ y_ttys y = tty_init.
Proof.
  destruct demo_arch_init_ok as [[mc y] E]. exists mc, y.
  assert (Hrun : @power_on _ _ boot_hw 0x150000 0x151000 0x180 0x181 0x182 [] None modern_cpu_full (fun _ => demo_boot)
    0x102000 1 0x900 true 0x36d76289 0x9500 demo_loaded [] (demo_kernel [1; 2]) ∅ = Some (Ok (mc, y))).
  { unfold power_on. rewrite demo_start, demo_handover. cbn [edi]. exact (f_equal Some E). }
  split; [exact Hrun|].
  assert (Hd : 0x180 <> 0x181 /\ 0x180 <> 0x182 /\ 0x181 <> 0x182) by lia.
  assert (Hr : 0 <= 0x180 < 2 ^ 18 /\ 0 <= 0x181 < 2 ^ 18 /\ 0 <= 0x182 < 2 ^ 18) by lia.
  assert (Hw : in_width 64 0x150000) by (unfold in_width; lia).
  assert (Hmiss : @missing modern_cpu_full 0x36d76289 = None) by reflexivity.
  assert (Hmem : memory demo_loaded = acpi_mem) by (unfold demo_loaded, with_memory; reflexivity).
  pose proof (@power_on_correct _ _ boot_hw 0x150000 0x151000 _ _ acpi_mem 0x180 0x181 0x182 demo_boot demo_sections _ [] None
    Hd Hr acpi_bss demo_image demo_boot_low eq_refl demo_areas acpi_low Hw modern_cpu_full (fun _ => demo_boot) 0x102000
    1 0 0 0x900 true 0x36d76289 0x9500 demo_loaded [] (demo_kernel [1; 2]) ∅ Hmiss eq_refl Hmem eq_refl
    boot_ready (le_n 1) boot_ps2_ready (le_n 1)) as H.
  rewrite Hrun in H. destruct H as [[ctl [Hsa _ _ Hc _ _ _ _ Ht _ _ _ _]] _].
  split; [exact Hsa|]. split; [exact Hc|exact Ht].
Defined.
